(** * DiskArchive: the bridge between DiskImg and GenericArchive

    A shallow embedding of the parts of [app/DiskArchive.cpp] that decide how
    the catalog is loaded, how host files are paired and loaded for an add,
    how forks are written through the filesystem driver, and in what order a
    selection is deleted.

    Conventions.  A C [long] or [int] is a [Z]; a byte read by [getc] is a [Z]
    in [-1 .. 255] ([-1] is [EOF]); a buffer is a [list Z]; a [CString], a
    [WCHAR*] and a [char*] are a [string] (a pointer that may be [NULL] is an
    [option]).  A linked list threaded through [GetNext()] is a [list]. *)

From Stdlib Require Import ZArith List String Ascii Bool Lia Permutation Sorted.
From Stdlib Require Import DecimalString.
Import ListNotations.
Open Scope string_scope.
Open Scope list_scope.
Open Scope Z_scope.

Set Implicit Arguments.
Set Warnings "-register-all".

(** ** Types declared in headers of the application *)

(** [FileDetails::FileKind], the enumerators this file mentions. *)
Inductive FileKind : Type :=
| kFileKindUnknown
| kFileKindDataFork
| kFileKindRsrcFork
| kFileKindDiskImage
| kFileKindBothForks
| kFileKindDirectory.

Definition FileKind_eqb (a b : FileKind) : bool :=
  match a, b with
  | kFileKindUnknown, kFileKindUnknown
  | kFileKindDataFork, kFileKindDataFork
  | kFileKindRsrcFork, kFileKindRsrcFork
  | kFileKindDiskImage, kFileKindDiskImage
  | kFileKindBothForks, kFileKindBothForks
  | kFileKindDirectory, kFileKindDirectory => true
  | _, _ => false
  end.

(** [NuStorageType]: the ProDOS storage types this file mentions. *)
Inductive NuStorageType : Type :=
| kNuStorageUnknown
| kNuStorageSeedling
| kNuStorageExtended
| kNuStorageDirectory.

Definition NuStorageType_eqb (a b : NuStorageType) : bool :=
  match a, b with
  | kNuStorageUnknown, kNuStorageUnknown
  | kNuStorageSeedling, kNuStorageSeedling
  | kNuStorageExtended, kNuStorageExtended
  | kNuStorageDirectory, kNuStorageDirectory => true
  | _, _ => false
  end.

(** [DiskImg::FSFormat], the enumerators this file mentions. *)
Inductive FSFormat : Type :=
| kFormatUnknown
| kFormatDOS33
| kFormatDOS32
| kFormatUNIDOS
| kFormatGutenberg
| kFormatProDOS
| kFormatPascal
| kFormatCPM
| kFormatMSDOS
| kFormatRDOS33
| kFormatRDOS32
| kFormatRDOS3
| kFormatMacHFS.

(** [FileDetails]: what is known about one host file selected for an add, or
    about one record handed over by a transfer. *)
Record FileDetails : Type := mkFileDetails {
  entryKind : FileKind;
  origName : string;
  storageName : string;
  fileSysFmt : FSFormat;
  fileSysInfo : Z;
  fd_access : Z;
  fd_fileType : Z;
  extraType : Z;
  fd_storageType : NuStorageType;
  fd_createWhen : Z;
  fd_modWhen : Z
}.

(** ** The pending-add list *)

(** [FileAddData]: one node of the list.  [GetNext()] is the position in the
    [list] that models [fpAddDataHead .. fpAddDataTail]; [GetOtherFork()] is
    the separately owned node of the other fork, [None] for [NULL]. *)
Inductive FileAddData : Type :=
  mkFileAddData {
    GetDetails : FileDetails;
    GetFSNormalPath : string;
    GetOtherFork : option FileAddData
  }.

Definition SetOtherFork (pSearch pData : FileAddData) : FileAddData :=
  mkFileAddData (GetDetails pSearch) (GetFSNormalPath pSearch) (Some pData).

Definition isDataOrRsrc (k : FileKind) : bool :=
  FileKind_eqb k kFileKindDataFork || FileKind_eqb k kFileKindRsrcFork.

(** The test of the [while] loop's body: [pSearch] has no other fork, the
    storage names are equal ([wcscmp(...) == 0]), and the two kinds are
    different and each is a data or a resource fork. *)
Definition connects (pSearch pData : FileAddData) : bool :=
  match GetOtherFork pSearch with
  | None =>
      String.eqb (storageName (GetDetails pSearch)) (storageName (GetDetails pData))
      && (let dataKind := entryKind (GetDetails pData) in
          let listKind := entryKind (GetDetails pSearch) in
          negb (FileKind_eqb dataKind listKind)
          && isDataOrRsrc dataKind && isDataOrRsrc listKind)
  | Some _ => false
  end.

(** The [while (pSearch != NULL)] loop: [Some l'] when a node took [pData]
    as its other fork (the [return] inside the loop), [None] when the search
    ran off the end of the list. *)
Fixpoint hookOtherFork (pData : FileAddData) (pSearch : list FileAddData)
  : option (list FileAddData) :=
  match pSearch with
  | [] => None
  | n :: rest =>
      if connects n pData then Some (SetOtherFork n pData :: rest)
      else match hookOtherFork pData rest with
           | Some rest' => Some (n :: rest')
           | None => None
           end
  end.

(** [DiskArchive::AddToAddDataList]. *)
Definition AddToAddDataList (pData : FileAddData) (fpAddDataHead : list FileAddData)
  : list FileAddData :=
  match hookOtherFork pData fpAddDataHead with
  | Some l => l
  | None => fpAddDataHead ++ [pData]
  end.

(** Two kinds are complementary when one is the data fork and the other the
    resource fork. *)
Definition complementary (k1 k2 : FileKind) : Prop :=
  (k1 = kFileKindDataFork /\ k2 = kFileKindRsrcFork)
  \/ (k1 = kFileKindRsrcFork /\ k2 = kFileKindDataFork).


(** A candidate as [new FileAddData(pDetails, fsNormalBuf)] makes it, from
    a storage name and a kind (the other fields do not matter to the list). *)
Definition candidate (name : string) (kind : FileKind) : FileAddData :=
  mkFileAddData
    (mkFileDetails kind name name kFormatUnknown 58 0 0 0 kNuStorageUnknown 0 0)
    name None.




(** ** The catalog: what the filesystem driver reports *)

(** [A2File::Quality], declared in the disk image library. *)
Inductive Quality : Type :=
| kQualityGood
| kQualitySuspicious
| kQualityDamaged.

Definition Quality_eqb (a b : Quality) : bool :=
  match a, b with
  | kQualityGood, kQualityGood
  | kQualitySuspicious, kQualitySuspicious
  | kQualityDamaged, kQualityDamaged => true
  | _, _ => false
  end.

(** [A2File]: one file as the driver reports it, through its accessors. *)
Record A2File : Type := mkA2File {
  GetPathName : string;
  GetFSFormat : FSFormat;
  GetFssep : Z;
  GetFileType : Z;
  GetAuxType : Z;
  GetAccess : Z;
  GetCreateWhen : Z;
  GetModWhen : Z;
  IsVolumeDirectory : bool;
  IsDirectory : bool;
  GetDataLength : Z;
  GetRsrcLength : Z;
  GetDataSparseLength : Z;
  GetRsrcSparseLength : Z;
  GetQuality : Quality
}.

(** [DiskFS] as the loader walks it: [GetNextFile] runs through [fsFiles],
    [GetNextSubVolume] through [fsSubVolumes] (each [pSubVol->GetDiskFS()]),
    and [GetVolumeName()] may be [NULL]. *)
Inductive DiskFS : Type :=
  mkDiskFS {
    GetVolumeName : option string;
    fsFiles : list A2File;
    fsSubVolumes : list DiskFS
  }.

(** [GenericEntry::RecordKind], the enumerators this file mentions. *)
Inductive RecordKind : Type :=
| kRecordKindFile
| kRecordKindForkedFile
| kRecordKindDirectory
| kRecordKindVolumeDir.

(** [DiskEntry] (a [GenericEntry]): the fields the loader sets. *)
Record DiskEntry : Type := mkDiskEntry {
  GetA2File : option A2File;
  GetEntryPathName : string;
  GetSubVolName : option string;
  GetEntryFssep : Z;
  GetEntryFileType : Z;
  GetEntryAuxType : Z;
  GetEntryAccess : Z;
  GetEntryCreateWhen : Z;
  GetEntryModWhen : Z;
  GetSourceFS : FSFormat;
  GetHasDataFork : bool;
  GetHasRsrcFork : bool;
  GetRecordKind : RecordKind;
  GetDataForkLen : Z;
  GetRsrcForkLen : Z;
  GetCompressedLen : Z;
  GetFormatStr : string;
  GetDamaged : bool;
  GetSuspicious : bool
}.

Definition SetA2File (v : option A2File) (e : DiskEntry) : DiskEntry :=
  mkDiskEntry v (GetEntryPathName e) (GetSubVolName e) (GetEntryFssep e)
    (GetEntryFileType e) (GetEntryAuxType e) (GetEntryAccess e) (GetEntryCreateWhen e)
    (GetEntryModWhen e) (GetSourceFS e) (GetHasDataFork e) (GetHasRsrcFork e)
    (GetRecordKind e) (GetDataForkLen e) (GetRsrcForkLen e) (GetCompressedLen e)
    (GetFormatStr e) (GetDamaged e) (GetSuspicious e).
Definition SetPathName (v : string) (e : DiskEntry) : DiskEntry :=
  mkDiskEntry (GetA2File e) v (GetSubVolName e) (GetEntryFssep e)
    (GetEntryFileType e) (GetEntryAuxType e) (GetEntryAccess e) (GetEntryCreateWhen e)
    (GetEntryModWhen e) (GetSourceFS e) (GetHasDataFork e) (GetHasRsrcFork e)
    (GetRecordKind e) (GetDataForkLen e) (GetRsrcForkLen e) (GetCompressedLen e)
    (GetFormatStr e) (GetDamaged e) (GetSuspicious e).
Definition SetSubVolName (v : string) (e : DiskEntry) : DiskEntry :=
  mkDiskEntry (GetA2File e) (GetEntryPathName e) (Some v) (GetEntryFssep e)
    (GetEntryFileType e) (GetEntryAuxType e) (GetEntryAccess e) (GetEntryCreateWhen e)
    (GetEntryModWhen e) (GetSourceFS e) (GetHasDataFork e) (GetHasRsrcFork e)
    (GetRecordKind e) (GetDataForkLen e) (GetRsrcForkLen e) (GetCompressedLen e)
    (GetFormatStr e) (GetDamaged e) (GetSuspicious e).
Definition SetFssep (v : Z) (e : DiskEntry) : DiskEntry :=
  mkDiskEntry (GetA2File e) (GetEntryPathName e) (GetSubVolName e) v
    (GetEntryFileType e) (GetEntryAuxType e) (GetEntryAccess e) (GetEntryCreateWhen e)
    (GetEntryModWhen e) (GetSourceFS e) (GetHasDataFork e) (GetHasRsrcFork e)
    (GetRecordKind e) (GetDataForkLen e) (GetRsrcForkLen e) (GetCompressedLen e)
    (GetFormatStr e) (GetDamaged e) (GetSuspicious e).
Definition SetFileType (v : Z) (e : DiskEntry) : DiskEntry :=
  mkDiskEntry (GetA2File e) (GetEntryPathName e) (GetSubVolName e) (GetEntryFssep e)
    v (GetEntryAuxType e) (GetEntryAccess e) (GetEntryCreateWhen e)
    (GetEntryModWhen e) (GetSourceFS e) (GetHasDataFork e) (GetHasRsrcFork e)
    (GetRecordKind e) (GetDataForkLen e) (GetRsrcForkLen e) (GetCompressedLen e)
    (GetFormatStr e) (GetDamaged e) (GetSuspicious e).
Definition SetAuxType (v : Z) (e : DiskEntry) : DiskEntry :=
  mkDiskEntry (GetA2File e) (GetEntryPathName e) (GetSubVolName e) (GetEntryFssep e)
    (GetEntryFileType e) v (GetEntryAccess e) (GetEntryCreateWhen e)
    (GetEntryModWhen e) (GetSourceFS e) (GetHasDataFork e) (GetHasRsrcFork e)
    (GetRecordKind e) (GetDataForkLen e) (GetRsrcForkLen e) (GetCompressedLen e)
    (GetFormatStr e) (GetDamaged e) (GetSuspicious e).
Definition SetAccess (v : Z) (e : DiskEntry) : DiskEntry :=
  mkDiskEntry (GetA2File e) (GetEntryPathName e) (GetSubVolName e) (GetEntryFssep e)
    (GetEntryFileType e) (GetEntryAuxType e) v (GetEntryCreateWhen e)
    (GetEntryModWhen e) (GetSourceFS e) (GetHasDataFork e) (GetHasRsrcFork e)
    (GetRecordKind e) (GetDataForkLen e) (GetRsrcForkLen e) (GetCompressedLen e)
    (GetFormatStr e) (GetDamaged e) (GetSuspicious e).
Definition SetCreateWhen (v : Z) (e : DiskEntry) : DiskEntry :=
  mkDiskEntry (GetA2File e) (GetEntryPathName e) (GetSubVolName e) (GetEntryFssep e)
    (GetEntryFileType e) (GetEntryAuxType e) (GetEntryAccess e) v
    (GetEntryModWhen e) (GetSourceFS e) (GetHasDataFork e) (GetHasRsrcFork e)
    (GetRecordKind e) (GetDataForkLen e) (GetRsrcForkLen e) (GetCompressedLen e)
    (GetFormatStr e) (GetDamaged e) (GetSuspicious e).
Definition SetModWhen (v : Z) (e : DiskEntry) : DiskEntry :=
  mkDiskEntry (GetA2File e) (GetEntryPathName e) (GetSubVolName e) (GetEntryFssep e)
    (GetEntryFileType e) (GetEntryAuxType e) (GetEntryAccess e) (GetEntryCreateWhen e)
    v (GetSourceFS e) (GetHasDataFork e) (GetHasRsrcFork e)
    (GetRecordKind e) (GetDataForkLen e) (GetRsrcForkLen e) (GetCompressedLen e)
    (GetFormatStr e) (GetDamaged e) (GetSuspicious e).
Definition SetSourceFS (v : FSFormat) (e : DiskEntry) : DiskEntry :=
  mkDiskEntry (GetA2File e) (GetEntryPathName e) (GetSubVolName e) (GetEntryFssep e)
    (GetEntryFileType e) (GetEntryAuxType e) (GetEntryAccess e) (GetEntryCreateWhen e)
    (GetEntryModWhen e) v (GetHasDataFork e) (GetHasRsrcFork e)
    (GetRecordKind e) (GetDataForkLen e) (GetRsrcForkLen e) (GetCompressedLen e)
    (GetFormatStr e) (GetDamaged e) (GetSuspicious e).
Definition SetHasDataFork (v : bool) (e : DiskEntry) : DiskEntry :=
  mkDiskEntry (GetA2File e) (GetEntryPathName e) (GetSubVolName e) (GetEntryFssep e)
    (GetEntryFileType e) (GetEntryAuxType e) (GetEntryAccess e) (GetEntryCreateWhen e)
    (GetEntryModWhen e) (GetSourceFS e) v (GetHasRsrcFork e)
    (GetRecordKind e) (GetDataForkLen e) (GetRsrcForkLen e) (GetCompressedLen e)
    (GetFormatStr e) (GetDamaged e) (GetSuspicious e).
Definition SetHasRsrcFork (v : bool) (e : DiskEntry) : DiskEntry :=
  mkDiskEntry (GetA2File e) (GetEntryPathName e) (GetSubVolName e) (GetEntryFssep e)
    (GetEntryFileType e) (GetEntryAuxType e) (GetEntryAccess e) (GetEntryCreateWhen e)
    (GetEntryModWhen e) (GetSourceFS e) (GetHasDataFork e) v
    (GetRecordKind e) (GetDataForkLen e) (GetRsrcForkLen e) (GetCompressedLen e)
    (GetFormatStr e) (GetDamaged e) (GetSuspicious e).
Definition SetRecordKind (v : RecordKind) (e : DiskEntry) : DiskEntry :=
  mkDiskEntry (GetA2File e) (GetEntryPathName e) (GetSubVolName e) (GetEntryFssep e)
    (GetEntryFileType e) (GetEntryAuxType e) (GetEntryAccess e) (GetEntryCreateWhen e)
    (GetEntryModWhen e) (GetSourceFS e) (GetHasDataFork e) (GetHasRsrcFork e)
    v (GetDataForkLen e) (GetRsrcForkLen e) (GetCompressedLen e)
    (GetFormatStr e) (GetDamaged e) (GetSuspicious e).
Definition SetDataForkLen (v : Z) (e : DiskEntry) : DiskEntry :=
  mkDiskEntry (GetA2File e) (GetEntryPathName e) (GetSubVolName e) (GetEntryFssep e)
    (GetEntryFileType e) (GetEntryAuxType e) (GetEntryAccess e) (GetEntryCreateWhen e)
    (GetEntryModWhen e) (GetSourceFS e) (GetHasDataFork e) (GetHasRsrcFork e)
    (GetRecordKind e) v (GetRsrcForkLen e) (GetCompressedLen e)
    (GetFormatStr e) (GetDamaged e) (GetSuspicious e).
Definition SetRsrcForkLen (v : Z) (e : DiskEntry) : DiskEntry :=
  mkDiskEntry (GetA2File e) (GetEntryPathName e) (GetSubVolName e) (GetEntryFssep e)
    (GetEntryFileType e) (GetEntryAuxType e) (GetEntryAccess e) (GetEntryCreateWhen e)
    (GetEntryModWhen e) (GetSourceFS e) (GetHasDataFork e) (GetHasRsrcFork e)
    (GetRecordKind e) (GetDataForkLen e) v (GetCompressedLen e)
    (GetFormatStr e) (GetDamaged e) (GetSuspicious e).
Definition SetCompressedLen (v : Z) (e : DiskEntry) : DiskEntry :=
  mkDiskEntry (GetA2File e) (GetEntryPathName e) (GetSubVolName e) (GetEntryFssep e)
    (GetEntryFileType e) (GetEntryAuxType e) (GetEntryAccess e) (GetEntryCreateWhen e)
    (GetEntryModWhen e) (GetSourceFS e) (GetHasDataFork e) (GetHasRsrcFork e)
    (GetRecordKind e) (GetDataForkLen e) (GetRsrcForkLen e) v
    (GetFormatStr e) (GetDamaged e) (GetSuspicious e).
Definition SetFormatStr (v : string) (e : DiskEntry) : DiskEntry :=
  mkDiskEntry (GetA2File e) (GetEntryPathName e) (GetSubVolName e) (GetEntryFssep e)
    (GetEntryFileType e) (GetEntryAuxType e) (GetEntryAccess e) (GetEntryCreateWhen e)
    (GetEntryModWhen e) (GetSourceFS e) (GetHasDataFork e) (GetHasRsrcFork e)
    (GetRecordKind e) (GetDataForkLen e) (GetRsrcForkLen e) (GetCompressedLen e)
    v (GetDamaged e) (GetSuspicious e).
Definition SetDamaged (v : bool) (e : DiskEntry) : DiskEntry :=
  mkDiskEntry (GetA2File e) (GetEntryPathName e) (GetSubVolName e) (GetEntryFssep e)
    (GetEntryFileType e) (GetEntryAuxType e) (GetEntryAccess e) (GetEntryCreateWhen e)
    (GetEntryModWhen e) (GetSourceFS e) (GetHasDataFork e) (GetHasRsrcFork e)
    (GetRecordKind e) (GetDataForkLen e) (GetRsrcForkLen e) (GetCompressedLen e)
    (GetFormatStr e) v (GetSuspicious e).
Definition SetSuspicious (v : bool) (e : DiskEntry) : DiskEntry :=
  mkDiskEntry (GetA2File e) (GetEntryPathName e) (GetSubVolName e) (GetEntryFssep e)
    (GetEntryFileType e) (GetEntryAuxType e) (GetEntryAccess e) (GetEntryCreateWhen e)
    (GetEntryModWhen e) (GetSourceFS e) (GetHasDataFork e) (GetHasRsrcFork e)
    (GetRecordKind e) (GetDataForkLen e) (GetRsrcForkLen e) (GetCompressedLen e)
    (GetFormatStr e) (GetDamaged e) v.

(** ** [DiskArchive::LoadDiskFSContents] *)

(** [CString::IsEmpty], and [s[0] == '\0'] on a C string. *)
Definition IsEmpty (s : string) : bool :=
  match s with
  | EmptyString => true
  | String _ _ => false
  end.

Definition kBlankFileName : string := "<blank filename>".

(** The name of a sub-volume as the loader uses it: the driver's volume name,
    or ["+++"] when the driver has none. *)
Definition subVolName (pSubVol : DiskFS) : string :=
  match GetVolumeName pSubVol with
  | None => "+++"
  | Some s => s
  end.

(** [concatSubVolName.Format(L"_%hs", subVolName)] when [volName] is empty,
    [concatSubVolName.Format(L"%ls_%hs", volName, subVolName)] otherwise. *)
Definition concatSubVolName (volName : string) (pSubVol : DiskFS) : string :=
  if IsEmpty volName then ("_" ++ subVolName pSubVol)%string
  else (volName ++ "_" ++ subVolName pSubVol)%string.

Section Loader.

(** Declared outside this file: the "no date" value, the preference
    [kPrCoerceDOSFilenames], [InjectLowercase], the driver's format table
    and what [new DiskEntry(pFile)] leaves in a fresh entry. *)
Variable kDateNone : Z.
Variable wantCoerceDOSFilenames : bool.
Variable InjectLowercase : string -> string.
Variable UsesDOSFileStructure : FSFormat -> bool.
Variable newDiskEntry : A2File -> DiskEntry.

(** The body of the [while (pFile != NULL)] loop, up to [AddEntry]. *)
Definition loadEntry (volName : string) (pFile : A2File) : DiskEntry :=
  let pNewEntry := newDiskEntry pFile in
  let path := GetPathName pFile in
  let path := if IsEmpty path then kBlankFileName else path in
  let path :=
    if UsesDOSFileStructure (GetFSFormat pFile) && wantCoerceDOSFilenames
    then InjectLowercase path else path in
  let pNewEntry := SetPathName path pNewEntry in
  let pNewEntry :=
    if negb (IsEmpty volName) then SetSubVolName volName pNewEntry else pNewEntry in
  let pNewEntry := SetFssep (GetFssep pFile) pNewEntry in
  let pNewEntry := SetFileType (GetFileType pFile) pNewEntry in
  let pNewEntry := SetAuxType (GetAuxType pFile) pNewEntry in
  let pNewEntry := SetAccess (GetAccess pFile) pNewEntry in
  let pNewEntry :=
    if GetCreateWhen pFile =? 0 then SetCreateWhen kDateNone pNewEntry
    else SetCreateWhen (GetCreateWhen pFile) pNewEntry in
  let pNewEntry :=
    if GetModWhen pFile =? 0 then SetModWhen kDateNone pNewEntry
    else SetModWhen (GetModWhen pFile) pNewEntry in
  let pNewEntry := SetSourceFS (GetFSFormat pFile) pNewEntry in
  let pNewEntry := SetHasDataFork true pNewEntry in
  let pNewEntry :=
    if IsVolumeDirectory pFile then
      (* volume directory entry; only on ProDOS/HFS *)
      let e := SetRecordKind kRecordKindVolumeDir pNewEntry in
      let e := SetDataForkLen (GetDataLength pFile) e in
      SetCompressedLen (GetDataLength pFile) e
    else if IsDirectory pFile then
      (* directory entry *)
      let e := SetRecordKind kRecordKindDirectory pNewEntry in
      let e := SetDataForkLen (GetDataLength pFile) e in
      SetCompressedLen (GetDataLength pFile) e
    else if 0 <=? GetRsrcLength pFile then
      (* has resource fork *)
      let e := SetRecordKind kRecordKindForkedFile pNewEntry in
      let e := SetDataForkLen (GetDataLength pFile) e in
      let e := SetRsrcForkLen (GetRsrcLength pFile) e in
      let e := SetCompressedLen
                 (GetDataSparseLength pFile + GetRsrcSparseLength pFile) e in
      SetHasRsrcFork true e
    else
      (* just data fork *)
      let e := SetRecordKind kRecordKindFile pNewEntry in
      let e := SetDataForkLen (GetDataLength pFile) e in
      SetCompressedLen (GetDataSparseLength pFile) e in
  let pNewEntry :=
    match GetSourceFS pNewEntry with
    | kFormatDOS33 | kFormatDOS32 | kFormatUNIDOS | kFormatGutenberg =>
        SetFormatStr "DOS" pNewEntry
    | kFormatProDOS => SetFormatStr "ProDOS" pNewEntry
    | kFormatPascal => SetFormatStr "Pascal" pNewEntry
    | kFormatCPM => SetFormatStr "CP/M" pNewEntry
    | kFormatMSDOS => SetFormatStr "MS-DOS" pNewEntry
    | kFormatRDOS33 | kFormatRDOS32 | kFormatRDOS3 => SetFormatStr "RDOS" pNewEntry
    | kFormatMacHFS => SetFormatStr "HFS" pNewEntry
    | _ => SetFormatStr "???" pNewEntry
    end in
  let pNewEntry :=
    SetDamaged (Quality_eqb (GetQuality pFile) kQualityDamaged) pNewEntry in
  SetSuspicious (Quality_eqb (GetQuality pFile) kQualitySuspicious) pNewEntry.

(** [LoadDiskFSContents]: the entries it adds with [AddEntry], in order.
    The first loop runs over the files of this level, the second over the
    sub-volumes, each loaded under its [concatSubVolName].  (The function
    returns non-zero only when [new] yields [NULL].) *)
Fixpoint LoadDiskFSContents (pDiskFS : DiskFS) (volName : string) {struct pDiskFS}
  : list DiskEntry :=
  match pDiskFS with
  | mkDiskFS _ files subVolumes =>
      map (loadEntry volName) files
      ++ (fix loadSubVolumes (l : list DiskFS) : list DiskEntry :=
            match l with
            | [] => []
            | pSubVol :: rest =>
                LoadDiskFSContents pSubVol (concatSubVolName volName pSubVol)
                ++ loadSubVolumes rest
            end) subVolumes
  end.

(** [DiskArchive::LoadContents]: [LoadDiskFSContents] on [fpPrimaryDiskFS] with
    the empty string for [volName]. *)
Definition LoadContents (fpPrimaryDiskFS : DiskFS) : list DiskEntry :=
  LoadDiskFSContents fpPrimaryDiskFS EmptyString.

End Loader.

(** The [volName] under which [LoadDiskFSContents pDiskFS volName] loads the
    volume found by following the sub-volume indices [path] down from
    [pDiskFS]: the qualifier of that sub-volume. *)
Fixpoint qualifierAt (pDiskFS : DiskFS) (volName : string) (path : list nat)
  : option string :=
  match path with
  | [] => Some volName
  | i :: path' =>
      match nth_error (fsSubVolumes pDiskFS) i with
      | Some pSubVol => qualifierAt pSubVol (concatSubVolName volName pSubVol) path'
      | None => None
      end
  end.

(** The volume found by following [path] down from [pDiskFS]. *)
Fixpoint subVolumeAt (pDiskFS : DiskFS) (path : list nat) : option DiskFS :=
  match path with
  | [] => Some pDiskFS
  | i :: path' =>
      match nth_error (fsSubVolumes pDiskFS) i with
      | Some pSubVol => subVolumeAt pSubVol path'
      | None => None
      end
  end.

(** Every file of a volume and of the volumes nested in it. *)
Fixpoint allFiles (pDiskFS : DiskFS) : list A2File :=
  match pDiskFS with
  | mkDiskFS _ files subVolumes =>
      files
      ++ (fix inSubVolumes (l : list DiskFS) : list A2File :=
            match l with
            | [] => []
            | pSubVol :: rest => allFiles pSubVol ++ inSubVolumes rest
            end) subVolumes
  end.

(** Modelled from the spec: the resource-fork length that an entry holds
    when no resource fork has been recorded for it.  [new DiskEntry(pFile)]
    runs a constructor that [DiskArchive.cpp] does not define; the spec's
    Entry has the field [resourceForkLength] with "-1 = fork absent, >= 0 =
    present, 0 = present-but-empty". *)
Definition freshRsrcForkLen : Z := -1.

(** Examples: a fresh entry, a format table, and a volume with a volume
    directory, a directory, a forked file and a plain file. *)
Definition exampleNewDiskEntry (pFile : A2File) : DiskEntry :=
  mkDiskEntry (Some pFile) EmptyString None 0 0 0 0 0 0 kFormatUnknown false false
    kRecordKindFile 0 freshRsrcForkLen 0 "Unknown" false false.

Definition exampleUsesDOS (format : FSFormat) : bool :=
  match format with
  | kFormatDOS33 | kFormatDOS32 | kFormatUNIDOS | kFormatGutenberg => true
  | _ => false
  end.

Definition exampleFile (name : string) (volDir dir : bool) (dataLen rsrcLen : Z) : A2File :=
  mkA2File name kFormatProDOS 58 0 0 0xc3 0 0 volDir dir dataLen rsrcLen dataLen
    (if rsrcLen <? 0 then 0 else rsrcLen) kQualityGood.

Definition exampleVolume : DiskFS :=
  mkDiskFS (Some "WORK")
    [ exampleFile "WORK" true false 512 (-1);
      exampleFile "DOCS" false true 512 (-1);
      exampleFile "DOCS:ICON" false false 10 20;
      exampleFile "DOCS:README" false false 10 (-1) ]
    [].

(** Two sibling sub-volumes that report the same volume name. *)
Definition twoSubVolumes : DiskFS :=
  mkDiskFS (Some "HOST")
    []
    [ mkDiskFS (Some "X") [exampleFile "ONE" false false 1 (-1)] [];
      mkDiskFS (Some "X") [exampleFile "TWO" false false 2 (-1)] [] ].

(** ** Host files and [DiskArchive::LoadFile] *)

(** [GenericEntry::ConvertEOL], [GenericEntry::ConvertHighASCII] and
    [GenericEntry::EOLType]. *)
Inductive ConvertEOL : Type :=
| kConvertEOLOn
| kConvertEOLOff
| kConvertEOLAuto.

Inductive ConvertHighASCII : Type :=
| kConvertHAOn
| kConvertHAOff.

Inductive EOLType : Type :=
| kEOLUnknown
| kEOLCR
| kEOLLF
| kEOLCRLF.

(** A host file as the C library shows it to [LoadFile]: whether [_wfopen]
    and [fseek] succeed, what [ftell] answers at the end of the file, whether
    [new BYTE[fileLen]] yields a buffer, the bytes read from offset 0, and
    the text of [strerror(errno)] after a failure. *)
Record HostFile : Type := mkHostFile {
  hf_opens : bool;
  hf_seeks : bool;
  hf_tell : Z;
  hf_alloc : bool;
  hf_bytes : list Z;
  hf_strerror : string
}.

(** [fread(buf, n, 1, fp) == 1] from offset 0: the one item of [n] bytes is
    read only when the file holds that many. *)
Definition fread (n : Z) (fp : list Z) : option (list Z) :=
  if n <=? Z.of_nat (List.length fp) then Some (firstn (Z.to_nat n) fp) else None.

(** [getc(fp)]: the next byte and the rest of the stream; [EOF] is [-1]. *)
Definition getc (fp : list Z) : Z * list Z :=
  match fp with
  | [] => (-1, [])
  | c :: rest => (c, rest)
  end.

Definition kCharLF : Z := 10.
Definition kCharCR : Z := 13.

(** The cast [(unsigned char) v]. *)
Definition uchar (v : Z) : Z := v mod 256.

(** The loop [while (count--)] of [LoadFile]: the bytes stored through
    [*buf++], in order. *)
Fixpoint convertLoop (count : nat) (fp : list Z) (mask : Z) (lastCR : bool) : list Z :=
  match count with
  | O => []
  | S count' =>
      let (ic, fp') := getc fp in
      if ic =? kCharCR then
        uchar (Z.lor kCharCR mask) :: convertLoop count' fp' mask true
      else if ic =? kCharLF then
        if negb lastCR then uchar (Z.lor kCharCR mask) :: convertLoop count' fp' mask false
        else convertLoop count' fp' mask false
      else
        (if ic =? 0 then uchar ic            (* don't conv 0x00 *)
         else uchar (Z.lor ic mask))
        :: convertLoop count' fp' mask false
  end.

(** The result of [LoadFile]: the error message, or [*pBuf] and [*pLen]. *)
Inductive LoadResult : Type :=
| LoadFailed (errMsg : string)
| Loaded (pBuf : option (list Z)) (pLen : Z).

Definition ConvertEOL_eqb (a b : ConvertEOL) : bool :=
  match a, b with
  | kConvertEOLOn, kConvertEOLOn
  | kConvertEOLOff, kConvertEOLOff
  | kConvertEOLAuto, kConvertEOLAuto => true
  | _, _ => false
  end.

Definition EOLType_eqb (a b : EOLType) : bool :=
  match a, b with
  | kEOLUnknown, kEOLUnknown
  | kEOLCR, kEOLCR
  | kEOLLF, kEOLLF
  | kEOLCRLF, kEOLCRLF => true
  | _, _ => false
  end.

(** [%ld]. *)
Definition decimal (n : Z) : string := NilZero.string_of_int (Z.to_int n).

Definition kTooLargeMsg : string :=
  "Cannot add files larger than 16MB to a disk image.".

Section LoadFile.

(** The host file system, by path, and [GenericEntry::DetermineConversion]
    (defined in another file): given the first chunk and its length it
    answers a conversion and the line ending it found. *)
Variable host : string -> HostFile.
Variable DetermineConversion : list Z -> Z -> ConvertEOL * EOLType.

Definition LoadFile (pathName : string) (conv : ConvertEOL) (convHA : ConvertHighASCII)
  : LoadResult :=
  let f := host pathName in
  if negb (hf_opens f) then
    LoadFailed ("Unable to open '" ++ pathName ++ "': " ++ hf_strerror f ++ ".")%string
  else if negb (hf_seeks f) then
    LoadFailed ("Unable to seek to end of '" ++ pathName ++ "': " ++ hf_strerror f)%string
  else
    let fileLen := hf_tell f in
    if fileLen <? 0 then
      LoadFailed ("Unable to determine length of '" ++ pathName ++ "': "
                  ++ hf_strerror f)%string
    else if fileLen =? 0 then
      Loaded None 0                 (* handle zero-length files *)
    else if fileLen >? 0x00ffffff then
      LoadFailed kTooLargeMsg
    else if negb (hf_alloc f) then
      LoadFailed ("Unable to allocate " ++ decimal fileLen ++ " bytes for '"
                  ++ pathName ++ "'.")%string
    else
      let conv' : string + ConvertEOL :=
        if ConvertEOL_eqb conv kConvertEOLAuto then
          let chunkLen := 16384 in       (* nice big chunk *)
          let chunkLen := if chunkLen >? fileLen then fileLen else chunkLen in
          match fread chunkLen (hf_bytes f) with
          | None =>
              inl ("Unable to read initial chunk of '" ++ pathName ++ "': "
                   ++ hf_strerror f ++ ".")%string
          | Some chunk =>
              let (conv, eolType) := DetermineConversion chunk chunkLen in
              if ConvertEOL_eqb conv kConvertEOLOn && EOLType_eqb eolType kEOLCR
              then inr kConvertEOLOff
              else inr conv
          end
        else inr conv in
      match conv' with
      | inl errMsg => LoadFailed errMsg
      | inr conv =>
          if ConvertEOL_eqb conv kConvertEOLOff then
            (* fast path *)
            match fread fileLen (hf_bytes f) with
            | None =>
                LoadFailed ("Unable to read '" ++ pathName ++ "': "
                            ++ hf_strerror f ++ ".")%string
            | Some buf => Loaded (Some buf) fileLen
            end
          else
            (* convert as we go *)
            let count := fileLen in
            let mask :=
              match convHA with
              | kConvertHAOn => 0x80
              | kConvertHAOff => 0x00
              end in
            let buf := convertLoop (Z.to_nat count) (hf_bytes f) mask false in
            Loaded (Some buf) (Z.of_nat (List.length buf))
      end.

End LoadFile.

(** The number of bytes of [l] that are an LF right after a CR ([prevCR]
    tells whether the byte before [l] was a CR). *)
Fixpoint countLFafterCR (prevCR : bool) (l : list Z) : nat :=
  match l with
  | [] => O
  | c :: rest =>
      let dropped := if prevCR && (c =? kCharLF) then 1%nat else 0%nat in
      Nat.add dropped (countLFafterCR (c =? kCharCR) rest)
  end.

(** The transcoding in the words of its description: a byte is dropped
    when it is an LF right after a CR, and is replaced by one byte otherwise
    (a CR or an LF by a CR, with the mask; a NUL by itself; any other byte by
    itself with the mask). *)
Definition replaceByte (mask c : Z) : Z :=
  if (c =? kCharCR) || (c =? kCharLF) then uchar (Z.lor kCharCR mask)
  else if c =? 0 then uchar c
  else uchar (Z.lor c mask).

Fixpoint dropOrReplace (mask : Z) (prevCR : bool) (input : list Z) : list Z :=
  match input with
  | [] => []
  | c :: rest =>
      if prevCR && (c =? kCharLF) then dropOrReplace mask false rest
      else replaceByte mask c :: dropOrReplace mask (c =? kCharCR) rest
  end.

(** The first [count] results of [getc] on the stream [fp]. *)
Fixpoint getcs (count : nat) (fp : list Z) : list Z :=
  match count with
  | O => []
  | S count' => fst (getc fp) :: getcs count' (snd (getc fp))
  end.

(** ** The filesystem driver *)

(** [DIError], the codes this file tells apart; any other code is carried by
    its number. *)
Inductive DIError : Type :=
| kDIErrNone
| kDIErrDirectoryExists
| kDIErrOther (code : Z).

Definition DIError_eqb (a b : DIError) : bool :=
  match a, b with
  | kDIErrNone, kDIErrNone => true
  | kDIErrDirectoryExists, kDIErrDirectoryExists => true
  | kDIErrOther m, kDIErrOther n => m =? n
  | _, _ => false
  end.

(** [DiskFS::CreateParms]. *)
Record CreateParms : Type := mkCreateParms {
  pathName : string;
  fssep : ascii;
  storageType : NuStorageType;
  fileType : Z;
  auxType : Z;
  access : Z;
  createWhen : Z;
  modWhen : Z
}.

Definition setPathName (v : string) (p : CreateParms) : CreateParms :=
  mkCreateParms v (fssep p) (storageType p) (fileType p) (auxType p) (access p)
    (createWhen p) (modWhen p).
Definition setStorageType (v : NuStorageType) (p : CreateParms) : CreateParms :=
  mkCreateParms (pathName p) (fssep p) v (fileType p) (auxType p) (access p)
    (createWhen p) (modWhen p).
Definition setFileType (v : Z) (p : CreateParms) : CreateParms :=
  mkCreateParms (pathName p) (fssep p) (storageType p) v (auxType p) (access p)
    (createWhen p) (modWhen p).
Definition setAccess (v : Z) (p : CreateParms) : CreateParms :=
  mkCreateParms (pathName p) (fssep p) (storageType p) (fileType p) (auxType p) v
    (createWhen p) (modWhen p).

Definition kEmptyFolderMarker : string := ".$$EmptyFolder".

(** [strrchr(s, c)] for [c != '\0']: the index of the last [c] in [s]. *)
Fixpoint strrchr (s : string) (c : ascii) : option nat :=
  match s with
  | EmptyString => None
  | String a rest =>
      match strrchr rest c with
      | Some i => Some (S i)
      | None => if Ascii.eqb a c then Some O else None
      end
  end.

(** The C string at [s + n]. *)
Fixpoint strAt (s : string) (n : nat) : string :=
  match n, s with
  | O, _ => s
  | S n', String _ rest => strAt rest n'
  | S _, EmptyString => EmptyString
  end.

(** [CString::Left(nCount)]: the leftmost [nCount] characters, none when
    [nCount] is not positive, all when it exceeds the length. *)
Definition Left (nCount : Z) (s : string) : string :=
  substring 0 (Z.to_nat nCount) s.

(** [AddFilesDialog]'s choices for EOL conversion; the option is an [int], so
    any other value is possible too. *)
Inductive ConvEOLOption : Type :=
| kConvEOLNone
| kConvEOLType
| kConvEOLAuto
| kConvEOLAll
| kConvEOLOther (n : Z).

(** ** Case-insensitive comparison *)

(** [towlower] in the "C" locale, on the code of a character: only the
    letters [A .. Z] change. *)
Definition towlower (c : ascii) : Z :=
  let n := Z.of_N (N_of_ascii c) in
  if (65 <=? n) && (n <=? 90) then n + 32 else n.

(** The C runtime's [wcsicmp]: the strings are compared character by
    character on their lower-case forms, up to the terminator (the end of the
    string, or a NUL in it, both of code 0); the result is the difference at
    the first place where they differ, and 0 when there is none. *)
Fixpoint wcsicmp (s1 s2 : string) : Z :=
  match s1, s2 with
  | EmptyString, EmptyString => 0
  | EmptyString, String c2 _ => 0 - towlower c2
  | String c1 _, EmptyString => towlower c1 - 0
  | String c1 r1, String c2 r2 =>
      let d := towlower c1 - towlower c2 in
      if d =? 0 then
        if towlower c1 =? 0 then 0 else wcsicmp r1 r2
      else d
  end.

Section Driver.

(** The driver behind [pDiskFS]: its state [FS], the handle of an open
    fork, and its operations, each from a state to a result and the next
    state.  [CreateFile] answers its code and what it stored in the
    [A2File**] argument; [Open] its code and what it stored in the
    [A2FileDescr**] argument. *)
Variable FS : Type.
Variable A2FileDescr : Type.
Variable GetImageFSFormat : FS -> FSFormat.
Variable CreateFile : CreateParms -> FS -> DIError * option A2File * FS.
Variable Open : A2File -> bool -> bool -> FS -> DIError * option A2FileDescr * FS.
Variable Write : A2FileDescr -> list Z -> Z -> FS -> DIError * FS.
Variable Close : A2FileDescr -> FS -> DIError * FS.
Variable DeleteFile : A2File -> FS -> DIError * FS.
Variable GetReadWriteSupported : A2File -> FS -> bool.
Variable DIStrError : DIError -> string.

(** [DiskImg]'s format table and constants of other headers. *)
Variable IsHierarchical : FSFormat -> bool.
Variable HasResourceForks : FSFormat -> bool.
Variable UsesDOSFileStructure : FSFormat -> bool.
Variable kAccessInvisible : Z.
Variable kFileTypeTXT : Z.
Variable kFileTypeSRC : Z.
Variable DateTimeToSeconds : Z -> Z.

(** One call into the driver, with what it answered. *)
Inductive DriverCall : Type :=
| CallCreateFile (parms : CreateParms) (dierr : DIError) (pNewFile : option A2File)
| CallOpen (pFile : A2File) (rsrcFork : bool) (dierr : DIError)
    (pOpenFile : option A2FileDescr)
| CallWrite (pOpenFile : A2FileDescr) (buf : list Z) (len : Z) (dierr : DIError)
| CallClose (pOpenFile : A2FileDescr) (dierr : DIError)
| CallDeleteFile (pFile : A2File) (dierr : DIError).

(** Code that calls the driver: from a driver state to the result, the
    next state and the calls made, in order; [None] when the code
    dereferences a [NULL] pointer. *)
Definition M (A : Type) : Type := FS -> option (A * FS * list DriverCall).

Definition ret {A : Type} (a : A) : M A := fun fs => Some (a, fs, []).

Definition bind {A B : Type} (m : M A) (k : A -> M B) : M B :=
  fun fs =>
    match m fs with
    | None => None
    | Some (a, fs1, calls1) =>
        match k a fs1 with
        | None => None
        | Some (b, fs2, calls2) => Some (b, fs2, calls1 ++ calls2)
        end
    end.

Definition nullDeref {A : Type} : M A := fun _ => None.

Notation "x <- m ;; k" := (bind m (fun x => k))
  (at level 61, m at next level, right associativity).

Definition getFSFormat : M FSFormat := fun fs => Some (GetImageFSFormat fs, fs, []).

Definition callCreateFile (parms : CreateParms) : M (DIError * option A2File) :=
  fun fs =>
    let '(dierr, pNewFile, fs') := CreateFile parms fs in
    Some ((dierr, pNewFile), fs', [CallCreateFile parms dierr pNewFile]).

Definition callOpen (pFile : A2File) (readOnly rsrcFork : bool)
  : M (DIError * option A2FileDescr) :=
  fun fs =>
    let '(dierr, pOpenFile, fs') := Open pFile readOnly rsrcFork fs in
    Some ((dierr, pOpenFile), fs', [CallOpen pFile rsrcFork dierr pOpenFile]).

Definition callWrite (pOpenFile : A2FileDescr) (buf : list Z) (len : Z) : M DIError :=
  fun fs =>
    let '(dierr, fs') := Write pOpenFile buf len fs in
    Some (dierr, fs', [CallWrite pOpenFile buf len dierr]).

Definition callClose (pOpenFile : A2FileDescr) : M DIError :=
  fun fs =>
    let '(dierr, fs') := Close pOpenFile fs in
    Some (dierr, fs', [CallClose pOpenFile dierr]).

Definition callDeleteFile (pFile : A2File) : M DIError :=
  fun fs =>
    let '(dierr, fs') := DeleteFile pFile fs in
    Some (dierr, fs', [CallDeleteFile pFile dierr]).

Definition isNone (dierr : DIError) : bool := DIError_eqb dierr kDIErrNone.

(** The code at the label [bail] of [AddForksToDisk]. *)
Definition bail (dierr : DIError) (pNewFile : option A2File)
    (pOpenFile : option A2FileDescr) : M DIError :=
  _ <- match pOpenFile with
       | Some d => callClose d
       | None => ret kDIErrNone
       end ;;
  _ <- (if negb (isNone dierr) then
          match pNewFile with
          | Some f => callDeleteFile f   (* clean up the partially-written file *)
          | None => ret kDIErrNone
          end
        else ret kDIErrNone) ;;
  ret dierr.

(** Open one fork of [pNewFile], write it, close it; [inl] is the state at
    a [goto bail], [inr tt] falls through with [pOpenFile = NULL]. *)
Definition writeFork (pNewFile : option A2File) (rsrcFork : bool)
    (buf : list Z) (len : Z) : M (DIError * option A2FileDescr + unit) :=
  match pNewFile with
  | None => nullDeref
  | Some f =>
      r <- callOpen f false rsrcFork ;;
      let '(dierr, pOpenFile) := r in
      if negb (isNone dierr) then ret (inl (dierr, pOpenFile))
      else
        match pOpenFile with
        | None => nullDeref
        | Some d =>
            dierr <- callWrite d buf len ;;
            if negb (isNone dierr) then ret (inl (dierr, pOpenFile))
            else
              dierr <- callClose d ;;
              if negb (isNone dierr) then ret (inl (dierr, pOpenFile))
              else ret (inr tt)
        end
  end.

Definition kFileTypeBIN : Z := 0x06.
Definition kFileTypeINT : Z := 0xfa.
Definition kFileTypeBAS : Z := 0xfc.

(** The second half of [AddForksToDisk], from [pDiskFS->CreateFile(&parmCopy,
    &pNewFile)] on: create the file, write the data fork, write the resource
    fork, and leave through [bail]. *)
Definition createAndWriteForks (parmCopy : CreateParms)
    (dataBuf : option (list Z)) (dataLen : Z)
    (rsrcBuf : option (list Z)) (rsrcLen : Z) : M DIError :=
  r <- callCreateFile parmCopy ;;
  let '(dierr, pNewFile) := r in
  if negb (isNone dierr) then bail dierr pNewFile None
  else
    let writeRsrc : M DIError :=
      if 0 <? rsrcLen then
        r <- writeFork pNewFile true
               (match rsrcBuf with Some b => b | None => [] end) rsrcLen ;;
        match r with
        | inl (dierr, pOpenFile) => bail dierr pNewFile pOpenFile
        | inr _ => bail kDIErrNone pNewFile None
        end
      else bail kDIErrNone pNewFile None in
    if (0 <? dataLen)
       || ((dataLen =? 0) && match pNewFile with Some _ => true | None => false end)
    then
      let dummyBuf := [0] in
      r <- writeFork pNewFile false
             (match dataBuf with Some b => b | None => dummyBuf end) dataLen ;;
      match r with
      | inl (dierr, pOpenFile) => bail dierr pNewFile pOpenFile
      | inr _ => writeRsrc
      end
    else writeRsrc.

(** [DiskArchive::AddForksToDisk]. *)
Definition AddForksToDisk (pParms : CreateParms)
    (dataBuf : option (list Z)) (dataLen : Z)
    (rsrcBuf : option (list Z)) (rsrcLen : Z) : M DIError :=
  let parmCopy := pParms in
  (* look for "empty directory holders" *)
  let '(parmCopy, dataLen) :=
    if negb (Ascii.eqb (fssep parmCopy) zero)
       && NuStorageType_eqb (storageType parmCopy) kNuStorageSeedling
    then
      match strrchr (pathName parmCopy) (fssep parmCopy) with
      | Some cp =>
          if String.eqb (strAt (pathName parmCopy) (S cp)) kEmptyFolderMarker
             && (dataLen =? 0)
          then
            (* drop the junk on the end *)
            let p := setStorageType kNuStorageDirectory parmCopy in
            let replacementFileName := pathName parmCopy in
            let replacementFileName :=
              Left (Z.of_nat cp - 1) replacementFileName in
            let p := setPathName replacementFileName p in
            let p := setFileType 0x0f p in       (* DIR *)
            let p := setAccess (Z.land (access p) (Z.lnot kAccessInvisible)) p in
            (p, -1)
          else (parmCopy, dataLen)
      | None => (parmCopy, dataLen)
      end
    else (parmCopy, dataLen) in
  fsFormat <- getFSFormat ;;
  if NuStorageType_eqb (storageType parmCopy) kNuStorageDirectory then
    (* a subdir create request *)
    if IsHierarchical fsFormat then
      r <- callCreateFile parmCopy ;;
      let dierr := fst r in
      let dierr :=
        if DIError_eqb dierr kDIErrDirectoryExists
        then kDIErrNone               (* dirs are not made unique *)
        else dierr in
      bail dierr None None
    else bail kDIErrNone None None
  else
    (* don't try to put resource forks onto a DOS disk *)
    let dropped : option (CreateParms * Z) :=
      if negb (HasResourceForks fsFormat) then
        if 0 <=? rsrcLen then
          if dataLen <? 0 then None   (* this was a resource-fork-only file *)
          else Some (setStorageType kNuStorageSeedling parmCopy, -1)
        else Some (parmCopy, rsrcLen)
      else Some (parmCopy, rsrcLen) in
    match dropped with
    | None => bail kDIErrNone None None
    | Some (parmCopy, rsrcLen) =>
        (* quick kluge to get the right file type on large DOS files *)
        let parmCopy :=
          if UsesDOSFileStructure fsFormat && (65536 <=? dataLen) then
            if (fileType parmCopy =? kFileTypeBIN)
               || (fileType parmCopy =? kFileTypeINT)
               || (fileType parmCopy =? kFileTypeBAS)
            then setFileType 0xf2 parmCopy     (* DOS 'S' file *)
            else parmCopy
          else parmCopy in
        createAndWriteForks parmCopy dataBuf dataLen rsrcBuf rsrcLen
    end.

(** [DiskArchive::ConvertFDToCP]. *)
Definition ConvertFDToCP (pDetails : FileDetails) : CreateParms :=
  mkCreateParms
    "XYZZY-DiskArchive"
    (ascii_of_N (Z.to_N (fileSysInfo pDetails mod 256)))
    (fd_storageType pDetails)
    (fd_fileType pDetails)
    (extraType pDetails)
    (fd_access pDetails)
    (DateTimeToSeconds (fd_createWhen pDetails))
    (DateTimeToSeconds (fd_modWhen pDetails)).

(** ** [DiskArchive::ProcessFileAddData] *)

Variable host : string -> HostFile.
Variable DetermineConversion : list Z -> Z -> ConvertEOL * EOLType.

(** The two [switch] statements at the head of the loop: the details of
    the data fork and of the resource fork, or the message returned. *)
Definition pickForks (pData : FileAddData)
  : string + (option FileDetails * option FileDetails) :=
  let pDetails := GetDetails pData in
  let first : option (option FileDetails * option FileDetails) :=
    match entryKind pDetails with
    | kFileKindDataFork => Some (Some pDetails, None)
    | kFileKindRsrcFork => Some (None, Some pDetails)
    | kFileKindDiskImage => Some (Some pDetails, None)
    | _ => None
    end in
  match first with
  | None => inl "internal error"
  | Some (pDataDetails, pRsrcDetails) =>
      match GetOtherFork pData with
      | None => inr (pDataDetails, pRsrcDetails)
      | Some other =>
          let pDetails := GetDetails other in
          match entryKind pDetails with
          | kFileKindDataFork => inr (Some pDetails, pRsrcDetails)
          | kFileKindRsrcFork => inr (pDataDetails, Some pDetails)
          | kFileKindDiskImage => inl "(internal) add other disk error"
          | _ => inl "internal error"
          end
      end
  end.

(** The loop [while (pData != NULL)]; the result is [errMsg]. *)
Fixpoint processLoop (addOptsConvEOL : ConvEOLOption) (convEOL : ConvertEOL)
    (pData : list FileAddData) : M string :=
  match pData with
  | [] => ret EmptyString
  | d :: next =>
      match pickForks d with
      | inl msg => ret msg
      | inr (pDataDetails, pRsrcDetails) =>
          let parms := ConvertFDToCP (GetDetails d) in
          let parms :=
            match pRsrcDetails with
            | Some _ => setStorageType kNuStorageExtended parms
            | None => setStorageType kNuStorageSeedling parms
            end in
          (* use the FS-normalized path here *)
          let parms := setPathName (GetFSNormalPath d) parms in
          fsFormat <- getFSFormat ;;
          let convEOL :=
            match pDataDetails, addOptsConvEOL with
            | Some dd, kConvEOLType =>
                if (fd_fileType dd =? kFileTypeTXT) || (fd_fileType dd =? kFileTypeSRC)
                then kConvertEOLOn else kConvertEOLOff
            | _, _ => convEOL
            end in
          let dataLoad :=
            match pDataDetails with
            | Some dd =>
                let convHA :=
                  if UsesDOSFileStructure fsFormat then kConvertHAOn
                  else kConvertHAOff in
                LoadFile host DetermineConversion (origName dd) convEOL convHA
            | None => Loaded None (-1)
            end in
          match dataLoad with
          | LoadFailed errMsg => ret errMsg
          | Loaded dataBuf dataLen =>
              let rsrcLoad :=
                match pRsrcDetails with
                | Some rd =>
                    (* no text conversion on resource forks *)
                    LoadFile host DetermineConversion (origName rd)
                      kConvertEOLOff kConvertHAOff
                | None => Loaded None (-1)
                end in
              match rsrcLoad with
              | LoadFailed errMsg => ret errMsg
              | Loaded rsrcBuf rsrcLen =>
                  dierr <- AddForksToDisk parms dataBuf dataLen rsrcBuf rsrcLen ;;
                  if negb (isNone dierr) then
                    ret ("Unable to add '" ++ pathName parms ++ "' to image: "
                         ++ DIStrError dierr ++ ".")%string
                  else processLoop addOptsConvEOL convEOL next
              end
          end
      end
  end.

Definition ProcessFileAddData (fpAddDataHead : list FileAddData)
    (addOptsConvEOL : ConvEOLOption) : M string :=
  (* map the EOL conversion to something we can use *)
  let convEOL :=
    match addOptsConvEOL with
    | kConvEOLNone => kConvertEOLOff
    | kConvEOLType => kConvertEOLOff   (* adjusted each time through the loop *)
    | kConvEOLAuto => kConvertEOLAuto
    | kConvEOLAll => kConvertEOLOn
    | kConvEOLOther _ => kConvertEOLOff
    end in
  processLoop addOptsConvEOL convEOL fpAddDataHead.

(** ** [DiskArchive::DeleteSelection] *)

(** [GenericEntry::GetDisplayName], the C library's [qsort] on an array of
    [DiskEntry*], and [InternalReload] (0 on success). *)
Variable GetDisplayName : DiskEntry -> string.
Variable qsort : (DiskEntry -> DiskEntry -> Z) -> list DiskEntry -> list DiskEntry.
Variable InternalReload : FS -> Z * FS.

(** [DiskArchive::CompareDisplayNamesDesc]. *)
Definition CompareDisplayNamesDesc (pEntry1 pEntry2 : DiskEntry) : Z :=
  wcsicmp (GetDisplayName pEntry2) (GetDisplayName pEntry1).

(** The loop [for (idx = 0; idx < numEntries; idx++)]: [true] when it runs
    to its end, [false] at a [goto bail]. *)
Fixpoint deleteLoop (entryArray : list DiskEntry) : M bool :=
  match entryArray with
  | [] => ret true
  | pEntry :: rest =>
      match GetA2File pEntry with
      | None => nullDeref
      | Some pFile =>
          rw <- (fun fs => Some (GetReadWriteSupported pFile fs, fs, [])) ;;
          if negb rw then ret false
          else
            dierr <- callDeleteFile pFile ;;
            if negb (isNone dierr) then ret false
            else deleteLoop rest
      end
  end.

Definition DeleteSelection (pSelSet : list DiskEntry) : M bool :=
  let entryArray := pSelSet in
  (* sort the file array by descending filename *)
  let entryArray := qsort CompareDisplayNamesDesc entryArray in
  retVal <- deleteLoop entryArray ;;
  r <- (fun fs => let (r, fs') := InternalReload fs in Some (r, fs', [])) ;;
  ret (if negb (r =? 0) then false else retVal).

End Driver.

Arguments CallCreateFile {A2FileDescr} parms dierr pNewFile.
Arguments CallOpen {A2FileDescr} pFile rsrcFork dierr pOpenFile.
Arguments CallWrite {A2FileDescr} pOpenFile buf len dierr.
Arguments CallClose {A2FileDescr} pOpenFile dierr.
Arguments CallDeleteFile {A2FileDescr} pFile dierr.

(** The code a driver call answered, and the first call of a list whose
    answer is not [kDIErrNone]. *)
Definition callResult {A2FileDescr : Type} (c : DriverCall A2FileDescr) : DIError :=
  match c with
  | CallCreateFile _ dierr _ => dierr
  | CallOpen _ _ dierr _ => dierr
  | CallWrite _ _ _ dierr => dierr
  | CallClose _ dierr => dierr
  | CallDeleteFile _ dierr => dierr
  end.

Fixpoint firstFailing {A2FileDescr : Type} (calls : list (DriverCall A2FileDescr))
  : option (DriverCall A2FileDescr) :=
  match calls with
  | [] => None
  | c :: rest =>
      if DIError_eqb (callResult c) kDIErrNone then firstFailing rest else Some c
  end.

(** The last call of a list. *)
Fixpoint lastCall {A2FileDescr : Type} (calls : list (DriverCall A2FileDescr))
  : option (DriverCall A2FileDescr) :=
  match calls with
  | [] => None
  | [c] => Some c
  | _ :: rest => lastCall rest
  end.

(** A call that opens, writes or closes a fork. *)
Definition isForkCall {A2FileDescr : Type} (c : DriverCall A2FileDescr) : bool :=
  match c with
  | CallOpen _ _ _ _ | CallWrite _ _ _ _ | CallClose _ _ => true
  | _ => false
  end.

(** The file type [AddForksToDisk] hands to the driver for a file of type
    [fileType] with a data fork of [dataLen] bytes, on an image whose format
    has the DOS file structure or not. *)
Definition createdFileType (usesDOS : bool) (dataLen fileType : Z) : Z :=
  if usesDOS && (65536 <=? dataLen)
     && ((fileType =? kFileTypeBIN) || (fileType =? kFileTypeINT)
         || (fileType =? kFileTypeBAS))
  then 0xf2 else fileType.

(** Examples: a format table, and a driver whose state is the list of the
    requests it created, whose forks have the handle 0, and whose [Write] and
    [DeleteFile] answer the codes given. *)
Definition exampleIsHierarchical (format : FSFormat) : bool :=
  match format with
  | kFormatProDOS | kFormatMacHFS | kFormatMSDOS => true
  | _ => false
  end.

Definition exampleHasResourceForks (format : FSFormat) : bool :=
  match format with
  | kFormatProDOS | kFormatMacHFS => true
  | _ => false
  end.

Definition exampleCreateFile (parms : CreateParms) (fs : list CreateParms)
  : DIError * option A2File * list CreateParms :=
  (kDIErrNone, Some (exampleFile (pathName parms) false false 0 (-1)), parms :: fs).

Definition exampleOpen (pFile : A2File) (readOnly rsrcFork : bool) (fs : list CreateParms)
  : DIError * option nat * list CreateParms :=
  (kDIErrNone, Some 0%nat, fs).

Definition exampleWrite (answer : DIError) (pOpenFile : nat) (buf : list Z) (len : Z)
    (fs : list CreateParms) : DIError * list CreateParms :=
  (answer, fs).

Definition exampleClose (pOpenFile : nat) (fs : list CreateParms)
  : DIError * list CreateParms :=
  (kDIErrNone, fs).

Definition exampleDeleteFile (answer : DIError) (pFile : A2File) (fs : list CreateParms)
  : DIError * list CreateParms :=
  (answer, fs).

Definition exampleDIStrError (dierr : DIError) : string :=
  match dierr with
  | kDIErrNone => "(no error)"
  | kDIErrDirectoryExists => "directory already exists"
  | kDIErrOther _ => "(unknown error)"
  end.

(** Examples: host files, by name, and an answer of [DetermineConversion]. *)
Definition exampleHost (pathName : string) : HostFile :=
  if String.eqb pathName "TEXT.TXT" then
    mkHostFile true true 8 true [65; 13; 10; 66; 10; 67; 13; 10] EmptyString
  else if String.eqb pathName "LIMIT.BIN" then
    mkHostFile true true 0x00ffffff true (repeat 0 (Z.to_nat 0x00ffffff)) EmptyString
  else if String.eqb pathName "HUGE.BIN" then
    mkHostFile true true 0x01000000 true [] EmptyString
  else mkHostFile false false (-1) false [] "No such file or directory".

Definition exampleDetermineConversion (buf : list Z) (len : Z) : ConvertEOL * EOLType :=
  (kConvertEOLOn, kEOLUnknown).

(** A C string holds no NUL. *)
Fixpoint noNUL (s : string) : Prop :=
  match s with
  | EmptyString => True
  | String c rest => c <> zero /\ noNUL rest
  end.


(** Examples for the deletion: an insertion sort in the place of [qsort],
    the files a list of calls deleted, and an entry of a given path. *)
Fixpoint insertEntry (cmp : DiskEntry -> DiskEntry -> Z) (x : DiskEntry)
    (l : list DiskEntry) : list DiskEntry :=
  match l with
  | [] => [x]
  | y :: rest => if cmp x y <=? 0 then x :: l else y :: insertEntry cmp x rest
  end.

Fixpoint insertionSort (cmp : DiskEntry -> DiskEntry -> Z) (l : list DiskEntry)
  : list DiskEntry :=
  match l with
  | [] => []
  | x :: rest => insertEntry cmp x (insertionSort cmp rest)
  end.

Fixpoint deletedFiles {A2FileDescr : Type} (calls : list (DriverCall A2FileDescr))
  : list A2File :=
  match calls with
  | [] => []
  | CallDeleteFile pFile _ :: rest => pFile :: deletedFiles rest
  | _ :: rest => deletedFiles rest
  end.

(** The call [c] is the deletion of the file of the entry [e]. *)
Definition deletionOf {A2FileDescr : Type} (e : DiskEntry) (c : DriverCall A2FileDescr)
  : Prop :=
  exists (pFile : A2File) (dierr : DIError),
    GetA2File e = Some pFile /\ c = CallDeleteFile pFile dierr.

Definition entryNamed (name : string) : DiskEntry :=
  mkDiskEntry (Some (exampleFile name false false 0 (-1))) name None 58 0 0 0xc3 0 0
    kFormatProDOS true false kRecordKindFile 0 freshRsrcForkLen 0 "ProDOS" false
    false.


(** Examples: [AddForksToDisk] on the example driver, for an image of a
    given format, and the requests a list of calls asked the driver to
    create. *)
Definition exampleAddForksToDisk (format : FSFormat) (writeAnswer deleteAnswer : DIError) :=
  AddForksToDisk (fun _ : list CreateParms => format) exampleCreateFile exampleOpen
    (exampleWrite writeAnswer) exampleClose (exampleDeleteFile deleteAnswer)
    exampleIsHierarchical exampleHasResourceForks exampleUsesDOS 0x04.

Fixpoint createRequests {A2FileDescr : Type} (calls : list (DriverCall A2FileDescr))
  : list CreateParms :=
  match calls with
  | [] => []
  | CallCreateFile parms _ _ :: rest => parms :: createRequests rest
  | _ :: rest => createRequests rest
  end.

(** ** [DiskEntry::GetFeatureFlag] *)

(** [GenericEntry::Feature], the enumerators this file mentions; any other
    value of the [enum] is carried by its number. *)
Inductive Feature : Type :=
| kFeatureCanChangeType
| kFeaturePascalTypes
| kFeatureDOSTypes
| kFeatureHFSTypes
| kFeatureHasFullAccess
| kFeatureHasSimpleAccess
| kFeatureHasInvisibleFlag
| kFeatureOther (n : Z).

(** [DiskEntry::GetFeatureFlag], for an entry whose file lies on an image of
    the format [format]
    ([fpFile->GetDiskFS()->GetDiskImg()->GetFSFormat()]). *)
Definition GetFeatureFlag (format : FSFormat) (feature : Feature) : bool :=
  match feature with
  | kFeatureCanChangeType =>
      match format with
      | kFormatProDOS | kFormatPascal | kFormatMacHFS | kFormatDOS32 | kFormatDOS33 => true
      | _ => false
      end
  | kFeaturePascalTypes =>
      match format with
      | kFormatPascal => true
      | _ => false
      end
  | kFeatureDOSTypes =>
      match format with
      | kFormatDOS32 | kFormatDOS33 => true
      | _ => false
      end
  | kFeatureHFSTypes =>
      match format with
      | kFormatMacHFS => true
      | _ => false
      end
  | kFeatureHasFullAccess =>
      match format with
      | kFormatProDOS => true
      | _ => false
      end
  | kFeatureHasSimpleAccess =>
      match format with
      | kFormatDOS33 | kFormatDOS32 | kFormatCPM | kFormatMacHFS => true
      | _ => false
      end
  | kFeatureHasInvisibleFlag =>
      match format with
      | kFormatProDOS | kFormatMacHFS => true
      | _ => false
      end
  | kFeatureOther _ => false
  end.

(** ** Further definitions for the properties *)

(** A byte, or [EOF]. *)
Definition isByteOrEOF (c : Z) : Prop := -1 <= c <= 255.

(** A byte that the conversion of [LoadFile] with [mask] leaves as it is, and
    that is not an LF. *)
Definition settled (mask c : Z) : bool :=
  (replaceByte mask c =? c) && negb (c =? kCharLF).

(** Example: the host of [exampleHost] with one more file, the text of
    ["TEXT.TXT"] as the conversion with the high bit leaves it. *)
Definition exampleHostConverted (pathName : string) : HostFile :=
  if String.eqb pathName "TEXT.CR" then
    mkHostFile true true 6 true [0xc1; 0x8d; 0xc2; 0x8d; 0xc3; 0x8d] EmptyString
  else exampleHost pathName.

(** The kinds of candidate that [ProcessFileAddData] accepts as the node of a
    list: a data fork, a resource fork, a disk image. *)
Definition isQueuedKind (k : FileKind) : bool :=
  isDataOrRsrc k || FileKind_eqb k kFileKindDiskImage.

(** The list after [AddToAddDataList] was called on each of [candidates] in
    turn, from the empty list. *)
Definition addAll (candidates : list FileAddData) : list FileAddData :=
  fold_left (fun l pData => AddToAddDataList pData l) candidates [].

(** A node as [ProcessFileAddData] expects it: its kind is one that is
    queued, and the node hooked to it as its other fork, if there is one, is
    the fork of the other kind and has no other fork of its own. *)
Definition wellPaired (n : FileAddData) : Prop :=
  isQueuedKind (entryKind (GetDetails n)) = true
  /\ match GetOtherFork n with
     | None => True
     | Some o =>
         complementary (entryKind (GetDetails n)) (entryKind (GetDetails o))
         /\ GetOtherFork o = None
     end.

(** ** Extracting a fork: [DiskEntry::ExtractThreadToBuffer],
       [DiskEntry::ExtractThreadToFile] and [DiskEntry::CopyData] *)

(** The casts [(int) v] and [(long) v] of a 64-bit value: [int] and [long]
    have 32 bits on the platform of the application (Win32). *)
Definition toLong (v : Z) : Z := (v + 2 ^ 31) mod 2 ^ 32 - 2 ^ 31.

(** The argument [which]: [kDataThread], [kRsrcThread], or any other value
    of the [enum] of [GenericArchive]. *)
Inductive ThreadKind : Type :=
| kDataThread
| kRsrcThread
| kOtherThread (n : Z).

(** What an extraction returns: [IDOK], [IDCANCEL], or -1. *)
Inductive ExtractResult : Type :=
| IDOK
| IDCANCEL
| ExtractFailed.

(** The result of [ExtractThreadToBuffer]: the value returned, and what
    [*ppText], [*pLength] and [*pErrMsg] hold on return. *)
Record Extracted : Type := mkExtracted {
  x_result : ExtractResult;
  x_ppText : option (list Z);
  x_pLength : Z;
  x_pErrMsg : string
}.

(** What a buffer holds after [data] was stored at its start. *)
Definition stored (data buf : list Z) : list Z :=
  data ++ skipn (List.length data) buf.

(** The state that [GenericEntry::WriteConvert] carries from one chunk to the
    next through its pointer arguments: [conv], [convHA] and [lastCR]. *)
Definition ConvState : Type := (ConvertEOL * ConvertHighASCII * bool)%type.

Section Reader.

(** The world outside these functions, [World]: the driver behind [fpFile]
    and the file [outfp] of the host.  Each operation goes from a state of
    it to an answer and the next state.  [Read] answers its code and the
    bytes it stored in the buffer; [Tell] the position; [WriteConvert]
    (defined in another file) its [errno]-style code and the conversion
    state it left; [alloc] tells whether [new char[n]] yields a buffer. *)
Variable World : Type.
Variable A2FileDescr : Type.
Variable Open : A2File -> bool -> bool -> World -> DIError * option A2FileDescr * World.
Variable Read : A2FileDescr -> Z -> World -> DIError * list Z * World.
Variable SeekEnd : A2FileDescr -> World -> DIError * World.
Variable Tell : A2FileDescr -> World -> Z.
Variable Rewind : A2FileDescr -> World -> DIError * World.
Variable Close : A2FileDescr -> World -> DIError * World.
Variable WriteConvert : list Z -> Z -> ConvState -> World -> Z * ConvState * World.
Variable alloc : Z -> bool.
Variable DIStrError : DIError -> string.
Variable strerror : Z -> string.

(** Codes of the disk image library: "cancelled" and "generic error". *)
Variable kDIErrCancelled : DIError.
Variable kDIErrGeneric : DIError.

(** One call made by these functions, with what it answered. *)
Inductive ReaderCall : Type :=
| DidOpen (pFile : A2File) (readOnly rsrcFork : bool) (dierr : DIError)
    (pOpenFile : option A2FileDescr)
| DidSeekEnd (pOpenFile : A2FileDescr) (dierr : DIError)
| DidRewind (pOpenFile : A2FileDescr) (dierr : DIError)
| DidRead (pOpenFile : A2FileDescr) (len : Z) (dierr : DIError) (data : list Z)
| DidWriteConvert (buf : list Z) (len : Z) (err : Z)
| DidClose (pOpenFile : A2FileDescr) (dierr : DIError).

(** Code that calls into the world: the result, the next state and the
    calls made, in order; [None] when the code goes where the model does not
    follow (a [NULL] pointer dereferenced, a negative length handed on). *)
Definition R (A : Type) : Type := World -> option (A * World * list ReaderCall).

Definition rret {A : Type} (a : A) : R A := fun w => Some (a, w, []).

Definition rbind {A B : Type} (m : R A) (k : A -> R B) : R B :=
  fun w =>
    match m w with
    | None => None
    | Some (a, w1, calls1) =>
        match k a w1 with
        | None => None
        | Some (b, w2, calls2) => Some (b, w2, calls1 ++ calls2)
        end
    end.

Definition rstop {A : Type} : R A := fun _ => None.

Notation "x <- m ;; k" := (rbind m (fun x => k))
  (at level 61, m at next level, right associativity).

Definition doOpen (pFile : A2File) (readOnly rsrcFork : bool)
  : R (DIError * option A2FileDescr) :=
  fun w =>
    let '(dierr, pOpenFile, w') := Open pFile readOnly rsrcFork w in
    Some ((dierr, pOpenFile), w', [DidOpen pFile readOnly rsrcFork dierr pOpenFile]).

Definition doRead (pOpenFile : A2FileDescr) (len : Z) : R (DIError * list Z) :=
  fun w =>
    let '(dierr, data, w') := Read pOpenFile len w in
    Some ((dierr, data), w', [DidRead pOpenFile len dierr data]).

Definition doSeekEnd (pOpenFile : A2FileDescr) : R DIError :=
  fun w =>
    let '(dierr, w') := SeekEnd pOpenFile w in
    Some (dierr, w', [DidSeekEnd pOpenFile dierr]).

Definition doTell (pOpenFile : A2FileDescr) : R Z :=
  fun w => Some (Tell pOpenFile w, w, []).

Definition doRewind (pOpenFile : A2FileDescr) : R DIError :=
  fun w =>
    let '(dierr, w') := Rewind pOpenFile w in
    Some (dierr, w', [DidRewind pOpenFile dierr]).

Definition doClose (pOpenFile : A2FileDescr) : R DIError :=
  fun w =>
    let '(dierr, w') := Close pOpenFile w in
    Some (dierr, w', [DidClose pOpenFile dierr]).

Definition doWriteConvert (buf : list Z) (len : Z) (cs : ConvState) : R (Z * ConvState) :=
  fun w =>
    let '(err, cs', w') := WriteConvert buf len cs w in
    Some ((err, cs'), w', [DidWriteConvert buf len err]).

(** The code at the label [bail] of the two extractions: the fork is closed
    if it is open, and the result returned. *)
Definition closeAndReturn {A : Type} (pOpenFile : option A2FileDescr) (result : A) : R A :=
  _ <- match pOpenFile with
       | Some d => doClose d
       | None => rret kDIErrNone
       end ;;
  rret result.

(** [DiskEntry::ExtractThreadToBuffer].  [ppText] is [*ppText] on entry, a
    buffer of the caller's or [NULL]; [pLength] is [*pLength] on entry.
    [Read] is asked for [len] bytes (the cast to [size_t] keeps a length
    below 2^32 as it is). *)
Definition ExtractThreadToBuffer (this : DiskEntry) (which : ThreadKind)
    (ppText : option (list Z)) (pLength : Z) : R Extracted :=
  let needAlloc := match ppText with Some _ => false | None => true end in
  let failed (pErrMsg : string) := mkExtracted ExtractFailed ppText pLength pErrMsg in
  if GetDamaged this then closeAndReturn None (failed "File is damaged")
  else
    match match which with
          | kDataThread => Some false
          | kRsrcThread => Some true
          | kOtherThread _ => None
          end, GetA2File this with
    | None, _ => closeAndReturn None (failed "No such fork")
    | Some _, None => rstop
    | Some rsrcFork, Some fpFile =>
        let len := if rsrcFork then GetRsrcLength fpFile else GetDataLength fpFile in
        if len =? 0 then
          closeAndReturn None
            (mkExtracted IDOK (if needAlloc then Some [0] else ppText) 0 EmptyString)
        else if len <? 0 then
          closeAndReturn None (failed "That fork doesn't exist")
        else
          r <- doOpen fpFile true rsrcFork ;;
          let '(dierr, pOpenFile) := r in
          if negb (DIError_eqb dierr kDIErrNone) then
            closeAndReturn pOpenFile (failed "File open failed")
          else
            match pOpenFile with
            | None => rstop
            | Some d =>
                let dataBuf : string + list Z :=
                  match ppText with
                  | None =>
                      if negb (alloc (toLong len)) then
                        inl ("ERROR: allocation of " ++ decimal len
                             ++ " bytes failed")%string
                      else inr []
                  | Some buf =>
                      if pLength <? toLong len then
                        inl ("ERROR: buf size " ++ decimal pLength ++ " too short ("
                             ++ decimal (toLong len) ++ ")")%string
                      else inr buf
                  end in
                match dataBuf with
                | inl pErrMsg => closeAndReturn pOpenFile (failed pErrMsg)
                | inr dataBuf =>
                    r <- doRead d len ;;
                    let '(dierr, data) := r in
                    let dataBuf := stored data dataBuf in
                    let ppText := if needAlloc then None else Some dataBuf in
                    if negb (DIError_eqb dierr kDIErrNone) then
                      if DIError_eqb dierr kDIErrCancelled then
                        closeAndReturn pOpenFile
                          (mkExtracted IDCANCEL ppText pLength EmptyString)
                      else
                        closeAndReturn pOpenFile
                          (mkExtracted ExtractFailed ppText pLength
                             ("File read failed: " ++ DIStrError dierr)%string)
                    else
                      closeAndReturn pOpenFile
                        (mkExtracted IDOK (Some dataBuf) (toLong len) EmptyString)
                end
            end
    end.

Definition kChunkSize : Z := 16384.

(** The loop [while (dataRem)] of [CopyData]: the code returned and what
    [*pMsg] holds.  Each round reads a chunk and writes it; [fuel] bounds the
    number of rounds. *)
Fixpoint copyLoop (fuel : nat) (pOpenFile : A2FileDescr) (dataRem : Z)
    (cs : ConvState) (pMsg : string) : R (DIError * string) :=
  if dataRem =? 0 then rret (kDIErrNone, pMsg)
  else
    match fuel with
    | O => rstop
    | S fuel' =>
        let chunkLen :=
          if dataRem >? kChunkSize then kChunkSize else toLong dataRem in
        (* read a chunk from the source file *)
        r <- doRead pOpenFile chunkLen ;;
        let '(dierr, buf) := r in
        if negb (DIError_eqb dierr kDIErrNone) then
          rret (dierr, ("File read failed: " ++ DIStrError dierr)%string)
        else
          (* write chunk to destination file *)
          r <- doWriteConvert buf chunkLen cs ;;
          let '(err, cs') := r in
          if negb (err =? 0) then
            rret (kDIErrGeneric, ("File write failed: " ++ strerror err)%string)
          else copyLoop fuel' pOpenFile (dataRem - chunkLen) cs' pMsg
    end.

(** [DiskEntry::CopyData].  A round of the loop takes at least one byte off
    a positive [dataRem], so [srcLen] rounds are enough for a length that is
    not negative; with a negative length (which the code asserts not to
    meet) the model stops. *)
Definition CopyData (pOpenFile : A2FileDescr) (conv : ConvertEOL)
    (convHA : ConvertHighASCII) (pMsg : string) : R (DIError * string) :=
  (* get the length of the open file *)
  dierr <- doSeekEnd pOpenFile ;;
  if negb (DIError_eqb dierr kDIErrNone) then rret (dierr, pMsg)
  else
    srcLen <- doTell pOpenFile ;;
    dierr <- doRewind pOpenFile ;;
    if negb (DIError_eqb dierr kDIErrNone) then rret (dierr, pMsg)
    else
      let lastCR := false in
      copyLoop (Z.to_nat srcLen) pOpenFile srcLen (conv, convHA, lastCR) pMsg.

(** [DiskEntry::ExtractThreadToFile]: the value returned and what [*pErrMsg]
    holds on return; [pErrMsg] is [*pErrMsg] on entry. *)
Definition ExtractThreadToFile (this : DiskEntry) (which : ThreadKind)
    (conv : ConvertEOL) (convHA : ConvertHighASCII) (pErrMsg : string)
  : R (ExtractResult * string) :=
  match match which with
        | kDataThread => Some false
        | kRsrcThread => Some true
        | kOtherThread _ => None
        end, GetA2File this with
  | None, _ => closeAndReturn None (ExtractFailed, "No such fork")
  | Some _, None => rstop
  | Some rsrcFork, Some fpFile =>
      let len := if rsrcFork then GetRsrcLength fpFile else GetDataLength fpFile in
      if len =? 0 then closeAndReturn None (IDOK, pErrMsg)
      else if len <? 0 then
        closeAndReturn None (ExtractFailed, "That fork doesn't exist")
      else
        r <- doOpen fpFile true rsrcFork ;;
        let '(dierr, pOpenFile) := r in
        if negb (DIError_eqb dierr kDIErrNone) then
          closeAndReturn pOpenFile (ExtractFailed, "Unable to open file on disk image")
        else
          match pOpenFile with
          | None => rstop
          | Some d =>
              r <- CopyData d conv convHA pErrMsg ;;
              let '(dierr, pErrMsg) := r in
              if negb (DIError_eqb dierr kDIErrNone) then
                let pErrMsg :=
                  if IsEmpty pErrMsg then
                    ("Failed while copying data: " ++ DIStrError dierr
                     ++ String (ascii_of_nat 10) EmptyString)%string
                  else pErrMsg in
                closeAndReturn pOpenFile (ExtractFailed, pErrMsg)
              else closeAndReturn pOpenFile (IDOK, pErrMsg)
          end
  end.

End Reader.

Arguments DidWriteConvert {A2FileDescr} buf len err.

(** The length of the fork that [which] names, as the driver reports it for
    the file of [this]; none for another thread or without a file. *)
Definition forkLength (this : DiskEntry) (which : ThreadKind) : option Z :=
  match which, GetA2File this with
  | kDataThread, Some fpFile => Some (GetDataLength fpFile)
  | kRsrcThread, Some fpFile => Some (GetRsrcLength fpFile)
  | _, _ => None
  end.

(** The lengths of the chunks for a file of [srcLen] bytes: as many chunks
    of [kChunkSize] bytes as fit, and a last, shorter one for what is left. *)
Definition chunkLengths (srcLen : Z) : list Z :=
  repeat kChunkSize (Z.to_nat (srcLen / kChunkSize))
  ++ (if srcLen mod kChunkSize =? 0 then [] else [srcLen mod kChunkSize]).

(** The calls of a copy that went well, chunk by chunk: each chunk is read
    from the fork and what was read is written, with the length asked for. *)
Definition chunkCalls {A2FileDescr : Type} (pOpenFile : A2FileDescr)
    (chunks : list (Z * list Z)) : list (ReaderCall A2FileDescr) :=
  flat_map (fun chunk : Z * list Z =>
              [DidRead pOpenFile (fst chunk) kDIErrNone (snd chunk);
               DidWriteConvert (snd chunk) (fst chunk) 0])
    chunks.

(** Examples: a world that is the bytes written to the host's file so far; a
    fork of [content] whose [Read] answers the code given and the first
    [len] bytes, and whose [Tell] answers [srcLen]; an entry for a file with
    a data fork of [dataLen] bytes. *)
Definition exampleReaderOpen (pFile : A2File) (readOnly rsrcFork : bool) (w : list Z)
  : DIError * option nat * list Z :=
  (kDIErrNone, Some 0%nat, w).

Definition exampleRead (answer : DIError) (content : list Z) (pOpenFile : nat) (len : Z)
    (w : list Z) : DIError * list Z * list Z :=
  (answer, firstn (Z.to_nat len) content, w).

Definition exampleSeek (pOpenFile : nat) (w : list Z) : DIError * list Z :=
  (kDIErrNone, w).

Definition exampleTell (srcLen : Z) (pOpenFile : nat) (w : list Z) : Z := srcLen.

Definition exampleWriteConvert (buf : list Z) (len : Z) (cs : ConvState) (w : list Z)
  : Z * ConvState * list Z :=
  (0, cs, w ++ buf).

Definition exampleStrerror (err : Z) : string := "I/O error".

Definition entryOfLength (dataLen : Z) : DiskEntry :=
  mkDiskEntry (Some (exampleFile "NOTES" false false dataLen (-1))) "NOTES" None 58 0x04 0
    0xc3 0 0 kFormatProDOS true false kRecordKindFile dataLen freshRsrcForkLen dataLen "ProDOS"
    false false.

(** ** [DiskArchive::XferFile] *)

(** The two loops of [XferFile] on a byte of the data buffer:
    [*ucp++ &= 0x7f], and [*ucp |= 0x80] unless the byte is a NUL. *)
Definition stripHigh (c : Z) : Z := uchar (Z.land c 0x7f).
Definition addHigh (c : Z) : Z := if c =? 0 then c else uchar (Z.lor c 0x80).

(** A loop [while (len--)] that rewrites the first [len] bytes of the
    buffer in place; nothing when there is no buffer or it is shorter than
    [len]. *)
Definition overBuffer (f : Z -> Z) (pDataBuf : option (list Z)) (len : Z)
  : option (list Z) :=
  match pDataBuf with
  | None => None
  | Some buf =>
      if len <=? Z.of_nat (List.length buf)
      then Some (map f (firstn (Z.to_nat len) buf) ++ skipn (Z.to_nat len) buf)
      else None
  end.

Section Transfer.

(** The driver behind the target of the transfer, [pDiskFS]
    ([fpXferTargetFS], or [fpPrimaryDiskFS] when that is [NULL]), as in the
    section [Driver]. *)
Variable FS : Type.
Variable A2FileDescr : Type.
Variable GetImageFSFormat : FS -> FSFormat.
Variable CreateFile : CreateParms -> FS -> DIError * option A2File * FS.
Variable Open : A2File -> bool -> bool -> FS -> DIError * option A2FileDescr * FS.
Variable Write : A2FileDescr -> list Z -> Z -> FS -> DIError * FS.
Variable Close : A2FileDescr -> FS -> DIError * FS.
Variable DeleteFile : A2File -> FS -> DIError * FS.
Variable DIStrError : DIError -> string.
Variable IsHierarchical : FSFormat -> bool.
Variable HasResourceForks : FSFormat -> bool.
Variable UsesDOSFileStructure : FSFormat -> bool.
Variable kAccessInvisible : Z.
Variable kFileTypeTXT : Z.
Variable kFileTypeSRC : Z.
Variable DateTimeToSeconds : Z -> Z.

Notation "x <- m ;; k" := (bind m (fun x => k))
  (at level 61, m at next level, right associativity).

(** The data buffer as [XferFile] hands it to [AddForksToDisk]: the text of
    a TXT or SRC file that comes from a DOS volume and goes to another kind
    loses its high bits, the text that goes the other way gains them;
    nothing when the loop runs off the buffer. *)
Definition xferText (pDetails : FileDetails) (fsFormat : FSFormat)
    (pDataBuf : option (list Z)) (dataLen : Z) : option (option (list Z)) :=
  let srcIsDOS := UsesDOSFileStructure (fileSysFmt pDetails) in
  let dstIsDOS := UsesDOSFileStructure fsFormat in
  if (0 <? dataLen)
     && ((fd_fileType pDetails =? kFileTypeTXT) || (fd_fileType pDetails =? kFileTypeSRC))
  then
    if srcIsDOS && negb dstIsDOS then
      option_map Some (overBuffer stripHigh pDataBuf dataLen)
    else if negb srcIsDOS && dstIsDOS then
      option_map Some (overBuffer addHigh pDataBuf dataLen)
    else Some pDataBuf
  else Some pDataBuf.

(** [DiskArchive::XferFile]: the message returned, and what [*pDataBuf] and
    [*pRsrcBuf] hold on return. *)
Definition XferFile (pDetails : FileDetails) (pDataBuf : option (list Z)) (dataLen : Z)
    (pRsrcBuf : option (list Z)) (rsrcLen : Z)
  : M FS A2FileDescr (string * option (list Z) * option (list Z)) :=
  (* fill out CreateParms from FileDetails *)
  let createParms := ConvertFDToCP DateTimeToSeconds pDetails in
  fsFormat <- getFSFormat A2FileDescr GetImageFSFormat ;;
  match xferText pDetails fsFormat pDataBuf dataLen with
  | None => nullDeref A2FileDescr
  | Some pDataBuf =>
      (* if we still have something to write, write it *)
      dierr <- AddForksToDisk GetImageFSFormat CreateFile Open Write Close DeleteFile
                 IsHierarchical HasResourceForks UsesDOSFileStructure kAccessInvisible
                 createParms pDataBuf dataLen pRsrcBuf rsrcLen ;;
      if negb (isNone dierr) then ret A2FileDescr (DIStrError dierr, pDataBuf, pRsrcBuf)
      else ret A2FileDescr (EmptyString, None, None)
  end.

End Transfer.

(** ** Code that calls out, in general *)

Section Calls.

(** A state [St] of what lies outside the code, and a type [Call] of the
    calls it makes there.  A run goes from a state to a result, the next
    state and the calls made, in order; [None] when the code goes where the
    model does not follow. *)
Variable St : Type.
Variable Call : Type.

Definition Run (A : Type) : Type := St -> option (A * St * list Call).

Definition done {A : Type} (a : A) : Run A := fun s => Some (a, s, []).

Definition andThen {A B : Type} (m : Run A) (k : A -> Run B) : Run B :=
  fun s =>
    match m s with
    | None => None
    | Some (a, s1, calls1) =>
        match k a s1 with
        | None => None
        | Some (b, s2, calls2) => Some (b, s2, calls1 ++ calls2)
        end
    end.

Definition stuck {A : Type} : Run A := fun _ => None.

(** One call: [op] answers and moves the state, [log] records the answer. *)
Definition call {A : Type} (op : St -> A * St) (log : A -> Call) : Run A :=
  fun s => let (a, s') := op s in Some (a, s', [log a]).

End Calls.

Arguments done {St Call A} a.
Arguments stuck {St Call A}.

(** ** Queueing a file: [DiskArchive::DoAddFile] and
       [DiskArchive::HandleReplaceExisting] *)

(** [NuResult] and [NuError] of NufxLib, the values this file mentions. *)
Inductive NuResult : Type :=
| kNuOverwrite
| kNuSkip
| kNuRename
| kNuAbort
| kNuResultOther (n : Z).

Inductive NuError : Type :=
| kNuErrNone
| kNuErrInternal
| kNuErrAborted
| kNuErrSkipped
| kNuErrMalloc.

(** What the user leaves in a [ConfirmOverwriteDialog]: whether [DoModal]
    answered [IDCANCEL], the three result flags, and the name in
    [fExistingFile], which the user may have edited. *)
Record ConfirmOverwrite : Type := mkConfirmOverwrite {
  co_cancelled : bool;
  fResultRename : bool;
  fResultApplyToAll : bool;
  fResultOverwrite : bool;
  fExistingFile : string
}.

Definition setStorageName (v : string) (d : FileDetails) : FileDetails :=
  mkFileDetails (entryKind d) (origName d) v (fileSysFmt d) (fileSysInfo d) (fd_access d)
    (fd_fileType d) (extraType d) (fd_storageType d) (fd_createWhen d) (fd_modWhen d).

Section AddFile.

(** The target [pDiskFS] of the add: its state and the three operations
    used here.  [NormalizePath] is given the name and the length of the
    buffer, and answers its code, what it left in the buffer and the length
    it needs. *)
Variable FS : Type.
Variable NormalizePath : string -> Z -> FS -> DIError * string * Z.
Variable GetFileByName : string -> FS -> option A2File.
Variable DeleteFile : A2File -> FS -> DIError * FS.
Variable kDIErrDataOverrun : DIError.

(** What an add works on: the driver, the two members [fOverwriteExisting]
    and [fOverwriteNoAsk], the list [fpAddDataHead], and the answers the
    user is going to give to the dialogs still to come. *)
Record AddFileState : Type := mkAddFileState {
  af_pDiskFS : FS;
  fOverwriteExisting : bool;
  fOverwriteNoAsk : bool;
  fpAddDataHead : list FileAddData;
  af_answers : list ConfirmOverwrite
}.

Inductive AddFileCall : Type :=
| DidNormalizePath (name : string) (bufLen : Z) (dierr : DIError) (fsNormalBuf : string)
| DidConfirmOverwrite (existing : A2File) (answer : ConfirmOverwrite)
| DidDeleteExisting (pExisting : A2File) (dierr : DIError).

Notation "x <- m ;; k" := (andThen m (fun x => k))
  (at level 61, m at next level, right associativity).

Definition doNormalizePath (name : string) (bufLen : Z)
  : Run AddFileState AddFileCall (DIError * string * Z) :=
  fun s =>
    let '(dierr, fsNormalBuf, neededLen) := NormalizePath name bufLen (af_pDiskFS s) in
    Some ((dierr, fsNormalBuf, neededLen), s,
          [DidNormalizePath name bufLen dierr fsNormalBuf]).

Definition doDeleteExisting (pExisting : A2File) : Run AddFileState AddFileCall DIError :=
  fun s =>
    let '(dierr, fs') := DeleteFile pExisting (af_pDiskFS s) in
    Some (dierr,
          mkAddFileState fs' (fOverwriteExisting s) (fOverwriteNoAsk s) (fpAddDataHead s)
            (af_answers s),
          [DidDeleteExisting pExisting dierr]).

(** [confOvwr.DoModal()]: the next answer of the user; the model stops when
    there is none. *)
Definition doConfirmOverwrite (pExisting : A2File)
  : Run AddFileState AddFileCall ConfirmOverwrite :=
  fun s =>
    match af_answers s with
    | [] => None
    | confOvwr :: rest =>
        Some (confOvwr,
              mkAddFileState (af_pDiskFS s) (fOverwriteExisting s) (fOverwriteNoAsk s)
                (fpAddDataHead s) rest,
              [DidConfirmOverwrite pExisting confOvwr])
    end.

Definition setOverwrite (existing noAsk : bool) : Run AddFileState AddFileCall unit :=
  fun s =>
    Some (tt,
          mkAddFileState (af_pDiskFS s) existing noAsk (fpAddDataHead s) (af_answers s),
          []).

(** [DiskArchive::HandleReplaceExisting]: the verdict, and [*pDetails] as it
    is on return. *)
Definition HandleReplaceExisting (pExisting : A2File) (pDetails : FileDetails)
  : Run AddFileState AddFileCall (NuResult * FileDetails) :=
  fun s =>
    (if fOverwriteNoAsk s then
       if fOverwriteExisting s then done (kNuOverwrite, pDetails)
       else done (kNuSkip, pDetails)
     else
       confOvwr <- doConfirmOverwrite pExisting ;;
       if co_cancelled confOvwr then done (kNuAbort, pDetails)
       else if fResultRename confOvwr then
         (* replace the name in FileDetails *)
         done (kNuRename, setStorageName (fExistingFile confOvwr) pDetails)
       else
         _ <- (if fResultApplyToAll confOvwr then
                 setOverwrite (fResultOverwrite confOvwr) true
               else done tt) ;;
         if fResultOverwrite confOvwr then done (kNuOverwrite, pDetails)
         else done (kNuSkip, pDetails)) s.

(** [AddToAddDataList(new FileAddData(pDetails, fsNormalBuf))]. *)
Definition queue (pDetails : FileDetails) (fsNormalBuf : string)
  : Run AddFileState AddFileCall unit :=
  fun s =>
    Some (tt,
          mkAddFileState (af_pDiskFS s) (fOverwriteExisting s) (fOverwriteNoAsk s)
            (AddToAddDataList (mkFileAddData pDetails fsNormalBuf None) (fpAddDataHead s))
            (af_answers s),
          []).

(** [DiskArchive::DoAddFile], from the label [retry]: [retries] bounds the
    number of times the user may ask to rename ([goto retry]); the result is
    the code returned and [*pDetails] as it is on return. *)
Fixpoint DoAddFile_retry (retries : nat) (neededLen : Z) (pDetails : FileDetails)
  : Run AddFileState AddFileCall (NuError * FileDetails) :=
  (* convert "storageName" to a filesystem-normalized path *)
  r <- doNormalizePath (storageName pDetails) neededLen ;;
  let '(dierr, fsNormalBuf, neededLen) := r in
  r <- (if DIError_eqb dierr kDIErrDataOverrun then
          (* not long enough, try again *once* *)
          doNormalizePath (storageName pDetails) neededLen
        else done (dierr, fsNormalBuf, neededLen)) ;;
  let '(dierr, fsNormalBuf, neededLen) := r in
  if negb (DIError_eqb dierr kDIErrNone) then done (kNuErrInternal, pDetails)
  else
    (* test to see if the file already exists *)
    pExisting <- (fun s => Some (GetFileByName fsNormalBuf (af_pDiskFS s), s, [])) ;;
    match pExisting with
    | None =>
        _ <- queue pDetails fsNormalBuf ;;
        done (kNuErrNone, pDetails)
    | Some pExisting =>
        r <- HandleReplaceExisting pExisting pDetails ;;
        let '(result, pDetails) := r in
        match result with
        | kNuAbort => done (kNuErrAborted, pDetails)
        | kNuSkip => done (kNuErrSkipped, pDetails)
        | kNuRename =>
            match retries with
            | O => stuck
            | S retries' => DoAddFile_retry retries' neededLen pDetails
            end
        | kNuOverwrite =>
            (* delete the existing file immediately *)
            dierr <- doDeleteExisting pExisting ;;
            if negb (DIError_eqb dierr kDIErrNone) then done (kNuErrNone, pDetails)
            else
              _ <- queue pDetails fsNormalBuf ;;
              done (kNuErrNone, pDetails)
        | kNuResultOther _ => done (kNuErrInternal, pDetails)
        end
    end.

(** [DiskArchive::DoAddFile].  Each [goto retry] follows an answer of the
    user, so one retry for each answer to come is enough. *)
Definition DoAddFile (pDetails : FileDetails)
  : Run AddFileState AddFileCall (NuError * FileDetails) :=
  fun s =>
    let neededLen := 64 in     (* reasonable guess *)
    DoAddFile_retry (List.length (af_answers s)) neededLen pDetails s.

End AddFile.

(** Examples: an image that is the list of the names of its files; a
    [NormalizePath] that leaves a name as it is; a [DeleteFile] that answers
    the code given (and deletes when that is [kDIErrNone]); and the details
    of a data fork of a given name. *)
Definition exampleNormalizePath (name : string) (bufLen : Z) (fs : list string)
  : DIError * string * Z :=
  (kDIErrNone, name, bufLen).

Definition exampleGetFileByName (name : string) (fs : list string) : option A2File :=
  if existsb (String.eqb name) fs then Some (exampleFile name false false 0 (-1))
  else None.

Definition exampleDeleteExisting (answer : DIError) (pFile : A2File) (fs : list string)
  : DIError * list string :=
  (answer,
   if DIError_eqb answer kDIErrNone
   then filter (fun name => negb (String.eqb name (GetPathName pFile))) fs
   else fs).

Definition detailsNamed (name : string) : FileDetails :=
  mkFileDetails kFileKindDataFork name name kFormatUnknown 58 0xc3 0x04 0
    kNuStorageSeedling 0 0.

(** ** Opening and creating an archive: [DiskArchive::Open] and
       [DiskArchive::New] *)

(** [GenericArchive::OpenResult]. *)
Inductive OpenResult : Type :=
| kResultUnknown
| kResultSuccess
| kResultFailure
| kResultCancel
| kResultFileArchive.

(** [DiskImg::SectorOrder]: the one enumerator this file mentions; any other
    is carried by its number. *)
Inductive SectorOrder : Type :=
| kSectorOrderUnknown
| kSectorOrderOther (n : Z).

Definition SectorOrder_eqb (a b : SectorOrder) : bool :=
  match a, b with
  | kSectorOrderUnknown, kSectorOrderUnknown => true
  | kSectorOrderOther m, kSectorOrderOther n => m =? n
  | _, _ => false
  end.

Definition FSFormat_eqb (a b : FSFormat) : bool :=
  match a, b with
  | kFormatUnknown, kFormatUnknown
  | kFormatDOS33, kFormatDOS33
  | kFormatDOS32, kFormatDOS32
  | kFormatUNIDOS, kFormatUNIDOS
  | kFormatGutenberg, kFormatGutenberg
  | kFormatProDOS, kFormatProDOS
  | kFormatPascal, kFormatPascal
  | kFormatCPM, kFormatCPM
  | kFormatMSDOS, kFormatMSDOS
  | kFormatRDOS33, kFormatRDOS33
  | kFormatRDOS32, kFormatRDOS32
  | kFormatRDOS3, kFormatRDOS3
  | kFormatMacHFS, kFormatMacHFS => true
  | _, _ => false
  end.

(** [DiskFS::DiskFSParameter], the enumerators this file mentions. *)
Inductive DiskFSParameter : Type :=
| kParmProDOS_AllowLowerCase
| kParmProDOS_AllocSparse
| kParm_CreateUnique.

(** What the user leaves in an [ImageFormatDialog]: whether [DoModal]
    answered [IDOK], and the members [fSectorOrder] and [fFSFormat]. *)
Record ImageFormat : Type := mkImageFormat {
  imf_ok : bool;
  fSectorOrder : SectorOrder;
  fFSFormat : FSFormat
}.

(** [DiskArchive::NewOptions], the members [New] reads. *)
Record NewOptions : Type := mkNewOptions {
  base_format : FSFormat;
  base_sectorOrder : SectorOrder;
  blank_numBlocks : Z;
  prodos_volName : string;
  prodos_numBlocks : Z;
  pascalfs_volName : string;
  pascalfs_numBlocks : Z;
  hfs_volName : string;
  hfs_numBlocks : Z;
  dos_volumeNum : Z;
  dos_numTracks : Z;
  dos_numSectors : Z;
  dos_allocDOSTracks : bool
}.

(** [filename[i]] of a [WCHAR] string: the code of the character, 0 for the
    terminator. *)
Definition wcharAt (filename : string) (i : nat) : Z :=
  match String.get i filename with
  | Some c => Z.of_N (N_of_ascii c)
  | None => 0
  end.

(** The test of [Open] for a volume: a capital letter, a colon, a backslash
    and the terminator. *)
Definition isVolumeName (filename : string) : bool :=
  (65 <=? wcharAt filename 0) && (wcharAt filename 0 <=? 90)
  && (wcharAt filename 1 =? 58) && (wcharAt filename 2 =? 92)
  && (wcharAt filename 3 =? 0).

(** The loop of [Open] over the sub-volumes of the first level, on the
    answers of their [GetReadWriteSupported] in turn: whether one of them
    is writable. *)
Fixpoint anyReadWriteSupported (pSubVol : list bool) : bool :=
  match pSubVol with
  | [] => false
  | rw :: rest => if rw then true else anyReadWriteSupported rest
  end.

Section Archive.

(** What lies outside: the world [W] of [fDiskImg] and of the [DiskFS]
    made from it, with the operations used here; the preferences; the
    constants of [DiskFSDOS33]; [CString::MakeUpper] and [IsWin9x].
    [OpenAppropriateDiskFS] is given its argument ([None] when the call
    leaves it to the default) and answers whether the pointer it returns is
    not [NULL]; [contentsOf] is the [DiskFS] as the loader walks it;
    [subVolumesReadWriteSupported] are the answers of
    [pSubVol->GetDiskFS()->GetReadWriteSupported()] for the sub-volumes of
    [fpPrimaryDiskFS], in the order of [GetNextSubVolume]; [ImageFormatDialog]
    is what the user does with the dialog. *)
Variable W : Type.
Variable PhysicalFormat : Type.
Variable OpenImage : string -> bool -> W -> DIError * W.
Variable AnalyzeImage : W -> DIError * W.
Variable ImageFormatDialog : W -> ImageFormat * W.
Variable GetSectorOrder : W -> SectorOrder.
Variable GetImageFSFormat : W -> FSFormat.
Variable GetPhysicalFormat : W -> PhysicalFormat.
Variable OverrideFormat : PhysicalFormat -> FSFormat -> SectorOrder -> W -> DIError * W.
Variable OpenAppropriateDiskFS : option bool -> W -> bool * W.
Variable SetScanForSubVolumes : W -> W.
Variable Initialize : W -> DIError * W.
Variable contentsOf : W -> DiskFS.
Variable GetReadWriteSupported : W -> bool.
Variable subVolumesReadWriteSupported : W -> list bool.
Variable GetFSDamaged : W -> bool.
Variable GetReadOnly : W -> bool.
Variable DeleteDiskFS : W -> W.
Variable SetParameter : DiskFSParameter -> bool -> W -> W.
Variable CreateImageBlocks : string -> SectorOrder -> Z -> bool -> W -> DIError * W.
Variable CreateImageTracks : string -> SectorOrder -> Z -> Z -> bool -> W -> DIError * W.
Variable SetDOSVolumeNum : Z -> W -> W.
Variable FormatImage : FSFormat -> string -> W -> DIError * W.
Variable DIStrError : DIError -> string.
Variable kDIErrAccessDenied : DIError.
Variable kDIErrFileArchive : DIError.
Variable kDIErrCancelled : DIError.
Variable kPrQueryImageFormat : bool.
Variable kPrProDOSAllowLower : bool.
Variable kPrProDOSUseSparse : bool.
Variable kMinTracks : Z.
Variable kMaxTracks : Z.
Variable MakeUpper : string -> string.
Variable IsWin9x : bool.

(** What the loader needs (see [loadEntry]). *)
Variable kDateNone : Z.
Variable wantCoerceDOSFilenames : bool.
Variable InjectLowercase : string -> string.
Variable UsesDOSFileStructure : FSFormat -> bool.
Variable newDiskEntry : A2File -> DiskEntry.

(** The archive object: the world behind [fDiskImg], the members
    [fIsReadOnly] and [fpPrimaryDiskFS] (whether it is not [NULL]), the
    entries of the [GenericArchive] and its path name ([None] until
    [SetPathName]). *)
Record ArchiveState : Type := mkArchiveState {
  ar_world : W;
  fIsReadOnly : bool;
  fpPrimaryDiskFS : bool;
  ar_entries : list DiskEntry;
  fPathName : option string
}.

(** The calls that change the world, with what they answered, and the
    questions of [Open] about the volume, with the answers. *)
Inductive ArchiveCall : Type :=
| DidOpenImage (filename : string) (readOnly : bool) (dierr : DIError)
| DidAnalyzeImage (dierr : DIError)
| DidImageFormatDialog (imf : ImageFormat)
| DidOverrideFormat (format : FSFormat) (order : SectorOrder) (dierr : DIError)
| DidOpenAppropriateDiskFS (allowUnknown : option bool) (notNull : bool)
| DidSetScanForSubVolumes
| DidInitialize (dierr : DIError)
| DidLoadContents
| DidDeleteDiskFS
| DidSetParameter (parm : DiskFSParameter) (val : bool)
| DidCreateImageBlocks (fileName : string) (order : SectorOrder) (numBlocks : Z)
    (skipFormat : bool) (dierr : DIError)
| DidCreateImageTracks (fileName : string) (order : SectorOrder) (numTracks numSectors : Z)
    (skipFormat : bool) (dierr : DIError)
| DidSetDOSVolumeNum (volumeNum : Z)
| DidFormatImage (format : FSFormat) (volName : string) (dierr : DIError)
| AskedReadWriteSupported (answer : bool)
| AskedSubVolumes (answers : list bool)
| AskedFSDamaged (answer : bool)
| AskedReadOnly (answer : bool).

Notation "x <- m ;; k" := (andThen m (fun x => k))
  (at level 61, m at next level, right associativity).

Definition setWorld (w : W) (s : ArchiveState) : ArchiveState :=
  mkArchiveState w (fIsReadOnly s) (fpPrimaryDiskFS s) (ar_entries s) (fPathName s).

(** A call on [fDiskImg] or [fpPrimaryDiskFS] that answers; one that does
    not; and a question. *)
Definition onWorld {A : Type} (op : W -> A * W) (log : A -> ArchiveCall)
  : Run ArchiveState ArchiveCall A :=
  fun s => let (a, w') := op (ar_world s) in Some (a, setWorld w' s, [log a]).

Definition toWorld (op : W -> W) (log : ArchiveCall) : Run ArchiveState ArchiveCall unit :=
  fun s => Some (tt, setWorld (op (ar_world s)) s, [log]).

Definition ask {A : Type} (q : W -> A) (log : A -> ArchiveCall)
  : Run ArchiveState ArchiveCall A :=
  fun s => Some (q (ar_world s), s, [log (q (ar_world s))]).

Definition look {A : Type} (q : W -> A) : Run ArchiveState ArchiveCall A :=
  fun s => Some (q (ar_world s), s, []).

Definition setIsReadOnly (v : bool) : Run ArchiveState ArchiveCall unit :=
  fun s =>
    Some (tt, mkArchiveState (ar_world s) v (fpPrimaryDiskFS s) (ar_entries s) (fPathName s),
          []).

(** [GenericArchive::SetPathName]. *)
Definition setArchivePathName (v : string) : Run ArchiveState ArchiveCall unit :=
  fun s =>
    Some (tt,
          mkArchiveState (ar_world s) (fIsReadOnly s) (fpPrimaryDiskFS s) (ar_entries s)
            (Some v),
          []).

(** [fpPrimaryDiskFS = fDiskImg.OpenAppropriateDiskFS(...)]. *)
Definition doOpenAppropriateDiskFS (allowUnknown : option bool)
  : Run ArchiveState ArchiveCall bool :=
  fun s =>
    let (notNull, w') := OpenAppropriateDiskFS allowUnknown (ar_world s) in
    Some (notNull,
          mkArchiveState w' (fIsReadOnly s) notNull (ar_entries s) (fPathName s),
          [DidOpenAppropriateDiskFS allowUnknown notNull]).

(** [delete fpPrimaryDiskFS; fpPrimaryDiskFS = NULL]. *)
Definition deletePrimaryDiskFS : Run ArchiveState ArchiveCall unit :=
  fun s =>
    if fpPrimaryDiskFS s
    then Some (tt,
               mkArchiveState (DeleteDiskFS (ar_world s)) (fIsReadOnly s) false
                 (ar_entries s) (fPathName s),
               [DidDeleteDiskFS])
    else Some (tt, s, []).

(** [DiskArchive::LoadContents] here: the entries of [LoadDiskFSContents] on
    [fpPrimaryDiskFS] are added to the archive, and the result is 0
    ([LoadDiskFSContents] returns another value only when [new] yields
    [NULL]). *)
Definition doLoadContents : Run ArchiveState ArchiveCall Z :=
  fun s =>
    Some (0,
          mkArchiveState (ar_world s) (fIsReadOnly s) (fpPrimaryDiskFS s)
            (ar_entries s
             ++ LoadContents kDateNone wantCoerceDOSFilenames InjectLowercase
                  UsesDOSFileStructure newDiskEntry (contentsOf (ar_world s)))
            (fPathName s),
          [DidLoadContents]).

(** [DiskArchive::PreferencesChanged]. *)
Definition PreferencesChanged : Run ArchiveState ArchiveCall unit :=
  fun s =>
    if fpPrimaryDiskFS s
    then (_ <- toWorld (SetParameter kParmProDOS_AllowLowerCase kPrProDOSAllowLower)
                (DidSetParameter kParmProDOS_AllowLowerCase kPrProDOSAllowLower) ;;
          toWorld (SetParameter kParmProDOS_AllocSparse kPrProDOSUseSparse)
            (DidSetParameter kParmProDOS_AllocSparse kPrProDOSUseSparse)) s
    else Some (tt, s, []).

(** The code at the label [bail] of [Open]: [*pErrMsg] and the result. *)
Definition bailOpen (result : OpenResult) (errMsg : string)
  : Run ArchiveState ArchiveCall (OpenResult * string) :=
  if negb (IsEmpty errMsg)
  then _ <- deletePrimaryDiskFS ;; done (result, errMsg)
  else done (result, errMsg).

(** [Open] from "create an appropriate DiskFS object" on, with the test for
    an unknown format before it.  The progress dialog around [Initialize]
    is left out. *)
Definition Open_scan (filename : string)
  : Run ArchiveState ArchiveCall (OpenResult * string) :=
  format <- look GetImageFSFormat ;;
  order <- look GetSectorOrder ;;
  if FSFormat_eqb format kFormatUnknown || SectorOrder_eqb order kSectorOrderUnknown
  then bailOpen kResultFailure ("Unable to identify filesystem on '" ++ filename ++ "'")
  else
    (* create an appropriate DiskFS object *)
    notNull <- doOpenAppropriateDiskFS None ;;
    if negb notNull
    then bailOpen kResultFailure ("Format of '" ++ filename ++ "' not recognized.")
    else
      _ <- toWorld SetScanForSubVolumes DidSetScanForSubVolumes ;;
      dierr <- onWorld Initialize DidInitialize ;;
      if negb (isNone dierr) then
        if DIError_eqb dierr kDIErrCancelled then bailOpen kResultCancel EmptyString
        else bailOpen kResultFailure
               ("Error reading list of files from disk: " ++ DIStrError dierr)
      else
        r <- doLoadContents ;;
        if negb (r =? 0)
        then bailOpen kResultFailure "Failed while loading contents of disk image."
        else
          (* force read-only flag if underlying FS doesn't allow RW *)
          rw <- ask GetReadWriteSupported AskedReadWriteSupported ;;
          _ <- (if negb rw then
                  _ <- setIsReadOnly true ;;
                  pSubVol <- ask subVolumesReadWriteSupported AskedSubVolumes ;;
                  if anyReadWriteSupported pSubVol then setIsReadOnly false else done tt
                else done tt) ;;
          (* force read-only if the primary is damaged *)
          damaged <- ask GetFSDamaged AskedFSDamaged ;;
          _ <- (if damaged then setIsReadOnly true else done tt) ;;
          (* force read-only if the DiskImg thinks a wrapper is damaged *)
          ro <- ask GetReadOnly AskedReadOnly ;;
          _ <- (if ro then setIsReadOnly true else done tt) ;;
          _ <- setArchivePathName filename ;;
          _ <- PreferencesChanged ;;
          bailOpen kResultSuccess EmptyString.

(** [DiskArchive::Open]: the result and [*pErrMsg]. *)
Definition Open (filename : string) (readOnly : bool)
  : Run ArchiveState ArchiveCall (OpenResult * string) :=
  _ <- setIsReadOnly readOnly ;;
  (* special case for volume open *)
  let isVolume := isVolumeName filename in
  dierr <- onWorld (OpenImage filename readOnly) (DidOpenImage filename readOnly) ;;
  dierr <- (if DIError_eqb dierr kDIErrAccessDenied && negb readOnly && negb isVolume
            then
              (* retry file open with read-only set *)
              _ <- setIsReadOnly true ;;
              onWorld (OpenImage filename true) (DidOpenImage filename true)
            else done dierr) ;;
  if negb (isNone dierr) then
    if DIError_eqb dierr kDIErrFileArchive then bailOpen kResultFileArchive EmptyString
    else bailOpen kResultFailure
           ("Unable to open '" ++ filename ++ "': " ++ DIStrError dierr ++ ".")
  else
    dierr <- onWorld AnalyzeImage DidAnalyzeImage ;;
    if negb (isNone dierr)
    then bailOpen kResultFailure
           ("Analysis of '" ++ filename ++ "' failed: " ++ DIStrError dierr)
    else if kPrQueryImageFormat then
      (* allow them to override sector order and filesystem, if requested *)
      imf <- onWorld ImageFormatDialog DidImageFormatDialog ;;
      if negb (imf_ok imf) then bailOpen kResultCancel EmptyString
      else
        order <- look GetSectorOrder ;;
        format <- look GetImageFSFormat ;;
        if negb (SectorOrder_eqb (fSectorOrder imf) order)
           || negb (FSFormat_eqb (fFSFormat imf) format)
        then
          physical <- look GetPhysicalFormat ;;
          dierr <- onWorld (OverrideFormat physical (fFSFormat imf) (fSectorOrder imf))
                     (DidOverrideFormat (fFSFormat imf) (fSectorOrder imf)) ;;
          if negb (isNone dierr)
          then bailOpen kResultFailure
                 ("Unable to access disk image using selected parameters.  Error: "
                  ++ DIStrError dierr ++ ".")
          else Open_scan filename
        else Open_scan filename
    else Open_scan filename.

(** The [switch] of [New] on the format: [inl] is the message at a
    [goto bail]; [inr] holds [volName], [numBlocks], [numTracks] and
    [numSectors], which is [None] as long as nothing was assigned to it. *)
Definition newGeometry (pOptions : NewOptions)
  : string + (string * Z * Z * option Z) :=
  match base_format pOptions with
  | kFormatUnknown => inr (EmptyString, blank_numBlocks pOptions, -1, None)
  | kFormatProDOS => inr (prodos_volName pOptions, prodos_numBlocks pOptions, -1, None)
  | kFormatPascal => inr (pascalfs_volName pOptions, pascalfs_numBlocks pOptions, -1, None)
  | kFormatMacHFS => inr (hfs_volName pOptions, hfs_numBlocks pOptions, -1, None)
  | kFormatDOS32 =>
      let numTracks := dos_numTracks pOptions in
      let numSectors := dos_numSectors pOptions in
      if (numTracks <? kMinTracks) || (kMaxTracks <? numTracks)
      then inl "Invalid DOS32 track count"
      else if negb (numSectors =? 13)
      then inl "Invalid DOS32 sector count"
      else inr (if dos_allocDOSTracks pOptions then "DOS" else EmptyString,
                -1, numTracks, Some numSectors)
  | kFormatDOS33 =>
      let numTracks := dos_numTracks pOptions in
      let numSectors := dos_numSectors pOptions in
      if (numTracks <? kMinTracks) || (kMaxTracks <? numTracks)
      then inl "Invalid DOS33 track count"
      else if negb (numSectors =? 16) && negb (numSectors =? 32)   (* no 13-sector (yet) *)
      then inl "Invalid DOS33 sector count"
      else inr (if dos_allocDOSTracks pOptions then "DOS" else EmptyString,
                -1, numTracks, Some numSectors)
  | _ => inl "Unsupported disk format"
  end.

(** [New] from the label [skip_format] on. *)
Definition New_skip_format (fileName : string) : Run ArchiveState ArchiveCall string :=
  _ <- setArchivePathName fileName ;;
  (* set any preferences-based settings *)
  _ <- PreferencesChanged ;;
  done EmptyString.

(** [DiskArchive::New]: the message it returns.  Where the code hands the
    [numSectors] that nothing was assigned to on to [CreateImage], the model
    stops. *)
Definition New (fileName : string) (pOptions : NewOptions)
  : Run ArchiveState ArchiveCall string :=
  let allowLowerCase := kPrProDOSAllowLower in
  match newGeometry pOptions with
  | inl retmsg => done retmsg
  | inr (volName, numBlocks, numTracks, numSectors) =>
      let canSkipFormat := if IsWin9x then false else true in
      dierr <- (if 0 <? numBlocks
                then onWorld
                       (CreateImageBlocks fileName (base_sectorOrder pOptions) numBlocks
                          canSkipFormat)
                       (DidCreateImageBlocks fileName (base_sectorOrder pOptions) numBlocks
                          canSkipFormat)
                else
                  match numSectors with
                  | None => stuck
                  | Some numSectors =>
                      onWorld
                        (CreateImageTracks fileName (base_sectorOrder pOptions) numTracks
                           numSectors canSkipFormat)
                        (DidCreateImageTracks fileName (base_sectorOrder pOptions) numTracks
                           numSectors canSkipFormat)
                  end) ;;
      if negb (isNone dierr)
      then done ("Unable to create disk image: " ++ DIStrError dierr ++ ".")%string
      else if FSFormat_eqb (base_format pOptions) kFormatUnknown
      then New_skip_format fileName
      else
        _ <- (if FSFormat_eqb (base_format pOptions) kFormatDOS33
                 || FSFormat_eqb (base_format pOptions) kFormatDOS32
              then toWorld (SetDOSVolumeNum (dos_volumeNum pOptions))
                     (DidSetDOSVolumeNum (dos_volumeNum pOptions))
              else done tt) ;;
        let volName :=
          if FSFormat_eqb (base_format pOptions) kFormatProDOS && negb allowLowerCase
          then MakeUpper volName else volName in
        (* format it *)
        dierr <- onWorld (FormatImage (base_format pOptions) volName)
                   (DidFormatImage (base_format pOptions) volName) ;;
        if negb (isNone dierr)
        then done ("Unable to format disk image: " ++ DIStrError dierr ++ ".")%string
        else
          notNull <- doOpenAppropriateDiskFS (Some false) ;;
          if negb notNull then done "Unable to create DiskFS."
          else
            (* prep it *)
            dierr <- onWorld Initialize DidInitialize ;;
            if negb (isNone dierr)
            then done ("Error reading list of files from disk: " ++ DIStrError dierr)%string
            else
              (* this is pretty meaningless, but do it to ensure we're initialized *)
              r <- doLoadContents ;;
              if negb (r =? 0) then done "Failed while loading contents of disk image."
              else New_skip_format fileName
  end.

End Archive.

(** Examples: a world with nothing to remember, where every operation
    succeeds, except that the image is denied to an open for writing when
    [denied] is set; the volume supports writing when [rw] is set, and its
    sub-volumes are [subVolumes]. *)
Definition exampleAccessDenied : DIError := kDIErrOther (-13).

Definition exampleOpenImage (denied : bool) (filename : string) (readOnly : bool) (w : unit)
  : DIError * unit :=
  (if denied && negb readOnly then exampleAccessDenied else kDIErrNone, tt).

Definition exampleSucceeds (w : unit) : DIError * unit := (kDIErrNone, tt).

Definition exampleOpenArchive (denied rw : bool) (subVolumes : list bool)
    (filename : string) (readOnly : bool)
  : Run (ArchiveState unit) ArchiveCall (OpenResult * string) :=
  Open (exampleOpenImage denied) exampleSucceeds
    (fun w => (mkImageFormat true (kSectorOrderOther 1) kFormatProDOS, tt))
    (fun _ => kSectorOrderOther 1) (fun _ => kFormatProDOS) (fun _ => tt)
    (fun _ _ _ => exampleSucceeds) (fun _ w => (true, w)) (fun w => w) exampleSucceeds
    (fun _ => exampleVolume) (fun _ => rw) (fun _ => subVolumes) (fun _ => false)
    (fun _ => false) (fun w => w) (fun _ _ w => w) exampleDIStrError exampleAccessDenied
    (kDIErrOther (-14)) (kDIErrOther (-15)) false true true 1 false (fun name => name)
    exampleUsesDOS exampleNewDiskEntry filename readOnly.

Definition exampleNewArchive (fileName : string) (pOptions : NewOptions)
  : Run (ArchiveState unit) ArchiveCall string :=
  New (fun _ w => (true, w)) exampleSucceeds (fun _ => exampleVolume) (fun _ _ w => w)
    (fun _ _ _ _ => exampleSucceeds) (fun _ _ _ _ _ => exampleSucceeds) (fun _ w => w)
    (fun _ _ => exampleSucceeds) exampleDIStrError true true 17 50 (fun name => name) false 1
    false (fun name => name) exampleUsesDOS exampleNewDiskEntry fileName pOptions.

(** A request for a DOS 3.3 image of [numTracks] tracks of [numSectors]
    sectors, and one for a ProDOS image of [numBlocks] blocks. *)
Definition exampleDOS33 (numTracks numSectors : Z) : NewOptions :=
  mkNewOptions kFormatDOS33 (kSectorOrderOther 1) 0 EmptyString 0 EmptyString 0 EmptyString 0
    254 numTracks numSectors true.

Definition examplePRODOS (volName : string) (numBlocks : Z) : NewOptions :=
  mkNewOptions kFormatProDOS (kSectorOrderOther 1) 0 volName numBlocks EmptyString 0
    EmptyString 0 0 0 0 false.

Definition freshArchive : ArchiveState unit := mkArchiveState tt false false [] None.

(** ** Renaming: [DiskArchive::GetCapability],
       [DiskArchive::SetRenameFields] and [DiskArchive::RenameSelection] *)

(** [GenericArchive::Capability]: the enumerators of the [switch], and any
    other value. *)
Inductive Capability : Type :=
| kCapCanTest
| kCapCanRenameFullPath
| kCapCanRecompress
| kCapCanEditComment
| kCapCanAddDisk
| kCapCanConvEOLOnAdd
| kCapCanCreateSubdir
| kCapCanRenameVolume
| kCapOther (n : Z).

(** [DiskArchive::GetCapability]; as a [long], [false] is 0 and [true]
    is 1. *)
Definition GetCapability (cap : Capability) : Z :=
  match cap with
  | kCapCanTest => 0
  | kCapCanRenameFullPath => 0
  | kCapCanRecompress => 0
  | kCapCanEditComment => 0
  | kCapCanAddDisk => 0
  | kCapCanConvEOLOnAdd => 1
  | kCapCanCreateSubdir => 1
  | kCapCanRenameVolume => 1
  | kCapOther _ => -1
  end.

(** What [SetRenameFields] leaves in a [RenameEntryDialog]. *)
Record RenameEntryDialog : Type := mkRenameEntryDialog {
  fCanRenameFullPath : bool;
  fOldName : string;
  fFssep : Z;
  fpEntry : DiskEntry
}.

(** The value of [DoModal()]: [IDOK], [IDCANCEL] or [IDIGNORE]. *)
Inductive ModalResult : Type :=
| ModalOK
| ModalCancel
| ModalIgnore.

(** What the user does with the dialog: the value of [DoModal()] and the
    name left in [fNewName]. *)
Record RenameAnswer : Type := mkRenameAnswer {
  rn_result : ModalResult;
  fNewName : string
}.

Section Rename.

(** The driver behind the files ([pFile->GetDiskFS()] and what it is asked),
    [InternalReload] (0 on success) and [DIStrError]. *)
Variable FS : Type.
Variable RenameFile : A2File -> string -> FS -> DIError * FS.
Variable GetReadWriteSupported : A2File -> FS -> bool.
Variable GetFSDamaged : A2File -> FS -> bool.
Variable InternalReload : FS -> Z * FS.
Variable DIStrError : DIError -> string.

(** The driver, and the answers the user is going to give to the dialogs
    still to come. *)
Record RenameState : Type := mkRenameState {
  rn_pDiskFS : FS;
  rn_answers : list RenameAnswer
}.

Inductive RenameCall : Type :=
| DidShowFailureMsg (msg : string)
| DidRenameDialog (dlg : RenameEntryDialog) (answer : RenameAnswer)
| DidRenameFile (pFile : A2File) (newName : string) (dierr : DIError)
| DidInternalReload (result : Z).

Notation "x <- m ;; k" := (andThen m (fun x => k))
  (at level 61, m at next level, right associativity).

Definition ShowFailureMsg (msg : string) : Run RenameState RenameCall unit :=
  fun s => Some (tt, s, [DidShowFailureMsg msg]).

Definition askDriver {A : Type} (q : FS -> A) : Run RenameState RenameCall A :=
  fun s => Some (q (rn_pDiskFS s), s, []).

(** [renameDlg.DoModal()]: the next answer of the user; the model stops when
    there is none. *)
Definition DoModal (renameDlg : RenameEntryDialog)
  : Run RenameState RenameCall RenameAnswer :=
  fun s =>
    match rn_answers s with
    | [] => None
    | answer :: rest =>
        Some (answer, mkRenameState (rn_pDiskFS s) rest, [DidRenameDialog renameDlg answer])
    end.

Definition doRenameFile (pFile : A2File) (newName : string)
  : Run RenameState RenameCall DIError :=
  fun s =>
    let (dierr, fs') := RenameFile pFile newName (rn_pDiskFS s) in
    Some (dierr, mkRenameState fs' (rn_answers s), [DidRenameFile pFile newName dierr]).

Definition doInternalReload : Run RenameState RenameCall Z :=
  fun s =>
    let (r, fs') := InternalReload (rn_pDiskFS s) in
    Some (r, mkRenameState fs' (rn_answers s), [DidInternalReload r]).

(** [DiskArchive::SetRenameFields]: [Some] of the dialog as it is set up
    when it returns [true], [None] when it returns [false]. *)
Definition SetRenameFields (pEntry : DiskEntry)
  : Run RenameState RenameCall (option RenameEntryDialog) :=
  (* figure out if we're allowed to change the entire path *)
  let cap := GetCapability kCapCanRenameFullPath in
  let renameFullPath := negb (cap =? 0) in
  match GetA2File pEntry with
  | None => stuck
  | Some pFile =>
      (* make sure rename is allowed *)
      rw <- askDriver (GetReadWriteSupported pFile) ;;
      if negb rw then
        _ <- ShowFailureMsg ("Unable to rename '" ++ GetEntryPathName pEntry
                             ++ "': operation not supported.") ;;
        done None
      else
        damaged <- askDriver (GetFSDamaged pFile) ;;
        if damaged then
          _ <- ShowFailureMsg ("Unable to rename '" ++ GetEntryPathName pEntry
                               ++ "': the disk it's on appears to be damaged.") ;;
          done None
        else
          done (Some (mkRenameEntryDialog renameFullPath (GetEntryPathName pEntry)
                        (GetEntryFssep pEntry) pEntry))
  end.

(** The loop of [RenameSelection] over the selection: [false] at the
    [goto bail], [true] when the loop is left otherwise. *)
Fixpoint renameLoop (pSelSet : list DiskEntry) : Run RenameState RenameCall bool :=
  match pSelSet with
  | [] => done true
  | pEntry :: rest =>
      renameDlg <- SetRenameFields pEntry ;;
      match renameDlg with
      | None => done true
      | Some renameDlg =>
          match GetA2File pEntry with
          | None => stuck
          | Some pFile =>
              answer <- (if IsVolumeDirectory pFile
                         then (* don't allow rename of volume dir *)
                           done (mkRenameAnswer ModalIgnore EmptyString)
                         else DoModal renameDlg) ;;
              match rn_result answer with
              | ModalOK =>
                  dierr <- doRenameFile pFile (fNewName answer) ;;
                  if negb (isNone dierr) then
                    _ <- ShowFailureMsg ("Unable to rename '" ++ GetEntryPathName pEntry
                                         ++ "' to '" ++ fNewName answer ++ "': "
                                         ++ DIStrError dierr ++ ".") ;;
                    done false
                  else renameLoop rest
              | ModalCancel => done true
              | ModalIgnore =>
                  (* 3rd possibility is IDIGNORE, i.e. skip this entry *)
                  renameLoop rest
              end
          end
      end
  end.

(** [DiskArchive::RenameSelection]. *)
Definition RenameSelection (pSelSet : list DiskEntry) : Run RenameState RenameCall bool :=
  reload <- renameLoop pSelSet ;;
  if reload then
    (* reload GenericArchive from disk image *)
    r <- doInternalReload ;;
    done (r =? 0)
  else done false.

End Rename.

(** Examples for a rename: a driver that is the list of the names of its
    files, and refuses the name "BAD". *)
Definition exampleRenameFile (pFile : A2File) (newName : string) (fs : list string)
  : DIError * list string :=
  if String.eqb newName "BAD" then (kDIErrOther (-20), fs)
  else (kDIErrNone,
        map (fun name => if String.eqb name (GetPathName pFile) then newName else name) fs).

Definition exampleRenameSelection (pSelSet : list DiskEntry)
  : Run (RenameState (list string)) RenameCall bool :=
  RenameSelection exampleRenameFile (fun _ _ => true) (fun _ _ => false)
    (fun fs => (0, fs)) exampleDIStrError pSelSet.

(** ** Transferring a selection: [DiskArchive::XferSelection] *)

(** [GenericArchive::XferStatus]. *)
Inductive XferStatus : Type :=
| kXferOK
| kXferFailed
| kXferCancelled.

(** [CString::Replace(chOld, chNew)]: every [chOld] becomes [chNew]. *)
Fixpoint Replace (chOld chNew : ascii) (s : string) : string :=
  match s with
  | EmptyString => EmptyString
  | String c rest =>
      String (if Ascii.eqb c chOld then chNew else c) (Replace chOld chNew rest)
  end.

Definition setEntryKind (v : FileKind) (d : FileDetails) : FileDetails :=
  mkFileDetails v (origName d) (storageName d) (fileSysFmt d) (fileSysInfo d) (fd_access d)
    (fd_fileType d) (extraType d) (fd_storageType d) (fd_createWhen d) (fd_modWhen d).

Definition setDetailsFileType (v : Z) (d : FileDetails) : FileDetails :=
  mkFileDetails (entryKind d) (origName d) (storageName d) (fileSysFmt d) (fileSysInfo d)
    (fd_access d) v (extraType d) (fd_storageType d) (fd_createWhen d) (fd_modWhen d).

Definition setDetailsAccess (v : Z) (d : FileDetails) : FileDetails :=
  mkFileDetails (entryKind d) (origName d) (storageName d) (fileSysFmt d) (fileSysInfo d) v
    (fd_fileType d) (extraType d) (fd_storageType d) (fd_createWhen d) (fd_modWhen d).

Section TransferOut.

(** The source of the transfer, as in the section [Reader]; the target
    archive [pXferOpts->fTarget], of a state [Target], with its four
    methods ([XferFile] answers its message and what it left in the two
    buffers); and, declared outside this file: [SelectionSet::
    CountMatchingPrefix], [DiskEntry::GetFSFormat],
    [GenericEntry::GetDisplayName], [PathProposal::kDefaultStoredFssep],
    [GenericEntry::kAccessInvisible], [UNIXTimeToDateTime], the
    [FileDetails] as its constructor leaves it, and the byte that a buffer
    holds before anything is stored in it. *)
Variable World : Type.
Variable A2FileDescr : Type.
Variable Open : A2File -> bool -> bool -> World -> DIError * option A2FileDescr * World.
Variable Read : A2FileDescr -> Z -> World -> DIError * list Z * World.
Variable Close : A2FileDescr -> World -> DIError * World.
Variable alloc : Z -> bool.
Variable DIStrError : DIError -> string.
Variable kDIErrCancelled : DIError.
Variable Target : Type.
Variable XferPrepare : Target -> Target.
Variable XferFile :
  FileDetails -> option (list Z) -> Z -> option (list Z) -> Z -> Target ->
  string * option (list Z) * option (list Z) * Target.
Variable XferAbort : Target -> Target.
Variable XferFinish : Target -> Target.
Variable CountMatchingPrefix : list DiskEntry -> string -> Z.
Variable GetEntryFSFormat : DiskEntry -> FSFormat.
Variable GetDisplayName : DiskEntry -> string.
Variable kDefaultStoredFssep : ascii.
Variable kAccessInvisible : Z.
Variable UNIXTimeToDateTime : Z -> Z.
Variable newFileDetails : FileDetails.
Variable uninitialised : Z.

(** The two archives, and the answers [SetProgress] is going to give:
    whether it is [IDCANCEL]. *)
Record XferState : Type := mkXferState {
  xs_source : World;
  xs_target : Target;
  xs_progress : list bool
}.

Inductive XferCall : Type :=
| FromSource (c : ReaderCall A2FileDescr)
| DidXferPrepare
| DidXferFile (pDetails : FileDetails) (dataBuf : option (list Z)) (dataLen : Z)
    (rsrcBuf : option (list Z)) (rsrcLen : Z) (errMsg : string)
| DidXferAbort
| DidXferFinish
| DidSetProgress (perc : Z) (cancelled : bool)
| DidShowXferFailure (msg : string).

(** Calls of a transfer, by kind: a [Read] that answered "cancelled", a
    [SetProgress] that answered [IDCANCEL], a failure shown to the user, an
    [XferFile] that answered a message, and the three calls that open and
    close a transfer. *)
Definition isReadCancelled (c : XferCall) : bool :=
  match c with
  | FromSource (DidRead _ _ dierr _) => DIError_eqb dierr kDIErrCancelled
  | _ => false
  end.

Definition isProgressCancelled (c : XferCall) : bool :=
  match c with
  | DidSetProgress _ cancelled => cancelled
  | _ => false
  end.

Definition isFailureShown (c : XferCall) : bool :=
  match c with
  | DidShowXferFailure _ => true
  | _ => false
  end.

Definition isRefused (c : XferCall) : bool :=
  match c with
  | DidXferFile _ _ _ _ _ errMsg => negb (IsEmpty errMsg)
  | _ => false
  end.

Definition isBracket (c : XferCall) : bool :=
  match c with
  | DidXferPrepare | DidXferAbort | DidXferFinish => true
  | _ => false
  end.

Definition isHandOver (c : XferCall) : bool :=
  match c with
  | DidXferFile _ _ _ _ _ _ => true
  | _ => false
  end.

Notation "x <- m ;; k" := (andThen m (fun x => k))
  (at level 61, m at next level, right associativity).

(** A run on the source, as a run of the transfer. *)
Definition fromSource {A : Type} (m : R World A2FileDescr A) : Run XferState XferCall A :=
  fun s =>
    match m (xs_source s) with
    | None => None
    | Some (a, w', calls) =>
        Some (a, mkXferState w' (xs_target s) (xs_progress s), map FromSource calls)
    end.

Definition onTarget (op : Target -> Target) (log : XferCall) : Run XferState XferCall unit :=
  fun s => Some (tt, mkXferState (xs_source s) (op (xs_target s)) (xs_progress s), [log]).

Definition doXferFile (pDetails : FileDetails) (dataBuf : option (list Z)) (dataLen : Z)
    (rsrcBuf : option (list Z)) (rsrcLen : Z)
  : Run XferState XferCall (string * option (list Z) * option (list Z)) :=
  fun s =>
    let '(errMsg, dataBuf', rsrcBuf', t') :=
      XferFile pDetails dataBuf dataLen rsrcBuf rsrcLen (xs_target s) in
    Some ((errMsg, dataBuf', rsrcBuf'), mkXferState (xs_source s) t' (xs_progress s),
          [DidXferFile pDetails dataBuf dataLen rsrcBuf rsrcLen errMsg]).

(** [pActionProgress->SetProgress(perc) == IDCANCEL]: the next answer; the
    model stops when there is none. *)
Definition SetProgress (perc : Z) : Run XferState XferCall bool :=
  fun s =>
    match xs_progress s with
    | [] => None
    | cancelled :: rest =>
        Some (cancelled, mkXferState (xs_source s) (xs_target s) rest,
              [DidSetProgress perc cancelled])
    end.

Definition ShowXferFailure (msg : string) : Run XferState XferCall unit :=
  fun s => Some (tt, s, [DidShowXferFailure msg]).

(** The path under which an entry is handed over: "(no filename)" for an
    empty path; outside ProDOS the stored separator becomes a period; the
    name of the sub-volume, if any, goes in front with a separator. *)
Definition fixedPathName (pEntry : DiskEntry) : string :=
  let fixedPathName := GetEntryPathName pEntry in
  let fixedPathName :=
    if IsEmpty fixedPathName then "(no filename)" else fixedPathName in
  let fixedPathName :=
    if negb (FSFormat_eqb (GetEntryFSFormat pEntry) kFormatProDOS)
    then Replace kDefaultStoredFssep "." fixedPathName else fixedPathName in
  match GetSubVolName pEntry with
  | Some subVolName => (subVolName ++ String kDefaultStoredFssep fixedPathName)%string
  | None => fixedPathName
  end.

Definition RecordKind_eqb (a b : RecordKind) : bool :=
  match a, b with
  | kRecordKindFile, kRecordKindFile
  | kRecordKindForkedFile, kRecordKindForkedFile
  | kRecordKindDirectory, kRecordKindDirectory
  | kRecordKindVolumeDir, kRecordKindVolumeDir => true
  | _, _ => false
  end.

(** The loop body from the label [have_stuff2] on: the rest of the
    details, the progress and the hand-over.  [inl] is the value of
    [retval] at a [goto bail]; [inr] the details and [rsrcBuf] as the next
    turn of the loop finds them. *)
Definition have_stuff2 (pEntry : DiskEntry) (fileDetails : FileDetails)
    (dataBuf : option (list Z)) (dataLen : Z) (rsrcBuf : option (list Z)) (rsrcLen : Z)
  : Run XferState XferCall (XferStatus + FileDetails * option (list Z)) :=
  let fileDetails :=
    mkFileDetails (entryKind fileDetails) (origName fileDetails) (storageName fileDetails)
      (GetSourceFS pEntry) (Z.of_N (N_of_ascii kDefaultStoredFssep)) (fd_access fileDetails)
      (fd_fileType fileDetails) (GetEntryAuxType pEntry)
      kNuStorageUnknown   (* let NufxLib deal *)
      (UNIXTimeToDateTime (GetEntryCreateWhen pEntry))
      (UNIXTimeToDateTime (GetEntryModWhen pEntry)) in
  cancelled <- SetProgress 0 ;;
  if cancelled then done (inl kXferCancelled)
  else
    r <- doXferFile fileDetails dataBuf dataLen rsrcBuf rsrcLen ;;
    let '(errMsg, dataBuf, rsrcBuf) := r in
    if negb (IsEmpty errMsg) then
      _ <- ShowXferFailure ("Failed while transferring '" ++ GetDisplayName pEntry
                            ++ "': " ++ errMsg ++ ".") ;;
      done (inl kXferFailed)
    else
      cancelled <- SetProgress 100 ;;
      if cancelled then done (inl kXferCancelled)
      else done (inr (fileDetails, rsrcBuf)).

(** One fork for the hand-over: [inl] is [retval] at a [goto bail]. *)
Definition extractFork (pEntry : DiskEntry) (which : ThreadKind)
  : Run XferState XferCall (XferStatus + option (list Z) * Z) :=
  out <- fromSource (ExtractThreadToBuffer Open Read Close alloc DIStrError kDIErrCancelled
                       pEntry which None 0) ;;
  match x_result out with
  | IDCANCEL => done (inl kXferFailed)   (* abort anything that was pending *)
  | IDOK => done (inr (x_ppText out, x_pLength out))
  | ExtractFailed =>
      _ <- ShowXferFailure ("Failed while extracting '" ++ fixedPathName pEntry ++ "': "
                            ++ x_pErrMsg out ++ ".") ;;
      done (inl kXferFailed)
  end.

(** The body of the loop of [XferSelection] for one entry; [pSelSet] is
    the whole selection. *)
Definition xferEntry (fPreserveEmptyFolders : bool) (pSelSet : list DiskEntry)
    (pEntry : DiskEntry) (fileDetails : FileDetails) (rsrcBuf : option (list Z))
  : Run XferState XferCall (XferStatus + FileDetails * option (list Z)) :=
  let skip := done (inr (fileDetails, rsrcBuf)) in
  if GetDamaged pEntry then skip
  else
    let fixedPathName := fixedPathName pEntry in
    if RecordKind_eqb (GetRecordKind pEntry) kRecordKindVolumeDir then
      (* this is the volume dir *)
      skip
    else if RecordKind_eqb (GetRecordKind pEntry) kRecordKindDirectory then
      let cmpStr := (fixedPathName ++ String kDefaultStoredFssep EmptyString)%string in
      if fPreserveEmptyFolders && (CountMatchingPrefix pSelSet cmpStr =? 0) then
        (* if this is an empty directory, create a fake entry *)
        let cmpStr := (cmpStr ++ kEmptyFolderMarker)%string in
        let dataBuf := Some [uninitialised] in
        let dataLen := 0 in
        let fileDetails := setEntryKind kFileKindDataFork fileDetails in
        let fileDetails := setStorageName cmpStr fileDetails in
        let fileDetails := setDetailsFileType 0 fileDetails in   (* NON *)
        let fileDetails :=
          setDetailsAccess (Z.lor (GetEntryAccess pEntry) kAccessInvisible) fileDetails in
        have_stuff2 pEntry fileDetails dataBuf dataLen rsrcBuf (-1)
      else skip
    else
      data <- extractFork pEntry kDataThread ;;
      match data with
      | inl retval => done (inl retval)
      | inr (dataBuf, dataLen) =>
          rsrc <- (if GetHasRsrcFork pEntry then extractFork pEntry kRsrcThread
                   else done (inr (rsrcBuf, -1))) ;;
          match rsrc with
          | inl retval => done (inl retval)
          | inr (rsrcBuf, rsrcLen) =>
              let fileDetails :=
                setEntryKind
                  (if GetHasDataFork pEntry && GetHasRsrcFork pEntry then kFileKindBothForks
                   else if GetHasDataFork pEntry then kFileKindDataFork
                   else if GetHasRsrcFork pEntry then kFileKindRsrcFork
                   else kFileKindUnknown)
                  fileDetails in
              (* set up the FileDetails *)
              let fileDetails := setStorageName fixedPathName fileDetails in
              let fileDetails := setDetailsFileType (GetEntryFileType pEntry) fileDetails in
              let fileDetails := setDetailsAccess (GetEntryAccess pEntry) fileDetails in
              have_stuff2 pEntry fileDetails dataBuf dataLen rsrcBuf rsrcLen
          end
      end.

(** The loop of [XferSelection] over what is left of the selection:
    [retval] as the code at [bail] finds it. *)
Fixpoint xferLoop (fPreserveEmptyFolders : bool) (pSelSet : list DiskEntry)
    (remaining : list DiskEntry) (fileDetails : FileDetails) (rsrcBuf : option (list Z))
  : Run XferState XferCall XferStatus :=
  match remaining with
  | [] => done kXferOK
  | pEntry :: rest =>
      r <- xferEntry fPreserveEmptyFolders pSelSet pEntry fileDetails rsrcBuf ;;
      match r with
      | inl retval => done retval
      | inr (fileDetails, rsrcBuf) =>
          xferLoop fPreserveEmptyFolders pSelSet rest fileDetails rsrcBuf
      end
  end.

(** [DiskArchive::XferSelection]. *)
Definition XferSelection (pSelSet : list DiskEntry) (fPreserveEmptyFolders : bool)
  : Run XferState XferCall XferStatus :=
  _ <- onTarget XferPrepare DidXferPrepare ;;
  retval <- xferLoop fPreserveEmptyFolders pSelSet pSelSet newFileDetails None ;;
  _ <- (match retval with
        | kXferOK => onTarget XferFinish DidXferFinish
        | _ => onTarget XferAbort DidXferAbort
        end) ;;
  done retval.

End TransferOut.

Arguments DidXferPrepare {A2FileDescr}.
Arguments DidXferFile {A2FileDescr} pDetails dataBuf dataLen rsrcBuf rsrcLen errMsg.
Arguments DidXferAbort {A2FileDescr}.
Arguments DidXferFinish {A2FileDescr}.
Arguments DidSetProgress {A2FileDescr} perc cancelled.
Arguments DidShowXferFailure {A2FileDescr} msg.

(** Examples for a transfer: a target that is the list of the storage
    names handed to it and refuses nothing, and the transfer of a selection
    from the example source, whose [Read] answers [readAnswer], with
    [kDIErrOther (-8)] for "cancelled". *)
Definition exampleTargetXferFile (pDetails : FileDetails) (dataBuf : option (list Z))
    (dataLen : Z) (rsrcBuf : option (list Z)) (rsrcLen : Z) (t : list string)
  : string * option (list Z) * option (list Z) * list string :=
  (EmptyString, None, None, t ++ [storageName pDetails]).

Definition exampleXferSelection (readAnswer : DIError) (pSelSet : list DiskEntry)
    (fPreserveEmptyFolders : bool)
  : Run (XferState (list Z) (list string)) (XferCall nat) XferStatus :=
  XferSelection exampleReaderOpen (exampleRead readAnswer [72; 73; 13]) exampleSeek
    (fun _ => true) exampleDIStrError (kDIErrOther (-8)) (fun t => t) exampleTargetXferFile
    (fun t => t) (fun t => t) (fun _ _ => 0) (fun _ => kFormatProDOS) GetEntryPathName
    ":"%char 0x04 (fun t => t) (detailsNamed EmptyString) 0 pSelSet fPreserveEmptyFolders.

(** * Properties *)

(** ** The pending-add list *)


























(** ** The catalog loader *)

(** Induction on a volume, with the property known of its sub-volumes. *)
Lemma DiskFS_nested_ind (P : DiskFS -> Prop) :
  (forall name files subVolumes,
      Forall P subVolumes -> P (mkDiskFS name files subVolumes)) ->
  forall pDiskFS, P pDiskFS.
Proof.
  intros H. fix IH 1. intros [name files subVolumes]. apply H.
  induction subVolumes as [|pSubVol rest IHrest].
  - constructor.
  - constructor; [apply IH | exact IHrest].
Qed.

Section LoaderFacts.

Variable kDateNone : Z.
Variable wantCoerceDOSFilenames : bool.
Variable InjectLowercase : string -> string.
Variable UsesDOSFileStructure : FSFormat -> bool.
Variable newDiskEntry : A2File -> DiskEntry.

Local Abbreviation loadEntry' :=
  (loadEntry kDateNone wantCoerceDOSFilenames InjectLowercase UsesDOSFileStructure
     newDiskEntry).
Local Abbreviation LoadDiskFSContents' :=
  (LoadDiskFSContents kDateNone wantCoerceDOSFilenames InjectLowercase
     UsesDOSFileStructure newDiskEntry).

(** The record kind of a loaded entry, read off the driver's answers. *)
Lemma loadEntry_RecordKind (volName : string) (pFile : A2File) :
  GetRecordKind (loadEntry' volName pFile) =
  if IsVolumeDirectory pFile then kRecordKindVolumeDir
  else if IsDirectory pFile then kRecordKindDirectory
  else if 0 <=? GetRsrcLength pFile then kRecordKindForkedFile
  else kRecordKindFile.
Proof.
  unfold loadEntry.
  destruct (IsVolumeDirectory pFile); [|destruct (IsDirectory pFile);
    [|destruct (0 <=? GetRsrcLength pFile)]];
    cbv zeta; destruct (GetFSFormat pFile); reflexivity.
Qed.

(** The entry's own resource-fork fields are written in the forked branch
    only. *)
Lemma loadEntry_RsrcForkLen (volName : string) (pFile : A2File) :
  GetRsrcForkLen (loadEntry' volName pFile) =
  if negb (IsVolumeDirectory pFile) && negb (IsDirectory pFile)
     && (0 <=? GetRsrcLength pFile)
  then GetRsrcLength pFile
  else GetRsrcForkLen (newDiskEntry pFile).
Proof.
  unfold loadEntry.
  destruct (IsVolumeDirectory pFile); [|destruct (IsDirectory pFile);
    [|destruct (0 <=? GetRsrcLength pFile)]];
    cbv zeta;
    destruct (GetFSFormat pFile), (GetCreateWhen pFile =? 0), (GetModWhen pFile =? 0),
      (IsEmpty volName); reflexivity.
Qed.

Lemma loadEntry_HasRsrcFork (volName : string) (pFile : A2File) :
  GetHasRsrcFork (loadEntry' volName pFile) =
  if negb (IsVolumeDirectory pFile) && negb (IsDirectory pFile)
     && (0 <=? GetRsrcLength pFile)
  then true
  else GetHasRsrcFork (newDiskEntry pFile).
Proof.
  unfold loadEntry.
  destruct (IsVolumeDirectory pFile); [|destruct (IsDirectory pFile);
    [|destruct (0 <=? GetRsrcLength pFile)]];
    cbv zeta;
    destruct (GetFSFormat pFile), (GetCreateWhen pFile =? 0), (GetModWhen pFile =? 0),
      (IsEmpty volName); reflexivity.
Qed.

Lemma loadEntry_SubVolName (volName : string) (pFile : A2File) :
  GetSubVolName (loadEntry' volName pFile) =
  if IsEmpty volName then GetSubVolName (newDiskEntry pFile) else Some volName.
Proof.
  unfold loadEntry.
  destruct (IsVolumeDirectory pFile); [|destruct (IsDirectory pFile);
    [|destruct (0 <=? GetRsrcLength pFile)]];
    cbv zeta;
    destruct (GetFSFormat pFile), (GetCreateWhen pFile =? 0), (GetModWhen pFile =? 0),
      (IsEmpty volName); reflexivity.
Qed.

(** Every entry of the catalog comes from a file of the volume or of a
    volume nested in it. *)
Lemma LoadDiskFSContents_from_file (pDiskFS : DiskFS) :
  forall (volName : string) (e : DiskEntry),
    In e (LoadDiskFSContents' pDiskFS volName) ->
    exists (pFile : A2File) (vol : string),
      In pFile (allFiles pDiskFS) /\ e = loadEntry' vol pFile.
Proof.
  induction pDiskFS as [name files subVolumes IH] using DiskFS_nested_ind.
  intros volName e. simpl.
  rewrite in_app_iff. intros [Hin|Hin].
  - apply in_map_iff in Hin. destruct Hin as [f [<- Hf]].
    exists f, volName. split; [apply in_or_app; left; exact Hf | reflexivity].
  - induction IH as [|pSubVol rest Hsub _ IHrest]; simpl in Hin.
    + destruct Hin.
    + apply in_app_iff in Hin. destruct Hin as [Hin|Hin].
      * destruct (Hsub _ _ Hin) as [f [vol [Hf He]]].
        exists f, vol. split; [|exact He].
        apply in_or_app. right. apply in_or_app. left. exact Hf.
      * destruct (IHrest Hin) as [f [vol [Hf He]]].
        exists f, vol. split; [|exact He].
        apply in_app_iff in Hf. destruct Hf as [Hf|Hf].
        -- apply in_or_app. left. exact Hf.
        -- apply in_or_app. right. apply in_or_app. right. exact Hf.
Qed.

(** C2.  The record kind and the resource-fork length of a loaded entry.
    The loader writes the entry's resource-fork length in one place only,
    for a forked file, where it is the length the driver reports, which is
    >= 0 there; for a volume directory, a directory and a plain file the
    entry keeps the length that [new DiskEntry(pFile)] gave it.  So with a
    fresh entry that holds [freshRsrcForkLen], the -1 of an absent fork,
    every entry of a loaded catalog is a forked file exactly when its own
    resource-fork length is >= 0, and a volume directory or a directory has
    the resource-fork length -1.  The kind itself is decided by the answers
    of the entry's file in the order volume-root flag, directory flag,
    resource-fork length >= 0, and plain file otherwise. *)
Theorem LoadDiskFSContents_recordKind :
  forall (pDiskFS : DiskFS) (volName : string) (e : DiskEntry),
    (forall pFile, GetRsrcForkLen (newDiskEntry pFile) = freshRsrcForkLen) ->
    In e (LoadDiskFSContents' pDiskFS volName) ->
    (GetRecordKind e = kRecordKindForkedFile <-> 0 <= GetRsrcForkLen e)
    /\ (GetRecordKind e = kRecordKindVolumeDir \/ GetRecordKind e = kRecordKindDirectory ->
        GetRsrcForkLen e = -1)
    /\ (GetRecordKind e = kRecordKindFile -> GetRsrcForkLen e = -1)
    /\ exists (pFile : A2File) (vol : string),
         In pFile (allFiles pDiskFS) /\ e = loadEntry' vol pFile
         /\ GetRecordKind e =
              (if IsVolumeDirectory pFile then kRecordKindVolumeDir
               else if IsDirectory pFile then kRecordKindDirectory
               else if 0 <=? GetRsrcLength pFile then kRecordKindForkedFile
               else kRecordKindFile)
         /\ (GetRecordKind e = kRecordKindForkedFile ->
             GetRsrcForkLen e = GetRsrcLength pFile /\ GetHasRsrcFork e = true).
Proof.
  intros pDiskFS volName e Hnew Hin.
  destruct (LoadDiskFSContents_from_file pDiskFS volName e Hin) as [pFile [vol [Hf He]]].
  assert (Hkind := loadEntry_RecordKind vol pFile).
  assert (Hlen := loadEntry_RsrcForkLen vol pFile).
  assert (Hhas := loadEntry_HasRsrcFork vol pFile).
  rewrite <- He in Hkind, Hlen, Hhas. rewrite Hnew in Hlen. unfold freshRsrcForkLen in Hlen.
  assert (Hcases :
            (GetRecordKind e = kRecordKindForkedFile
             /\ GetRsrcForkLen e = GetRsrcLength pFile /\ 0 <= GetRsrcLength pFile
             /\ GetHasRsrcFork e = true)
            \/ (GetRecordKind e <> kRecordKindForkedFile /\ GetRsrcForkLen e = -1)).
  { rewrite Hkind, Hlen, Hhas.
    destruct (IsVolumeDirectory pFile); [right; split; [discriminate | reflexivity]|].
    destruct (IsDirectory pFile); [right; split; [discriminate | reflexivity]|].
    simpl. destruct (Z.leb_spec 0 (GetRsrcLength pFile)) as [Hge|Hlt].
    - left. repeat split. exact Hge.
    - right. split; [discriminate | reflexivity]. }
  split; [|split; [|split]].
  - destruct Hcases as [[Hk [Hl [Hge _]]]|[Hk Hl]].
    + split; [intros _; rewrite Hl; exact Hge | intros _; exact Hk].
    + split; [intros H; contradiction | intros H; rewrite Hl in H; lia].
  - intros Hdir. destruct Hcases as [[Hk _]|[_ Hl]]; [|exact Hl].
    rewrite Hk in Hdir. destruct Hdir as [H|H]; discriminate H.
  - intros Hfile. destruct Hcases as [[Hk _]|[_ Hl]]; [|exact Hl].
    rewrite Hk in Hfile. discriminate Hfile.
  - exists pFile, vol. split; [exact Hf|]. split; [exact He|]. split; [exact Hkind|].
    intros Hk. destruct Hcases as [[_ [Hl [_ Hh]]]|[Hne _]]; [|contradiction].
    split; [exact Hl | exact Hh].
Qed.

End LoaderFacts.

(** The entries of [exampleVolume]: the forked file has the resource-fork
    length 20, the volume directory, the directory and the plain file have
    -1. *)
Lemma LoadDiskFSContents_recordKind_witness :
  map (fun e => (GetRecordKind e, GetRsrcForkLen e))
    (LoadContents (-2) false (fun s => s) exampleUsesDOS exampleNewDiskEntry exampleVolume)
  = [(kRecordKindVolumeDir, -1); (kRecordKindDirectory, -1);
     (kRecordKindForkedFile, 20); (kRecordKindFile, -1)]
  /\ (GetRecordKind
        (loadEntry (-2) false (fun s => s) exampleUsesDOS exampleNewDiskEntry EmptyString
           (exampleFile "DOCS:ICON" false false 10 20)) = kRecordKindForkedFile
      <-> 0 <= GetRsrcForkLen
                 (loadEntry (-2) false (fun s => s) exampleUsesDOS exampleNewDiskEntry
                    EmptyString (exampleFile "DOCS:ICON" false false 10 20))).
Proof.
  split; [reflexivity|].
  refine (proj1
    (@LoadDiskFSContents_recordKind (-2) false (fun s => s) exampleUsesDOS
       exampleNewDiskEntry exampleVolume EmptyString
       (loadEntry (-2) false (fun s => s) exampleUsesDOS exampleNewDiskEntry EmptyString
          (exampleFile "DOCS:ICON" false false 10 20)) _ _)).
  - intros pFile. reflexivity.
  - simpl. right. right. left. reflexivity.
Defined.

(** ** Sub-volume qualifiers *)

Lemma append_inj_l (s a b : string) : (s ++ a)%string = (s ++ b)%string -> a = b.
Proof.
  induction s as [|c s IH]; simpl; intros H.
  - exact H.
  - injection H as H. apply IH. exact H.
Qed.

Lemma IsEmpty_append (a b : string) :
  IsEmpty (a ++ b)%string = IsEmpty a && IsEmpty b.
Proof. destruct a; reflexivity. Qed.

Lemma concatSubVolName_not_empty (volName : string) (pSubVol : DiskFS) :
  IsEmpty (concatSubVolName volName pSubVol) = false.
Proof.
  unfold concatSubVolName. destruct (IsEmpty volName) eqn:E.
  - reflexivity.
  - rewrite IsEmpty_append, E. reflexivity.
Qed.

Lemma qualifierAt_not_empty (path : list nat) :
  forall (pDiskFS : DiskFS) (volName q : string),
    path <> [] -> qualifierAt pDiskFS volName path = Some q -> IsEmpty q = false.
Proof.
  induction path as [|i path IH]; intros pDiskFS volName q Hne Hq.
  - contradiction.
  - simpl in Hq. destruct (nth_error (fsSubVolumes pDiskFS) i) as [pSubVol|]; [|discriminate].
    destruct path as [|j path].
    + simpl in Hq. injection Hq as <-. apply concatSubVolName_not_empty.
    + eapply IH; [discriminate | exact Hq].
Qed.

(** The qualifier one level further down is [concatSubVolName] of the
    parent's qualifier and the sub-volume. *)
Lemma qualifierAt_snoc (path : list nat) :
  forall (pDiskFS parent pSubVol : DiskFS) (volName q : string) (i : nat),
    subVolumeAt pDiskFS path = Some parent ->
    qualifierAt pDiskFS volName path = Some q ->
    nth_error (fsSubVolumes parent) i = Some pSubVol ->
    qualifierAt pDiskFS volName (path ++ [i]) = Some (concatSubVolName q pSubVol).
Proof.
  induction path as [|k path IH]; intros pDiskFS parent pSubVol volName q i Hp Hq Hi; simpl in *.
  - injection Hp as <-. injection Hq as <-. rewrite Hi. reflexivity.
  - destruct (nth_error (fsSubVolumes pDiskFS) k) as [sv|]; [|discriminate].
    eapply IH; eassumption.
Qed.

Section QualifierFacts.

Variable kDateNone : Z.
Variable wantCoerceDOSFilenames : bool.
Variable InjectLowercase : string -> string.
Variable UsesDOSFileStructure : FSFormat -> bool.
Variable newDiskEntry : A2File -> DiskEntry.

Local Abbreviation loadEntry' :=
  (loadEntry kDateNone wantCoerceDOSFilenames InjectLowercase UsesDOSFileStructure
     newDiskEntry).
Local Abbreviation LoadDiskFSContents' :=
  (LoadDiskFSContents kDateNone wantCoerceDOSFilenames InjectLowercase
     UsesDOSFileStructure newDiskEntry).
Local Abbreviation LoadContents' :=
  (LoadContents kDateNone wantCoerceDOSFilenames InjectLowercase
     UsesDOSFileStructure newDiskEntry).

(** The files of the volume at [path] are loaded under its qualifier. *)
Lemma LoadDiskFSContents_under_qualifier (path : list nat) :
  forall (pDiskFS pSubVol : DiskFS) (volName q : string) (pFile : A2File),
    subVolumeAt pDiskFS path = Some pSubVol ->
    qualifierAt pDiskFS volName path = Some q ->
    In pFile (fsFiles pSubVol) ->
    In (loadEntry' q pFile) (LoadDiskFSContents' pDiskFS volName).
Proof.
  induction path as [|i path IH]; intros pDiskFS pSubVol volName q pFile Hs Hq Hf;
    simpl in Hs, Hq.
  - injection Hs as <-. injection Hq as <-.
    destruct pDiskFS as [name files subVolumes]. simpl in *.
    apply in_or_app. left. apply in_map. exact Hf.
  - destruct pDiskFS as [name files subVolumes]. simpl in *.
    apply in_or_app. right.
    revert i Hs Hq. induction subVolumes as [|sv rest IHrest]; intros i Hs Hq.
    + destruct i; discriminate.
    + destruct i as [|i]; simpl in Hs, Hq.
      * apply in_or_app. left. eapply IH; eassumption.
      * apply in_or_app. right. eapply IHrest; eassumption.
Qed.

(** C10, as the code has it.  The qualifier of a sub-volume of the image is
    an underscore and its volume name (["+++"] when the driver has none);
    the qualifier of a sub-volume nested in a sub-volume is the parent's
    qualifier, an underscore and its volume name; the files of a sub-volume
    are loaded with that qualifier as their sub-volume name.  Two
    sub-volumes of the same parent have the same qualifier exactly when they
    have the same volume name (after the substitution of ["+++"]): siblings
    whose names differ get different qualifiers, siblings whose names are
    the same get the same one. *)
Theorem subVolume_qualifiers :
  forall (pDiskFS : DiskFS),
    (forall (i : nat) (pSubVol : DiskFS),
        nth_error (fsSubVolumes pDiskFS) i = Some pSubVol ->
        qualifierAt pDiskFS EmptyString [i] = Some ("_" ++ subVolName pSubVol)%string
        /\ (GetVolumeName pSubVol = None -> subVolName pSubVol = "+++"))
    /\ (forall (path : list nat) (parent pSubVol : DiskFS) (parentQ : string) (i : nat),
        path <> [] ->
        subVolumeAt pDiskFS path = Some parent ->
        qualifierAt pDiskFS EmptyString path = Some parentQ ->
        nth_error (fsSubVolumes parent) i = Some pSubVol ->
        qualifierAt pDiskFS EmptyString (path ++ [i])
        = Some (parentQ ++ "_" ++ subVolName pSubVol)%string)
    /\ (forall (path : list nat) (pSubVol : DiskFS) (q : string) (pFile : A2File),
        path <> [] ->
        subVolumeAt pDiskFS path = Some pSubVol ->
        qualifierAt pDiskFS EmptyString path = Some q ->
        In pFile (fsFiles pSubVol) ->
        In (loadEntry' q pFile) (LoadContents' pDiskFS)
        /\ GetSubVolName (loadEntry' q pFile) = Some q)
    /\ (forall (path : list nat) (parent svi svj : DiskFS) (i j : nat) (qi qj : string),
        subVolumeAt pDiskFS path = Some parent ->
        nth_error (fsSubVolumes parent) i = Some svi ->
        nth_error (fsSubVolumes parent) j = Some svj ->
        qualifierAt pDiskFS EmptyString (path ++ [i]) = Some qi ->
        qualifierAt pDiskFS EmptyString (path ++ [j]) = Some qj ->
        (qi = qj <-> subVolName svi = subVolName svj)).
Proof.
  intros pDiskFS. split; [|split; [|split]].
  - intros i pSubVol Hi. split.
    + simpl. rewrite Hi. reflexivity.
    + intros Hn. unfold subVolName. rewrite Hn. reflexivity.
  - intros path parent pSubVol parentQ i Hne Hp Hq Hi.
    rewrite (@qualifierAt_snoc path pDiskFS parent pSubVol EmptyString parentQ i Hp Hq Hi).
    unfold concatSubVolName.
    rewrite (@qualifierAt_not_empty path pDiskFS EmptyString parentQ Hne Hq). reflexivity.
  - intros path pSubVol q pFile Hne Hs Hq Hf. split.
    + unfold LoadContents. eapply LoadDiskFSContents_under_qualifier; eassumption.
    + rewrite loadEntry_SubVolName.
      rewrite (@qualifierAt_not_empty path pDiskFS EmptyString q Hne Hq). reflexivity.
  - intros path parent svi svj i j qi qj Hp Hi Hj Hqi Hqj.
    assert (Hex : exists q, qualifierAt pDiskFS EmptyString path = Some q).
    { clear Hi Hj Hqi Hqj. revert pDiskFS parent Hp. generalize EmptyString.
      induction path as [|k path IH]; intros volName pDiskFS parent Hp; simpl in *.
      - eexists. reflexivity.
      - destruct (nth_error (fsSubVolumes pDiskFS) k) as [sv|]; [|discriminate].
        eapply IH. exact Hp. }
    destruct Hex as [q Hq].
    rewrite (@qualifierAt_snoc path pDiskFS parent svi EmptyString q i Hp Hq Hi) in Hqi.
    rewrite (@qualifierAt_snoc path pDiskFS parent svj EmptyString q j Hp Hq Hj) in Hqj.
    injection Hqi as <-. injection Hqj as <-.
    unfold concatSubVolName. destruct (IsEmpty q).
    + split; intros H.
      * apply (append_inj_l "_"). exact H.
      * rewrite H. reflexivity.
    + split; intros H.
      * apply (append_inj_l "_"). apply (append_inj_l q). exact H.
      * rewrite H. reflexivity.
Qed.

End QualifierFacts.

(** The two sub-volumes of [twoSubVolumes] are different volumes at the same
    depth, and both get the qualifier ["_X"]: the files of both are loaded
    under the same sub-volume name. *)
Lemma subVolume_qualifiers_collide :
  subVolumeAt twoSubVolumes [0%nat] <> subVolumeAt twoSubVolumes [1%nat]
  /\ qualifierAt twoSubVolumes EmptyString [0%nat] = Some "_X"
  /\ qualifierAt twoSubVolumes EmptyString [1%nat] = Some "_X"
  /\ map (fun e => (GetEntryPathName e, GetSubVolName e))
       (LoadContents (-2) false (fun s => s) exampleUsesDOS exampleNewDiskEntry
          twoSubVolumes)
     = [("ONE", Some "_X"); ("TWO", Some "_X")].
Proof.
  split; [|split; [|split]].
  - simpl. intros H. discriminate H.
  - reflexivity.
  - reflexivity.
  - reflexivity.
Qed.

(** The two sub-volumes of [twoSubVolumes], as siblings with one name. *)
Lemma subVolume_qualifiers_witness :
  "_X" = "_X"
  <-> subVolName (mkDiskFS (Some "X") [exampleFile "ONE" false false 1 (-1)] [])
      = subVolName (mkDiskFS (Some "X") [exampleFile "TWO" false false 2 (-1)] []).
Proof.
  exact (proj2 (proj2 (proj2
    (subVolume_qualifiers (-2) false (fun s => s) exampleUsesDOS exampleNewDiskEntry
       twoSubVolumes)))
    [] twoSubVolumes
    (mkDiskFS (Some "X") [exampleFile "ONE" false false 1 (-1)] [])
    (mkDiskFS (Some "X") [exampleFile "TWO" false false 2 (-1)] [])
    0%nat 1%nat "_X" "_X" eq_refl eq_refl eq_refl eq_refl eq_refl).
Defined.

(** ** Loading a host file *)

Lemma getcs_length (count : nat) : forall fp, List.length (getcs count fp) = count.
Proof.
  induction count as [|count IH]; intros fp; simpl; [reflexivity|].
  rewrite IH. reflexivity.
Qed.

(** The loop of [LoadFile] drops an LF right after a CR and replaces every
    other byte by one byte. *)
Lemma convertLoop_dropOrReplace (count : nat) :
  forall (fp : list Z) (mask : Z) (lastCR : bool),
    convertLoop count fp mask lastCR = dropOrReplace mask lastCR (getcs count fp).
Proof.
  induction count as [|count IH]; intros fp mask lastCR; simpl; [reflexivity|].
  destruct (getc fp) as [ic fp'] eqn:Eg. simpl.
  unfold replaceByte.
  destruct (Z.eqb_spec ic kCharCR) as [Hcr|Hcr].
  - subst ic. rewrite IH. simpl. rewrite andb_false_r. reflexivity.
  - destruct (Z.eqb_spec ic kCharLF) as [Hlf|Hlf].
    + subst ic. rewrite andb_true_r. destruct lastCR; simpl; rewrite IH; reflexivity.
    + rewrite andb_false_r. simpl. rewrite IH. reflexivity.
Qed.

Lemma dropOrReplace_length (mask : Z) (input : list Z) :
  forall prevCR,
    (List.length (dropOrReplace mask prevCR input) + countLFafterCR prevCR input
     = List.length input)%nat.
Proof.
  induction input as [|c rest IH]; intros prevCR; simpl; [reflexivity|].
  destruct (prevCR && (c =? kCharLF)) eqn:E.
  - apply andb_true_iff in E. destruct E as [_ E].
    apply Z.eqb_eq in E. subst c. simpl.
    specialize (IH false). simpl in IH. lia.
  - simpl. specialize (IH (c =? kCharCR)). lia.
Qed.

Lemma convertLoop_length (count : nat) (fp : list Z) (mask : Z) (lastCR : bool) :
  (List.length (convertLoop count fp mask lastCR)
   + countLFafterCR lastCR (getcs count fp) = count)%nat.
Proof.
  rewrite convertLoop_dropOrReplace.
  rewrite dropOrReplace_length. apply getcs_length.
Qed.

Lemma fread_length (n : Z) (fp buf : list Z) :
  0 <= n -> fread n fp = Some buf -> Z.of_nat (List.length buf) = n.
Proof.
  intros Hn. unfold fread.
  destruct (Z.leb_spec n (Z.of_nat (List.length fp))) as [Hle|Hgt]; [|discriminate].
  intros H. injection H as <-.
  rewrite length_firstn. lia.
Qed.

Section LoadFileFacts.

Variable host : string -> HostFile.
Variable DetermineConversion : list Z -> Z -> ConvertEOL * EOLType.

Local Abbreviation LoadFile' := (LoadFile host DetermineConversion).

(** What [LoadFile] answers once the conversion is settled (the code below
    [ASSERT(conv != GenericEntry::kConvertEOLAuto)]). *)
Lemma LoadFile_settled_length (pathName : string) (conv : ConvertEOL)
    (convHA : ConvertHighASCII) (pBuf : option (list Z)) (pLen : Z) :
  0 < hf_tell (host pathName) ->
  (if ConvertEOL_eqb conv kConvertEOLOff then
     match fread (hf_tell (host pathName)) (hf_bytes (host pathName)) with
     | None =>
         LoadFailed ("Unable to read '" ++ pathName ++ "': "
                     ++ hf_strerror (host pathName) ++ ".")%string
     | Some buf => Loaded (Some buf) (hf_tell (host pathName))
     end
   else
     Loaded
       (Some (convertLoop (Z.to_nat (hf_tell (host pathName))) (hf_bytes (host pathName))
                match convHA with
                | kConvertHAOn => 0x80
                | kConvertHAOff => 0x00
                end false))
       (Z.of_nat
          (List.length
             (convertLoop (Z.to_nat (hf_tell (host pathName)))
                (hf_bytes (host pathName))
                match convHA with
                | kConvertHAOn => 0x80
                | kConvertHAOff => 0x00
                end false))))
  = Loaded pBuf pLen ->
  pLen <= hf_tell (host pathName)
  /\ match pBuf with
     | Some buf => Z.of_nat (List.length buf) = pLen
     | None => pLen = 0
     end.
Proof.
  intros Hpos. destruct (ConvertEOL_eqb conv kConvertEOLOff).
  - destruct (fread (hf_tell (host pathName)) (hf_bytes (host pathName))) as [buf|] eqn:Er;
      [|discriminate].
    intros H. injection H as <- <-. split; [lia|].
    apply fread_length with (fp := hf_bytes (host pathName)); [lia | exact Er].
  - intros H. injection H as <- <-. split; [|reflexivity].
    pose proof (convertLoop_length (Z.to_nat (hf_tell (host pathName)))
                  (hf_bytes (host pathName))
                  match convHA with
                  | kConvertHAOn => 0x80
                  | kConvertHAOff => 0x00
                  end false) as Hl.
    lia.
Qed.

(** C5.  The add-side transcoding never makes a file longer.  The loop of
    [LoadFile] drops a byte exactly when it is an LF right after a CR and
    replaces every other byte by one byte, so it stores as many bytes as it
    read less the LFs it dropped; and whatever [LoadFile] hands back, for the
    conversion Off, On or Auto (with any answer of [DetermineConversion]) and
    either high-ASCII mode, is a buffer of the length it reports, which is at
    most the length of the file.  With conversion On it always hands back the
    buffer the loop filled. *)
Theorem LoadFile_never_longer :
  forall (pathName : string) (conv : ConvertEOL) (convHA : ConvertHighASCII),
    (forall (count : nat) (fp : list Z) (mask : Z) (lastCR : bool),
        convertLoop count fp mask lastCR = dropOrReplace mask lastCR (getcs count fp)
        /\ (List.length (convertLoop count fp mask lastCR)
            + countLFafterCR lastCR (getcs count fp) = count)%nat
        /\ (List.length (convertLoop count fp mask lastCR) <= count)%nat)
    /\ (forall (pBuf : option (list Z)) (pLen : Z),
        LoadFile' pathName conv convHA = Loaded pBuf pLen ->
        pLen <= hf_tell (host pathName)
        /\ match pBuf with
           | Some buf => Z.of_nat (List.length buf) = pLen
           | None => pLen = 0
           end)
    /\ (hf_opens (host pathName) = true ->
        hf_seeks (host pathName) = true ->
        0 < hf_tell (host pathName) <= 0x00ffffff ->
        hf_alloc (host pathName) = true ->
        conv = kConvertEOLOn ->
        LoadFile' pathName conv convHA
        = Loaded
            (Some (convertLoop (Z.to_nat (hf_tell (host pathName)))
                     (hf_bytes (host pathName))
                     match convHA with
                     | kConvertHAOn => 0x80
                     | kConvertHAOff => 0x00
                     end false))
            (Z.of_nat
               (List.length
                  (convertLoop (Z.to_nat (hf_tell (host pathName)))
                     (hf_bytes (host pathName))
                     match convHA with
                     | kConvertHAOn => 0x80
                     | kConvertHAOff => 0x00
                     end false)))).
Proof.
  intros pathName conv convHA. split; [|split].
  - intros count fp mask lastCR.
    pose proof (convertLoop_length count fp mask lastCR) as Hl.
    split; [apply convertLoop_dropOrReplace | split; [exact Hl | lia]].
  - intros pBuf pLen. unfold LoadFile.
    destruct (hf_opens (host pathName)); simpl; [|discriminate].
    destruct (hf_seeks (host pathName)); simpl; [|discriminate].
    destruct (Z.ltb_spec (hf_tell (host pathName)) 0) as [Hneg|Hnn]; [discriminate|].
    destruct (Z.eqb_spec (hf_tell (host pathName)) 0) as [Hz|Hnz].
    { intros H. injection H as <- <-. split; [lia | reflexivity]. }
    destruct (Z.gtb_spec (hf_tell (host pathName)) 16777215) as [Hbig|Hok];
      [discriminate|].
    destruct (hf_alloc (host pathName)); simpl; [|discriminate].
    destruct (ConvertEOL_eqb conv kConvertEOLAuto).
    + destruct (fread (if 16384 >? hf_tell (host pathName)
                       then hf_tell (host pathName) else 16384)
                  (hf_bytes (host pathName))) as [chunk|]; [|discriminate].
      destruct (DetermineConversion chunk
                  (if 16384 >? hf_tell (host pathName)
                   then hf_tell (host pathName) else 16384)) as [conv1 eolType].
      destruct (ConvertEOL_eqb conv1 kConvertEOLOn && EOLType_eqb eolType kEOLCR).
      * apply (LoadFile_settled_length pathName kConvertEOLOff convHA). lia.
      * apply (LoadFile_settled_length pathName conv1 convHA). lia.
    + apply (LoadFile_settled_length pathName conv convHA). lia.
  - intros Ho Hs [Hpos Hle] Ha ->. unfold LoadFile.
    rewrite Ho, Hs, Ha. simpl.
    destruct (Z.ltb_spec (hf_tell (host pathName)) 0) as [Hneg|Hnn]; [lia|].
    destruct (Z.eqb_spec (hf_tell (host pathName)) 0) as [Hz|Hnz]; [lia|].
    destruct (Z.gtb_spec (hf_tell (host pathName)) 16777215) as [Hbig|Hok]; [lia|].
    reflexivity.
Qed.

End LoadFileFacts.

(** ["A\r\nB\nC\r\n"], converted with the high bit set: eight bytes in, six out. *)
Lemma LoadFile_never_longer_witness :
  6 <= hf_tell (exampleHost "TEXT.TXT")
  /\ Z.of_nat (List.length [0xc1; 0x8d; 0xc2; 0x8d; 0xc3; 0x8d]) = 6.
Proof.
  exact (proj1 (proj2 (LoadFile_never_longer exampleHost exampleDetermineConversion
                         "TEXT.TXT" kConvertEOLOn kConvertHAOn))
           (Some [0xc1; 0x8d; 0xc2; 0x8d; 0xc3; 0x8d]) 6 eq_refl).
Defined.

(** ** The size limit of [LoadFile] *)

Lemma LoadFile_too_large (host : string -> HostFile)
    (DetermineConversion : list Z -> Z -> ConvertEOL * EOLType)
    (pathName : string) (conv : ConvertEOL) (convHA : ConvertHighASCII) :
  LoadFile host DetermineConversion pathName conv convHA = LoadFailed kTooLargeMsg
  <-> hf_opens (host pathName) = true /\ hf_seeks (host pathName) = true
      /\ 0x00ffffff < hf_tell (host pathName).
Proof.
  unfold LoadFile.
  destruct (hf_opens (host pathName)); simpl;
    [|split; [intros H; discriminate H | intros [H _]; discriminate H]].
  destruct (hf_seeks (host pathName)); simpl;
    [|split; [intros H; discriminate H | intros [_ [H _]]; discriminate H]].
  destruct (Z.ltb_spec (hf_tell (host pathName)) 0) as [Hneg|Hnn];
    [split; [intros H; discriminate H | intros [_ [_ H]]; lia]|].
  destruct (Z.eqb_spec (hf_tell (host pathName)) 0) as [Hz|Hnz];
    [split; [intros H; discriminate H | intros [_ [_ H]]; lia]|].
  destruct (Z.gtb_spec (hf_tell (host pathName)) 16777215) as [Hbig|Hok];
    [split; [intros _; repeat split; lia | reflexivity]|].
  split; [|intros [_ [_ H]]; lia].
  destruct (hf_alloc (host pathName)); simpl; [|intros H; discriminate H].
  destruct (ConvertEOL_eqb conv kConvertEOLAuto).
  - destruct (fread _ _) as [chunk|]; [|intros H; discriminate H].
    destruct (DetermineConversion _ _) as [conv1 eolType].
    destruct (ConvertEOL_eqb conv1 kConvertEOLOn && EOLType_eqb eolType kEOLCR); simpl.
    + destruct (fread _ _); intros H; discriminate H.
    + destruct (ConvertEOL_eqb conv1 kConvertEOLOff); [|intros H; discriminate H].
      destruct (fread _ _); intros H; discriminate H.
  - destruct (ConvertEOL_eqb conv kConvertEOLOff); [|intros H; discriminate H].
    destruct (fread _ _); intros H; discriminate H.
Qed.

Lemma LoadFile_loads (host : string -> HostFile)
    (DetermineConversion : list Z -> Z -> ConvertEOL * EOLType)
    (pathName : string) (conv : ConvertEOL) (convHA : ConvertHighASCII) :
  hf_opens (host pathName) = true -> hf_seeks (host pathName) = true ->
  hf_alloc (host pathName) = true ->
  0 < hf_tell (host pathName) <= 0x00ffffff ->
  hf_tell (host pathName) <= Z.of_nat (List.length (hf_bytes (host pathName))) ->
  exists (buf : list Z) (len : Z),
    LoadFile host DetermineConversion pathName conv convHA = Loaded (Some buf) len.
Proof.
  intros Ho Hs Ha [Hpos Hle] Hbytes. unfold LoadFile. rewrite Ho, Hs, Ha. simpl.
  destruct (Z.ltb_spec (hf_tell (host pathName)) 0) as [Hneg|Hnn]; [lia|].
  destruct (Z.eqb_spec (hf_tell (host pathName)) 0) as [Hz|Hnz]; [lia|].
  destruct (Z.gtb_spec (hf_tell (host pathName)) 16777215) as [Hbig|Hok]; [lia|].
  assert (Hfull : exists buf,
             fread (hf_tell (host pathName)) (hf_bytes (host pathName)) = Some buf).
  { unfold fread.
    destruct (Z.leb_spec (hf_tell (host pathName))
                (Z.of_nat (List.length (hf_bytes (host pathName))))); [|lia].
    eexists. reflexivity. }
  destruct Hfull as [full Hfull].
  assert (Hsettled : forall c,
    exists buf len,
      (if ConvertEOL_eqb c kConvertEOLOff then
         match fread (hf_tell (host pathName)) (hf_bytes (host pathName)) with
         | None =>
             LoadFailed ("Unable to read '" ++ pathName ++ "': "
                         ++ hf_strerror (host pathName) ++ ".")%string
         | Some buf => Loaded (Some buf) (hf_tell (host pathName))
         end
       else
         Loaded
           (Some (convertLoop (Z.to_nat (hf_tell (host pathName)))
                    (hf_bytes (host pathName))
                    match convHA with
                    | kConvertHAOn => 0x80
                    | kConvertHAOff => 0x00
                    end false))
           (Z.of_nat
              (List.length
                 (convertLoop (Z.to_nat (hf_tell (host pathName)))
                    (hf_bytes (host pathName))
                    match convHA with
                    | kConvertHAOn => 0x80
                    | kConvertHAOff => 0x00
                    end false))))
      = Loaded (Some buf) len).
  { intros c. destruct (ConvertEOL_eqb c kConvertEOLOff).
    - rewrite Hfull. eexists. eexists. reflexivity.
    - eexists. eexists. reflexivity. }
  destruct (ConvertEOL_eqb conv kConvertEOLAuto).
  - assert (Hchunk : exists chunk,
               fread (if 16384 >? hf_tell (host pathName)
                      then hf_tell (host pathName) else 16384)
                 (hf_bytes (host pathName)) = Some chunk).
    { unfold fread.
      destruct (Z.gtb_spec 16384 (hf_tell (host pathName)));
        match goal with
        | |- context [?a <=? ?b] => destruct (Z.leb_spec a b); [|lia]
        end; eexists; reflexivity. }
    destruct Hchunk as [chunk ->].
    destruct (DetermineConversion _ _) as [conv1 eolType].
    destruct (ConvertEOL_eqb conv1 kConvertEOLOn && EOLType_eqb eolType kEOLCR).
    + apply (Hsettled kConvertEOLOff).
    + apply (Hsettled conv1).
  - apply (Hsettled conv).
Qed.

(** ** The driver's codes *)

Lemma DIError_eqb_eq (a b : DIError) : DIError_eqb a b = true <-> a = b.
Proof.
  destruct a, b; simpl; split; intros H; try reflexivity; try discriminate H.
  - apply Z.eqb_eq in H. subst. reflexivity.
  - injection H as ->. apply Z.eqb_refl.
Qed.

(** ** The empty-folder marker *)

Lemma strrchr_marker (dir : string) :
  strrchr (dir ++ String ":" kEmptyFolderMarker)%string ":" = Some (String.length dir).
Proof.
  induction dir as [|c dir IH]; simpl.
  - reflexivity.
  - change (strrchr (dir ++ String ":" kEmptyFolderMarker)%string ":"
            = Some (String.length dir)) in IH.
    rewrite IH. reflexivity.
Qed.

Lemma strAt_marker (dir : string) :
  strAt (dir ++ String ":" kEmptyFolderMarker)%string (S (String.length dir))
  = kEmptyFolderMarker.
Proof.
  induction dir as [|c dir IH]; simpl.
  - reflexivity.
  - exact IH.
Qed.

Lemma substring_prefix (s r : string) :
  forall k : nat, (k <= String.length s)%nat ->
    substring 0 k (s ++ r)%string = substring 0 k s.
Proof.
  induction s as [|c s IH]; intros k Hk; simpl in *.
  - assert (k = 0%nat) by lia. subst k. destruct r; reflexivity.
  - destruct k as [|k]; [reflexivity|].
    simpl. rewrite IH by lia. reflexivity.
Qed.

(** [Left] with one less than the length leaves out the last character. *)
Lemma Left_drops_last (dir : string) :
  dir <> EmptyString ->
  exists c : ascii,
    dir = (Left (Z.of_nat (String.length dir) - 1) dir ++ String c EmptyString)%string.
Proof.
  unfold Left. induction dir as [|a dir IH]; intros Hne.
  - contradiction.
  - destruct dir as [|b dir].
    + exists a. reflexivity.
    + destruct IH as [c Hc]; [discriminate|].
      exists c.
      replace (Z.to_nat (Z.of_nat (String.length (String a (String b dir))) - 1))
        with (S (Z.to_nat (Z.of_nat (String.length (String b dir)) - 1)))
        by (simpl String.length; lia).
      change (substring 0 (S ?k) (String a ?s)) with (String a (substring 0 k s)).
      simpl append. f_equal. exact Hc.
Qed.

(** ** Facts about the code that calls the driver *)

Section DriverFacts.

Variable FS : Type.
Variable A2FileDescr : Type.
Variable GetImageFSFormat : FS -> FSFormat.
Variable CreateFile : CreateParms -> FS -> DIError * option A2File * FS.
Variable Open : A2File -> bool -> bool -> FS -> DIError * option A2FileDescr * FS.
Variable Write : A2FileDescr -> list Z -> Z -> FS -> DIError * FS.
Variable Close : A2FileDescr -> FS -> DIError * FS.
Variable DeleteFile : A2File -> FS -> DIError * FS.
Variable DIStrError : DIError -> string.
Variable IsHierarchical : FSFormat -> bool.
Variable HasResourceForks : FSFormat -> bool.
Variable UsesDOSFileStructure : FSFormat -> bool.
Variable kAccessInvisible : Z.
Variable kFileTypeTXT : Z.
Variable kFileTypeSRC : Z.
Variable DateTimeToSeconds : Z -> Z.
Variable host : string -> HostFile.
Variable DetermineConversion : list Z -> Z -> ConvertEOL * EOLType.

Local Abbreviation AddForksToDisk' :=
  (AddForksToDisk GetImageFSFormat CreateFile Open Write Close DeleteFile IsHierarchical
     HasResourceForks UsesDOSFileStructure kAccessInvisible).
Local Abbreviation processLoop' :=
  (processLoop GetImageFSFormat CreateFile Open Write Close DeleteFile DIStrError
     IsHierarchical HasResourceForks UsesDOSFileStructure kAccessInvisible kFileTypeTXT
     kFileTypeSRC DateTimeToSeconds host DetermineConversion).
Local Abbreviation ProcessFileAddData' :=
  (ProcessFileAddData GetImageFSFormat CreateFile Open Write Close DeleteFile DIStrError
     IsHierarchical HasResourceForks UsesDOSFileStructure kAccessInvisible kFileTypeTXT
     kFileTypeSRC DateTimeToSeconds host DetermineConversion).

(** C3.  The size limit of [LoadFile].  A file of 0x00ffffff bytes is never
    refused for its size, and is loaded whenever it can be opened, measured
    and read; a file of 0x01000000 bytes that can be opened and measured is
    refused with the message "Cannot add files larger than 16MB to a disk
    image." (as is every longer one, and no shorter one); and when
    [ProcessFileAddData] comes to a node whose data file, or whose only file,
    a resource fork, is refused so, it returns that message without a single
    call of the driver for that node and with the driver's state as it was. *)
Theorem LoadFile_size_limit :
  forall (pathName : string) (conv : ConvertEOL) (convHA : ConvertHighASCII),
    (hf_tell (host pathName) = 0x00ffffff ->
     LoadFile host DetermineConversion pathName conv convHA <> LoadFailed kTooLargeMsg)
    /\ (hf_opens (host pathName) = true -> hf_seeks (host pathName) = true ->
        hf_alloc (host pathName) = true ->
        hf_tell (host pathName) = 0x00ffffff ->
        0x00ffffff <= Z.of_nat (List.length (hf_bytes (host pathName))) ->
        exists (buf : list Z) (len : Z),
          LoadFile host DetermineConversion pathName conv convHA = Loaded (Some buf) len
          /\ len <= 0x00ffffff)
    /\ (hf_opens (host pathName) = true -> hf_seeks (host pathName) = true ->
        hf_tell (host pathName) = 0x01000000 ->
        LoadFile host DetermineConversion pathName conv convHA = LoadFailed kTooLargeMsg)
    /\ (LoadFile host DetermineConversion pathName conv convHA = LoadFailed kTooLargeMsg
        <-> hf_opens (host pathName) = true /\ hf_seeks (host pathName) = true
            /\ 0x00ffffff < hf_tell (host pathName))
    /\ (forall (d : FileAddData) (rest : list FileAddData) (addOptsConvEOL : ConvEOLOption)
               (convEOL : ConvertEOL) (details : FileDetails)
               (other : option FileDetails) (fs : FS),
        (pickForks d = inr (Some details, other)
         \/ pickForks d = inr (None, Some details)) ->
        origName details = pathName ->
        hf_opens (host pathName) = true -> hf_seeks (host pathName) = true ->
        0x00ffffff < hf_tell (host pathName) ->
        processLoop' addOptsConvEOL convEOL (d :: rest) fs = Some (kTooLargeMsg, fs, [])).
Proof.
  intros pathName conv convHA.
  split; [|split; [|split; [|split]]].
  - intros Ht H. apply LoadFile_too_large in H. lia.
  - intros Ho Hs Ha Ht Hb.
    destruct (@LoadFile_loads host DetermineConversion pathName conv convHA Ho Hs Ha)
      as [buf [len Hl]]; [lia | lia |].
    exists buf, len. split; [exact Hl|].
    destruct (proj1 (proj2 (LoadFile_never_longer host DetermineConversion pathName
                              conv convHA)) _ _ Hl) as [Hle _].
    lia.
  - intros Ho Hs Ht. apply LoadFile_too_large. repeat split; [exact Ho | exact Hs | lia].
  - apply LoadFile_too_large.
  - intros d rest addOptsConvEOL convEOL details other fs Hpick Hname Ho Hs Ht.
    assert (Hl : forall c h,
               LoadFile host DetermineConversion (origName details) c h
               = LoadFailed kTooLargeMsg).
    { intros c h. rewrite Hname. apply LoadFile_too_large. repeat split; assumption. }
    simpl. destruct Hpick as [-> | ->]; unfold bind, getFSFormat, ret; simpl;
      rewrite !Hl; reflexivity.
Qed.

Local Abbreviation createAndWriteForks' :=
  (createAndWriteForks CreateFile Open Write Close DeleteFile).

(** Case analysis on the next answer of the driver, or the next test, that
    the run [H] depends on. *)
Ltac driver_case H :=
  match type of H with
  | context [CreateFile ?p ?s] => destruct (CreateFile p s) as [[? ?] ?] eqn:?
  | context [Open ?f ?a ?b ?s] => destruct (Open f a b s) as [[? ?] ?] eqn:?
  | context [Write ?d ?b ?l ?s] => destruct (Write d b l s) as [? ?] eqn:?
  | context [Close ?d ?s] => destruct (Close d s) as [? ?] eqn:?
  | context [DeleteFile ?f ?s] => destruct (DeleteFile f s) as [? ?] eqn:?
  | context [strrchr ?s ?c] => destruct (strrchr s c) eqn:?
  | context [DIError_eqb ?d ?k] => destruct (DIError_eqb d k) eqn:?
  | context [match ?o with Some _ => _ | None => _ end] =>
      is_var o;
      lazymatch type of o with
      | option (list Z) => fail
      | _ => destruct o
      end
  | context [if ?b then _ else _] => destruct b eqn:?
  end.

Ltac absurd_case :=
  match goal with
  | H : true = false |- _ => discriminate H
  | H : false = true |- _ => discriminate H
  end.

Ltac run_cases H :=
  unfold createAndWriteForks, bail, writeFork, bind, ret, nullDeref, getFSFormat,
    callCreateFile, callOpen, callWrite, callClose, callDeleteFile, isNone in H;
  repeat (cbn in H; driver_case H; try absurd_case); cbn in H;
  try discriminate H.

(** Rewriting with the answers recorded by the case analysis. *)
Ltac use_answers :=
  repeat match goal with
         | H : ?x = true |- context [?x] => rewrite H
         | H : ?x = false |- context [?x] => rewrite H
         end.

Ltac use_equations :=
  repeat match goal with
         | H : ?x = _ |- context [?x] => rewrite H
         end.

Ltac not_in_calls :=
  let Hin := fresh "Hin" in
  intros ? ? ? Hin; cbn in Hin;
  repeat (destruct Hin as [Hin|Hin]; [discriminate Hin|]); exact Hin.

Ltac created_call Hin :=
  cbn in Hin;
  repeat (destruct Hin as [Hin|Hin];
          [first [discriminate Hin | injection Hin as ? ? ?; subst]|]);
  try contradiction.

(** What a run of [createAndWriteForks] looks like. *)
Lemma createAndWriteForks_calls (parmCopy : CreateParms)
    (dataBuf : option (list Z)) (dataLen : Z) (rsrcBuf : option (list Z)) (rsrcLen : Z)
    (fs : FS) (dierr : DIError) (fs' : FS) (calls : list (DriverCall A2FileDescr)) :
  createAndWriteForks' parmCopy dataBuf dataLen rsrcBuf rsrcLen fs
  = Some (dierr, fs', calls) ->
  (exists (e : DIError) (f : option A2File) (rest : list (DriverCall A2FileDescr)),
      calls = CallCreateFile parmCopy e f :: rest
      /\ forall p e' f', ~ In (CallCreateFile p e' f') rest)
  /\ (rsrcLen <= 0 -> forall f e d, ~ In (CallOpen f true e d) calls)
  /\ (dierr <> kDIErrNone -> option_map callResult (firstFailing calls) = Some dierr).
Proof.
  intros Hrun.
  run_cases Hrun; injection Hrun as <- <- <-; (split; [|split]).
  all: try (eexists _, _, _; split; [reflexivity | not_in_calls]).
  all: try (intros _; not_in_calls).
  all: try (intros Hne; cbn; use_answers; cbn; solve [reflexivity | congruence]).
  all: try (intros Hle; exfalso;
            match goal with H : (0 <? _) = true |- _ => apply Z.ltb_lt in H; lia end).
Qed.

(** A failure after the file was created: the file is deleted last, and the
    code returned is that of the fork call that failed, whatever
    [DeleteFile] answers. *)
Lemma createAndWriteForks_cleans_up (parmCopy : CreateParms)
    (dataBuf : option (list Z)) (dataLen : Z) (rsrcBuf : option (list Z)) (rsrcLen : Z)
    (fs : FS) (dierr : DIError) (fs' : FS) (calls : list (DriverCall A2FileDescr))
    (p : CreateParms) (f : A2File) :
  createAndWriteForks' parmCopy dataBuf dataLen rsrcBuf rsrcLen fs
  = Some (dierr, fs', calls) ->
  In (CallCreateFile p kDIErrNone (Some f)) calls ->
  dierr <> kDIErrNone ->
  (exists c : DriverCall A2FileDescr,
      firstFailing calls = Some c /\ isForkCall c = true /\ callResult c = dierr)
  /\ (exists e : DIError, lastCall calls = Some (CallDeleteFile f e))
  /\ (forall DeleteFile2 : A2File -> FS -> DIError * FS,
         exists (fs2 : FS) (calls2 : list (DriverCall A2FileDescr)) (e2 : DIError),
           createAndWriteForks CreateFile Open Write Close DeleteFile2
             parmCopy dataBuf dataLen rsrcBuf rsrcLen fs
           = Some (dierr, fs2, calls2)
           /\ lastCall calls2 = Some (CallDeleteFile f e2)).
Proof.
  intros Hrun Hin Hne.
  run_cases Hrun; injection Hrun as <- <- <-.
  all: created_call Hin.
  all: try (cbn in *; congruence).
  all: split; [|split].
  all: try (cbn; use_answers; cbn; eexists; repeat split; reflexivity).
  all: try (cbn; eexists; reflexivity).
  all: intros DeleteFile2;
    unfold createAndWriteForks, bail, writeFork, bind, ret, nullDeref,
      callCreateFile, callOpen, callWrite, callClose, callDeleteFile, isNone;
    repeat (cbn; progress use_equations); cbn;
    match goal with
    | |- context [DeleteFile2 ?a ?s] => destruct (DeleteFile2 a s) as [? ?]
    end;
    cbn; eexists _, _, _; split; reflexivity.
Qed.

(** Case analysis on a call that is said to be in the list of calls [H]. *)
Ltac which_call H :=
  cbn in H;
  repeat match type of H with
         | _ \/ _ => destruct H as [H|H]
         | False => contradiction
         | _ = _ => subst
         end.

Ltac answered_none :=
  repeat match goal with
         | H : DIError_eqb _ kDIErrNone = true |- _ => apply DIError_eqb_eq in H; subst
         end.

(** A fork call that fails makes the whole run fail, and a run that does
    not fail deletes nothing. *)
Lemma createAndWriteForks_fails (parmCopy : CreateParms)
    (dataBuf : option (list Z)) (dataLen : Z) (rsrcBuf : option (list Z)) (rsrcLen : Z)
    (fs : FS) (dierr : DIError) (fs' : FS) (calls : list (DriverCall A2FileDescr)) :
  createAndWriteForks' parmCopy dataBuf dataLen rsrcBuf rsrcLen fs
  = Some (dierr, fs', calls) ->
  (forall c : DriverCall A2FileDescr,
      In c calls -> isForkCall c = true -> callResult c <> kDIErrNone ->
      dierr <> kDIErrNone)
  /\ (dierr = kDIErrNone ->
      forall (f : A2File) (e : DIError), ~ In (CallDeleteFile f e) calls).
Proof.
  intros Hrun.
  run_cases Hrun; injection Hrun as <- <- <-; split.
  all: try (intros c Hin Hfork Hres Hnone; answered_none;
            solve [ discriminate
                  | which_call Hin; cbn in Hfork, Hres;
                    first [discriminate Hfork | contradiction | congruence] ]).
  all: try (intros Hnone ? ? Hin; subst; cbn in *;
            solve [ absurd_case
                  | repeat (destruct Hin as [Hin|Hin]; [discriminate Hin|]);
                    contradiction ]).
Qed.

(** With a driver that hands back the file it created and the fork it
    opened, the run comes to its end. *)
Lemma createAndWriteForks_returns (parmCopy : CreateParms)
    (dataBuf : option (list Z)) (dataLen : Z) (rsrcBuf : option (list Z)) (rsrcLen : Z)
    (fs : FS) :
  (forall p s d s', CreateFile p s = (d, None, s') -> DIError_eqb d kDIErrNone = false) ->
  (forall f ro rs s d s', Open f ro rs s = (d, None, s') ->
                          DIError_eqb d kDIErrNone = false) ->
  createAndWriteForks' parmCopy dataBuf dataLen rsrcBuf rsrcLen fs <> None.
Proof.
  intros Hc Ho Hrun.
  run_cases Hrun;
    repeat match goal with
           | H : CreateFile _ _ = (_, None, _) |- _ => apply Hc in H
           | H : Open _ _ _ _ = (_, None, _) |- _ => apply Ho in H
           end; congruence.
Qed.

Local Arguments createAndWriteForks : simpl never.

(** Case analysis on the first half of [AddForksToDisk], down to the call of
    [createAndWriteForks]. *)
Ltac prelude_cases H Hcw :=
  unfold AddForksToDisk, bail, bind, ret, getFSFormat, callCreateFile, isNone,
    setStorageType, setFileType, setPathName, setAccess in H;
  repeat (cbn in H; driver_case H; try absurd_case); cbn in H;
  try discriminate H;
  try match type of H with
      | context [createAndWriteForks ?c ?o ?w ?cl ?del ?p ?db ?dl ?rb ?rl ?s] =>
          destruct (createAndWriteForks c o w cl del p db dl rb rl s)
            as [[[? ?] ?]|] eqn:Hcw; [|discriminate H]
      end;
  injection H as <- <- <-.

(** C9, as the code has it.  Whenever [AddForksToDisk] asks the driver to
    create something that is not a directory, the file type of the request
    is that of the caller's, except that on an image with the DOS file
    structure a data fork of at least 65536 bytes (64 KiB and more) turns
    the types BIN ($06), INT ($fa) and BAS ($fc) into $f2.  A data fork of
    less than 65536 bytes, any other type, and an image without the DOS file
    structure leave the type as it was. *)
Theorem AddForksToDisk_file_type :
  forall (pParms : CreateParms) (dataBuf : option (list Z)) (dataLen : Z)
         (rsrcBuf : option (list Z)) (rsrcLen : Z) (fs : FS)
         (dierr : DIError) (fs' : FS) (calls : list (DriverCall A2FileDescr))
         (p : CreateParms) (e : DIError) (f : option A2File),
    AddForksToDisk' pParms dataBuf dataLen rsrcBuf rsrcLen fs = Some (dierr, fs', calls) ->
    In (CallCreateFile p e f) calls ->
    storageType p <> kNuStorageDirectory ->
    fileType p
    = createdFileType (UsesDOSFileStructure (GetImageFSFormat fs)) dataLen (fileType pParms)
    /\ (UsesDOSFileStructure (GetImageFSFormat fs) = true ->
        65536 <= dataLen ->
        fileType pParms = 0x06 \/ fileType pParms = 0xfa \/ fileType pParms = 0xfc ->
        fileType p = 0xf2)
    /\ (dataLen < 65536 -> fileType p = fileType pParms)
    /\ (UsesDOSFileStructure (GetImageFSFormat fs) = false -> fileType p = fileType pParms)
    /\ (fileType pParms <> 0x06 -> fileType pParms <> 0xfa -> fileType pParms <> 0xfc ->
        fileType p = fileType pParms).
Proof.
  intros pParms dataBuf dataLen rsrcBuf rsrcLen fs dierr fs' calls p e f Hrun Hin Hst.
  assert (Hft : fileType p
                = createdFileType (UsesDOSFileStructure (GetImageFSFormat fs)) dataLen
                    (fileType pParms)).
  { destruct pParms as [pn sep st ft ax ac cw mw].
    prelude_cases Hrun Hcw.
    all: try (created_call Hin; exfalso; apply Hst; cbn;
              destruct st; try reflexivity; discriminate).
    all: try (apply createAndWriteForks_calls in Hcw;
              destruct Hcw as [[? [? [? [-> Hrest]]]] _];
              destruct Hin as [Hin|Hin];
              [injection Hin as <- <- <- | exfalso; eapply Hrest; exact Hin];
              unfold createdFileType; cbn; use_answers; cbn; reflexivity). }
  split; [exact Hft|]. rewrite Hft. unfold createdFileType, kFileTypeBIN, kFileTypeINT,
    kFileTypeBAS.
  repeat split.
  - intros -> Hlen Hty. apply Z.leb_le in Hlen. rewrite Hlen.
    destruct Hty as [Hty | [Hty | Hty]]; rewrite Hty; reflexivity.
  - intros Hlen. apply Z.leb_gt in Hlen. rewrite Hlen, andb_false_r. reflexivity.
  - intros ->. reflexivity.
  - intros H1 H2 H3. apply Z.eqb_neq in H1, H2, H3. rewrite H1, H2, H3.
    rewrite andb_false_r. reflexivity.
Qed.

(** C7.  On an image whose format has no resource forks, a request that
    brings a resource fork (and is therefore of storage type Extended) does
    not fail for it.  With no data fork the add returns [kDIErrNone] at once:
    no call of the driver, the driver's state untouched.  With a data fork
    the first call is [CreateFile] for a Seedling file, no call opens the
    resource fork, and an error is returned only when a call of the driver
    answered it; with a driver that hands back what it creates and opens,
    the add always comes to its end. *)
Theorem AddForksToDisk_drops_resource_fork :
  forall (pParms : CreateParms) (dataBuf : option (list Z)) (dataLen : Z)
         (rsrcBuf : option (list Z)) (rsrcLen : Z) (fs : FS),
    HasResourceForks (GetImageFSFormat fs) = false ->
    0 <= rsrcLen ->
    storageType pParms = kNuStorageExtended ->
    (dataLen < 0 ->
     AddForksToDisk' pParms dataBuf dataLen rsrcBuf rsrcLen fs = Some (kDIErrNone, fs, []))
    /\ (0 <= dataLen ->
        (forall (dierr : DIError) (fs' : FS) (calls : list (DriverCall A2FileDescr)),
            AddForksToDisk' pParms dataBuf dataLen rsrcBuf rsrcLen fs
            = Some (dierr, fs', calls) ->
            (exists (e : DIError) (f : option A2File) (rest : list (DriverCall A2FileDescr)),
                calls
                = CallCreateFile
                    (setFileType
                       (createdFileType (UsesDOSFileStructure (GetImageFSFormat fs))
                          dataLen (fileType pParms))
                       (setStorageType kNuStorageSeedling pParms)) e f :: rest)
            /\ (forall (f : A2File) (e : DIError) (d : option A2FileDescr),
                   ~ In (CallOpen f true e d) calls)
            /\ (dierr <> kDIErrNone ->
                option_map callResult (firstFailing calls) = Some dierr))
        /\ ((forall p s d s', CreateFile p s = (d, None, s') ->
                              DIError_eqb d kDIErrNone = false) ->
            (forall f ro rs s d s', Open f ro rs s = (d, None, s') ->
                                    DIError_eqb d kDIErrNone = false) ->
            AddForksToDisk' pParms dataBuf dataLen rsrcBuf rsrcLen fs <> None)).
Proof.
  intros pParms dataBuf dataLen rsrcBuf rsrcLen fs H1 H2 H3.
  apply Z.leb_le in H2.
  destruct pParms as [pn sep st ft ax ac cw mw]. cbn in H3. subst st.
  split.
  - intros Hneg. apply Z.ltb_lt in Hneg.
    unfold AddForksToDisk. cbn. rewrite andb_false_r. cbn.
    unfold bind, getFSFormat. rewrite H1, H2, Hneg. reflexivity.
  - intros Hpos. apply Z.ltb_ge in Hpos. split.
    + intros dierr fs' calls Hrun.
      unfold AddForksToDisk in Hrun. cbn in Hrun. rewrite andb_false_r in Hrun.
      cbn in Hrun. unfold bind, getFSFormat in Hrun. rewrite H1, H2, Hpos in Hrun.
      prelude_cases Hrun Hcw.
      all: apply createAndWriteForks_calls in Hcw;
        destruct Hcw as [[? [? [? [-> Hrest]]]] [Hopen Hfail]];
        (split; [|split; [apply Hopen; lia | exact Hfail]]);
        eexists _, _, _; unfold createdFileType; cbn; use_answers; cbn; reflexivity.
    + intros Hc Ho Hnone.
      unfold AddForksToDisk in Hnone. cbn in Hnone. rewrite andb_false_r in Hnone.
      cbn in Hnone. unfold bind, getFSFormat in Hnone. rewrite H1, H2, Hpos in Hnone.
      cbn in Hnone.
      match type of Hnone with
      | context [createAndWriteForks ?c ?o ?w ?cl ?del ?p ?db ?dl ?rb ?rl ?s] =>
          destruct (createAndWriteForks c o w cl del p db dl rb rl s)
            as [[[? ?] ?]|] eqn:Hcw; [discriminate Hnone|]
      end.
      revert Hcw. apply createAndWriteForks_returns; assumption.
Qed.

(** With a driver that hands back the file it created and the fork it
    opened, [AddForksToDisk] comes to its end. *)
Lemma AddForksToDisk_returns (pParms : CreateParms)
    (dataBuf : option (list Z)) (dataLen : Z) (rsrcBuf : option (list Z)) (rsrcLen : Z)
    (fs : FS) :
  (forall p s d s', CreateFile p s = (d, None, s') -> DIError_eqb d kDIErrNone = false) ->
  (forall f ro rs s d s', Open f ro rs s = (d, None, s') ->
                          DIError_eqb d kDIErrNone = false) ->
  AddForksToDisk' pParms dataBuf dataLen rsrcBuf rsrcLen fs <> None.
Proof.
  intros Hc Ho Hnone.
  destruct pParms as [pn sep st ft ax ac cw mw].
  unfold AddForksToDisk, bail, bind, ret, getFSFormat, callCreateFile, isNone,
    setStorageType, setFileType, setPathName, setAccess in Hnone.
  repeat (cbn in Hnone; driver_case Hnone; try absurd_case); cbn in Hnone;
    try discriminate Hnone.
  all: match type of Hnone with
       | context [createAndWriteForks ?c ?o ?w ?cl ?del ?p ?db ?dl ?rb ?rl ?s] =>
           destruct (createAndWriteForks c o w cl del p db dl rb rl s)
             as [[[? ?] ?]|] eqn:Hcw; [discriminate Hnone|]
       end;
    revert Hcw; apply createAndWriteForks_returns; assumption.
Qed.

(** C8.  Cleaning up after a failed add.  With a driver that hands back the
    file it creates and the fork it opens, [AddForksToDisk] comes to its end.
    In every run in which [CreateFile] answered [kDIErrNone] and handed back
    the new file: a fork call (open, write or close) that fails makes the add
    return an error; when the add returns an error, it is the code of the
    first call that failed, which was a fork call, and the last call of the
    run is [DeleteFile] on the new file; what [DeleteFile] answers does not
    matter, for with any other [DeleteFile] in its place the add returns the
    same code, again after deleting the new file last; and an add that
    returns [kDIErrNone] deletes nothing. *)
Theorem AddForksToDisk_cleans_up :
  forall (pParms : CreateParms) (dataBuf : option (list Z)) (dataLen : Z)
         (rsrcBuf : option (list Z)) (rsrcLen : Z) (fs : FS),
    ((forall p s d s', CreateFile p s = (d, None, s') -> DIError_eqb d kDIErrNone = false) ->
     (forall f ro rs s d s', Open f ro rs s = (d, None, s') ->
                             DIError_eqb d kDIErrNone = false) ->
     AddForksToDisk' pParms dataBuf dataLen rsrcBuf rsrcLen fs <> None)
    /\ forall (dierr : DIError) (fs' : FS) (calls : list (DriverCall A2FileDescr))
              (p : CreateParms) (f : A2File),
         AddForksToDisk' pParms dataBuf dataLen rsrcBuf rsrcLen fs
         = Some (dierr, fs', calls) ->
         In (CallCreateFile p kDIErrNone (Some f)) calls ->
         (forall c : DriverCall A2FileDescr,
             In c calls -> isForkCall c = true -> callResult c <> kDIErrNone ->
             dierr <> kDIErrNone)
         /\ (dierr <> kDIErrNone ->
             (exists c : DriverCall A2FileDescr,
                 firstFailing calls = Some c /\ isForkCall c = true
                 /\ callResult c = dierr)
             /\ (exists e : DIError, lastCall calls = Some (CallDeleteFile f e))
             /\ (forall DeleteFile2 : A2File -> FS -> DIError * FS,
                    exists (fs2 : FS) (calls2 : list (DriverCall A2FileDescr))
                           (e2 : DIError),
                      AddForksToDisk GetImageFSFormat CreateFile Open Write Close
                        DeleteFile2 IsHierarchical HasResourceForks UsesDOSFileStructure
                        kAccessInvisible pParms dataBuf dataLen rsrcBuf rsrcLen fs
                      = Some (dierr, fs2, calls2)
                      /\ lastCall calls2 = Some (CallDeleteFile f e2)))
         /\ (dierr = kDIErrNone ->
             forall (f' : A2File) (e : DIError), ~ In (CallDeleteFile f' e) calls).
Proof.
  intros pParms dataBuf dataLen rsrcBuf rsrcLen fs.
  split; [apply AddForksToDisk_returns|].
  intros dierr fs' calls p f Hrun Hin.
  destruct pParms as [pn sep st ft ax ac cw mw].
  prelude_cases Hrun Hcw.
  all: try (created_call Hin; cbn in *; congruence).
  all: answered_none.
  all: try (split; [|split];
            [ intros c Hc Hfork; cbn in Hc;
              repeat (destruct Hc as [Hc|Hc]; [subst c; discriminate Hfork|]);
              contradiction
            | intros Hne; exfalso; apply Hne; reflexivity
            | intros _ ? ? Hd; cbn in Hd;
              repeat (destruct Hd as [Hd|Hd]; [discriminate Hd|]); contradiction ]).
  all: destruct (createAndWriteForks_fails _ _ _ _ _ _ Hcw) as [Hfwd Hkeep];
    (split; [exact Hfwd | split; [|exact Hkeep]]);
    intros Hne;
    destruct (@createAndWriteForks_cleans_up _ _ _ _ _ _ _ _ _ _ _ Hcw Hin Hne)
      as [Hfirst [Hlast Hany]];
    (split; [exact Hfirst | split; [exact Hlast|]]);
    intros DeleteFile2;
    destruct (Hany DeleteFile2) as [fs2 [calls2 [e2 [Hrun2 Hlast2]]]];
    exists fs2, calls2, e2; split; [|exact Hlast2];
    unfold AddForksToDisk, bail, bind, ret, getFSFormat, callCreateFile, isNone,
      setStorageType, setFileType, setPathName, setAccess;
    repeat (cbn; progress use_equations); cbn; rewrite ?Hrun2; reflexivity.
Qed.

(** C6, what the code does with an empty-folder marker.  A Seedling request
    for [dir:.$$EmptyFolder] with no data, on a hierarchical image, becomes
    one [CreateFile] call for a directory (type $0f, the invisible bit
    cleared) and nothing is written; but the path of that directory is
    [Left(cp - pathName - 1)] of the request's path, which is [dir] without
    its last character, not [dir]. *)
Theorem AddForksToDisk_empty_folder_marker :
  forall (dir : string) (pParms : CreateParms) (dataBuf rsrcBuf : option (list Z))
         (rsrcLen : Z) (fs : FS),
    pathName pParms = (dir ++ String ":" kEmptyFolderMarker)%string ->
    fssep pParms = ":"%char ->
    storageType pParms = kNuStorageSeedling ->
    IsHierarchical (GetImageFSFormat fs) = true ->
    AddForksToDisk' pParms dataBuf 0 rsrcBuf rsrcLen fs
    = (let p :=
         mkCreateParms (Left (Z.of_nat (String.length dir) - 1) dir) ":"
           kNuStorageDirectory 0x0f (auxType pParms)
           (Z.land (access pParms) (Z.lnot kAccessInvisible))
           (createWhen pParms) (modWhen pParms) in
       let '(d, o, fs1) := CreateFile p fs in
       Some (if DIError_eqb d kDIErrDirectoryExists then kDIErrNone else d, fs1,
             [CallCreateFile p d o]))
    /\ (dir <> EmptyString ->
        exists c : ascii,
          dir = (Left (Z.of_nat (String.length dir) - 1) dir ++ String c EmptyString)%string).
Proof.
  intros dir pParms dataBuf rsrcBuf rsrcLen fs Hpath Hsep Hst Hhier.
  split; [|apply Left_drops_last].
  destruct pParms as [pn sep st ft ax ac cw mw]. cbn in Hpath, Hsep, Hst. subst pn sep st.
  unfold AddForksToDisk.
  cbn [pathName fssep storageType fileType auxType access createWhen modWhen].
  rewrite strrchr_marker, strAt_marker, String.eqb_refl.
  change (negb (Ascii.eqb ":"%char zero)) with true.
  cbn [negb andb NuStorageType_eqb Z.eqb].
  unfold setStorageType, setPathName, setFileType, setAccess.
  cbn [pathName fssep storageType fileType auxType access createWhen modWhen].
  unfold Left at 1. rewrite substring_prefix by lia. fold (Left (Z.of_nat (String.length dir) - 1) dir).
  unfold bind, getFSFormat. cbn [NuStorageType_eqb]. rewrite Hhier.
  unfold callCreateFile, bail, bind, ret, isNone.
  destruct (CreateFile _ fs) as [[d o] fs1]. cbn.
  destruct (DIError_eqb d kDIErrDirectoryExists); cbn;
    [|destruct (DIError_eqb d kDIErrNone)]; reflexivity.
Qed.

End DriverFacts.

(** ** The order of [wcsicmp] *)

Lemma towlower_nonneg (c : ascii) : 0 <= towlower c.
Proof.
  unfold towlower.
  destruct ((65 <=? Z.of_N (N_of_ascii c)) && (Z.of_N (N_of_ascii c) <=? 90)); lia.
Qed.

Lemma wcsicmp_antisym (a : string) : forall b, wcsicmp a b = - wcsicmp b a.
Proof.
  induction a as [|c1 r1 IH]; intros [|c2 r2]; simpl; try lia.
  destruct (Z.eqb_spec (towlower c1 - towlower c2) 0) as [H|H];
    destruct (Z.eqb_spec (towlower c2 - towlower c1) 0) as [H'|H']; try lia.
  replace (towlower c2) with (towlower c1) by lia.
  destruct (towlower c1 =? 0); [reflexivity | apply IH].
Qed.

Lemma wcsicmp_refl (a : string) : wcsicmp a a = 0.
Proof. pose proof (wcsicmp_antisym a a). lia. Qed.

Lemma wcsicmp_trans (a : string) :
  forall b c, wcsicmp a b <= 0 -> wcsicmp b c <= 0 -> wcsicmp a c <= 0.
Proof.
  induction a as [|c1 r1 IH]; intros [|c2 r2] [|c3 r3]; simpl;
    try pose proof (towlower_nonneg c1); try pose proof (towlower_nonneg c2);
    try pose proof (towlower_nonneg c3); intros H12 H23;
    repeat match goal with
           | H : context [?x =? ?y] |- _ => destruct (Z.eqb_spec x y)
           | |- context [?x =? ?y] => destruct (Z.eqb_spec x y)
           end;
    try lia.
  eapply IH; eassumption.
Qed.

Lemma wcsicmp_total (a b : string) : wcsicmp a b <= 0 \/ wcsicmp b a <= 0.
Proof. pose proof (wcsicmp_antisym a b). lia. Qed.

Lemma towlower_zero (c : ascii) : towlower c = 0 -> c = zero.
Proof.
  unfold towlower. intros H.
  destruct ((65 <=? Z.of_N (N_of_ascii c)) && (Z.of_N (N_of_ascii c) <=? 90)) eqn:E.
  - apply andb_true_iff in E. destruct E as [E _]. apply Z.leb_le in E. lia.
  - assert (N_of_ascii c = 0%N) by lia.
    rewrite <- (ascii_N_embedding c). rewrite H0. reflexivity.
Qed.

(** A name sorts strictly after each of its proper prefixes. *)
Lemma wcsicmp_longer (a : string) (sep : ascii) (rest : string) :
  noNUL a -> sep <> zero -> 0 < wcsicmp (a ++ String sep rest) a.
Proof.
  intros Ha Hsep. induction a as [|c a IH]; simpl.
  - pose proof (towlower_nonneg sep).
    assert (towlower sep <> 0) by (intros H0; apply Hsep, towlower_zero, H0). lia.
  - destruct Ha as [Hc Ha]. rewrite Z.sub_diag. simpl.
    destruct (Z.eqb_spec (towlower c) 0) as [H0|H0].
    + exfalso. apply Hc, towlower_zero, H0.
    + apply IH. exact Ha.
Qed.

Lemma StronglySorted_nth (A : Type) (R : A -> A -> Prop) (l : list A) :
  StronglySorted R l ->
  forall (i j : nat) (x y : A),
    nth_error l i = Some x -> nth_error l j = Some y -> (i < j)%nat -> R x y.
Proof.
  induction 1 as [|a l Hs IH Hall]; intros i j x y Hi Hj Hlt.
  - destruct i; discriminate Hi.
  - destruct j as [|j]; [lia|]. simpl in Hj. destruct i as [|i]; simpl in Hi.
    + injection Hi as <-. rewrite Forall_forall in Hall. apply Hall.
      eapply nth_error_In. exact Hj.
    + eapply IH; [exact Hi | exact Hj | lia].
Qed.

(** ** Deleting a selection *)

Lemma Forall2_nth_error_l (A B : Type) (R : A -> B -> Prop) (l1 : list A) (l2 : list B) :
  Forall2 R l1 l2 ->
  forall (i : nat) (a : A),
    nth_error l1 i = Some a -> exists b, nth_error l2 i = Some b /\ R a b.
Proof.
  induction 1 as [|a' b l1 l2 Hab _ IH]; intros i a Hi.
  - destruct i; discriminate Hi.
  - destruct i as [|i]; simpl in *.
    + injection Hi as <-. exists b. split; [reflexivity | exact Hab].
    + apply IH. exact Hi.
Qed.

Lemma lastCall_cons (A2FileDescr : Type) (c x : DriverCall A2FileDescr)
    (calls : list (DriverCall A2FileDescr)) :
  lastCall calls = Some x -> lastCall (c :: calls) = Some x.
Proof. destruct calls as [|y calls]; [discriminate | intros H; exact H]. Qed.

Section DeleteFacts.

Variable FS : Type.
Variable A2FileDescr : Type.
Variable DeleteFile : A2File -> FS -> DIError * FS.
Variable GetReadWriteSupported : A2File -> FS -> bool.
Variable GetDisplayName : DiskEntry -> string.
Variable qsort : (DiskEntry -> DiskEntry -> Z) -> list DiskEntry -> list DiskEntry.
Variable InternalReload : FS -> Z * FS.

(** What the C library promises of [qsort] with this comparison: the array
    holds the same elements, each pair of them in the order of the
    comparison. *)
Hypothesis qsort_sorts :
  forall l : list DiskEntry,
    Permutation l (qsort (CompareDisplayNamesDesc GetDisplayName) l)
    /\ StronglySorted (fun e1 e2 => CompareDisplayNamesDesc GetDisplayName e1 e2 <= 0)
         (qsort (CompareDisplayNamesDesc GetDisplayName) l).

Local Abbreviation deleteLoop' :=
  (deleteLoop A2FileDescr DeleteFile GetReadWriteSupported).
Local Abbreviation DeleteSelection' :=
  (DeleteSelection A2FileDescr DeleteFile GetReadWriteSupported GetDisplayName qsort
     InternalReload).
Local Abbreviation sorted pSelSet :=
  (qsort (CompareDisplayNamesDesc GetDisplayName) pSelSet).

(** How the loop ends: every entry of the array was deleted; or the last
    deletion failed; or the entry that was next is on a volume that cannot be
    written, with [fs1] the state of the driver at that point. *)
Local Abbreviation loopEnds entryArray ok fs1 calls :=
  ((ok = true /\ List.length calls = List.length entryArray
    /\ forall c, In c calls -> callResult c = kDIErrNone)
   \/ (ok = false
       /\ exists c, lastCall calls = Some c /\ callResult c <> kDIErrNone)
   \/ (ok = false
       /\ (forall c, In c calls -> callResult c = kDIErrNone)
       /\ exists (e : DiskEntry) (pFile : A2File),
            nth_error entryArray (List.length calls) = Some e
            /\ GetA2File e = Some pFile
            /\ GetReadWriteSupported pFile fs1 = false)).

(** The loop deletes the files of a leading part of the array, one call for
    each entry and in the order of the array, and calls nothing else; each
    deletion but the last one succeeded, and the loop goes on until the array
    is exhausted or an entry cannot be deleted. *)
Lemma deleteLoop_run (entryArray : list DiskEntry) :
  forall fs : FS,
    (forall e, In e entryArray -> GetA2File e <> None) ->
    exists (ok : bool) (fs1 : FS) (calls : list (DriverCall A2FileDescr)),
      deleteLoop' entryArray fs = Some (ok, fs1, calls)
      /\ Forall2 deletionOf (firstn (List.length calls) entryArray) calls
      /\ (forall (i : nat) (c : DriverCall A2FileDescr),
             nth_error calls i = Some c -> (S i < List.length calls)%nat ->
             callResult c = kDIErrNone)
      /\ loopEnds entryArray ok fs1 calls.
Proof.
  induction entryArray as [|pEntry rest IH]; intros fs Hfiles.
  - exists true, fs, []. split; [reflexivity|]. split; [constructor|].
    split; [intros i c Hi; destruct i; discriminate Hi|].
    left. repeat split. intros c [].
  - simpl. destruct (GetA2File pEntry) as [pFile|] eqn:Ef.
    2:{ exfalso. apply (Hfiles pEntry); [left; reflexivity | exact Ef]. }
    unfold bind, ret, callDeleteFile, isNone.
    destruct (GetReadWriteSupported pFile fs) eqn:Erw; simpl.
    + destruct (DeleteFile pFile fs) as [dierr fs1] eqn:Ed.
      destruct (DIError_eqb dierr kDIErrNone) eqn:Ee; simpl.
      * apply DIError_eqb_eq in Ee. subst dierr.
        destruct (IH fs1) as [ok [fs2 [calls [Hrun [Hdel [Hok Hend]]]]]].
        { intros e He. apply Hfiles. right. exact He. }
        rewrite Hrun. exists ok, fs2, (CallDeleteFile pFile kDIErrNone :: calls).
        split; [reflexivity|]. split; [|split].
        -- simpl. constructor; [|exact Hdel].
           exists pFile, kDIErrNone. split; [exact Ef | reflexivity].
        -- intros i c Hi Hlt. destruct i as [|i]; simpl in Hi, Hlt.
           ++ injection Hi as <-. reflexivity.
           ++ apply (Hok i c Hi). lia.
        -- destruct Hend as [[-> [Hlen Hall]] | [[-> [c [Hlast Hc]]] | [-> [Hall Hnext]]]].
           ++ left. split; [reflexivity|]. split; [simpl; rewrite Hlen; reflexivity|].
              intros c [<-|Hc]; [reflexivity | apply Hall; exact Hc].
           ++ right. left. split; [reflexivity|]. exists c.
              split; [apply lastCall_cons; exact Hlast | exact Hc].
           ++ right. right. split; [reflexivity|]. split.
              ** intros c [<-|Hc]; [reflexivity | apply Hall; exact Hc].
              ** exact Hnext.
      * exists false, fs1, [CallDeleteFile pFile dierr].
        split; [reflexivity|]. split; [|split].
        -- simpl. constructor; [|constructor].
           exists pFile, dierr. split; [exact Ef | reflexivity].
        -- intros i c Hi Hlt. simpl in Hlt. lia.
        -- right. left. split; [reflexivity|]. eexists. split; [reflexivity|].
           simpl. intros ->. discriminate Ee.
    + exists false, fs, []. split; [reflexivity|]. split; [constructor|].
      split; [intros i c Hi; destruct i; discriminate Hi|].
      right. right. split; [reflexivity|]. split; [intros c []|].
      exists pEntry, pFile. repeat split; assumption.
Qed.

(** An entry whose display name extends that of another by a separator and
    more stands before it in a sorted array. *)
Lemma descendant_first (entryArray : list DiskEntry) :
  StronglySorted (fun e1 e2 => CompareDisplayNamesDesc GetDisplayName e1 e2 <= 0)
    entryArray ->
  forall (i j : nat) (ancestor descendant : DiskEntry) (sep : ascii) (rest : string),
    nth_error entryArray i = Some ancestor ->
    nth_error entryArray j = Some descendant ->
    GetDisplayName descendant = (GetDisplayName ancestor ++ String sep rest)%string ->
    noNUL (GetDisplayName ancestor) -> sep <> zero ->
    (j < i)%nat.
Proof.
  intros Hsorted i j a d sep rest Hi Hj Hname Hnul Hsep.
  pose proof (wcsicmp_longer (GetDisplayName a) rest Hnul Hsep) as Hlt.
  rewrite <- Hname in Hlt.
  destruct (Nat.lt_trichotomy i j) as [Hij|[Hij|Hij]]; [| |exact Hij].
  - pose proof (StronglySorted_nth Hsorted Hi Hj Hij) as H.
    unfold CompareDisplayNamesDesc in H. lia.
  - subst j. rewrite Hi in Hj. injection Hj as <-.
    rewrite wcsicmp_refl in Hlt. lia.
Qed.

(** The selection of /A, /A/B and /A/B/C is sorted as /A/B/C, /A/B, /A. *)
Lemma three_levels_sorted (entryArray : list DiskEntry) (eA eB eC : DiskEntry) :
  StronglySorted (fun e1 e2 => CompareDisplayNamesDesc GetDisplayName e1 e2 <= 0)
    entryArray ->
  GetDisplayName eA = "/A" -> GetDisplayName eB = "/A/B" ->
  GetDisplayName eC = "/A/B/C" ->
  Permutation [eA; eB; eC] entryArray ->
  entryArray = [eC; eB; eA].
Proof.
  intros Hsorted HA HB HC Hp.
  pose proof (Permutation_length Hp) as Hlen.
  destruct entryArray as [|x [|y [|z [|w t]]]]; try discriminate Hlen.
  assert (Hnd : NoDup [x; y; z]).
  { eapply Permutation_NoDup; [exact Hp|].
    repeat constructor; simpl; intros H;
      repeat (destruct H as [H|H]; [|]); try contradiction;
      subst; congruence. }
  assert (Hx : In x [eA; eB; eC])
    by (eapply Permutation_in; [apply Permutation_sym; exact Hp | left; reflexivity]).
  assert (Hy : In y [eA; eB; eC])
    by (eapply Permutation_in; [apply Permutation_sym; exact Hp
                               | right; left; reflexivity]).
  assert (Hz : In z [eA; eB; eC])
    by (eapply Permutation_in; [apply Permutation_sym; exact Hp
                               | right; right; left; reflexivity]).
  inversion Hsorted as [|? ? Hs1 Hall1]; subst.
  inversion Hs1 as [|? ? Hs2 Hall2]; subst.
  inversion Hall1 as [|? ? Hxy Hall1']; subst.
  inversion Hall1' as [|? ? Hxz _]; subst.
  inversion Hall2 as [|? ? Hyz _]; subst.
  unfold CompareDisplayNamesDesc in Hxy, Hxz, Hyz.
  inversion Hnd as [|? ? Hnx Hnd1]; subst.
  inversion Hnd1 as [|? ? Hny _]; subst.
  simpl in Hx, Hy, Hz, Hnx, Hny.
  destruct Hx as [<-|[<-|[<-|[]]]]; destruct Hy as [<-|[<-|[<-|[]]]];
    destruct Hz as [<-|[<-|[<-|[]]]];
    try (exfalso; apply Hnx; auto; fail);
    try (exfalso; apply Hny; auto; fail);
    rewrite ?HA, ?HB, ?HC in Hxy; rewrite ?HA, ?HB, ?HC in Hxz;
    rewrite ?HA, ?HB, ?HC in Hyz;
    cbn in Hxy, Hxz, Hyz; try lia.
  reflexivity.
Qed.

(** C4.  [DeleteSelection] sorts the selection with [qsort] and
    [CompareDisplayNamesDesc]: the array it walks holds the selected entries
    in descending order of their display names, the characters compared as
    [wcsicmp] compares them (by their lower-case forms).  It then calls
    [DeleteFile] once for each entry of a leading part of that array, in the
    order of the array, and calls nothing else; every deletion but the last
    succeeded, and the walk stops only at the end of the array, after a
    deletion that failed, or before an entry on a volume that cannot be
    written.  It returns what the walk came to, and [false] when the reload
    fails.  Whenever the deletion of an entry is attempted, every selected
    entry whose display name extends its name by a separator and more stands
    before it in the array and has been deleted, with success; and the
    selection of /A, /A/B and /A/B/C, in whatever order, is walked as /A/B/C,
    /A/B, /A. *)
Theorem DeleteSelection_order :
  forall (pSelSet : list DiskEntry) (fs : FS),
    (forall e, In e pSelSet -> GetA2File e <> None) ->
    Permutation pSelSet (sorted pSelSet)
    /\ StronglySorted
         (fun e1 e2 => wcsicmp (GetDisplayName e2) (GetDisplayName e1) <= 0)
         (sorted pSelSet)
    /\ exists (retVal ok : bool) (fs1 : FS) (r : Z) (fs' : FS)
              (calls : list (DriverCall A2FileDescr)),
         DeleteSelection' pSelSet fs = Some (retVal, fs', calls)
         /\ InternalReload fs1 = (r, fs')
         /\ retVal = (if negb (r =? 0) then false else ok)
         /\ Forall2 deletionOf (firstn (List.length calls) (sorted pSelSet)) calls
         /\ (forall (i : nat) (c : DriverCall A2FileDescr),
                nth_error calls i = Some c -> (S i < List.length calls)%nat ->
                callResult c = kDIErrNone)
         /\ loopEnds (sorted pSelSet) ok fs1 calls
         /\ (forall (i : nat) (ancestor descendant : DiskEntry) (sep : ascii)
                    (rest : string),
                (i < List.length calls)%nat ->
                nth_error (sorted pSelSet) i = Some ancestor ->
                In descendant pSelSet ->
                GetDisplayName descendant
                = (GetDisplayName ancestor ++ String sep rest)%string ->
                noNUL (GetDisplayName ancestor) -> sep <> zero ->
                exists (j : nat) (pFile : A2File),
                  (j < i)%nat
                  /\ nth_error (sorted pSelSet) j = Some descendant
                  /\ GetA2File descendant = Some pFile
                  /\ nth_error calls j = Some (CallDeleteFile pFile kDIErrNone))
         /\ (forall eA eB eC : DiskEntry,
                GetDisplayName eA = "/A" -> GetDisplayName eB = "/A/B" ->
                GetDisplayName eC = "/A/B/C" ->
                Permutation [eA; eB; eC] pSelSet ->
                sorted pSelSet = [eC; eB; eA]
                /\ Forall2 deletionOf (firstn (List.length calls) [eC; eB; eA]) calls).
Proof.
  intros pSelSet fs Hfiles.
  destruct (qsort_sorts pSelSet) as [Hperm Hsorted].
  split; [exact Hperm|]. split; [exact Hsorted|].
  destruct (deleteLoop_run (sorted pSelSet) fs)
    as [ok [fs1 [calls [Hrun [Hdel [Hok Hend]]]]]].
  { intros e He. apply Hfiles. eapply Permutation_in; [|exact He].
    apply Permutation_sym. exact Hperm. }
  destruct (InternalReload fs1) as [r fs2] eqn:Er.
  exists (if negb (r =? 0) then false else ok), ok, fs1, r, fs2, calls.
  split.
  { unfold DeleteSelection, bind, ret. rewrite Hrun, Er. rewrite !app_nil_r. reflexivity. }
  split; [exact Er|]. split; [reflexivity|]. split; [exact Hdel|].
  split; [exact Hok|]. split; [exact Hend|]. split.
  - intros i a d sep rest Hi Ha Hd Hname Hnul Hsep.
    assert (Hd' : In d (sorted pSelSet))
      by (eapply Permutation_in; [exact Hperm | exact Hd]).
    apply In_nth_error in Hd'. destruct Hd' as [j Hj].
    assert (Hji : (j < i)%nat)
      by (eapply (descendant_first Hsorted);
          [exact Ha | exact Hj | exact Hname | exact Hnul | exact Hsep]).
    assert (Hjn : nth_error (firstn (List.length calls) (sorted pSelSet)) j = Some d).
    { rewrite nth_error_firstn.
      destruct (Nat.ltb_spec j (List.length calls)); [exact Hj | lia]. }
    destruct (Forall2_nth_error_l Hdel _ Hjn) as [c [Hc [pFile [dierr [Hf ->]]]]].
    exists j, pFile. split; [exact Hji|]. split; [exact Hj|]. split; [exact Hf|].
    rewrite Hc. f_equal. f_equal.
    apply (Hok j _ Hc). lia.
  - intros eA eB eC HA HB HC Hsel.
    assert (Hs : sorted pSelSet = [eC; eB; eA]).
    { apply three_levels_sorted; try assumption.
      eapply Permutation_trans; [exact Hsel | exact Hperm]. }
    split; [exact Hs|]. rewrite <- Hs. exact Hdel.
Qed.

End DeleteFacts.

(** ** Examples *)

(** Insertion sort keeps what [qsort] promises. *)
Lemma insertEntry_perm (cmp : DiskEntry -> DiskEntry -> Z) (x : DiskEntry)
    (l : list DiskEntry) :
  Permutation (x :: l) (insertEntry cmp x l).
Proof.
  induction l as [|y l IH]; simpl.
  - apply Permutation_refl.
  - destruct (cmp x y <=? 0).
    + apply Permutation_refl.
    + eapply Permutation_trans; [apply perm_swap|]. apply perm_skip. exact IH.
Qed.

Lemma insertionSort_sorts (GetDisplayName : DiskEntry -> string) (l : list DiskEntry) :
  Permutation l (insertionSort (CompareDisplayNamesDesc GetDisplayName) l)
  /\ StronglySorted (fun e1 e2 => CompareDisplayNamesDesc GetDisplayName e1 e2 <= 0)
       (insertionSort (CompareDisplayNamesDesc GetDisplayName) l).
Proof.
  induction l as [|x l [IHp IHs]]; simpl.
  - split; constructor.
  - split.
    + eapply Permutation_trans; [apply perm_skip; exact IHp | apply insertEntry_perm].
    + clear IHp. revert IHs.
      generalize (insertionSort (CompareDisplayNamesDesc GetDisplayName) l) as s.
      induction s as [|y s IH]; intros Hs; simpl.
      * constructor; constructor.
      * inversion Hs as [|? ? Hs' Hall]; subst.
        destruct (Z.leb_spec (CompareDisplayNamesDesc GetDisplayName x y) 0) as [Hle|Hgt].
        -- constructor; [exact Hs|]. constructor; [exact Hle|].
           rewrite Forall_forall in *. intros z Hz. specialize (Hall z Hz).
           unfold CompareDisplayNamesDesc in *.
           eapply wcsicmp_trans; [exact Hall | exact Hle].
        -- constructor; [apply IH; exact Hs'|].
           rewrite Forall_forall in *. intros z Hz.
           assert (Hin : In z (x :: s)).
           { eapply Permutation_in; [apply Permutation_sym, insertEntry_perm | exact Hz]. }
           destruct Hin as [<-|Hin]; [|apply Hall; exact Hin].
           unfold CompareDisplayNamesDesc in *.
           pose proof (wcsicmp_antisym (GetDisplayName x) (GetDisplayName y)). lia.
Qed.

(** The selection of /A/B, /A and /A/B/C, with an insertion sort for [qsort]
    and a driver that deletes what it is asked to: the three files are
    deleted from the deepest up. *)
Lemma DeleteSelection_order_witness :
  DeleteSelection nat (exampleDeleteFile kDIErrNone) (fun _ _ => true) GetEntryPathName
    insertionSort (fun fs => (0, fs))
    [entryNamed "/A/B"; entryNamed "/A"; entryNamed "/A/B/C"] []
  = Some (true, [],
          [CallDeleteFile (exampleFile "/A/B/C" false false 0 (-1)) kDIErrNone;
           CallDeleteFile (exampleFile "/A/B" false false 0 (-1)) kDIErrNone;
           CallDeleteFile (exampleFile "/A" false false 0 (-1)) kDIErrNone])
  /\ insertionSort (CompareDisplayNamesDesc GetEntryPathName)
       [entryNamed "/A/B"; entryNamed "/A"; entryNamed "/A/B/C"]
     = [entryNamed "/A/B/C"; entryNamed "/A/B"; entryNamed "/A"].
Proof.
  destruct (@DeleteSelection_order (list CreateParms) nat (exampleDeleteFile kDIErrNone)
              (fun _ _ => true) GetEntryPathName insertionSort (fun fs => (0, fs))
              (insertionSort_sorts GetEntryPathName)
              [entryNamed "/A/B"; entryNamed "/A"; entryNamed "/A/B/C"] [])
    as [_ [_ [retVal [ok [fs1 [r [fs' [calls [Hrun [_ [_ [_ [_ [_ [_ Hthree]]]]]]]]]]]]]]].
  - intros e [<-|[<-|[<-|[]]]]; discriminate.
  - split.
    + reflexivity.
    + apply (Hthree (entryNamed "/A") (entryNamed "/A/B") (entryNamed "/A/B/C")
               eq_refl eq_refl eq_refl).
      apply perm_swap.
Defined.

(** A file of 0x00ffffff bytes, a file of 0x01000000 bytes, and an add
    that starts with the second. *)
Lemma LoadFile_size_limit_witness :
  (exists (buf : list Z) (len : Z),
      LoadFile exampleHost exampleDetermineConversion "LIMIT.BIN"
        kConvertEOLOff kConvertHAOff = Loaded (Some buf) len
      /\ len <= 0x00ffffff)
  /\ LoadFile exampleHost exampleDetermineConversion "HUGE.BIN"
       kConvertEOLOff kConvertHAOff = LoadFailed kTooLargeMsg
  /\ processLoop (fun _ : list CreateParms => kFormatProDOS) exampleCreateFile
       exampleOpen (exampleWrite kDIErrNone) exampleClose (exampleDeleteFile kDIErrNone)
       exampleDIStrError exampleIsHierarchical exampleHasResourceForks exampleUsesDOS
       0x04 0x04 0xb0 (fun t => t) exampleHost exampleDetermineConversion
       kConvEOLNone kConvertEOLOff
       [candidate "HUGE.BIN" kFileKindDataFork; candidate "TEXT.TXT" kFileKindDataFork] []
     = Some (kTooLargeMsg, [], []).
Proof.
  split; [|split].
  - refine (proj1 (proj2
      (@LoadFile_size_limit (list CreateParms) nat (fun _ => kFormatProDOS)
         exampleCreateFile exampleOpen (exampleWrite kDIErrNone) exampleClose
         (exampleDeleteFile kDIErrNone) exampleDIStrError exampleIsHierarchical
         exampleHasResourceForks exampleUsesDOS 0x04 0x04 0xb0 (fun t => t)
         exampleHost exampleDetermineConversion "LIMIT.BIN" kConvertEOLOff kConvertHAOff))
      eq_refl eq_refl eq_refl eq_refl _).
    change (hf_bytes (exampleHost "LIMIT.BIN")) with (repeat 0 (Z.to_nat 0x00ffffff)).
    rewrite repeat_length, Z2Nat.id; lia.
  - exact (proj1 (proj2 (proj2
      (@LoadFile_size_limit (list CreateParms) nat (fun _ => kFormatProDOS)
         exampleCreateFile exampleOpen (exampleWrite kDIErrNone) exampleClose
         (exampleDeleteFile kDIErrNone) exampleDIStrError exampleIsHierarchical
         exampleHasResourceForks exampleUsesDOS 0x04 0x04 0xb0 (fun t => t)
         exampleHost exampleDetermineConversion "HUGE.BIN" kConvertEOLOff kConvertHAOff)))
      eq_refl eq_refl eq_refl).
  - refine (proj2 (proj2 (proj2 (proj2
      (@LoadFile_size_limit (list CreateParms) nat (fun _ => kFormatProDOS)
         exampleCreateFile exampleOpen (exampleWrite kDIErrNone) exampleClose
         (exampleDeleteFile kDIErrNone) exampleDIStrError exampleIsHierarchical
         exampleHasResourceForks exampleUsesDOS 0x04 0x04 0xb0 (fun t => t)
         exampleHost exampleDetermineConversion "HUGE.BIN" kConvertEOLOff kConvertHAOff))))
      (candidate "HUGE.BIN" kFileKindDataFork) [candidate "TEXT.TXT" kFileKindDataFork]
      kConvEOLNone kConvertEOLOff
      (GetDetails (candidate "HUGE.BIN" kFileKindDataFork)) None []
      (or_introl eq_refl) eq_refl eq_refl eq_refl _).
    simpl. lia.
Defined.

(** The marker of the folder [DIR] on a ProDOS image: the directory asked
    for is [DI]. *)
Lemma AddForksToDisk_empty_folder_marker_witness :
  exampleAddForksToDisk kFormatProDOS kDIErrNone kDIErrNone
    (mkCreateParms "DIR:.$$EmptyFolder" ":" kNuStorageSeedling 0 0 0xe7 0 0)
    None 0 None (-1) []
  = Some (kDIErrNone,
          [mkCreateParms "DI" ":" kNuStorageDirectory 0x0f 0 0xe3 0 0],
          [CallCreateFile (mkCreateParms "DI" ":" kNuStorageDirectory 0x0f 0 0xe3 0 0)
             kDIErrNone (Some (exampleFile "DI" false false 0 (-1)))]).
Proof.
  exact (proj1
    (@AddForksToDisk_empty_folder_marker (list CreateParms) nat
       (fun _ => kFormatProDOS) exampleCreateFile exampleOpen (exampleWrite kDIErrNone)
       exampleClose (exampleDeleteFile kDIErrNone) exampleIsHierarchical
       exampleHasResourceForks exampleUsesDOS 0x04
       "DIR" (mkCreateParms "DIR:.$$EmptyFolder" ":" kNuStorageSeedling 0 0 0xe7 0 0)
       None None (-1) [] eq_refl eq_refl eq_refl eq_refl)).
Defined.

(** A resource fork alone, and a data fork with a resource fork, added to a
    DOS 3.3 image. *)
Lemma AddForksToDisk_drops_resource_fork_witness :
  exampleAddForksToDisk kFormatDOS33 kDIErrNone kDIErrNone
    (mkCreateParms "ICON" ":" kNuStorageExtended 0x06 0 0xc3 0 0)
    None (-1) (Some [1; 2; 3; 4]) 4 []
  = Some (kDIErrNone, [], []).
Proof.
  refine (proj1
    (@AddForksToDisk_drops_resource_fork (list CreateParms) nat
       (fun _ => kFormatDOS33) exampleCreateFile exampleOpen (exampleWrite kDIErrNone)
       exampleClose (exampleDeleteFile kDIErrNone) exampleIsHierarchical
       exampleHasResourceForks exampleUsesDOS 0x04
       (mkCreateParms "ICON" ":" kNuStorageExtended 0x06 0 0xc3 0 0)
       None (-1) (Some [1; 2; 3; 4]) 4 [] eq_refl _ eq_refl) _); lia.
Defined.

(** A write that fails after the file was created, with a [DeleteFile] that
    fails too: the file is deleted last, and the code returned is that of
    the write. *)
Lemma AddForksToDisk_cleans_up_witness :
  exampleAddForksToDisk kFormatProDOS (kDIErrOther (-5)) (kDIErrOther (-9))
    (mkCreateParms "NOTES" ":" kNuStorageSeedling 0x04 0 0xc3 0 0)
    (Some [72; 73]) 2 None (-1) []
  = Some (kDIErrOther (-5),
          [mkCreateParms "NOTES" ":" kNuStorageSeedling 0x04 0 0xc3 0 0],
          [CallCreateFile (mkCreateParms "NOTES" ":" kNuStorageSeedling 0x04 0 0xc3 0 0)
             kDIErrNone (Some (exampleFile "NOTES" false false 0 (-1)));
           CallOpen (exampleFile "NOTES" false false 0 (-1)) false kDIErrNone (Some 0%nat);
           CallWrite 0%nat [72; 73] 2 (kDIErrOther (-5));
           CallClose 0%nat kDIErrNone;
           CallDeleteFile (exampleFile "NOTES" false false 0 (-1)) (kDIErrOther (-9))])
  /\ kDIErrOther (-5) <> kDIErrNone.
Proof.
  split; [reflexivity|].
  refine (proj1 (proj2
    (@AddForksToDisk_cleans_up (list CreateParms) nat
       (fun _ => kFormatProDOS) exampleCreateFile exampleOpen
       (exampleWrite (kDIErrOther (-5))) exampleClose
       (exampleDeleteFile (kDIErrOther (-9))) exampleIsHierarchical
       exampleHasResourceForks exampleUsesDOS 0x04
       (mkCreateParms "NOTES" ":" kNuStorageSeedling 0x04 0 0xc3 0 0)
       (Some [72; 73]) 2 None (-1) [])
    (kDIErrOther (-5))
    [mkCreateParms "NOTES" ":" kNuStorageSeedling 0x04 0 0xc3 0 0]
    _
    (mkCreateParms "NOTES" ":" kNuStorageSeedling 0x04 0 0xc3 0 0)
    (exampleFile "NOTES" false false 0 (-1))
    eq_refl (or_introl eq_refl))
    (CallWrite 0%nat [72; 73] 2 (kDIErrOther (-5))) _ eq_refl _).
  - right. right. left. reflexivity.
  - discriminate.
Defined.

(** A BIN file of 70000 bytes added to a DOS 3.3 image is created with the
    type $f2. *)
Lemma AddForksToDisk_file_type_witness :
  0xf2 = createdFileType (exampleUsesDOS kFormatDOS33) 70000 0x06.
Proof.
  refine (proj1
    (@AddForksToDisk_file_type (list CreateParms) nat
       (fun _ => kFormatDOS33) exampleCreateFile exampleOpen (exampleWrite kDIErrNone)
       exampleClose (exampleDeleteFile kDIErrNone) exampleIsHierarchical
       exampleHasResourceForks exampleUsesDOS 0x04
       (mkCreateParms "BIG" ":" kNuStorageSeedling 0x06 0 0xc3 0 0)
       None 70000 None (-1) []
       kDIErrNone
       [mkCreateParms "BIG" ":" kNuStorageSeedling 0xf2 0 0xc3 0 0]
       _
       (mkCreateParms "BIG" ":" kNuStorageSeedling 0xf2 0 0xc3 0 0)
       kDIErrNone (Some (exampleFile "BIG" false false 0 (-1)))
       eq_refl (or_introl eq_refl) _)).
  discriminate.
Defined.

(** A BIN file of exactly 65536 bytes (64 KiB, not more) added to a DOS 3.3
    image: the driver is asked for a file of type $f2, not $06. *)
Lemma AddForksToDisk_file_type_at_64K :
  option_map (fun r => map fileType (createRequests (snd r)))
    (exampleAddForksToDisk kFormatDOS33 kDIErrNone kDIErrNone
       (mkCreateParms "BIG" ":" kNuStorageSeedling 0x06 0 0xc3 0 0)
       (Some (repeat 0 (Z.to_nat 65536))) 65536 None (-1) [])
  = Some [0xf2]
  /\ 65536 = 64 * 1024.
Proof. split; reflexivity. Qed.

(** * Further properties *)

(** ** The feature table *)

(** X1.  The feature table of [GetFeatureFlag] is coherent, format by
    format: the Pascal, DOS and HFS type vocabularies exclude one another;
    the file type can be changed exactly on ProDOS (the format with full
    access flags) and on the formats with one of these vocabularies; no
    format has both full and simple access flags; a format with an invisible
    flag has access flags of one kind; and a feature the table does not know
    is offered by no format. *)
Theorem GetFeatureFlag_coherent :
  forall format : FSFormat,
    GetFeatureFlag format kFeaturePascalTypes && GetFeatureFlag format kFeatureDOSTypes = false
    /\ GetFeatureFlag format kFeaturePascalTypes && GetFeatureFlag format kFeatureHFSTypes
       = false
    /\ GetFeatureFlag format kFeatureDOSTypes && GetFeatureFlag format kFeatureHFSTypes = false
    /\ GetFeatureFlag format kFeatureCanChangeType
       = GetFeatureFlag format kFeatureHasFullAccess
         || GetFeatureFlag format kFeaturePascalTypes
         || GetFeatureFlag format kFeatureDOSTypes
         || GetFeatureFlag format kFeatureHFSTypes
    /\ GetFeatureFlag format kFeatureHasFullAccess
       && GetFeatureFlag format kFeatureHasSimpleAccess = false
    /\ (GetFeatureFlag format kFeatureHasInvisibleFlag = true ->
        GetFeatureFlag format kFeatureHasFullAccess
        || GetFeatureFlag format kFeatureHasSimpleAccess = true)
    /\ (forall n : Z, GetFeatureFlag format (kFeatureOther n) = false).
Proof.
  intros format.
  destruct format; simpl; repeat split; intros; try reflexivity; try discriminate.
Qed.

(** ** The catalog, entry by entry *)

Section CatalogFacts.

Variable kDateNone : Z.
Variable wantCoerceDOSFilenames : bool.
Variable InjectLowercase : string -> string.
Variable UsesDOSFileStructure : FSFormat -> bool.
Variable newDiskEntry : A2File -> DiskEntry.

Local Abbreviation loadEntry' :=
  (loadEntry kDateNone wantCoerceDOSFilenames InjectLowercase UsesDOSFileStructure
     newDiskEntry).
Local Abbreviation LoadDiskFSContents' :=
  (LoadDiskFSContents kDateNone wantCoerceDOSFilenames InjectLowercase
     UsesDOSFileStructure newDiskEntry).

(** The entries of the catalog and the files of the image, side by side. *)
Lemma LoadDiskFSContents_Forall2 (pDiskFS : DiskFS) :
  forall volName : string,
    Forall2 (fun (e : DiskEntry) (pFile : A2File) => exists vol, e = loadEntry' vol pFile)
      (LoadDiskFSContents' pDiskFS volName) (allFiles pDiskFS).
Proof.
  induction pDiskFS as [name files subVolumes IH] using DiskFS_nested_ind.
  intros volName. simpl. apply Forall2_app.
  - induction files as [|f files IHf]; simpl; constructor.
    + exists volName. reflexivity.
    + exact IHf.
  - induction IH as [|pSubVol rest Hsub _ IHrest]; simpl.
    + constructor.
    + apply Forall2_app; [apply Hsub | exact IHrest].
Qed.

Lemma Forall2_nth_error (A B : Type) (R : A -> B -> Prop) (l1 : list A) (l2 : list B) :
  Forall2 R l1 l2 ->
  forall (i : nat) (b : B),
    nth_error l2 i = Some b -> exists a, nth_error l1 i = Some a /\ R a b.
Proof.
  induction 1 as [|a b' l1 l2 Hab _ IH]; intros i b Hi.
  - destruct i; discriminate Hi.
  - destruct i as [|i]; simpl in *.
    + injection Hi as <-. exists a. split; [reflexivity | exact Hab].
    + apply IH. exact Hi.
Qed.

(** X2.  The catalog has exactly one entry for each file of the image, the
    files of the volumes nested in it included, and in the driver's order:
    the entry at a position is the one loaded from the file at that position,
    the files of a volume coming before those of its sub-volumes and under
    the volume's own name. *)
Theorem LoadDiskFSContents_one_entry_per_file :
  forall (pDiskFS : DiskFS) (volName : string),
    List.length (LoadDiskFSContents' pDiskFS volName) = List.length (allFiles pDiskFS)
    /\ (forall (i : nat) (pFile : A2File),
           nth_error (allFiles pDiskFS) i = Some pFile ->
           exists vol : string,
             nth_error (LoadDiskFSContents' pDiskFS volName) i = Some (loadEntry' vol pFile))
    /\ (forall (i : nat) (pFile : A2File),
           nth_error (fsFiles pDiskFS) i = Some pFile ->
           nth_error (allFiles pDiskFS) i = Some pFile
           /\ nth_error (LoadDiskFSContents' pDiskFS volName) i
              = Some (loadEntry' volName pFile)).
Proof.
  intros pDiskFS volName.
  pose proof (LoadDiskFSContents_Forall2 pDiskFS volName) as HF.
  split; [|split].
  - eapply Forall2_length. exact HF.
  - intros i pFile Hi.
    destruct (Forall2_nth_error HF i Hi) as [e [He [vol ->]]].
    exists vol. exact He.
  - intros i pFile Hi. destruct pDiskFS as [name files subVolumes]. simpl in *.
    assert (Hlt : (i < List.length files)%nat)
      by (apply nth_error_Some; rewrite Hi; discriminate).
    split.
    + rewrite nth_error_app1 by exact Hlt. exact Hi.
    + rewrite nth_error_app1 by (rewrite length_map; exact Hlt).
      rewrite nth_error_map, Hi. reflexivity.
Qed.

Lemma loadEntry_fields (volName : string) (pFile : A2File) :
  GetEntryPathName (loadEntry' volName pFile)
  = (let path := if IsEmpty (GetPathName pFile) then kBlankFileName
                 else GetPathName pFile in
     if UsesDOSFileStructure (GetFSFormat pFile) && wantCoerceDOSFilenames
     then InjectLowercase path else path)
  /\ GetEntryCreateWhen (loadEntry' volName pFile)
     = (if GetCreateWhen pFile =? 0 then kDateNone else GetCreateWhen pFile)
  /\ GetEntryModWhen (loadEntry' volName pFile)
     = (if GetModWhen pFile =? 0 then kDateNone else GetModWhen pFile)
  /\ GetHasDataFork (loadEntry' volName pFile) = true
  /\ GetDamaged (loadEntry' volName pFile) = Quality_eqb (GetQuality pFile) kQualityDamaged
  /\ GetSuspicious (loadEntry' volName pFile)
     = Quality_eqb (GetQuality pFile) kQualitySuspicious.
Proof.
  unfold loadEntry.
  destruct (IsVolumeDirectory pFile); [|destruct (IsDirectory pFile);
    [|destruct (0 <=? GetRsrcLength pFile)]];
    cbv zeta;
    destruct (GetFSFormat pFile), (GetCreateWhen pFile =? 0), (GetModWhen pFile =? 0),
      (IsEmpty volName); repeat split.
Qed.

(** X3.  What the loader never lets into the catalog.  With a "no date"
    value other than 0 and an [InjectLowercase] that does not empty a name,
    no entry has an empty path name (the driver's empty name is shown as
    "<blank filename>"), none has the creation or modification date 0, each
    has a data fork, and none is both damaged and suspicious. *)
Theorem LoadDiskFSContents_entries_wellformed :
  forall (pDiskFS : DiskFS) (volName : string) (e : DiskEntry),
    kDateNone <> 0 ->
    (forall s : string, InjectLowercase s = EmptyString -> s = EmptyString) ->
    In e (LoadDiskFSContents' pDiskFS volName) ->
    GetEntryPathName e <> EmptyString
    /\ GetEntryCreateWhen e <> 0
    /\ GetEntryModWhen e <> 0
    /\ GetHasDataFork e = true
    /\ GetDamaged e && GetSuspicious e = false.
Proof.
  intros pDiskFS volName e Hdate Hinj Hin.
  destruct (LoadDiskFSContents_from_file kDateNone wantCoerceDOSFilenames InjectLowercase
              UsesDOSFileStructure newDiskEntry pDiskFS volName e Hin)
    as [pFile [vol [_ ->]]].
  destruct (loadEntry_fields vol pFile) as [Hp [Hc [Hm [Hd [Hdam Hsus]]]]].
  rewrite Hp, Hc, Hm, Hd, Hdam, Hsus. repeat split.
  - assert (Hne : (if IsEmpty (GetPathName pFile) then kBlankFileName
                   else GetPathName pFile) <> EmptyString).
    { destruct (GetPathName pFile); simpl; discriminate. }
    cbv zeta.
    destruct (UsesDOSFileStructure (GetFSFormat pFile) && wantCoerceDOSFilenames).
    + intros H. apply Hne. apply Hinj. exact H.
    + exact Hne.
  - destruct (Z.eqb_spec (GetCreateWhen pFile) 0); assumption.
  - destruct (Z.eqb_spec (GetModWhen pFile) 0); assumption.
  - destruct (GetQuality pFile); reflexivity.
Qed.

End CatalogFacts.

(** The catalog of [exampleVolume]: the entry of the directory [DOCS]. *)
Lemma LoadDiskFSContents_entries_wellformed_witness :
  GetEntryPathName
    (loadEntry (-2) false (fun s => s) exampleUsesDOS exampleNewDiskEntry EmptyString
       (exampleFile "DOCS" false true 512 (-1))) <> EmptyString
  /\ GetEntryCreateWhen
       (loadEntry (-2) false (fun s => s) exampleUsesDOS exampleNewDiskEntry EmptyString
          (exampleFile "DOCS" false true 512 (-1))) <> 0.
Proof.
  destruct (@LoadDiskFSContents_entries_wellformed (-2) false (fun s => s) exampleUsesDOS
              exampleNewDiskEntry exampleVolume EmptyString
              (loadEntry (-2) false (fun s => s) exampleUsesDOS exampleNewDiskEntry
                 EmptyString (exampleFile "DOCS" false true 512 (-1))))
    as [Hp [Hc _]].
  - discriminate.
  - intros s Hs. exact Hs.
  - simpl. right. left. reflexivity.
  - split; [exact Hp | exact Hc].
Defined.

(** ** What the text conversion of [LoadFile] leaves *)

(** A property that holds of [-1 .. 255] by checking each value. *)
Lemma byte_or_EOF_cases (P : Z -> bool) :
  forallb P (map (fun n => Z.of_nat n - 1) (seq 0 257)) = true ->
  forall c : Z, -1 <= c <= 255 -> P c = true.
Proof.
  intros Hall c Hc. rewrite forallb_forall in Hall. apply Hall.
  apply in_map_iff. exists (Z.to_nat (c + 1)). split; [lia|].
  apply in_seq. lia.
Qed.

Lemma getcs_bytes (count : nat) :
  forall fp : list Z,
    Forall (fun b => 0 <= b <= 255) fp -> Forall isByteOrEOF (getcs count fp).
Proof.
  induction count as [|count IH]; intros fp Hfp; simpl; [constructor|].
  destruct fp as [|c rest]; simpl.
  - constructor; [unfold isByteOrEOF; lia | apply IH; constructor].
  - inversion Hfp as [|? ? Hc Hrest]; subst.
    constructor; [unfold isByteOrEOF; lia | apply IH; exact Hrest].
Qed.

Lemma getcs_full (count : nat) :
  forall fp : list Z, (count <= List.length fp)%nat -> getcs count fp = firstn count fp.
Proof.
  induction count as [|count IH]; intros fp Hlen; simpl; [reflexivity|].
  destruct fp as [|c rest]; simpl in *; [lia|].
  rewrite IH by lia. reflexivity.
Qed.

Lemma In_firstn (A : Type) (n : nat) (l : list A) (x : A) :
  In x (firstn n l) -> In x l.
Proof.
  intros H. rewrite <- (firstn_skipn n l). apply in_or_app. left. exact H.
Qed.

Lemma replaceByte_settled (mask c : Z) :
  mask = 0x00 \/ mask = 0x80 -> isByteOrEOF c -> settled mask (replaceByte mask c) = true.
Proof.
  intros [-> | ->] Hc;
    apply (byte_or_EOF_cases (fun c => settled _ (replaceByte _ c))); trivial;
    vm_compute; reflexivity.
Qed.

Lemma dropOrReplace_settled (mask : Z) (input : list Z) :
  mask = 0x00 \/ mask = 0x80 -> Forall isByteOrEOF input ->
  forall prevCR, Forall (fun c => settled mask c = true) (dropOrReplace mask prevCR input).
Proof.
  intros Hm Hin. induction Hin as [|c rest Hc _ IH]; intros prevCR; simpl; [constructor|].
  destruct (prevCR && (c =? kCharLF)); [apply IH|].
  constructor; [apply replaceByte_settled; assumption | apply IH].
Qed.

Lemma dropOrReplace_fixed (mask : Z) (l : list Z) :
  Forall (fun c => settled mask c = true) l ->
  forall prevCR, dropOrReplace mask prevCR l = l.
Proof.
  induction 1 as [|c rest Hc _ IH]; intros prevCR; simpl; [reflexivity|].
  unfold settled in Hc. apply andb_true_iff in Hc. destruct Hc as [Hfix Hlf].
  apply negb_true_iff in Hlf. rewrite Hlf, andb_false_r.
  apply Z.eqb_eq in Hfix. rewrite Hfix, IH. reflexivity.
Qed.

Lemma convertLoop_first (count : nat) (fp : list Z) (mask : Z) :
  convertLoop (S count) fp mask false <> [].
Proof.
  simpl. destruct (getc fp) as [ic fp'].
  destruct (ic =? kCharCR); [discriminate|].
  destruct (ic =? kCharLF); simpl; discriminate.
Qed.

Section ConversionFacts.

Variable host : string -> HostFile.
Variable DetermineConversion : list Z -> Z -> ConvertEOL * EOLType.

Local Abbreviation LoadFile' := (LoadFile host DetermineConversion).

Local Abbreviation maskOf convHA :=
  (match convHA with
   | kConvertHAOn => 0x80
   | kConvertHAOff => 0x00
   end).

(** With the conversion on, what [LoadFile] hands back is what the loop
    stored. *)
Lemma LoadFile_on (pathName : string) (convHA : ConvertHighASCII)
    (buf : list Z) (len : Z) :
  LoadFile' pathName kConvertEOLOn convHA = Loaded (Some buf) len ->
  hf_opens (host pathName) = true /\ hf_seeks (host pathName) = true
  /\ hf_alloc (host pathName) = true
  /\ 0 < hf_tell (host pathName) <= 0x00ffffff
  /\ buf = convertLoop (Z.to_nat (hf_tell (host pathName))) (hf_bytes (host pathName))
             (maskOf convHA) false
  /\ len = Z.of_nat (List.length buf).
Proof.
  unfold LoadFile.
  destruct (hf_opens (host pathName)); simpl; [|discriminate].
  destruct (hf_seeks (host pathName)); simpl; [|discriminate].
  destruct (Z.ltb_spec (hf_tell (host pathName)) 0) as [Hneg|Hnn]; [discriminate|].
  destruct (Z.eqb_spec (hf_tell (host pathName)) 0) as [Hz|Hnz]; [discriminate|].
  destruct (Z.gtb_spec (hf_tell (host pathName)) 16777215) as [Hbig|Hok]; [discriminate|].
  destruct (hf_alloc (host pathName)); simpl; [|discriminate].
  intros H. injection H as <- <-. repeat split; lia.
Qed.

(** X4.  What a converted text holds.  When [LoadFile] converts a file
    (conversion On) whose length is what [ftell] answered, the buffer it hands
    back holds no LF; with the high-ASCII conversion every byte of it is a
    NUL or has its high bit set, and without it every byte is a byte of the
    file or a CR. *)
Theorem LoadFile_converted_text :
  forall (pathName : string) (convHA : ConvertHighASCII) (buf : list Z) (len : Z),
    Forall (fun b => 0 <= b <= 255) (hf_bytes (host pathName)) ->
    hf_tell (host pathName) <= Z.of_nat (List.length (hf_bytes (host pathName))) ->
    LoadFile' pathName kConvertEOLOn convHA = Loaded (Some buf) len ->
    ~ In kCharLF buf
    /\ (convHA = kConvertHAOn -> forall b, In b buf -> b = 0 \/ 128 <= b <= 255)
    /\ (convHA = kConvertHAOff ->
        forall b, In b buf -> In b (hf_bytes (host pathName)) \/ b = kCharCR).
Proof.
  intros pathName convHA buf len Hbytes Hfull Hload.
  destruct (LoadFile_on _ _ Hload) as [_ [_ [_ [Htell [Hbuf _]]]]].
  rewrite convertLoop_dropOrReplace in Hbuf.
  rewrite getcs_full in Hbuf by lia.
  assert (Hpre : Forall (fun b => 0 <= b <= 255)
                   (firstn (Z.to_nat (hf_tell (host pathName))) (hf_bytes (host pathName)))).
  { rewrite Forall_forall in *. intros b Hb. apply Hbytes.
    eapply In_firstn. exact Hb. }
  assert (Hsub : forall b,
             In b (firstn (Z.to_nat (hf_tell (host pathName))) (hf_bytes (host pathName))) ->
             In b (hf_bytes (host pathName))).
  { intros b Hb. eapply In_firstn. exact Hb. }
  revert Hpre Hsub. subst buf.
  generalize (firstn (Z.to_nat (hf_tell (host pathName))) (hf_bytes (host pathName))) as input.
  generalize false as prevCR.
  intros prevCR input. revert prevCR.
  induction input as [|c rest IH]; intros prevCR Hpre Hsub; simpl.
  - split; [intros H; exact H | split; intros _ b Hb; destruct Hb].
  - inversion Hpre as [|? ? Hc Hrest]; subst.
    assert (Hsub' : forall b, In b rest -> In b (hf_bytes (host pathName)))
      by (intros b Hb; apply Hsub; right; exact Hb).
    destruct (prevCR && (c =? kCharLF)); [apply IH; assumption|].
    destruct (IH (c =? kCharCR) Hrest Hsub') as [Hlf [Hon Hoff]].
    assert (Hc' : isByteOrEOF c) by (unfold isByteOrEOF; lia).
    split; [|split].
    + intros [Hb|Hb]; [|exact (Hlf Hb)].
      destruct convHA.
      * pose proof (@replaceByte_settled 0x80 c (or_intror eq_refl) Hc') as Hs.
        unfold settled in Hs. apply andb_true_iff in Hs. destruct Hs as [_ Hs].
        rewrite Hb in Hs. discriminate Hs.
      * pose proof (@replaceByte_settled 0x00 c (or_introl eq_refl) Hc') as Hs.
        unfold settled in Hs. apply andb_true_iff in Hs. destruct Hs as [_ Hs].
        rewrite Hb in Hs. discriminate Hs.
    + intros -> b [Hb|Hb]; [|apply Hon; [reflexivity | exact Hb]].
      subst b.
      assert (H : (replaceByte 0x80 c =? 0)
                  || ((128 <=? replaceByte 0x80 c) && (replaceByte 0x80 c <=? 255)) = true).
      { apply (byte_or_EOF_cases
                 (fun c => (replaceByte 0x80 c =? 0)
                           || ((128 <=? replaceByte 0x80 c) && (replaceByte 0x80 c <=? 255))));
          [vm_compute; reflexivity | exact Hc']. }
      apply orb_true_iff in H. destruct H as [H|H]; [left; lia|right].
      apply andb_true_iff in H. lia.
    + intros -> b [Hb|Hb]; [|apply Hoff; [reflexivity | exact Hb]].
      subst b.
      assert (H0 : (replaceByte 0x00 c =? c) || (replaceByte 0x00 c =? kCharCR)
                   || (c =? -1) = true).
      { apply (byte_or_EOF_cases
                 (fun c => (replaceByte 0x00 c =? c) || (replaceByte 0x00 c =? kCharCR)
                           || (c =? -1)));
          [vm_compute; reflexivity | exact Hc']. }
      apply orb_true_iff in H0. destruct H0 as [H|H0]; [|lia].
      apply orb_true_iff in H. destruct H as [H|H].
      * left. apply Z.eqb_eq in H. rewrite H. apply Hsub. left. reflexivity.
      * right. apply Z.eqb_eq in H. exact H.
Qed.

(** X5.  Converting twice is converting once.  When the buffer that
    [LoadFile] handed back for a converted file is itself a host file, loading
    it with the same conversions hands back the same bytes. *)
Theorem LoadFile_conversion_idempotent :
  forall (pathName pathName2 : string) (convHA : ConvertHighASCII)
         (buf : list Z) (len : Z),
    Forall (fun b => 0 <= b <= 255) (hf_bytes (host pathName)) ->
    LoadFile' pathName kConvertEOLOn convHA = Loaded (Some buf) len ->
    hf_opens (host pathName2) = true ->
    hf_seeks (host pathName2) = true ->
    hf_alloc (host pathName2) = true ->
    hf_tell (host pathName2) = len ->
    hf_bytes (host pathName2) = buf ->
    LoadFile' pathName2 kConvertEOLOn convHA = Loaded (Some buf) len.
Proof.
  intros pathName pathName2 convHA buf len Hbytes Hload Ho Hs Ha Ht Hb.
  destruct (LoadFile_on _ _ Hload) as [_ [_ [_ [Htell [Hbuf Hlen]]]]].
  assert (Hmask : maskOf convHA = 0x00 \/ maskOf convHA = 0x80)
    by (destruct convHA; [right | left]; reflexivity).
  assert (Hset : Forall (fun c => settled (maskOf convHA) c = true) buf).
  { rewrite Hbuf, convertLoop_dropOrReplace.
    apply dropOrReplace_settled; [exact Hmask|].
    apply getcs_bytes. exact Hbytes. }
  assert (Hle : len <= hf_tell (host pathName)).
  { pose proof (convertLoop_length (Z.to_nat (hf_tell (host pathName)))
                  (hf_bytes (host pathName)) (maskOf convHA) false) as Hl.
    rewrite <- Hbuf in Hl. lia. }
  assert (Hpos : 0 < len).
  { rewrite Hlen. destruct buf as [|b buf']; [|simpl; lia].
    exfalso. destruct (Z.to_nat (hf_tell (host pathName))) as [|n] eqn:En; [lia|].
    symmetry in Hbuf. revert Hbuf. apply convertLoop_first. }
  unfold LoadFile. rewrite Ho, Hs, Ha, Ht, Hb. simpl.
  destruct (Z.ltb_spec len 0) as [Hneg|Hnn]; [lia|].
  destruct (Z.eqb_spec len 0) as [Hz|Hnz]; [lia|].
  destruct (Z.gtb_spec len 16777215) as [Hbig|Hok]; [lia|].
  assert (Hagain : convertLoop (Z.to_nat len) buf (maskOf convHA) false = buf).
  { rewrite convertLoop_dropOrReplace.
    rewrite getcs_full by lia.
    rewrite firstn_all2 by lia.
    apply dropOrReplace_fixed. exact Hset. }
  rewrite Hagain, <- Hlen. reflexivity.
Qed.

End ConversionFacts.

(** ["A\r\nB\nC\r\n"] converted with the high bit set. *)
Lemma LoadFile_converted_text_witness :
  ~ In kCharLF [0xc1; 0x8d; 0xc2; 0x8d; 0xc3; 0x8d]
  /\ (forall b, In b [0xc1; 0x8d; 0xc2; 0x8d; 0xc3; 0x8d] -> b = 0 \/ 128 <= b <= 255).
Proof.
  refine (let H := @LoadFile_converted_text exampleHost exampleDetermineConversion
                     "TEXT.TXT" kConvertHAOn [0xc1; 0x8d; 0xc2; 0x8d; 0xc3; 0x8d] 6
                     _ _ eq_refl in
          conj (proj1 H) (proj1 (proj2 H) eq_refl)).
  - simpl. repeat constructor; lia.
  - simpl. lia.
Defined.

(** The converted text of ["TEXT.TXT"], stored as ["TEXT.CR"] and loaded
    again. *)
Lemma LoadFile_conversion_idempotent_witness :
  LoadFile exampleHostConverted exampleDetermineConversion "TEXT.CR"
    kConvertEOLOn kConvertHAOn
  = Loaded (Some [0xc1; 0x8d; 0xc2; 0x8d; 0xc3; 0x8d]) 6.
Proof.
  refine (@LoadFile_conversion_idempotent exampleHostConverted exampleDetermineConversion
            "TEXT.TXT" "TEXT.CR" kConvertHAOn [0xc1; 0x8d; 0xc2; 0x8d; 0xc3; 0x8d] 6
            _ eq_refl eq_refl eq_refl eq_refl eq_refl eq_refl).
  simpl. repeat constructor; lia.
Defined.

(** ** The pending-add list, as [ProcessFileAddData] reads it *)

(** What [AddToAddDataList] keeps true of every node: its kind is one that
    is queued, and the node hooked to it, if any, is a fork of the other kind
    with no other fork of its own. *)
Lemma AddToAddDataList_wellPaired (pData : FileAddData) (l : list FileAddData) :
  Forall wellPaired l -> wellPaired pData -> GetOtherFork pData = None ->
  Forall wellPaired (AddToAddDataList pData l).
Proof.
  intros Hl Hp Hnone. unfold AddToAddDataList.
  destruct (hookOtherFork pData l) as [l'|] eqn:Eh.
  - revert l' Eh. induction Hl as [|n rest Hn Hrest IH]; intros l' Eh; simpl in Eh.
    + discriminate Eh.
    + destruct (connects n pData) eqn:Ec.
      * injection Eh as <-. constructor; [|exact Hrest].
        unfold connects in Ec. destruct (GetOtherFork n) eqn:Eo; [discriminate Ec|].
        apply andb_true_iff in Ec. destruct Ec as [_ Ec].
        cbv zeta in Ec. apply andb_true_iff in Ec. destruct Ec as [Ec Hlist].
        apply andb_true_iff in Ec. destruct Ec as [Hdiff Hdata].
        unfold wellPaired, SetOtherFork. simpl. split; [apply Hn|].
        split; [|exact Hnone].
        unfold isDataOrRsrc in Hlist, Hdata. unfold complementary.
        destruct (entryKind (GetDetails n)), (entryKind (GetDetails pData));
          simpl in *; try discriminate; auto.
      * destruct (hookOtherFork pData rest) as [rest'|]; [|discriminate Eh].
        injection Eh as <-. constructor; [exact Hn | apply IH; reflexivity].
  - apply Forall_app. split; [exact Hl | constructor; [exact Hp | constructor]].
Qed.

Lemma addAll_wellPaired (candidates : list FileAddData) :
  (forall c, In c candidates ->
             GetOtherFork c = None /\ isQueuedKind (entryKind (GetDetails c)) = true) ->
  Forall wellPaired (addAll candidates).
Proof.
  unfold addAll. intros Hc.
  assert (Hgen : forall l, Forall wellPaired l ->
                   Forall wellPaired
                     (fold_left (fun l pData => AddToAddDataList pData l) candidates l)).
  { induction candidates as [|c rest IH]; intros l Hl; simpl; [exact Hl|].
    apply IH.
    - intros c' Hc'. apply Hc. right. exact Hc'.
    - destruct (Hc c (or_introl eq_refl)) as [Hnone Hkind].
      apply AddToAddDataList_wellPaired; [exact Hl | | exact Hnone].
      unfold wellPaired. rewrite Hnone. split; [exact Hkind | exact I]. }
  apply Hgen. constructor.
Qed.

(** X6.  The list that [AddToAddDataList] builds passes the kind checks of
    [ProcessFileAddData].  When every candidate queued is a data fork, a
    resource fork or a disk image, no node of the list makes the loop return
    "internal error" or "(internal) add other disk error": a node with no
    other fork yields the details of its one fork, and a node with an other
    fork yields the details of a data fork and of a resource fork, one of
    them its own and the other the other fork's. *)
Theorem AddToAddDataList_passes_kind_checks :
  forall (candidates : list FileAddData) (n : FileAddData),
    (forall c, In c candidates ->
               GetOtherFork c = None /\ isQueuedKind (entryKind (GetDetails c)) = true) ->
    In n (addAll candidates) ->
    match GetOtherFork n with
    | None =>
        (pickForks n = inr (Some (GetDetails n), None)
         /\ entryKind (GetDetails n) <> kFileKindRsrcFork)
        \/ (pickForks n = inr (None, Some (GetDetails n))
            /\ entryKind (GetDetails n) = kFileKindRsrcFork)
    | Some o =>
        (pickForks n = inr (Some (GetDetails n), Some (GetDetails o))
         /\ entryKind (GetDetails n) = kFileKindDataFork
         /\ entryKind (GetDetails o) = kFileKindRsrcFork)
        \/ (pickForks n = inr (Some (GetDetails o), Some (GetDetails n))
            /\ entryKind (GetDetails n) = kFileKindRsrcFork
            /\ entryKind (GetDetails o) = kFileKindDataFork)
    end.
Proof.
  intros candidates n Hc Hin.
  pose proof (addAll_wellPaired candidates Hc) as Hall.
  rewrite Forall_forall in Hall. specialize (Hall n Hin).
  unfold wellPaired in Hall. destruct Hall as [Hkind Hother].
  unfold pickForks. destruct (GetOtherFork n) as [o|].
  - destruct Hother as [[[Hn Ho]|[Hn Ho]] _]; rewrite Hn, Ho; [left | right];
      repeat split; reflexivity.
  - unfold isQueuedKind, isDataOrRsrc in Hkind.
    destruct (entryKind (GetDetails n)); simpl in Hkind; try discriminate Hkind;
      [left | right | left]; split; try reflexivity; discriminate.
Qed.

(** A resource fork, a disk image and a data fork of the name of the first,
    queued in this order: the node of the resource fork carries the data
    fork. *)
Lemma AddToAddDataList_passes_kind_checks_witness :
  pickForks (SetOtherFork (candidate "ICON" kFileKindRsrcFork)
               (candidate "ICON" kFileKindDataFork))
  = inr (Some (GetDetails (candidate "ICON" kFileKindDataFork)),
         Some (GetDetails (candidate "ICON" kFileKindRsrcFork))).
Proof.
  destruct (@AddToAddDataList_passes_kind_checks
              [candidate "ICON" kFileKindRsrcFork; candidate "DISK" kFileKindDiskImage;
               candidate "ICON" kFileKindDataFork]
              (SetOtherFork (candidate "ICON" kFileKindRsrcFork)
                 (candidate "ICON" kFileKindDataFork)))
    as [[_ [H _]]|[H _]].
  - intros c [<-|[<-|[<-|[]]]]; split; reflexivity.
  - left. reflexivity.
  - discriminate H.
  - exact H.
Defined.

(** ** An add that fails, a deletion that succeeds *)

Section AddFacts.

Variable FS : Type.
Variable A2FileDescr : Type.
Variable GetImageFSFormat : FS -> FSFormat.
Variable CreateFile : CreateParms -> FS -> DIError * option A2File * FS.
Variable Open : A2File -> bool -> bool -> FS -> DIError * option A2FileDescr * FS.
Variable Write : A2FileDescr -> list Z -> Z -> FS -> DIError * FS.
Variable Close : A2FileDescr -> FS -> DIError * FS.
Variable DeleteFile : A2File -> FS -> DIError * FS.
Variable DIStrError : DIError -> string.
Variable IsHierarchical : FSFormat -> bool.
Variable HasResourceForks : FSFormat -> bool.
Variable UsesDOSFileStructure : FSFormat -> bool.
Variable kAccessInvisible : Z.
Variable kFileTypeTXT : Z.
Variable kFileTypeSRC : Z.
Variable DateTimeToSeconds : Z -> Z.
Variable host : string -> HostFile.
Variable DetermineConversion : list Z -> Z -> ConvertEOL * EOLType.

Local Abbreviation processLoop' :=
  (processLoop GetImageFSFormat CreateFile Open Write Close DeleteFile DIStrError
     IsHierarchical HasResourceForks UsesDOSFileStructure kAccessInvisible kFileTypeTXT
     kFileTypeSRC DateTimeToSeconds host DetermineConversion).
Local Abbreviation ProcessFileAddData' :=
  (ProcessFileAddData GetImageFSFormat CreateFile Open Write Close DeleteFile DIStrError
     IsHierarchical HasResourceForks UsesDOSFileStructure kAccessInvisible kFileTypeTXT
     kFileTypeSRC DateTimeToSeconds host DetermineConversion).

Lemma processLoop_stops (addOptsConvEOL : ConvEOLOption) (l1 l2 : list FileAddData) :
  forall (convEOL : ConvertEOL) (fs : FS) (errMsg : string) (fs' : FS)
         (calls : list (DriverCall A2FileDescr)),
    processLoop' addOptsConvEOL convEOL l1 fs = Some (errMsg, fs', calls) ->
    errMsg <> EmptyString ->
    processLoop' addOptsConvEOL convEOL (l1 ++ l2) fs = Some (errMsg, fs', calls).
Proof.
  induction l1 as [|d next IH]; intros convEOL fs errMsg fs' calls Hrun Hne.
  - simpl in Hrun. unfold ret in Hrun. injection Hrun as <- _ _.
    exfalso. apply Hne. reflexivity.
  - simpl app. simpl processLoop in *.
    destruct (pickForks d) as [msg|[pDataDetails pRsrcDetails]]; [exact Hrun|].
    unfold bind in *. unfold getFSFormat in *.
    match type of Hrun with
    | context [match ?load with LoadFailed _ => _ | Loaded _ _ => _ end] =>
        destruct load as [e1|dataBuf dataLen]; [exact Hrun|]
    end.
    match type of Hrun with
    | context [match ?load with LoadFailed _ => _ | Loaded _ _ => _ end] =>
        destruct load as [e2|rsrcBuf rsrcLen]; [exact Hrun|]
    end.
    match type of Hrun with
    | context [AddForksToDisk ?a ?b ?c ?d ?e ?f ?g ?h ?i ?j ?p ?db ?dl ?rb ?rl ?s] =>
        destruct (AddForksToDisk a b c d e f g h i j p db dl rb rl s)
          as [[[dierr fs1] calls1]|]; [|discriminate Hrun]
    end.
    destruct (negb (isNone dierr)); [exact Hrun|].
    match type of Hrun with
    | context [processLoop ?a ?b ?c ?d ?e ?f ?g ?h ?i ?j ?k ?l ?m ?n ?o ?p ?q ?r next ?s] =>
        destruct (processLoop a b c d e f g h i j k l m n o p q r next s)
          as [[[msg2 fs2] calls2]|] eqn:Enext; [|discriminate Hrun]
    end.
    match type of Hrun with
    | Some (?a, ?b, ?c) = _ => assert (Hmsg : msg2 = errMsg) by congruence
    end.
    rewrite (IH _ _ _ _ _ Enext) by (rewrite Hmsg; exact Hne).
    exact Hrun.
Qed.

(** X7.  An add stops at the first node that fails.  When
    [ProcessFileAddData] returns an error message for a list, it returns the
    same message, after the same calls of the driver and with the driver in
    the same state, for that list followed by any further nodes: nothing is
    loaded, created or written for the nodes after the one that failed. *)
Theorem ProcessFileAddData_stops_at_first_failure :
  forall (l1 l2 : list FileAddData) (addOptsConvEOL : ConvEOLOption) (fs : FS)
         (errMsg : string) (fs' : FS) (calls : list (DriverCall A2FileDescr)),
    ProcessFileAddData' l1 addOptsConvEOL fs = Some (errMsg, fs', calls) ->
    errMsg <> EmptyString ->
    ProcessFileAddData' (l1 ++ l2) addOptsConvEOL fs = Some (errMsg, fs', calls).
Proof.
  intros l1 l2 addOptsConvEOL fs errMsg fs' calls Hrun Hne.
  unfold ProcessFileAddData in *. apply processLoop_stops; assumption.
Qed.

End AddFacts.

(** A file too large to add, followed by one that could be added. *)
Lemma ProcessFileAddData_stops_at_first_failure_witness :
  ProcessFileAddData (fun _ : list CreateParms => kFormatProDOS) exampleCreateFile
    exampleOpen (exampleWrite kDIErrNone) exampleClose (exampleDeleteFile kDIErrNone)
    exampleDIStrError exampleIsHierarchical exampleHasResourceForks exampleUsesDOS
    0x04 0x04 0xb0 (fun t => t) exampleHost exampleDetermineConversion
    ([candidate "HUGE.BIN" kFileKindDataFork] ++ [candidate "TEXT.TXT" kFileKindDataFork])
    kConvEOLNone []
  = Some (kTooLargeMsg, [], []).
Proof.
  refine (@ProcessFileAddData_stops_at_first_failure (list CreateParms) nat
            (fun _ => kFormatProDOS) exampleCreateFile exampleOpen
            (exampleWrite kDIErrNone) exampleClose (exampleDeleteFile kDIErrNone)
            exampleDIStrError exampleIsHierarchical exampleHasResourceForks exampleUsesDOS
            0x04 0x04 0xb0 (fun t => t) exampleHost exampleDetermineConversion
            [candidate "HUGE.BIN" kFileKindDataFork]
            [candidate "TEXT.TXT" kFileKindDataFork] kConvEOLNone []
            kTooLargeMsg [] [] eq_refl _).
  discriminate.
Defined.

Section DeleteAllFacts.

Variable FS : Type.
Variable A2FileDescr : Type.
Variable DeleteFile : A2File -> FS -> DIError * FS.
Variable GetReadWriteSupported : A2File -> FS -> bool.
Variable GetDisplayName : DiskEntry -> string.
Variable qsort : (DiskEntry -> DiskEntry -> Z) -> list DiskEntry -> list DiskEntry.
Variable InternalReload : FS -> Z * FS.

Local Abbreviation deleteLoop' :=
  (deleteLoop A2FileDescr DeleteFile GetReadWriteSupported).
Local Abbreviation DeleteSelection' :=
  (DeleteSelection A2FileDescr DeleteFile GetReadWriteSupported GetDisplayName qsort
     InternalReload).

(** A loop that runs to its end deleted the file of every entry, in the
    order of the array, each call answering [kDIErrNone]. *)
Lemma deleteLoop_true (entryArray : list DiskEntry) :
  forall (fs fs' : FS) (calls : list (DriverCall A2FileDescr)),
    deleteLoop' entryArray fs = Some (true, fs', calls) ->
    map GetA2File entryArray = map Some (deletedFiles calls)
    /\ Forall (fun c => callResult c = kDIErrNone) calls
    /\ List.length calls = List.length entryArray.
Proof.
  induction entryArray as [|pEntry rest IH]; intros fs fs' calls Hrun; simpl in Hrun.
  - unfold ret in Hrun. injection Hrun as <- <-. repeat split. constructor.
  - destruct (GetA2File pEntry) as [pFile|] eqn:Ef; [|discriminate Hrun].
    unfold bind, ret, callDeleteFile, isNone in Hrun.
    destruct (GetReadWriteSupported pFile fs); simpl in Hrun; [|discriminate Hrun].
    destruct (DeleteFile pFile fs) as [dierr fs1].
    destruct (DIError_eqb dierr kDIErrNone) eqn:Ee; simpl in Hrun; [|discriminate Hrun].
    destruct (deleteLoop' rest fs1) as [[[ok fs2] calls2]|] eqn:Er; [|discriminate Hrun].
    injection Hrun as -> <- <-.
    destruct (IH _ _ _ Er) as [Hmap [Hall Hlen]].
    apply DIError_eqb_eq in Ee. subst dierr.
    simpl. rewrite Ef, Hmap, Hlen. repeat split. constructor; [reflexivity | exact Hall].
Qed.

(** X8.  A deletion that reports success deleted everything.  When
    [DeleteSelection] returns [true], [qsort] having kept the elements of the
    array, the files it asked the driver to delete are the files of the
    selected entries, each once; every call of the driver was a [DeleteFile]
    that answered [kDIErrNone]; and the reload succeeded. *)
Theorem DeleteSelection_true_deleted_all :
  forall (pSelSet : list DiskEntry) (fs fs' : FS) (calls : list (DriverCall A2FileDescr)),
    Permutation pSelSet (qsort (CompareDisplayNamesDesc GetDisplayName) pSelSet) ->
    DeleteSelection' pSelSet fs = Some (true, fs', calls) ->
    Permutation (map GetA2File pSelSet) (map Some (deletedFiles calls))
    /\ Forall (fun c => callResult c = kDIErrNone) calls
    /\ List.length calls = List.length pSelSet
    /\ exists fs1 : FS, InternalReload fs1 = (0, fs').
Proof.
  intros pSelSet fs fs' calls Hperm Hrun.
  unfold DeleteSelection, bind, ret in Hrun.
  destruct (deleteLoop' (qsort (CompareDisplayNamesDesc GetDisplayName) pSelSet) fs)
    as [[[retVal fs1] calls1]|] eqn:El; [|discriminate Hrun].
  destruct (InternalReload fs1) as [r fs2] eqn:Er.
  injection Hrun as Hret <- <-. rewrite !app_nil_r.
  destruct (Z.eqb_spec r 0) as [Hr|Hr]; simpl in Hret; [|discriminate Hret].
  subst retVal r.
  destruct (deleteLoop_true _ _ El) as [Hmap [Hall Hlen]].
  split; [|split; [exact Hall | split]].
  - rewrite <- Hmap. apply Permutation_map. exact Hperm.
  - rewrite Hlen. symmetry. apply Permutation_length. exact Hperm.
  - exists fs1. exact Er.
Qed.

End DeleteAllFacts.

(** The selection of /A/B, /A and /A/B/C on a driver that deletes what it is
    asked to. *)
Lemma DeleteSelection_true_deleted_all_witness :
  Permutation
    (map GetA2File [entryNamed "/A/B"; entryNamed "/A"; entryNamed "/A/B/C"])
    (map Some
       [exampleFile "/A/B/C" false false 0 (-1); exampleFile "/A/B" false false 0 (-1);
        exampleFile "/A" false false 0 (-1)]).
Proof.
  refine (proj1
    (@DeleteSelection_true_deleted_all (list CreateParms) nat (exampleDeleteFile kDIErrNone)
       (fun _ _ => true) GetEntryPathName insertionSort (fun fs => (0, fs))
       [entryNamed "/A/B"; entryNamed "/A"; entryNamed "/A/B/C"] [] []
       [CallDeleteFile (exampleFile "/A/B/C" false false 0 (-1)) kDIErrNone;
        CallDeleteFile (exampleFile "/A/B" false false 0 (-1)) kDIErrNone;
        CallDeleteFile (exampleFile "/A" false false 0 (-1)) kDIErrNone]
       _ eq_refl)).
  apply (proj1 (insertionSort_sorts GetEntryPathName _)).
Defined.

(** ** Extracting a fork *)

Lemma DIError_eqb_refl (a : DIError) : DIError_eqb a a = true.
Proof. apply DIError_eqb_eq. reflexivity. Qed.

Section ReaderFacts.

Variable World : Type.
Variable A2FileDescr : Type.
Variable Open : A2File -> bool -> bool -> World -> DIError * option A2FileDescr * World.
Variable Read : A2FileDescr -> Z -> World -> DIError * list Z * World.
Variable SeekEnd : A2FileDescr -> World -> DIError * World.
Variable Tell : A2FileDescr -> World -> Z.
Variable Rewind : A2FileDescr -> World -> DIError * World.
Variable Close : A2FileDescr -> World -> DIError * World.
Variable WriteConvert : list Z -> Z -> ConvState -> World -> Z * ConvState * World.
Variable alloc : Z -> bool.
Variable DIStrError : DIError -> string.
Variable strerror : Z -> string.
Variable kDIErrCancelled : DIError.
Variable kDIErrGeneric : DIError.

Local Abbreviation ExtractThreadToBuffer' :=
  (ExtractThreadToBuffer Open Read Close alloc DIStrError kDIErrCancelled).
Local Abbreviation CopyData' :=
  (CopyData Read SeekEnd Tell Rewind WriteConvert DIStrError strerror kDIErrGeneric).
Local Abbreviation copyLoop' :=
  (copyLoop Read WriteConvert DIStrError strerror kDIErrGeneric).
Local Abbreviation ExtractThreadToFile' :=
  (ExtractThreadToFile Open Read SeekEnd Tell Rewind Close WriteConvert DIStrError strerror
     kDIErrGeneric).

Local Arguments decimal : simpl never.
Local Arguments toLong : simpl never.
Local Arguments stored : simpl never.

(** Case analysis on the next answer, or the next test, that the run [H]
    depends on. *)
Ltac reader_case H :=
  match type of H with
  | context [Open ?f ?a ?b ?s] => destruct (Open f a b s) as [[? ?] ?] eqn:?
  | context [Read ?d ?l ?s] => destruct (Read d l s) as [[? ?] ?] eqn:?
  | context [Close ?d ?s] => destruct (Close d s) as [? ?] eqn:?
  | context [DIError_eqb ?d ?k] => destruct (DIError_eqb d k) eqn:?
  | context [GetA2File ?e] => destruct (GetA2File e) eqn:?
  | context [match ?o with Some _ => _ | None => _ end] => is_var o; destruct o
  | context [match ?w with kDataThread => _ | kRsrcThread => _ | kOtherThread _ => _ end] =>
      is_var w; destruct w
  | context [if ?b then _ else _] => destruct b eqn:?
  end.

(** Case analysis on a call that is said to be in the list of calls [H]. *)
Ltac in_calls H :=
  cbn in H;
  repeat match type of H with
         | _ \/ _ => destruct H as [H|H]
         | False => contradiction
         | DidRead _ _ _ _ = DidRead _ _ _ _ => injection H as ? ? ? ?; subst
         | DidOpen _ _ _ _ _ = DidOpen _ _ _ _ _ => injection H as ? ? ? ? ?; subst
         | DidClose _ _ = DidClose _ _ => injection H as ? ?; subst
         | _ = _ => discriminate H
         end.

Ltac reader_cases H :=
  unfold ExtractThreadToBuffer, closeAndReturn, rbind, rret, rstop, doOpen, doRead,
    doClose in H;
  repeat (cbn in H; reader_case H); cbn in H;
  try discriminate H;
  injection H as <- <- <-.

(** X9.  The value [ExtractThreadToBuffer] returns and the message it
    leaves agree, as the assertions at its end say: with [IDOK] the message
    is empty, with -1 it is not, and [IDCANCEL] (with an empty message) is
    returned exactly when the one [Read] answered "cancelled"; and when the
    buffer was to be allocated, a return other than [IDOK] leaves [*ppText]
    [NULL]. *)
Theorem ExtractThreadToBuffer_result_and_message :
  forall (this : DiskEntry) (which : ThreadKind) (ppText : option (list Z)) (pLength : Z)
         (w : World) (out : Extracted) (w' : World) (calls : list (ReaderCall A2FileDescr)),
    kDIErrCancelled <> kDIErrNone ->
    ExtractThreadToBuffer' this which ppText pLength w = Some (out, w', calls) ->
    (x_result out = IDOK -> x_pErrMsg out = EmptyString)
    /\ (x_result out = ExtractFailed -> x_pErrMsg out <> EmptyString)
    /\ (x_result out = IDCANCEL -> x_pErrMsg out = EmptyString)
    /\ (x_result out = IDCANCEL <->
        exists (d : A2FileDescr) (len : Z) (data : list Z),
          In (DidRead d len kDIErrCancelled data) calls)
    /\ (ppText = None -> x_result out <> IDOK -> x_ppText out = None).
Proof.
  intros this which ppText pLength w out w' calls Hcancel Hrun.
  reader_cases Hrun; cbn.
  all: repeat split; intros; try reflexivity; try discriminate; try congruence.
  all: try (match goal with
            | H : exists _, _ |- _ => destruct H as [? [? [? H]]]; in_calls H
            end).
  all: try (eexists _, _, _; cbn; right; left;
            match goal with
            | H : DIError_eqb _ kDIErrCancelled = true |- _ =>
                apply DIError_eqb_eq in H; rewrite H
            end; reflexivity).
  all: try (match goal with
            | H : DIError_eqb kDIErrCancelled kDIErrCancelled = false |- _ =>
                rewrite DIError_eqb_refl in H; discriminate H
            | H : DIError_eqb kDIErrCancelled kDIErrNone = true |- _ =>
                apply DIError_eqb_eq in H; contradiction
            end).
Qed.

(** X10.  [ExtractThreadToBuffer] closes what it opens.  For a damaged
    entry, a thread that is neither the data nor the resource fork, and a
    fork that is empty or absent it calls nothing and leaves the world as it
    was.  For any other fork its first call is [Open] on the entry's file,
    read-only and for the fork asked for, and it opens nothing else; when
    [Open] handed back no descriptor that is the only call, and else what
    follows is either the [Close] of that descriptor alone, or one [Read] of
    the whole fork and then that [Close].  The [Read] is made exactly when
    [Open] answered [kDIErrNone] and the buffer is there: allocated, or the
    caller's and announced with at least [(long) len] bytes. *)
Theorem ExtractThreadToBuffer_closes_what_it_opens :
  forall (this : DiskEntry) (which : ThreadKind) (ppText : option (list Z)) (pLength : Z)
         (w : World) (out : Extracted) (w' : World) (calls : list (ReaderCall A2FileDescr)),
    ExtractThreadToBuffer' this which ppText pLength w = Some (out, w', calls) ->
    ((GetDamaged this = true
      \/ (exists n, which = kOtherThread n)
      \/ (exists len, forkLength this which = Some len /\ len <= 0)) ->
     calls = [] /\ w' = w)
    /\ (GetDamaged this = false ->
        forall len : Z,
          forkLength this which = Some len -> 0 < len ->
          exists (pFile : A2File) (dierr : DIError) (pOpenFile : option A2FileDescr)
                 (rest : list (ReaderCall A2FileDescr)),
            GetA2File this = Some pFile
            /\ calls
               = DidOpen pFile true (match which with kRsrcThread => true | _ => false end)
                   dierr pOpenFile :: rest
            /\ (forall f ro rs e d, ~ In (DidOpen f ro rs e d) rest)
            /\ match pOpenFile with
               | None => rest = []
               | Some d =>
                   (exists e2, rest = [DidClose d e2])
                   \/ (exists e1 data e2, rest = [DidRead d len e1 data; DidClose d e2])
               end
            /\ ((exists d e1 data, In (DidRead d len e1 data) rest)
                <-> dierr = kDIErrNone
                    /\ match ppText with
                       | None => alloc (toLong len) = true
                       | Some _ => toLong len <= pLength
                       end)).
Proof.
  intros this which ppText pLength w out w' calls Hrun.
  unfold forkLength.
  reader_cases Hrun; cbn.
  all: repeat match goal with
              | H : DIError_eqb _ kDIErrNone = true |- _ =>
                  apply DIError_eqb_eq in H; subst
              | H : GetA2File _ = _ |- _ => rewrite H
              | H : (_ =? 0) = false |- _ => apply Z.eqb_neq in H
              | H : (_ =? 0) = true |- _ => apply Z.eqb_eq in H
              | H : (_ <? _) = false |- _ => apply Z.ltb_ge in H
              | H : (_ <? _) = true |- _ => apply Z.ltb_lt in H
              | H : negb _ = true |- _ => apply negb_true_iff in H
              | H : negb _ = false |- _ => apply negb_false_iff in H
              end.
  all: split;
    [ intros [Hd | [[? Hn] | [? [Hlen Hle]]]];
      try congruence; try discriminate; try (split; reflexivity);
      try (injection Hlen as <-; lia)
    | ].
  all: intros Hdam len Hlen Hpos; try discriminate Hdam; try discriminate Hlen;
    try (injection Hlen as <-); try lia.
  all: eexists _, _, _, _; split; [reflexivity|]; split; [reflexivity|].
  all: split;
    [ intros ? ? ? ? ? Hin; cbn in Hin;
      repeat (destruct Hin as [Hin|Hin]; [discriminate Hin|]); contradiction |].
  all: split;
    [ first [ reflexivity
            | left; eexists; reflexivity
            | right; eexists _, _, _; reflexivity ] |].
  all: split;
    [ intros [? [? [? Hin]]]; cbn in Hin;
      repeat (destruct Hin as [Hin|Hin]; [try discriminate Hin|]);
      try contradiction;
      try (split; [reflexivity | assumption || lia])
    | intros [He Hbuf]; subst;
      try (cbn in *; congruence);
      try lia;
      try (match goal with
           | H : DIError_eqb kDIErrNone kDIErrNone = false |- _ => discriminate H
           end);
      try (eexists _, _, _; cbn; left; reflexivity) ].
Qed.

(** X11.  What a successful extraction hands back.  When
    [ExtractThreadToBuffer] returns [IDOK], the fork that [which] names has a
    length [len] that is not negative, and [*pLength] is [(long) len], which
    is [len] below 2^31.  For an empty fork nothing was read: a buffer to
    allocate is one NUL byte, a buffer of the caller's is as it was.  For any
    other fork the one [Read] answered [kDIErrNone] and the buffer holds the
    bytes it stored; a buffer of the caller's was announced with at least
    [(long) len] bytes, and a buffer to allocate was obtained. *)
Theorem ExtractThreadToBuffer_success :
  forall (this : DiskEntry) (which : ThreadKind) (ppText : option (list Z)) (pLength : Z)
         (w : World) (out : Extracted) (w' : World) (calls : list (ReaderCall A2FileDescr)),
    ExtractThreadToBuffer' this which ppText pLength w = Some (out, w', calls) ->
    x_result out = IDOK ->
    exists len : Z,
      forkLength this which = Some len /\ 0 <= len
      /\ x_pLength out = toLong len
      /\ (len < 2 ^ 31 -> x_pLength out = len)
      /\ (len = 0 ->
          calls = []
          /\ x_ppText out = match ppText with
                            | None => Some [0]
                            | Some buf => Some buf
                            end)
      /\ (0 < len ->
          (exists (d : A2FileDescr) (data : list Z),
              In (DidRead d len kDIErrNone data) calls
              /\ x_ppText out
                 = Some (stored data match ppText with
                                     | None => []
                                     | Some buf => buf
                                     end))
          /\ match ppText with
             | None => alloc (toLong len) = true
             | Some _ => toLong len <= pLength
             end).
Proof.
  intros this which ppText pLength w out w' calls Hrun Hok.
  unfold forkLength.
  assert (Hsmall : forall len, 0 <= len -> len < 2 ^ 31 -> toLong len = len).
  { intros len H0 H1. unfold toLong.
    rewrite Z.mod_small by lia. lia. }
  reader_cases Hrun; cbn in *; try discriminate Hok.
  all: repeat match goal with
              | H : DIError_eqb _ kDIErrNone = true |- _ =>
                  apply DIError_eqb_eq in H; subst
              | H : GetA2File _ = _ |- _ => rewrite H
              | H : (_ =? 0) = false |- _ => apply Z.eqb_neq in H
              | H : (_ =? 0) = true |- _ => apply Z.eqb_eq in H
              | H : (_ <? _) = false |- _ => apply Z.ltb_ge in H
              | H : (_ <? _) = true |- _ => apply Z.ltb_lt in H
              | H : negb _ = false |- _ => apply negb_false_iff in H
              end.
  all: eexists; split; [reflexivity|].
  all: repeat match goal with
              | H : ?x = 0 |- _ => rewrite H in *
              end.
  all: split; [lia|]; split; [try reflexivity|];
    (split; [intros; try reflexivity; apply Hsmall; lia|]);
    (split; [intros; try lia; split; reflexivity|]);
    intros; try lia.
  all: split; [eexists _, _; split; [cbn; right; left; reflexivity | reflexivity]
              | assumption || lia].
Qed.

(** *** Copying in chunks *)

Lemma toLong_small (v : Z) : - 2 ^ 31 <= v < 2 ^ 31 -> toLong v = v.
Proof. intros H. unfold toLong. rewrite Z.mod_small by lia. lia. Qed.

Lemma chunkLengths_zero : chunkLengths 0 = [].
Proof. reflexivity. Qed.

Lemma chunkLengths_last (n : Z) :
  0 < n <= kChunkSize -> chunkLengths n = [n].
Proof.
  unfold chunkLengths, kChunkSize. intros H.
  destruct (Z.eq_dec n 16384) as [->|Hne]; [reflexivity|].
  rewrite Z.div_small, Z.mod_small by lia. simpl.
  destruct (Z.eqb_spec n 0); [lia | reflexivity].
Qed.

Lemma chunkLengths_more (n : Z) :
  kChunkSize < n -> chunkLengths n = kChunkSize :: chunkLengths (n - kChunkSize).
Proof.
  unfold chunkLengths, kChunkSize. intros H.
  assert (Hd : n / 16384 = (n - 16384) / 16384 + 1).
  { replace n with ((n - 16384) + 1 * 16384) at 1 by lia.
    apply Z.div_add. lia. }
  assert (Hm : n mod 16384 = (n - 16384) mod 16384).
  { replace n with ((n - 16384) + 1 * 16384) at 1 by lia.
    apply Z.mod_add. lia. }
  rewrite Hd, Hm.
  replace (Z.to_nat ((n - 16384) / 16384 + 1))
    with (S (Z.to_nat ((n - 16384) / 16384))).
  - reflexivity.
  - assert (0 <= (n - 16384) / 16384) by (apply Z.div_pos; lia). lia.
Qed.

Lemma chunkLengths_sum (n : Z) :
  0 <= n -> fold_right Z.add 0 (chunkLengths n) = n.
Proof.
  intros Hn. unfold chunkLengths. rewrite fold_right_app.
  assert (Hrep : forall (k : nat) (acc : Z),
             fold_right Z.add acc (repeat kChunkSize k) = Z.of_nat k * kChunkSize + acc).
  { induction k as [|k IH]; intros acc; cbn [repeat fold_right].
    - lia.
    - rewrite IH. unfold kChunkSize. lia. }
  rewrite Hrep.
  assert (Hq : 0 <= n / kChunkSize) by (apply Z.div_pos; unfold kChunkSize; lia).
  rewrite Z2Nat.id by exact Hq.
  pose proof (Z.div_mod n kChunkSize) as Hdm.
  destruct (Z.eqb_spec (n mod kChunkSize) 0) as [Hz|Hz]; simpl; unfold kChunkSize in *; lia.
Qed.

(** The loop on a length that is not negative and within the fuel: it
    returns; when it returns [kDIErrNone] its calls are those of the chunks
    of [dataRem] bytes, and when a [Read] answered an error it returns that
    code with the message of a failed read. *)
Lemma copyLoop_runs (pOpenFile : A2FileDescr) (pMsg : string) (fuel : nat) :
  forall (dataRem : Z) (cs : ConvState) (w : World),
    kDIErrGeneric <> kDIErrNone ->
    0 <= dataRem <= Z.of_nat fuel ->
    exists (dierr : DIError) (msg : string) (w' : World)
           (calls : list (ReaderCall A2FileDescr)),
      copyLoop' fuel pOpenFile dataRem cs pMsg w = Some ((dierr, msg), w', calls)
      /\ (dierr = kDIErrNone ->
          msg = pMsg
          /\ exists chunks : list (Z * list Z),
               calls = chunkCalls pOpenFile chunks
               /\ map fst chunks = chunkLengths dataRem)
      /\ (dierr <> kDIErrNone -> msg <> EmptyString)
      /\ (forall (d : A2FileDescr) (len : Z) (e : DIError) (data : list Z),
             In (DidRead d len e data) calls -> e <> kDIErrNone ->
             dierr = e /\ msg = ("File read failed: " ++ DIStrError e)%string).
Proof.
  induction fuel as [|fuel IH]; intros dataRem cs w Hgen Hrem.
  - assert (dataRem = 0) by lia. subst dataRem. simpl.
    exists kDIErrNone, pMsg, w, []. split; [reflexivity|].
    split; [|split].
    + intros _. split; [reflexivity|]. exists []. split; reflexivity.
    + intros H. contradiction.
    + intros d len e data [].
  - simpl. destruct (Z.eqb_spec dataRem 0) as [Hz|Hnz].
    + subst dataRem.
      exists kDIErrNone, pMsg, w, []. split; [reflexivity|].
      split; [|split].
      * intros _. split; [reflexivity|]. exists []. split; reflexivity.
      * intros H. contradiction.
      * intros d len e data [].
    + set (chunkLen := if dataRem >? kChunkSize then kChunkSize else toLong dataRem).
      assert (Hchunk : 0 < chunkLen <= kChunkSize /\ chunkLen <= dataRem
                       /\ chunkLengths dataRem
                          = chunkLen :: chunkLengths (dataRem - chunkLen)).
      { unfold chunkLen. destruct (Z.gtb_spec dataRem kChunkSize) as [Hgt|Hle].
        - unfold kChunkSize in *. repeat split; try lia.
          apply chunkLengths_more. unfold kChunkSize. lia.
        - rewrite toLong_small by (unfold kChunkSize in *; lia).
          repeat split; try lia.
          rewrite Z.sub_diag, chunkLengths_zero.
          apply chunkLengths_last. lia. }
      destruct Hchunk as [Hpos [Hle Hcl]].
      unfold rbind, doRead, doWriteConvert, rret.
      destruct (Read pOpenFile chunkLen w) as [[dierr buf] w1].
      destruct (DIError_eqb dierr kDIErrNone) eqn:Ee; simpl.
      * apply DIError_eqb_eq in Ee. subst dierr.
        destruct (WriteConvert buf chunkLen cs w1) as [[err cs'] w2].
        destruct (Z.eqb_spec err 0) as [Herr|Herr]; simpl.
        -- subst err.
           destruct (IH (dataRem - chunkLen) cs' w2 Hgen) as
             [dierr [msg [w' [calls [Hrun [Hok [Hmsg Hread]]]]]]]; [lia|].
           rewrite Hrun.
           exists dierr, msg, w',
             (DidRead pOpenFile chunkLen kDIErrNone buf
              :: DidWriteConvert buf chunkLen 0 :: calls).
           split; [reflexivity|]. split; [|split].
           ++ intros Hd. destruct (Hok Hd) as [Hm [chunks [Hc Hl]]].
              split; [exact Hm|]. exists ((chunkLen, buf) :: chunks).
              split; [simpl; rewrite Hc; reflexivity|].
              simpl. rewrite Hl, Hcl. reflexivity.
           ++ exact Hmsg.
           ++ intros d len e data [Hin|[Hin|Hin]] Hne.
              ** injection Hin as <- <- <- <-. contradiction.
              ** discriminate Hin.
              ** apply (Hread d len e data Hin Hne).
        -- exists kDIErrGeneric, ("File write failed: " ++ strerror err)%string, w2,
             [DidRead pOpenFile chunkLen kDIErrNone buf; DidWriteConvert buf chunkLen err].
           split; [reflexivity|]. split; [|split].
           ++ intros Hd. contradiction.
           ++ intros _. discriminate.
           ++ intros d len e data [Hin|[Hin|[]]] Hne.
              ** injection Hin as <- <- <- <-. contradiction.
              ** discriminate Hin.
      * exists dierr, ("File read failed: " ++ DIStrError dierr)%string, w1,
          [DidRead pOpenFile chunkLen dierr buf].
        split; [reflexivity|]. split; [|split].
        -- intros ->. simpl in Ee. discriminate Ee.
        -- intros _. discriminate.
        -- intros d len e data [Hin|[]] Hne.
           injection Hin as <- <- <- <-. split; reflexivity.
Qed.

(** X12.  [CopyData] copies a fork chunk by chunk.  With [srcLen] the
    position that [Tell] answers after the seek to the end: when [srcLen] is
    not negative, [CopyData] returns; and when it returns [kDIErrNone], the
    seek and the rewind succeeded, the message is as it was, and what follows
    is one [Read] and one [WriteConvert] of what was read for each chunk in
    turn, the chunks being of [kChunkSize] = 16384 bytes but for a last,
    shorter one, and their lengths adding up to [srcLen]. *)
Theorem CopyData_reads_in_chunks :
  forall (pOpenFile : A2FileDescr) (conv : ConvertEOL) (convHA : ConvertHighASCII)
         (pMsg : string) (w : World),
    kDIErrGeneric <> kDIErrNone ->
    (0 <= Tell pOpenFile (snd (SeekEnd pOpenFile w)) ->
     CopyData' pOpenFile conv convHA pMsg w <> None)
    /\ (forall (msg : string) (w' : World) (calls : list (ReaderCall A2FileDescr)),
           CopyData' pOpenFile conv convHA pMsg w = Some ((kDIErrNone, msg), w', calls) ->
           msg = pMsg
           /\ 0 <= Tell pOpenFile (snd (SeekEnd pOpenFile w))
           /\ exists chunks : list (Z * list Z),
                calls = DidSeekEnd pOpenFile kDIErrNone :: DidRewind pOpenFile kDIErrNone
                        :: chunkCalls pOpenFile chunks
                /\ map fst chunks = chunkLengths (Tell pOpenFile (snd (SeekEnd pOpenFile w)))
                /\ fold_right Z.add 0 (map fst chunks)
                   = Tell pOpenFile (snd (SeekEnd pOpenFile w))
                /\ Forall (fun len => 0 < len <= kChunkSize) (map fst chunks)).
Proof.
  intros pOpenFile conv convHA pMsg w Hgen.
  unfold CopyData, rbind, doSeekEnd, doTell, doRewind, rret.
  destruct (SeekEnd pOpenFile w) as [e1 w1]. simpl snd.
  destruct (DIError_eqb e1 kDIErrNone) eqn:E1; simpl.
  2:{ split; [intros _; discriminate|].
      intros msg w' calls H. injection H as -> _ _ _.
      simpl in E1. discriminate E1. }
  destruct (Rewind pOpenFile w1) as [e2 w2].
  destruct (DIError_eqb e2 kDIErrNone) eqn:E2; simpl.
  2:{ split; [intros _; discriminate|].
      intros msg w' calls H. injection H as -> _ _ _.
      simpl in E2. discriminate E2. }
  apply DIError_eqb_eq in E1, E2. subst e1 e2.
  split.
  - intros Hpos.
    destruct (@copyLoop_runs pOpenFile pMsg (Z.to_nat (Tell pOpenFile w1))
                (Tell pOpenFile w1) (conv, convHA, false) w2 Hgen)
      as [dierr [msg [w' [calls [Hrun _]]]]]; [lia|].
    rewrite Hrun. discriminate.
  - intros msg w' calls Hrun.
    destruct (Z_lt_le_dec (Tell pOpenFile w1) 0) as [Hneg|Hpos].
    { exfalso. replace (Z.to_nat (Tell pOpenFile w1)) with 0%nat in Hrun by lia.
      simpl in Hrun. destruct (Z.eqb_spec (Tell pOpenFile w1) 0); [lia|].
      discriminate Hrun. }
    destruct (@copyLoop_runs pOpenFile pMsg (Z.to_nat (Tell pOpenFile w1))
                (Tell pOpenFile w1) (conv, convHA, false) w2 Hgen)
      as [dierr [msg1 [w1' [calls1 [Hrun1 [Hok _]]]]]]; [lia|].
    rewrite Hrun1 in Hrun. injection Hrun as -> -> <- <-.
    destruct (Hok eq_refl) as [Hm [chunks [Hc Hl]]].
    split; [exact Hm|]. split; [exact Hpos|].
    exists chunks. split; [rewrite Hc; reflexivity|].
    split; [exact Hl|]. split.
    + rewrite Hl. apply chunkLengths_sum. exact Hpos.
    + rewrite Hl. unfold chunkLengths. apply Forall_app. split.
      * apply Forall_forall. intros x Hx. apply repeat_spec in Hx. subst x.
        unfold kChunkSize. lia.
      * destruct (Z.eqb_spec (Tell pOpenFile w1 mod kChunkSize) 0) as [Hz|Hz];
          constructor; [|constructor].
        pose proof (Z.mod_pos_bound (Tell pOpenFile w1) kChunkSize) as Hb.
        unfold kChunkSize in *. lia.
Qed.

(** However [CopyData] ends: with [kDIErrNone] the message is as it was,
    with another code after the seek and the rewind there is a message, and
    a [Read] that answered an error decides the code and the message. *)
Lemma CopyData_outcome (pOpenFile : A2FileDescr) (conv : ConvertEOL)
    (convHA : ConvertHighASCII) (pMsg : string) (w : World)
    (dierr : DIError) (msg : string) (w' : World) (calls : list (ReaderCall A2FileDescr)) :
  kDIErrGeneric <> kDIErrNone ->
  CopyData' pOpenFile conv convHA pMsg w = Some ((dierr, msg), w', calls) ->
  (dierr = kDIErrNone -> msg = pMsg)
  /\ (msg = EmptyString -> pMsg = EmptyString)
  /\ (forall (d : A2FileDescr) (len : Z) (e : DIError) (data : list Z),
         In (DidRead d len e data) calls -> e <> kDIErrNone ->
         dierr = e /\ msg = ("File read failed: " ++ DIStrError e)%string).
Proof.
  intros Hgen. unfold CopyData, rbind, doSeekEnd, doTell, doRewind, rret.
  destruct (SeekEnd pOpenFile w) as [e1 w1].
  destruct (DIError_eqb e1 kDIErrNone) eqn:E1; simpl.
  2:{ intros H. injection H as <- <- <- <-. split; [|split].
      - intros ->. simpl in E1. discriminate E1.
      - intros H. exact H.
      - intros d len e data [Hin|[]]. discriminate Hin. }
  destruct (Rewind pOpenFile w1) as [e2 w2].
  destruct (DIError_eqb e2 kDIErrNone) eqn:E2; simpl.
  2:{ intros H. injection H as <- <- <- <-. split; [|split].
      - intros ->. simpl in E2. discriminate E2.
      - intros H. exact H.
      - intros d len e data [Hin|[Hin|[]]]; discriminate Hin. }
  intros Hrun.
  destruct (Z_lt_le_dec (Tell pOpenFile w1) 0) as [Hneg|Hpos].
  { exfalso. replace (Z.to_nat (Tell pOpenFile w1)) with 0%nat in Hrun by lia.
    simpl in Hrun. destruct (Z.eqb_spec (Tell pOpenFile w1) 0); [lia|].
    discriminate Hrun. }
  destruct (@copyLoop_runs pOpenFile pMsg (Z.to_nat (Tell pOpenFile w1))
              (Tell pOpenFile w1) (conv, convHA, false) w2 Hgen)
    as [dierr1 [msg1 [w1' [calls1 [Hrun1 [Hok [Hmsg Hread]]]]]]]; [lia|].
  rewrite Hrun1 in Hrun. injection Hrun as <- <- <- <-.
  split; [|split].
  - intros Hd. apply Hok. exact Hd.
  - intros Hm. destruct (DIError_eqb dierr1 kDIErrNone) eqn:Ed.
    + apply DIError_eqb_eq in Ed. destruct (Hok Ed) as [<- _]. exact Hm.
    + exfalso. apply Hmsg; [|exact Hm]. intros ->. simpl in Ed. discriminate Ed.
  - intros d len e data [Hin|[Hin|Hin]] Hne; try discriminate Hin.
    apply (Hread d len e data Hin Hne).
Qed.

(** X13.  [ExtractThreadToFile] returns [IDOK] or -1, never [IDCANCEL].
    With [IDOK] the message is as it was on entry, with -1 there is a
    message; a [Read] that answers an error, "cancelled" as any other, makes
    it return -1 with the message "File read failed: " and the text of that
    error.  The fork it opens it opens read-only, and it closes it as its
    last call. *)
Theorem ExtractThreadToFile_result :
  forall (this : DiskEntry) (which : ThreadKind) (conv : ConvertEOL)
         (convHA : ConvertHighASCII) (pErrMsg : string) (w : World)
         (result : ExtractResult) (msg : string) (w' : World)
         (calls : list (ReaderCall A2FileDescr)),
    kDIErrGeneric <> kDIErrNone ->
    ExtractThreadToFile' this which conv convHA pErrMsg w
    = Some ((result, msg), w', calls) ->
    result <> IDCANCEL
    /\ (result = IDOK -> msg = pErrMsg)
    /\ (result = ExtractFailed -> msg <> EmptyString)
    /\ (forall (d : A2FileDescr) (len : Z) (e : DIError) (data : list Z),
           In (DidRead d len e data) calls -> e <> kDIErrNone ->
           result = ExtractFailed
           /\ msg = ("File read failed: " ++ DIStrError e)%string)
    /\ (calls = []
        \/ (exists f rs e, calls = [DidOpen f true rs e None])
        \/ (exists f rs e d middle e2,
               calls = DidOpen f true rs e (Some d) :: middle ++ [DidClose d e2])).
Proof.
  intros this which conv convHA pErrMsg w result msg w' calls Hgen Hrun.
  unfold ExtractThreadToFile in Hrun.
  destruct (match which with
            | kDataThread => Some false
            | kRsrcThread => Some true
            | kOtherThread _ => None
            end) as [rsrcFork|].
  2:{ cbn in Hrun. injection Hrun as <- <- <- <-.
      split; [discriminate|]. split; [discriminate|].
      split; [intros _; discriminate|].
      split; [intros d0 len e0 data []|]. left. reflexivity. }
  destruct (GetA2File this) as [fpFile|]; [|discriminate Hrun].
  cbv zeta in Hrun.
  destruct ((if rsrcFork then GetRsrcLength fpFile else GetDataLength fpFile) =? 0).
  { cbn in Hrun. injection Hrun as <- <- <- <-.
    split; [discriminate|]. split; [reflexivity|].
    split; [discriminate|].
    split; [intros d0 len e0 data []|]. left. reflexivity. }
  destruct ((if rsrcFork then GetRsrcLength fpFile else GetDataLength fpFile) <? 0).
  { cbn in Hrun. injection Hrun as <- <- <- <-.
    split; [discriminate|]. split; [discriminate|].
    split; [intros _; discriminate|].
    split; [intros d0 len e0 data []|]. left. reflexivity. }
  unfold rbind at 1 in Hrun. unfold doOpen in Hrun.
  destruct (Open fpFile true rsrcFork w) as [[e o] w1].
  destruct (DIError_eqb e kDIErrNone) eqn:Ee; cbn [negb] in Hrun; cbv iota in Hrun.
  2:{ unfold closeAndReturn, rbind, rret, doClose in Hrun.
      destruct o as [d|].
      - destruct (Close d w1) as [e2 w2]. cbn in Hrun. injection Hrun as <- <- <- <-.
        split; [discriminate|]. split; [discriminate|].
        split; [intros _; discriminate|].
        split; [intros d0 len e0 data Hin; in_calls Hin|].
        right. right. exists fpFile, rsrcFork, e, d, [], e2. reflexivity.
      - cbn in Hrun. injection Hrun as <- <- <- <-.
        split; [discriminate|]. split; [discriminate|].
        split; [intros _; discriminate|].
        split; [intros d0 len e0 data Hin; in_calls Hin|].
        right. left. exists fpFile, rsrcFork, e. reflexivity. }
  destruct o as [d|]; [|discriminate Hrun].
  unfold rbind at 1 in Hrun.
  destruct (CopyData' d conv convHA pErrMsg w1) as [[[[dierr m] w2] calls2]|] eqn:Ecopy;
    [|discriminate Hrun].
  destruct (@CopyData_outcome _ _ _ _ _ _ _ _ _ Hgen Ecopy) as [Hok [Hempty Hread]].
  unfold closeAndReturn, rbind, rret, doClose in Hrun.
  destruct (DIError_eqb dierr kDIErrNone) eqn:Ed; cbn [negb] in Hrun; cbv iota beta in Hrun;
    destruct (Close d w2) as [e2 w3]; cbn in Hrun; injection Hrun as <- <- <- <-.
  - apply DIError_eqb_eq in Ed.
    split; [discriminate|]. split; [intros _; apply Hok; exact Ed|].
    split; [discriminate|]. split.
    + intros d0 len e0 data [Hin|Hin] Hne; [discriminate Hin|].
      apply in_app_or in Hin. destruct Hin as [Hin|Hin]; [|in_calls Hin].
      destruct (Hread d0 len e0 data Hin Hne) as [He _]. congruence.
    + right. right. exists fpFile, rsrcFork, e, d, calls2, e2.
      rewrite ?app_nil_r. reflexivity.
  - split; [discriminate|]. split; [discriminate|]. split; [|split].
    + intros _. destruct m; simpl; discriminate.
    + intros d0 len e0 data [Hin|Hin] Hne; [discriminate Hin|].
      apply in_app_or in Hin. destruct Hin as [Hin|Hin]; [|in_calls Hin].
      destruct (Hread d0 len e0 data Hin Hne) as [_ Hm]. split; [reflexivity|].
      rewrite Hm. reflexivity.
    + right. right. exists fpFile, rsrcFork, e, d, calls2, e2.
      rewrite ?app_nil_r. reflexivity.
Qed.

End ReaderFacts.

(** An extraction into a buffer to allocate, cancelled by the user during
    the [Read]. *)
Lemma ExtractThreadToBuffer_result_and_message_witness :
  exists (d : nat) (len : Z) (data : list Z),
    In (DidRead d len (kDIErrOther (-8)) data)
      [DidOpen (exampleFile "NOTES" false false 3 (-1)) true false kDIErrNone (Some 0%nat);
       DidRead 0%nat 3 (kDIErrOther (-8)) [72; 73; 13];
       DidClose 0%nat kDIErrNone].
Proof.
  refine (proj1 (proj1 (proj2 (proj2 (proj2
    (@ExtractThreadToBuffer_result_and_message (list Z) nat exampleReaderOpen
       (exampleRead (kDIErrOther (-8)) [72; 73; 13]) exampleSeek (fun _ => true)
       exampleDIStrError (kDIErrOther (-8))
       (entryOfLength 3) kDataThread None 0 []
       (mkExtracted IDCANCEL None 0 EmptyString) [] _ _ eq_refl))))) eq_refl).
  discriminate.
Defined.

(** An extraction of three bytes into a buffer to allocate: the fork is
    opened read-only, read once and closed. *)
Lemma ExtractThreadToBuffer_closes_what_it_opens_witness :
  ExtractThreadToBuffer exampleReaderOpen (exampleRead kDIErrNone [72; 73; 13]) exampleSeek
    (fun _ => true) exampleDIStrError (kDIErrOther (-8))
    (entryOfLength 3) kDataThread None 0 []
  = Some (mkExtracted IDOK (Some [72; 73; 13]) 3 EmptyString, [],
          [DidOpen (exampleFile "NOTES" false false 3 (-1)) true false kDIErrNone
             (Some 0%nat);
           DidRead 0%nat 3 kDIErrNone [72; 73; 13];
           DidClose 0%nat kDIErrNone])
  /\ exists (pFile : A2File) (dierr : DIError) (pOpenFile : option nat)
            (rest : list (ReaderCall nat)),
       GetA2File (entryOfLength 3) = Some pFile
       /\ [DidOpen (exampleFile "NOTES" false false 3 (-1)) true false kDIErrNone
             (Some 0%nat);
           DidRead 0%nat 3 kDIErrNone [72; 73; 13];
           DidClose 0%nat kDIErrNone]
          = DidOpen pFile true false dierr pOpenFile :: rest
       /\ (forall f ro rs e d, ~ In (DidOpen f ro rs e d) rest).
Proof.
  split; [reflexivity|].
  destruct (proj2
    (@ExtractThreadToBuffer_closes_what_it_opens (list Z) nat exampleReaderOpen
       (exampleRead kDIErrNone [72; 73; 13]) exampleSeek (fun _ => true)
       exampleDIStrError (kDIErrOther (-8))
       (entryOfLength 3) kDataThread None 0 []
       (mkExtracted IDOK (Some [72; 73; 13]) 3 EmptyString) [] _ eq_refl)
    eq_refl 3 eq_refl eq_refl)
    as [pFile [dierr [pOpenFile [rest [Hfile [Hcalls [Hopen _]]]]]]].
  exists pFile, dierr, pOpenFile, rest.
  split; [exact Hfile | split; [exact Hcalls | exact Hopen]].
Defined.

(** The same extraction: three bytes, reported as three. *)
Lemma ExtractThreadToBuffer_success_witness :
  exists len : Z,
    forkLength (entryOfLength 3) kDataThread = Some len /\ 0 <= len /\ 3 = toLong len.
Proof.
  destruct (@ExtractThreadToBuffer_success (list Z) nat exampleReaderOpen
              (exampleRead kDIErrNone [72; 73; 13]) exampleSeek (fun _ => true)
              exampleDIStrError (kDIErrOther (-8))
              (entryOfLength 3) kDataThread None 0 []
              (mkExtracted IDOK (Some [72; 73; 13]) 3 EmptyString) [] _ eq_refl eq_refl)
    as [len [Hlen [Hpos [Hl _]]]].
  exists len. split; [exact Hlen | split; [exact Hpos | exact Hl]].
Defined.

(** A fork of 40000 bytes is copied in chunks of 16384, 16384 and 7232
    bytes. *)
Lemma CopyData_reads_in_chunks_witness :
  CopyData (exampleRead kDIErrNone (repeat 65 (Z.to_nat 40000))) exampleSeek (exampleTell 40000)
    exampleSeek exampleWriteConvert exampleDIStrError exampleStrerror (kDIErrOther (-1))
    0%nat kConvertEOLOff kConvertHAOff EmptyString [] <> None
  /\ chunkLengths 40000 = [16384; 16384; 7232].
Proof.
  split.
  - refine (proj1
      (@CopyData_reads_in_chunks (list Z) nat (exampleRead kDIErrNone (repeat 65 (Z.to_nat 40000)))
         exampleSeek (exampleTell 40000) exampleSeek exampleWriteConvert exampleDIStrError
         exampleStrerror (kDIErrOther (-1))
         0%nat kConvertEOLOff kConvertHAOff EmptyString [] _) _).
    + discriminate.
    + unfold exampleTell. lia.
  - reflexivity.
Defined.

(** An extraction to a file whose [Read] the user cancels: the value
    returned is -1. *)
Lemma ExtractThreadToFile_result_witness :
  ExtractFailed <> IDCANCEL
  /\ (ExtractFailed = IDOK -> "File read failed: (unknown error)" = EmptyString).
Proof.
  refine (let H :=
            @ExtractThreadToFile_result (list Z) nat exampleReaderOpen
              (exampleRead (kDIErrOther (-8)) [72; 73; 13]) exampleSeek (exampleTell 3)
              exampleSeek exampleSeek exampleWriteConvert exampleDIStrError exampleStrerror
              (kDIErrOther (-1))
              (entryOfLength 3) kDataThread kConvertEOLOff kConvertHAOff EmptyString []
              ExtractFailed "File read failed: (unknown error)" []
              [DidOpen (exampleFile "NOTES" false false 3 (-1)) true false kDIErrNone
                 (Some 0%nat);
               DidSeekEnd 0%nat kDIErrNone; DidRewind 0%nat kDIErrNone;
               DidRead 0%nat 3 (kDIErrOther (-8)) [72; 73; 13];
               DidClose 0%nat kDIErrNone] _ eq_refl in
          conj (proj1 H) (proj1 (proj2 H))).
  discriminate.
Defined.

(** ** Transferring a file to the disk image *)

Lemma overBuffer_all (f : Z -> Z) (buf : list Z) :
  overBuffer f (Some buf) (Z.of_nat (List.length buf)) = Some (map f buf).
Proof.
  unfold overBuffer. rewrite Z.leb_refl, Nat2Z.id, firstn_all, skipn_all, app_nil_r.
  reflexivity.
Qed.

(** A property that holds of [0 .. 255] by checking each value. *)
Lemma byte_cases (P : Z -> bool) :
  forallb P (map Z.of_nat (seq 0 256)) = true ->
  forall c : Z, 0 <= c <= 255 -> P c = true.
Proof.
  intros Hall c Hc. rewrite forallb_forall in Hall. apply Hall.
  apply in_map_iff. exists (Z.to_nat c). split; [lia|].
  apply in_seq. lia.
Qed.

Lemma map_bytes (f g : Z -> Z) (buf : list Z) :
  Forall (fun c => 0 <= c <= 255) buf ->
  (forall c, 0 <= c <= 255 -> f c = g c) ->
  map f buf = map g buf.
Proof.
  intros Hb Hfg. induction Hb as [|c rest Hc _ IH]; simpl; [reflexivity|].
  rewrite IH, Hfg by lia. reflexivity.
Qed.

Section TextTransferFacts.

Variable UsesDOSFileStructure : FSFormat -> bool.
Variable kFileTypeTXT : Z.
Variable kFileTypeSRC : Z.

Local Abbreviation xferText' := (xferText UsesDOSFileStructure kFileTypeTXT kFileTypeSRC).

(** X14.  The text of a TXT or SRC file through [XferFile], there and back.
    Handed to a DOS-structured image from another kind of volume it gains
    the high bit on every byte but NUL, and handed back it loses it: a text
    of 7-bit bytes comes back as it was.  The other way round, from DOS and
    back to DOS, every byte comes back with its high bit set, except that
    $00 and $80 both come back as $00.  Between two DOS-structured volumes,
    and between two that are not, the text is handed on as it is; and the
    length never changes. *)
Theorem XferFile_text_round_trip :
  forall (onOther onDOS : FileDetails) (dosFormat otherFormat : FSFormat) (buf : list Z),
    UsesDOSFileStructure dosFormat = true ->
    UsesDOSFileStructure otherFormat = false ->
    fileSysFmt onOther = otherFormat ->
    fileSysFmt onDOS = dosFormat ->
    fd_fileType onOther = kFileTypeTXT \/ fd_fileType onOther = kFileTypeSRC ->
    fd_fileType onDOS = kFileTypeTXT \/ fd_fileType onDOS = kFileTypeSRC ->
    buf <> [] ->
    Forall (fun c => 0 <= c <= 255) buf ->
    xferText' onOther dosFormat (Some buf) (Z.of_nat (List.length buf))
    = Some (Some (map addHigh buf))
    /\ xferText' onDOS otherFormat (Some buf) (Z.of_nat (List.length buf))
       = Some (Some (map stripHigh buf))
    /\ (Forall (fun c => 0 <= c <= 127) buf ->
        xferText' onDOS otherFormat (Some (map addHigh buf)) (Z.of_nat (List.length buf))
        = Some (Some buf))
    /\ xferText' onOther dosFormat (Some (map stripHigh buf)) (Z.of_nat (List.length buf))
       = Some (Some (map (fun c => if (c =? 0) || (c =? 0x80) then 0 else Z.lor c 0x80) buf))
    /\ xferText' onDOS dosFormat (Some buf) (Z.of_nat (List.length buf)) = Some (Some buf)
    /\ xferText' onOther otherFormat (Some buf) (Z.of_nat (List.length buf))
       = Some (Some buf)
    /\ List.length (map addHigh buf) = List.length buf
    /\ List.length (map stripHigh buf) = List.length buf.
Proof.
  intros onOther onDOS dosFormat otherFormat buf Hdos Hother Hfo Hfd Hto Htd Hne Hbytes.
  assert (Hlen : (0 <? Z.of_nat (List.length buf)) = true).
  { apply Z.ltb_lt. destruct buf; [contradiction | simpl; lia]. }
  assert (Htxt : forall d, fd_fileType d = kFileTypeTXT \/ fd_fileType d = kFileTypeSRC ->
                   (fd_fileType d =? kFileTypeTXT) || (fd_fileType d =? kFileTypeSRC) = true).
  { intros d [->| ->]; rewrite Z.eqb_refl; [reflexivity | apply orb_true_r]. }
  unfold xferText. rewrite Hlen, (Htxt _ Hto), (Htxt _ Htd), Hfo, Hfd, Hdos, Hother.
  cbn [andb negb orb].
  split; [rewrite overBuffer_all; reflexivity|].
  split; [rewrite overBuffer_all; reflexivity|].
  split; [|split; [|split; [|split; [|split]]]]; try reflexivity.
  - intros H7. rewrite <- (length_map addHigh buf) at 1.
    rewrite overBuffer_all. cbn [option_map]. do 2 f_equal.
    rewrite map_map. rewrite <- (map_id buf) at 2.
    clear Hne Hbytes Hlen. induction H7 as [|c rest Hc _ IH]; simpl; [reflexivity|].
    rewrite IH. f_equal.
    assert (H : (stripHigh (addHigh c) =? c) || negb ((0 <=? c) && (c <=? 127)) = true).
    { apply (byte_cases
               (fun c => (stripHigh (addHigh c) =? c) || negb ((0 <=? c) && (c <=? 127))));
        [vm_compute; reflexivity | lia]. }
    apply orb_true_iff in H. destruct H as [H|H]; [lia|].
    apply negb_true_iff, andb_false_iff in H. lia.
  - rewrite <- (length_map stripHigh buf) at 1.
    rewrite overBuffer_all. cbn [option_map]. do 2 f_equal.
    rewrite map_map. apply map_bytes; [exact Hbytes|].
    intros c Hc.
    assert (H : (addHigh (stripHigh c)
                 =? (if (c =? 0) || (c =? 0x80) then 0 else Z.lor c 0x80)) = true).
    { apply (byte_cases
               (fun c => addHigh (stripHigh c)
                         =? (if (c =? 0) || (c =? 0x80) then 0 else Z.lor c 0x80)));
        [vm_compute; reflexivity | exact Hc]. }
    lia.
  - apply length_map.
  - apply length_map.
Qed.

End TextTransferFacts.

(** "Hi", a NUL and a CR, from ProDOS to DOS 3.3 and back. *)
Lemma XferFile_text_round_trip_witness :
  xferText exampleUsesDOS 0x04 0xb0
    (mkFileDetails kFileKindDataFork "HI" "HI" kFormatDOS33 58 0xc3 0x04 0 kNuStorageUnknown
       0 0)
    kFormatProDOS (Some (map addHigh [72; 105; 0; 13])) 4
  = Some (Some [72; 105; 0; 13]).
Proof.
  refine (proj1 (proj2 (proj2
    (@XferFile_text_round_trip exampleUsesDOS 0x04 0xb0
       (mkFileDetails kFileKindDataFork "HI" "HI" kFormatProDOS 58 0xc3 0x04 0
          kNuStorageUnknown 0 0)
       (mkFileDetails kFileKindDataFork "HI" "HI" kFormatDOS33 58 0xc3 0x04 0
          kNuStorageUnknown 0 0)
       kFormatDOS33 kFormatProDOS [72; 105; 0; 13]
       eq_refl eq_refl eq_refl eq_refl (or_introl eq_refl) (or_introl eq_refl) _ _))) _).
  - discriminate.
  - repeat constructor; lia.
  - repeat constructor; lia.
Defined.

Lemma strAt_XYZZY (n : nat) :
  String.eqb (strAt "XYZZY-DiskArchive" n) kEmptyFolderMarker = false.
Proof. do 18 (destruct n as [|n]; [reflexivity|]). reflexivity. Qed.

Lemma NuStorageType_eqb_eq (a b : NuStorageType) : NuStorageType_eqb a b = true <-> a = b.
Proof. destruct a, b; simpl; split; intros H; try reflexivity; discriminate H. Qed.

Section TransferFacts.

Variable FS : Type.
Variable A2FileDescr : Type.
Variable GetImageFSFormat : FS -> FSFormat.
Variable CreateFile : CreateParms -> FS -> DIError * option A2File * FS.
Variable Open : A2File -> bool -> bool -> FS -> DIError * option A2FileDescr * FS.
Variable Write : A2FileDescr -> list Z -> Z -> FS -> DIError * FS.
Variable Close : A2FileDescr -> FS -> DIError * FS.
Variable DeleteFile : A2File -> FS -> DIError * FS.
Variable DIStrError : DIError -> string.
Variable IsHierarchical : FSFormat -> bool.
Variable HasResourceForks : FSFormat -> bool.
Variable UsesDOSFileStructure : FSFormat -> bool.
Variable kAccessInvisible : Z.
Variable kFileTypeTXT : Z.
Variable kFileTypeSRC : Z.
Variable DateTimeToSeconds : Z -> Z.

Local Abbreviation AddForksToDisk' :=
  (AddForksToDisk GetImageFSFormat CreateFile Open Write Close DeleteFile IsHierarchical
     HasResourceForks UsesDOSFileStructure kAccessInvisible).
Local Abbreviation XferFile' :=
  (XferFile GetImageFSFormat CreateFile Open Write Close DeleteFile DIStrError
     IsHierarchical HasResourceForks UsesDOSFileStructure kAccessInvisible kFileTypeTXT
     kFileTypeSRC DateTimeToSeconds).

Local Arguments createAndWriteForks : simpl never.
Local Arguments strrchr : simpl never.
Local Arguments strAt : simpl never.
Local Arguments String.eqb : simpl never.

(** Case analysis on the first half of [AddForksToDisk], down to the call of
    [createAndWriteForks]. *)
Ltac request_case H :=
  match type of H with
  | context [CreateFile ?p ?s] => destruct (CreateFile p s) as [[? ?] ?] eqn:?
  | context [strrchr ?s ?c] => destruct (strrchr s c) eqn:?
  | context [DIError_eqb ?d ?k] => destruct (DIError_eqb d k) eqn:?
  | context [if ?b then _ else _] => destruct b eqn:?
  end.

Ltac request_cases H Hcw :=
  unfold AddForksToDisk, bail, bind, ret, getFSFormat, callCreateFile, isNone,
    setStorageType, setFileType, setPathName, setAccess in H;
  repeat (cbn in H; request_case H); cbn in H;
  try discriminate H;
  try match type of H with
      | context [createAndWriteForks ?c ?o ?w ?cl ?del ?p ?db ?dl ?rb ?rl ?s] =>
          destruct (createAndWriteForks c o w cl del p db dl rb rl s)
            as [[[? ?] ?]|] eqn:Hcw; [|discriminate H]
      end;
  injection H as <- <- <-.

(** What [AddForksToDisk] asks the driver to create: unless the request was
    an empty-folder marker, it bears the path and the separator of the
    caller's, and is a directory exactly when the caller's is. *)
Lemma AddForksToDisk_request (pParms : CreateParms)
    (dataBuf : option (list Z)) (dataLen : Z) (rsrcBuf : option (list Z)) (rsrcLen : Z)
    (fs : FS) (dierr : DIError) (fs' : FS) (calls : list (DriverCall A2FileDescr))
    (p : CreateParms) (e : DIError) (f : option A2File) :
  AddForksToDisk' pParms dataBuf dataLen rsrcBuf rsrcLen fs = Some (dierr, fs', calls) ->
  In (CallCreateFile p e f) calls ->
  (pathName p = pathName pParms /\ fssep p = fssep pParms
   /\ (storageType p = kNuStorageDirectory <-> storageType pParms = kNuStorageDirectory))
  \/ (exists cp : nat,
         String.eqb (strAt (pathName pParms) (S cp)) kEmptyFolderMarker = true).
Proof.
  intros Hrun Hin.
  destruct pParms as [pn sep st ft ax ac cw mw].
  request_cases Hrun Hcw.
  all: try (cbn in Hin; contradiction).
  all: try (right; eexists;
            match goal with
            | H : String.eqb _ kEmptyFolderMarker && _ = true |- _ =>
                apply andb_true_iff in H; destruct H as [H _]; exact H
            end).
  all: left.
  all: try (apply createAndWriteForks_calls in Hcw;
            destruct Hcw as [[? [? [? [-> Hrest]]]] _];
            destruct Hin as [Hin|Hin];
            [injection Hin as <- <- <- | exfalso; eapply Hrest; exact Hin]).
  all: try (cbn in Hin; destruct Hin as [Hin|[]]; injection Hin as <- <- <-).
  all: cbn; repeat split; try reflexivity; try (intros H; discriminate H).
  all: repeat match goal with
              | H : NuStorageType_eqb _ _ = true |- _ => apply NuStorageType_eqb_eq in H
              end;
    try (intros; congruence).
  all: try (intros ->; discriminate).
Qed.

(** X15.  The name under which [XferFile] creates a file.  [ConvertFDToCP]
    fills in the path "XYZZY-DiskArchive" and [XferFile] leaves it there, so
    whatever the storage name of the record handed over, every file or
    directory that [XferFile] asks the driver to create bears that path, with
    the separator of the record; and the request is for a directory only
    when the record's storage type says so, an empty-folder marker among the
    records staying a file. *)
Theorem XferFile_creates_XYZZY :
  forall (pDetails : FileDetails) (pDataBuf : option (list Z)) (dataLen : Z)
         (pRsrcBuf : option (list Z)) (rsrcLen : Z) (fs : FS)
         (result : string * option (list Z) * option (list Z)) (fs' : FS)
         (calls : list (DriverCall A2FileDescr))
         (p : CreateParms) (e : DIError) (f : option A2File),
    XferFile' pDetails pDataBuf dataLen pRsrcBuf rsrcLen fs = Some (result, fs', calls) ->
    In (CallCreateFile p e f) calls ->
    pathName p = "XYZZY-DiskArchive"
    /\ fssep p = ascii_of_N (Z.to_N (fileSysInfo pDetails mod 256))
    /\ (storageType p = kNuStorageDirectory <->
        fd_storageType pDetails = kNuStorageDirectory).
Proof.
  intros pDetails pDataBuf dataLen pRsrcBuf rsrcLen fs result fs' calls p e f Hrun Hin.
  unfold XferFile, bind, getFSFormat in Hrun.
  destruct (xferText UsesDOSFileStructure kFileTypeTXT kFileTypeSRC pDetails
              (GetImageFSFormat fs) pDataBuf dataLen) as [buf|]; [|discriminate Hrun].
  destruct (AddForksToDisk' (ConvertFDToCP DateTimeToSeconds pDetails) buf dataLen
              pRsrcBuf rsrcLen fs) as [[[dierr fs1] calls1]|] eqn:Eadd;
    [|discriminate Hrun].
  assert (Hcalls : calls = calls1).
  { unfold ret in Hrun. destruct (negb (isNone dierr)); injection Hrun as _ _ <-;
      cbn; rewrite app_nil_r; reflexivity. }
  subst calls.
  destruct (@AddForksToDisk_request _ _ _ _ _ _ _ _ _ _ _ _ Eadd Hin)
    as [[Hp [Hs Hd]]|[cp Hcp]].
  - cbn in Hp, Hs, Hd. repeat split; try assumption; apply Hd.
  - cbn in Hcp. rewrite strAt_XYZZY in Hcp. discriminate Hcp.
Qed.

End TransferFacts.

(** The marker of the empty folder [DIR], handed over by a transfer to a
    ProDOS image: the driver is asked for the file "XYZZY-DiskArchive". *)
Lemma XferFile_creates_XYZZY_witness :
  pathName (mkCreateParms "XYZZY-DiskArchive" ":" kNuStorageUnknown 0 0 0xe7 0 0)
  = "XYZZY-DiskArchive"
  /\ ":"%char = ascii_of_N (Z.to_N (58 mod 256)).
Proof.
  refine (let H :=
            @XferFile_creates_XYZZY (list CreateParms) nat (fun _ => kFormatProDOS)
              exampleCreateFile exampleOpen (exampleWrite kDIErrNone) exampleClose
              (exampleDeleteFile kDIErrNone) exampleDIStrError exampleIsHierarchical
              exampleHasResourceForks exampleUsesDOS 0x04 0x04 0xb0 (fun t => t)
              (mkFileDetails kFileKindDataFork "DIR:.$$EmptyFolder" "DIR:.$$EmptyFolder"
                 kFormatProDOS 58 0xe7 0 0 kNuStorageUnknown 0 0)
              (Some [0]) 0 None (-1) []
              (EmptyString, None, None)
              [mkCreateParms "XYZZY-DiskArchive" ":" kNuStorageUnknown 0 0 0xe7 0 0]
              _
              (mkCreateParms "XYZZY-DiskArchive" ":" kNuStorageUnknown 0 0 0xe7 0 0)
              kDIErrNone (Some (exampleFile "XYZZY-DiskArchive" false false 0 (-1)))
              eq_refl (or_introl eq_refl) in
          conj (proj1 H) (proj1 (proj2 H))).
Defined.

(** ** A file that is already there *)

Section AddFileFacts.

Variable FS : Type.
Variable NormalizePath : string -> Z -> FS -> DIError * string * Z.
Variable GetFileByName : string -> FS -> option A2File.
Variable DeleteFile : A2File -> FS -> DIError * FS.
Variable kDIErrDataOverrun : DIError.

Local Abbreviation DoAddFile_retry' :=
  (DoAddFile_retry NormalizePath GetFileByName DeleteFile kDIErrDataOverrun).
Local Abbreviation DoAddFile' :=
  (DoAddFile NormalizePath GetFileByName DeleteFile kDIErrDataOverrun).

(** Case analysis on a call that is said to be in the list of calls [H]. *)
Ltac in_addfile H :=
  cbn in H;
  repeat match type of H with
         | _ \/ _ => destruct H as [H|H]
         | False => contradiction
         | _ = _ => discriminate H
         | In _ (_ ++ _) => apply in_app_or in H
         end.

(** What [HandleReplaceExisting] leaves alone. *)
Lemma HandleReplaceExisting_frame (pExisting : A2File) (pDetails : FileDetails)
    (s : AddFileState FS) (verdict : NuResult) (pDetails' : FileDetails)
    (s' : AddFileState FS) (calls : list AddFileCall) :
  HandleReplaceExisting pExisting pDetails s = Some ((verdict, pDetails'), s', calls) ->
  (verdict <> kNuRename -> pDetails' = pDetails)
  /\ af_pDiskFS s' = af_pDiskFS s
  /\ fpAddDataHead s' = fpAddDataHead s
  /\ (forall ex e, ~ In (DidDeleteExisting ex e) calls)
  /\ (verdict = kNuRename -> List.length (af_answers s) = S (List.length (af_answers s'))).
Proof.
  intros Hrun.
  destruct s as [fs ovw noAsk head answers].
  unfold HandleReplaceExisting, andThen, done, doConfirmOverwrite, setOverwrite in Hrun.
  cbn in Hrun.
  destruct noAsk.
  - destruct ovw; injection Hrun as <- <- <- <-; cbn;
      (split; [reflexivity|]); (split; [reflexivity|]); (split; [reflexivity|]);
      (split; [intros ex e []|]); intros H; discriminate H.
  - destruct answers as [|confOvwr rest]; [discriminate Hrun|].
    destruct confOvwr as [cancelled rename toAll overwrite name]. cbn in Hrun.
    destruct cancelled; [|destruct rename; [|destruct toAll; destruct overwrite]];
      cbn in Hrun; injection Hrun as <- <- <- <-; cbn.
    all: split; [intros H; try reflexivity; exfalso; apply H; reflexivity|].
    all: split; [reflexivity|]; split; [reflexivity|].
    all: split; [intros ex e Hin; in_addfile Hin|].
    all: intros H; try discriminate H; reflexivity.
Qed.

(** Finding a call in a list of calls. *)
Ltac find_call :=
  cbn; repeat first [left; reflexivity | right | apply in_or_app; right; cbn].

Ltac find_hyp H :=
  cbn; repeat first [exact H | right | apply in_or_app; right; cbn].

(** X16.  "Apply to all" in [HandleReplaceExisting].  While
    [fOverwriteNoAsk] is set, a clash is settled without a dialog, by
    [fOverwriteExisting], and nothing changes.  Otherwise the user is asked
    once; an answer "to all" (neither cancelled nor a rename) sets
    [fOverwriteNoAsk], and from then on every clash gets the verdict of that
    answer with no dialog.  A cancel or a rename leaves both members as they
    were; only a rename touches the details, replacing the storage name by
    the name the user left; and neither the driver nor the list of pending
    adds is touched. *)
Theorem HandleReplaceExisting_apply_to_all :
  forall (pExisting : A2File) (pDetails : FileDetails) (s : AddFileState FS)
         (verdict : NuResult) (pDetails' : FileDetails) (s' : AddFileState FS)
         (calls : list AddFileCall),
    HandleReplaceExisting pExisting pDetails s = Some ((verdict, pDetails'), s', calls) ->
    (fOverwriteNoAsk s = true ->
     s' = s /\ calls = [] /\ pDetails' = pDetails
     /\ verdict = if fOverwriteExisting s then kNuOverwrite else kNuSkip)
    /\ (fOverwriteNoAsk s = false ->
        exists (confOvwr : ConfirmOverwrite) (rest : list ConfirmOverwrite),
          af_answers s = confOvwr :: rest
          /\ af_answers s' = rest
          /\ calls = [DidConfirmOverwrite pExisting confOvwr]
          /\ (co_cancelled confOvwr = false -> fResultRename confOvwr = false ->
              fResultApplyToAll confOvwr = true ->
              fOverwriteNoAsk s' = true
              /\ forall (pExisting2 : A2File) (pDetails2 : FileDetails),
                   HandleReplaceExisting pExisting2 pDetails2 s'
                   = Some ((verdict, pDetails2), s', [])))
    /\ (verdict = kNuAbort \/ verdict = kNuRename ->
        fOverwriteNoAsk s' = fOverwriteNoAsk s
        /\ fOverwriteExisting s' = fOverwriteExisting s)
    /\ (verdict <> kNuRename -> pDetails' = pDetails)
    /\ (verdict = kNuRename ->
        exists confOvwr : ConfirmOverwrite,
          pDetails' = setStorageName (fExistingFile confOvwr) pDetails
          /\ In (DidConfirmOverwrite pExisting confOvwr) calls)
    /\ af_pDiskFS s' = af_pDiskFS s
    /\ fpAddDataHead s' = fpAddDataHead s.
Proof.
  intros pExisting pDetails s verdict pDetails' s' calls Hrun.
  destruct s as [fs ovw noAsk head answers].
  unfold HandleReplaceExisting, andThen, done, doConfirmOverwrite, setOverwrite in Hrun.
  cbn in Hrun.
  destruct noAsk.
  - destruct ovw; injection Hrun as <- <- <- <-; cbn;
      repeat split; try reflexivity; try discriminate;
      try (intros [H|H]; discriminate H); intros H; discriminate H.
  - destruct answers as [|confOvwr rest]; [discriminate Hrun|].
    destruct confOvwr as [cancelled rename toAll overwrite name]. cbn in Hrun.
    destruct cancelled; [|destruct rename; [|destruct toAll; destruct overwrite]];
      cbn in Hrun; injection Hrun as <- <- <- <-; cbn.
    all: split; [intros H; discriminate H|].
    all: split;
      [intros _; eexists _, _; split; [reflexivity|]; split; [reflexivity|];
       split; [reflexivity|]; cbn; intros;
       first [discriminate | split; [reflexivity | intros; reflexivity]]|].
    all: split; [intros [H|H]; try discriminate H; split; reflexivity|].
    all: split; [intros H; try reflexivity; exfalso; apply H; reflexivity|].
    all: split; [intros H;
                 first [discriminate H
                       | eexists; split; [|left; reflexivity]; reflexivity]|].
    all: split; reflexivity.
Qed.

(** A run of [DoAddFile] from the label [retry], whatever the number of
    retries allowed. *)
Lemma DoAddFile_retry_outcome (retries : nat) :
  forall (neededLen : Z) (pDetails : FileDetails) (s : AddFileState FS)
         (nuerr : NuError) (pDetails' : FileDetails) (s' : AddFileState FS)
         (calls : list AddFileCall),
    DoAddFile_retry' retries neededLen pDetails s
    = Some ((nuerr, pDetails'), s', calls) ->
    (nuerr <> kNuErrNone ->
     fpAddDataHead s' = fpAddDataHead s /\ af_pDiskFS s' = af_pDiskFS s
     /\ forall ex e, ~ In (DidDeleteExisting ex e) calls)
    /\ (nuerr = kNuErrNone ->
        (exists fsNormalBuf : string,
            fpAddDataHead s'
            = AddToAddDataList (mkFileAddData pDetails' fsNormalBuf None) (fpAddDataHead s)
            /\ ((GetFileByName fsNormalBuf (af_pDiskFS s) = None
                 /\ af_pDiskFS s' = af_pDiskFS s
                 /\ forall ex e, ~ In (DidDeleteExisting ex e) calls)
                \/ (exists ex : A2File,
                       GetFileByName fsNormalBuf (af_pDiskFS s) = Some ex
                       /\ In (DidDeleteExisting ex kDIErrNone) calls)))
        \/ (fpAddDataHead s' = fpAddDataHead s
            /\ exists (ex : A2File) (e : DIError),
                 e <> kDIErrNone /\ In (DidDeleteExisting ex e) calls)).
Proof.
  induction retries as [|retries IH];
    intros neededLen pDetails s nuerr pDetails' s' calls Hrun.
  all: cbn [DoAddFile_retry] in Hrun.
  all: unfold andThen at 1 in Hrun; unfold doNormalizePath at 1 in Hrun.
  all: destruct (NormalizePath (storageName pDetails) neededLen (af_pDiskFS s))
         as [[dierr1 buf1] len1].
  all: unfold andThen at 1 in Hrun.
  all: destruct (DIError_eqb dierr1 kDIErrDataOverrun);
    [unfold doNormalizePath at 1 in Hrun;
     destruct (NormalizePath (storageName pDetails) len1 (af_pDiskFS s))
       as [[dierr2 buf2] len2]
    | unfold done at 1 in Hrun].
  all: match type of Hrun with
       | context [DIError_eqb ?d kDIErrNone] =>
           destruct (DIError_eqb d kDIErrNone) eqn:Enorm
       end; cbn [negb] in Hrun; cbv iota in Hrun.
  all: try (unfold done in Hrun; injection Hrun as <- <- <- <-;
            split; [intros _; repeat split; intros ex e Hin; in_addfile Hin
                   | intros H; discriminate H]).
  all: unfold andThen at 1 in Hrun.
  all: match type of Hrun with
       | context [GetFileByName ?n ?f] =>
           destruct (GetFileByName n f) as [pExisting|] eqn:Eex
       end.
  all: try (unfold andThen, queue, done in Hrun; cbn in Hrun;
            injection Hrun as <- <- <- <-; cbn;
            split; [intros H; exfalso; apply H; reflexivity|];
            intros _; left; eexists; split; [reflexivity|]; left;
            split; [exact Eex|]; split; [reflexivity|];
            intros ex e Hin; in_addfile Hin).
  all: unfold andThen at 1 in Hrun.
  all: match type of Hrun with
       | context [HandleReplaceExisting ?ex ?d ?st] =>
           destruct (HandleReplaceExisting ex d st) as [[[[verdict d1] s1] calls1]|] eqn:Eh;
             [|discriminate Hrun];
           destruct (@HandleReplaceExisting_frame _ _ _ _ _ _ _ Eh)
             as [Hsame [Hfs [Hhead [Hnodel Hlen]]]]
       end.
  all: destruct verdict.
  (* kNuOverwrite *)
  all: try (match type of Hrun with
            | context [doDeleteExisting] => idtac
            end;
            assert (Hd : d1 = pDetails) by (apply Hsame; discriminate);
            unfold andThen, doDeleteExisting, queue, done in Hrun;
            destruct (DeleteFile pExisting (af_pDiskFS s1)) as [de fs2];
            destruct (DIError_eqb de kDIErrNone) eqn:Ede; cbn in Hrun;
            injection Hrun as <- <- <- <-; cbn;
            (split; [intros H; exfalso; apply H; reflexivity|]); intros _;
            [ left; eexists; split; [rewrite Hhead; reflexivity|]; right;
              exists pExisting; split; [exact Eex|];
              apply DIError_eqb_eq in Ede; subst de;
              find_call
            | right; split; [exact Hhead|]; exists pExisting, de;
              split; [intros ->; cbn in Ede; discriminate Ede|];
              find_call ]).
  (* kNuSkip, kNuAbort, any other value *)
  all: try (unfold done in Hrun; injection Hrun as <- <- <- <-;
            (split; [|intros H; discriminate H]); intros _;
            split; [exact Hhead|]; split; [exact Hfs|];
            intros ex e Hin; rewrite ?app_nil_r in Hin;
            in_addfile Hin; eapply Hnodel; exact Hin).
  (* kNuRename *)
  all: try (unfold stuck in Hrun; discriminate Hrun).
  all: destruct (DoAddFile_retry' retries _ d1 s1) as [[[[nuerr2 d2] s2] calls2]|] eqn:Er;
    [|discriminate Hrun];
    injection Hrun as <- <- <- <-;
    destruct (IH _ _ _ _ _ _ _ Er) as [Herr Hok];
    rewrite <- Hhead, <- Hfs.
  all: split.
  all: try (intros Hne; destruct (Herr Hne) as [H1 [H2 H3]];
            split; [exact H1|]; split; [exact H2|];
            intros ex e Hin;
            in_addfile Hin; [eapply Hnodel | eapply H3]; exact Hin).
  all: intros Hnone; destruct (Hok Hnone)
         as [[name [Hq [[Hno [Hsamefs Hnd]]|[ex [Hex Hdel]]]]]|[Hq [ex [e [Hne Hdel]]]]].
  all: try (left; exists name; split; [exact Hq|]; left;
            split; [exact Hno|]; split; [exact Hsamefs|];
            intros ex e Hin;
            in_addfile Hin; [eapply Hnodel | eapply Hnd]; exact Hin).
  all: try (left; exists name; split; [exact Hq|]; right; exists ex;
            split; [exact Hex|]; find_hyp Hdel).
  all: right; split; [exact Hq|]; exists ex, e; split; [exact Hne|];
    find_hyp Hdel.
Qed.

(** X17.  What [DoAddFile] queues.  Whenever it returns a code other than
    [kNuErrNone] (the user skipped the file or cancelled, or the name could
    not be normalized), the list of pending adds and the image are as they
    were.  When it returns [kNuErrNone], either the file was queued under the
    name [NormalizePath] gave and the image held no file of that name, or
    held one that was deleted first, [DeleteFile] answering [kDIErrNone]; or
    else the deletion of the existing file failed, and then nothing was
    queued although the code is [kNuErrNone]. *)
Theorem DoAddFile_queues :
  forall (pDetails : FileDetails) (s : AddFileState FS)
         (nuerr : NuError) (pDetails' : FileDetails) (s' : AddFileState FS)
         (calls : list AddFileCall),
    DoAddFile' pDetails s = Some ((nuerr, pDetails'), s', calls) ->
    (nuerr <> kNuErrNone ->
     fpAddDataHead s' = fpAddDataHead s /\ af_pDiskFS s' = af_pDiskFS s
     /\ forall ex e, ~ In (DidDeleteExisting ex e) calls)
    /\ (nuerr = kNuErrNone ->
        (exists fsNormalBuf : string,
            fpAddDataHead s'
            = AddToAddDataList (mkFileAddData pDetails' fsNormalBuf None) (fpAddDataHead s)
            /\ ((GetFileByName fsNormalBuf (af_pDiskFS s) = None
                 /\ af_pDiskFS s' = af_pDiskFS s
                 /\ forall ex e, ~ In (DidDeleteExisting ex e) calls)
                \/ (exists ex : A2File,
                       GetFileByName fsNormalBuf (af_pDiskFS s) = Some ex
                       /\ In (DidDeleteExisting ex kDIErrNone) calls)))
        \/ (fpAddDataHead s' = fpAddDataHead s
            /\ exists (ex : A2File) (e : DIError),
                 e <> kDIErrNone /\ In (DidDeleteExisting ex e) calls)).
Proof.
  intros pDetails s nuerr pDetails' s' calls Hrun.
  unfold DoAddFile in Hrun. eapply DoAddFile_retry_outcome. exact Hrun.
Qed.

End AddFileFacts.

(** The user answers "overwrite, to all" to a first clash: a second clash
    is settled with no dialog. *)
Lemma HandleReplaceExisting_apply_to_all_witness :
  fOverwriteNoAsk (mkAddFileState ["NOTES"; "DATA"] true true [] []) = true
  /\ (forall (pExisting2 : A2File) (pDetails2 : FileDetails),
         HandleReplaceExisting pExisting2 pDetails2
           (mkAddFileState ["NOTES"; "DATA"] true true [] [])
         = Some ((kNuOverwrite, pDetails2),
                 mkAddFileState ["NOTES"; "DATA"] true true [] [], [])).
Proof.
  destruct (proj1 (proj2
    (@HandleReplaceExisting_apply_to_all (list string)
       (exampleFile "NOTES" false false 0 (-1)) (detailsNamed "NOTES")
       (mkAddFileState ["NOTES"; "DATA"] false false []
          [mkConfirmOverwrite false false true true "NOTES"])
       kNuOverwrite (detailsNamed "NOTES")
       (mkAddFileState ["NOTES"; "DATA"] true true [] [])
       [DidConfirmOverwrite (exampleFile "NOTES" false false 0 (-1))
          (mkConfirmOverwrite false false true true "NOTES")]
       eq_refl)) eq_refl) as [confOvwr [rest [Ha [_ [_ Hall]]]]].
  injection Ha as <- <-.
  exact (Hall eq_refl eq_refl eq_refl).
Defined.

(** "NOTES" is added to an image that holds a file of that name; the user
    asks to rename it to "NOTES2", and the file is queued under that name. *)
Lemma DoAddFile_queues_witness :
  (exists fsNormalBuf : string,
      [mkFileAddData (setStorageName "NOTES2" (detailsNamed "NOTES")) "NOTES2" None]
      = AddToAddDataList
          (mkFileAddData (setStorageName "NOTES2" (detailsNamed "NOTES")) fsNormalBuf None)
          []
      /\ ((exampleGetFileByName fsNormalBuf ["NOTES"] = None
           /\ ["NOTES"] = ["NOTES"]
           /\ forall ex e,
                ~ In (DidDeleteExisting ex e)
                    [DidNormalizePath "NOTES" 64 kDIErrNone "NOTES";
                     DidConfirmOverwrite (exampleFile "NOTES" false false 0 (-1))
                       (mkConfirmOverwrite false true false false "NOTES2");
                     DidNormalizePath "NOTES2" 64 kDIErrNone "NOTES2"])
          \/ (exists ex : A2File,
                 exampleGetFileByName fsNormalBuf ["NOTES"] = Some ex
                 /\ In (DidDeleteExisting ex kDIErrNone)
                      [DidNormalizePath "NOTES" 64 kDIErrNone "NOTES";
                       DidConfirmOverwrite (exampleFile "NOTES" false false 0 (-1))
                         (mkConfirmOverwrite false true false false "NOTES2");
                       DidNormalizePath "NOTES2" 64 kDIErrNone "NOTES2"])))
  \/ ([mkFileAddData (setStorageName "NOTES2" (detailsNamed "NOTES")) "NOTES2" None] = []
      /\ exists (ex : A2File) (e : DIError),
           e <> kDIErrNone
           /\ In (DidDeleteExisting ex e)
                [DidNormalizePath "NOTES" 64 kDIErrNone "NOTES";
                 DidConfirmOverwrite (exampleFile "NOTES" false false 0 (-1))
                   (mkConfirmOverwrite false true false false "NOTES2");
                 DidNormalizePath "NOTES2" 64 kDIErrNone "NOTES2"]).
Proof.
  exact (proj2
    (@DoAddFile_queues (list string) exampleNormalizePath exampleGetFileByName
       (exampleDeleteExisting kDIErrNone) (kDIErrOther (-3))
       (detailsNamed "NOTES")
       (mkAddFileState ["NOTES"] false false []
          [mkConfirmOverwrite false true false false "NOTES2"])
       kNuErrNone (setStorageName "NOTES2" (detailsNamed "NOTES"))
       (mkAddFileState ["NOTES"] false false
          [mkFileAddData (setStorageName "NOTES2" (detailsNamed "NOTES")) "NOTES2" None] [])
       [DidNormalizePath "NOTES" 64 kDIErrNone "NOTES";
        DidConfirmOverwrite (exampleFile "NOTES" false false 0 (-1))
          (mkConfirmOverwrite false true false false "NOTES2");
        DidNormalizePath "NOTES2" 64 kDIErrNone "NOTES2"]
       eq_refl) eq_refl).
Defined.

(** ** Opening an archive *)

Lemma FSFormat_eqb_eq (a b : FSFormat) : FSFormat_eqb a b = true <-> a = b.
Proof. destruct a, b; simpl; split; intros H; try reflexivity; discriminate H. Qed.

Lemma SectorOrder_eqb_eq (a b : SectorOrder) : SectorOrder_eqb a b = true <-> a = b.
Proof.
  destruct a as [|m], b as [|n]; simpl; split; intros H;
    try reflexivity; try discriminate H.
  - apply Z.eqb_eq in H. subst. reflexivity.
  - injection H as ->. apply Z.eqb_refl.
Qed.

Lemma anyReadWriteSupported_In (pSubVol : list bool) :
  anyReadWriteSupported pSubVol = true <-> In true pSubVol.
Proof.
  induction pSubVol as [|rw rest IH]; simpl.
  - split; [discriminate | contradiction].
  - destruct rw.
    + split; [left; reflexivity | reflexivity].
    + rewrite IH. split; [right; assumption | intros [H|H]; [discriminate H | exact H]].
Qed.

Lemma wchar_is (c : ascii) (n : N) :
  Z.of_N (N_of_ascii c) = Z.of_N n -> c = ascii_of_N n.
Proof.
  intros H. apply N2Z.inj in H. rewrite <- H. symmetry. apply ascii_N_embedding.
Qed.

(** The names [Open] takes for a volume are the roots of the drives. *)
Lemma isVolumeName_root (filename : string) :
  noNUL filename ->
  (isVolumeName filename = true <->
   exists c : ascii,
     (65 <= N_of_ascii c <= 90)%N
     /\ filename = String c (String ":" (String "\" EmptyString))).
Proof.
  intros Hnul. unfold isVolumeName, wcharAt. split.
  - intros H.
    repeat (apply andb_true_iff in H; destruct H as [H ?]).
    destruct filename as [|c0 [|c1 [|c2 [|c3 rest]]]]; cbn [String.get] in *;
      try (cbn in *; discriminate).
    + exists c0. split; [lia|].
      match goal with H1 : (_ =? 58) = true |- _ =>
        apply Z.eqb_eq in H1; apply (wchar_is _ 58) in H1; rewrite H1 end.
      match goal with H1 : (_ =? 92) = true |- _ =>
        apply Z.eqb_eq in H1; apply (wchar_is _ 92) in H1; rewrite H1 end.
      reflexivity.
    + exfalso.
      match goal with H1 : (_ =? 0) = true |- _ =>
        apply Z.eqb_eq in H1; apply (wchar_is _ 0) in H1 end.
      simpl in Hnul. destruct Hnul as [_ [_ [_ [Hc3 _]]]]. apply Hc3. assumption.
  - intros [c [Hc ->]]. cbn.
    repeat (apply andb_true_iff; split); try reflexivity; lia.
Qed.

Section OpenFacts.

Variable W : Type.
Variable PhysicalFormat : Type.
Variable OpenImage : string -> bool -> W -> DIError * W.
Variable AnalyzeImage : W -> DIError * W.
Variable ImageFormatDialog : W -> ImageFormat * W.
Variable GetSectorOrder : W -> SectorOrder.
Variable GetImageFSFormat : W -> FSFormat.
Variable GetPhysicalFormat : W -> PhysicalFormat.
Variable OverrideFormat : PhysicalFormat -> FSFormat -> SectorOrder -> W -> DIError * W.
Variable OpenAppropriateDiskFS : option bool -> W -> bool * W.
Variable SetScanForSubVolumes : W -> W.
Variable Initialize : W -> DIError * W.
Variable contentsOf : W -> DiskFS.
Variable GetReadWriteSupported : W -> bool.
Variable subVolumesReadWriteSupported : W -> list bool.
Variable GetFSDamaged : W -> bool.
Variable GetReadOnly : W -> bool.
Variable DeleteDiskFS : W -> W.
Variable SetParameter : DiskFSParameter -> bool -> W -> W.
Variable DIStrError : DIError -> string.
Variable kDIErrAccessDenied : DIError.
Variable kDIErrFileArchive : DIError.
Variable kDIErrCancelled : DIError.
Variable kPrQueryImageFormat : bool.
Variable kPrProDOSAllowLower : bool.
Variable kPrProDOSUseSparse : bool.
Variable kDateNone : Z.
Variable wantCoerceDOSFilenames : bool.
Variable InjectLowercase : string -> string.
Variable UsesDOSFileStructure : FSFormat -> bool.
Variable newDiskEntry : A2File -> DiskEntry.

Local Abbreviation Open' :=
  (Open OpenImage AnalyzeImage ImageFormatDialog GetSectorOrder GetImageFSFormat
     GetPhysicalFormat OverrideFormat OpenAppropriateDiskFS SetScanForSubVolumes Initialize
     contentsOf GetReadWriteSupported subVolumesReadWriteSupported GetFSDamaged GetReadOnly
     DeleteDiskFS SetParameter DIStrError kDIErrAccessDenied kDIErrFileArchive
     kDIErrCancelled kPrQueryImageFormat kPrProDOSAllowLower kPrProDOSUseSparse kDateNone
     wantCoerceDOSFilenames InjectLowercase UsesDOSFileStructure newDiskEntry).

Local Arguments LoadContents : simpl never.
Local Arguments isVolumeName : simpl never.
Local Arguments String.append : simpl nomatch.

(** Case analysis on the next answer, or the next test, that the run [H]
    depends on. *)
Ltac archive_case H :=
  match type of H with
  | context [OpenImage ?f ?r ?w] => destruct (OpenImage f r w) as [? ?] eqn:?
  | context [AnalyzeImage ?w] => destruct (AnalyzeImage w) as [? ?] eqn:?
  | context [ImageFormatDialog ?w] => destruct (ImageFormatDialog w) as [? ?] eqn:?
  | context [OverrideFormat ?p ?f ?o ?w] => destruct (OverrideFormat p f o w) as [? ?] eqn:?
  | context [OpenAppropriateDiskFS ?a ?w] =>
      destruct (OpenAppropriateDiskFS a w) as [? ?] eqn:?
  | context [Initialize ?w] => destruct (Initialize w) as [? ?] eqn:?
  | context [if ?b then _ else _] => destruct b eqn:?
  end.

Ltac archive_cases H :=
  unfold Open, Open_scan, bailOpen, PreferencesChanged, deletePrimaryDiskFS,
    doLoadContents, doOpenAppropriateDiskFS, setArchivePathName, setIsReadOnly, look, ask,
    toWorld, onWorld, setWorld, andThen, done, isNone in H;
  repeat (cbn in H; archive_case H); cbn in H.

(** The call at hand is one of a list of calls that is known. *)
Ltac find_archive_call := cbn; solve [repeat first [left; reflexivity | right]].

(** Which call of a known list the call of [H] is. *)
Ltac which_archive_call H :=
  cbn in H;
  repeat match type of H with
         | _ \/ _ => destruct H as [H|H]
         | False => contradiction
         end;
  try discriminate H.

(** Case analysis on a call that is said to be in the list of calls [H]. *)
Ltac in_archive_calls H :=
  cbn in H;
  repeat match type of H with
         | _ \/ _ => destruct H as [H|H]
         | False => contradiction
         | In _ (_ ++ _) => apply in_app_or in H
         | _ = _ => first [discriminate H | injection H as ?; subst | injection H as ? ?; subst
                          | injection H as ? ? ?; subst]
         end.

(** X18.  The result of [Open] and the message it leaves agree, as the
    assertions at its end say.  [Open] always returns, never with
    [kResultUnknown]; there is a message exactly with [kResultFailure]; after
    a failure [fpPrimaryDiskFS] is [NULL], and the object made by
    [OpenAppropriateDiskFS] is deleted in no other case, so that a scan the
    user cancels leaves it in place; the path name of the archive is set
    exactly on success, when there is a [DiskFS]. *)
Theorem Open_result_and_message :
  forall (filename : string) (readOnly : bool) (s : ArchiveState W),
  exists (result : OpenResult) (errMsg : string) (s' : ArchiveState W)
         (calls : list ArchiveCall),
    Open' filename readOnly s = Some ((result, errMsg), s', calls)
    /\ result <> kResultUnknown
    /\ (result = kResultFailure <-> errMsg <> EmptyString)
    /\ (result = kResultFailure -> fpPrimaryDiskFS s' = false)
    /\ (In DidDeleteDiskFS calls -> result = kResultFailure)
    /\ (result = kResultCancel ->
        forall dierr, In (DidInitialize dierr) calls -> fpPrimaryDiskFS s' = true)
    /\ (result = kResultSuccess ->
        fpPrimaryDiskFS s' = true /\ fPathName s' = Some filename)
    /\ (result <> kResultSuccess -> fPathName s' = fPathName s).
Proof.
  intros filename readOnly s.
  destruct (Open' filename readOnly s) as [[[[result errMsg] s'] calls]|] eqn:Hrun.
  - exists result, errMsg, s', calls. split; [reflexivity|].
    archive_cases Hrun.
    all: injection Hrun as <- <- <- <-; cbn.
    all: repeat split; intros; try reflexivity; try discriminate; try congruence.
    all: try (match goal with
              | Hb : negb ?b = false |- ?b = true =>
                  destruct b; [reflexivity | discriminate Hb]
              end).
    all: match goal with
         | H : _ \/ _ |- _ => in_archive_calls H
         | H : In _ _ |- _ => in_archive_calls H
         end.
  - exfalso. archive_cases Hrun. all: discriminate Hrun.
Qed.

(** When [Open] tries again. *)
Lemma Open_retry_condition (filename : string) (readOnly : bool) (dierr : DIError) :
  noNUL filename ->
  (DIError_eqb dierr kDIErrAccessDenied && negb readOnly && negb (isVolumeName filename)
   = true
   <-> (dierr = kDIErrAccessDenied /\ readOnly = false
        /\ ~ (exists c : ascii,
                 (65 <= N_of_ascii c <= 90)%N
                 /\ filename = String c (String ":" (String "\" EmptyString))))).
Proof.
  intros Hnul.
  rewrite !andb_true_iff, !negb_true_iff, DIError_eqb_eq.
  rewrite <- (@isVolumeName_root filename Hnul).
  destruct (isVolumeName filename); intuition congruence.
Qed.

(** X19.  [Open] opens the image once as it was asked to, and a second
    time exactly when the first answer was "access denied" to an open for
    writing of something other than the root of a drive (a capital letter, a
    colon and a backslash); the second open is read-only, and there is no
    third. *)
Theorem Open_retries_read_only :
  forall (filename : string) (readOnly : bool) (s : ArchiveState W)
         (result : OpenResult) (errMsg : string) (s' : ArchiveState W)
         (calls : list ArchiveCall),
    noNUL filename ->
    Open' filename readOnly s = Some ((result, errMsg), s', calls) ->
    exists (e1 : DIError) (rest : list ArchiveCall),
      calls = DidOpenImage filename readOnly e1 :: rest
      /\ ((e1 = kDIErrAccessDenied /\ readOnly = false
           /\ ~ (exists c : ascii,
                    (65 <= N_of_ascii c <= 90)%N
                    /\ filename = String c (String ":" (String "\" EmptyString)))) ->
          exists (e2 : DIError) (rest2 : list ArchiveCall),
            rest = DidOpenImage filename true e2 :: rest2
            /\ forall f r e, ~ In (DidOpenImage f r e) rest2)
      /\ (~ (e1 = kDIErrAccessDenied /\ readOnly = false
             /\ ~ (exists c : ascii,
                      (65 <= N_of_ascii c <= 90)%N
                      /\ filename = String c (String ":" (String "\" EmptyString)))) ->
          forall f r e, ~ In (DidOpenImage f r e) rest).
Proof.
  intros filename readOnly s result errMsg s' calls Hnul Hrun.
  archive_cases Hrun.
  all: injection Hrun as <- <- <- <-.
  all: eexists _, _; split; [reflexivity|].
  all: match goal with
       | Hb : _ && negb (isVolumeName _) = true |- _ =>
           split; [intros _ | intros Hc; apply (@Open_retry_condition _ _ _ Hnul) in Hb;
                              contradiction]
       | Hb : _ && negb (isVolumeName _) = false |- _ =>
           split; [intros Hc; apply (@Open_retry_condition _ _ _ Hnul) in Hc; congruence
                  | intros _]
       end.
  all: try (eexists _, _; split; [reflexivity|]).
  all: intros f r e Hin; in_archive_calls Hin.
Qed.

(** X20.  When an archive is writable after [Open].  After a successful
    [Open], [fIsReadOnly] is clear exactly when the volume is not damaged,
    the image does not say it is read-only, and either the filesystem
    supports writing, the open was asked for writing and the first
    [OpenImage] succeeded, or the filesystem does not support writing but
    that of a sub-volume of the first level does: in this last case the flag
    is clear also when the open was asked to be read-only. *)
Theorem Open_writable :
  forall (filename : string) (readOnly : bool) (s : ArchiveState W)
         (errMsg : string) (s' : ArchiveState W) (calls : list ArchiveCall),
    kDIErrAccessDenied <> kDIErrNone ->
    Open' filename readOnly s = Some ((kResultSuccess, errMsg), s', calls) ->
    (fIsReadOnly s' = false <->
     In (AskedFSDamaged false) calls
     /\ In (AskedReadOnly false) calls
     /\ ((In (AskedReadWriteSupported true) calls
          /\ readOnly = false
          /\ In (DidOpenImage filename false kDIErrNone) calls)
         \/ (In (AskedReadWriteSupported false) calls
             /\ exists answers : list bool,
                  In (AskedSubVolumes answers) calls /\ In true answers))).
Proof.
  intros filename readOnly s errMsg s' calls Hdenied Hrun.
  archive_cases Hrun.
  all: try discriminate Hrun.
  all: injection Hrun as <- <- <-; cbn [fIsReadOnly].
  all: repeat match goal with
              | H : negb _ = true |- _ => apply negb_true_iff in H
              | H : negb _ = false |- _ => apply negb_false_iff in H
              | H : _ && _ = true |- _ => apply andb_true_iff in H; destruct H as [? H]
              end.
  all: repeat match goal with
              | H : DIError_eqb ?d _ = true |- _ => apply DIError_eqb_eq in H; subst d
              | H : GetReadWriteSupported _ = _ |- _ => rewrite H; clear H
              end.
  all: split;
    [ intros Hro;
      first [ discriminate Hro
            | try subst readOnly;
              (split; [find_archive_call | split; [find_archive_call|]]);
              first [ left; split; [find_archive_call | split; [reflexivity|]];
                      find_archive_call
                    | right; split; [find_archive_call|];
                      eexists; split; [find_archive_call|];
                      apply anyReadWriteSupported_In; assumption ] ]
    | intros [Ha [Hb [[Hc1 [Hc2 Hc3]]|[Hc1 [answers [Hc2 Hc3]]]]]];
      try reflexivity; try assumption; exfalso;
      which_archive_call Ha; which_archive_call Hb; which_archive_call Hc1;
      solve [ which_archive_call Hc3; injection Hc3 as ? ?; congruence
            | which_archive_call Hc2; injection Hc2 as <-;
              apply anyReadWriteSupported_In in Hc3; congruence ] ].
Qed.

End OpenFacts.

(** ** Creating an archive *)

Section NewFacts.

Variable W : Type.
Variable OpenAppropriateDiskFS : option bool -> W -> bool * W.
Variable Initialize : W -> DIError * W.
Variable contentsOf : W -> DiskFS.
Variable SetParameter : DiskFSParameter -> bool -> W -> W.
Variable CreateImageBlocks : string -> SectorOrder -> Z -> bool -> W -> DIError * W.
Variable CreateImageTracks : string -> SectorOrder -> Z -> Z -> bool -> W -> DIError * W.
Variable SetDOSVolumeNum : Z -> W -> W.
Variable FormatImage : FSFormat -> string -> W -> DIError * W.
Variable DIStrError : DIError -> string.
Variable kPrProDOSAllowLower : bool.
Variable kPrProDOSUseSparse : bool.
Variable kMinTracks : Z.
Variable kMaxTracks : Z.
Variable MakeUpper : string -> string.
Variable IsWin9x : bool.
Variable kDateNone : Z.
Variable wantCoerceDOSFilenames : bool.
Variable InjectLowercase : string -> string.
Variable UsesDOSFileStructure : FSFormat -> bool.
Variable newDiskEntry : A2File -> DiskEntry.

Local Abbreviation New' :=
  (New OpenAppropriateDiskFS Initialize contentsOf SetParameter CreateImageBlocks
     CreateImageTracks SetDOSVolumeNum FormatImage DIStrError kPrProDOSAllowLower
     kPrProDOSUseSparse kMinTracks kMaxTracks MakeUpper IsWin9x kDateNone
     wantCoerceDOSFilenames InjectLowercase UsesDOSFileStructure newDiskEntry).

Local Arguments LoadContents : simpl never.
Local Arguments String.append : simpl nomatch.

Ltac new_case H :=
  match type of H with
  | context [OpenAppropriateDiskFS ?a ?w] =>
      destruct (OpenAppropriateDiskFS a w) as [? ?] eqn:?
  | context [Initialize ?w] => destruct (Initialize w) as [? ?] eqn:?
  | context [CreateImageBlocks ?f ?o ?n ?k ?w] =>
      destruct (CreateImageBlocks f o n k w) as [? ?] eqn:?
  | context [CreateImageTracks ?f ?o ?n ?m ?k ?w] =>
      destruct (CreateImageTracks f o n m k w) as [? ?] eqn:?
  | context [FormatImage ?f ?v ?w] => destruct (FormatImage f v w) as [? ?] eqn:?
  | context [if ?b then _ else _] => destruct b eqn:?
  end.

Ltac new_cases H :=
  unfold New, newGeometry, New_skip_format, PreferencesChanged, doLoadContents,
    doOpenAppropriateDiskFS, setArchivePathName, toWorld, onWorld, setWorld, andThen, done,
    stuck, isNone in H;
  match type of H with
  | context [base_format ?p] => destruct (base_format p) eqn:?
  end;
  repeat (cbn in H; new_case H); cbn in H.

Ltac find_new_call := cbn; solve [repeat first [left; reflexivity | right]].

Ltac which_new_call H :=
  cbn in H;
  repeat match type of H with
         | _ \/ _ => destruct H as [H|H]
         | False => contradiction
         end;
  try discriminate H.

(** X21.  [New] checks the request before it touches anything.  A request
    for a format it does not create, or for a DOS 3.2 or 3.3 image whose
    track count is out of bounds or whose sector count is not 13 (DOS 3.2),
    16 or 32 (DOS 3.3), is answered with a message, with no call and no
    change.  Any other request for a DOS image makes [New] return, as does a
    request for blocks with a positive count; its first call is then the one
    [CreateImage], by blocks or by the tracks and sectors that were checked,
    for the file and the sector order asked for, with [skipFormat] set
    unless [IsWin9x]; and an image that could not be created is the end of
    it. *)
Theorem New_validates_before_creating :
  forall (fileName : string) (pOptions : NewOptions) (s : ArchiveState W),
    let tracksFit := kMinTracks <= dos_numTracks pOptions <= kMaxTracks in
    let refused :=
      match base_format pOptions with
      | kFormatDOS32 => ~ (tracksFit /\ dos_numSectors pOptions = 13)
      | kFormatDOS33 =>
          ~ (tracksFit /\ (dos_numSectors pOptions = 16 \/ dos_numSectors pOptions = 32))
      | kFormatUnknown | kFormatProDOS | kFormatPascal | kFormatMacHFS => False
      | _ => True
      end in
    let numBlocks :=
      match base_format pOptions with
      | kFormatUnknown => blank_numBlocks pOptions
      | kFormatProDOS => prodos_numBlocks pOptions
      | kFormatPascal => pascalfs_numBlocks pOptions
      | kFormatMacHFS => hfs_numBlocks pOptions
      | _ => -1
      end in
    (refused ->
     exists retmsg : string,
       New' fileName pOptions s = Some (retmsg, s, []) /\ retmsg <> EmptyString)
    /\ (~ refused ->
        base_format pOptions = kFormatDOS32 \/ base_format pOptions = kFormatDOS33
        \/ 0 < numBlocks ->
        exists (retmsg : string) (s' : ArchiveState W) (dierr : DIError)
               (rest : list ArchiveCall),
          New' fileName pOptions s
          = Some (retmsg, s',
                  (if 0 <? numBlocks
                   then DidCreateImageBlocks fileName (base_sectorOrder pOptions) numBlocks
                          (negb IsWin9x) dierr
                   else DidCreateImageTracks fileName (base_sectorOrder pOptions)
                          (dos_numTracks pOptions) (dos_numSectors pOptions)
                          (negb IsWin9x) dierr)
                  :: rest)
          /\ (dierr <> kDIErrNone ->
              rest = [] /\ retmsg <> EmptyString /\ fPathName s' = fPathName s)
          /\ (forall c, In c rest ->
                        match c with
                        | DidCreateImageBlocks _ _ _ _ _
                        | DidCreateImageTracks _ _ _ _ _ _ => False
                        | _ => True
                        end)).
Proof.
  intros fileName pOptions s tracksFit refused numBlocks.
  subst tracksFit refused numBlocks.
  destruct (New' fileName pOptions s) as [[[retmsg s'] calls]|] eqn:Hrun;
    new_cases Hrun.
  all: try discriminate Hrun.
  all: try (injection Hrun as <- <- <-).
  all: repeat match goal with
              | H : _ = true |- _ =>
                  progress rewrite ?orb_true_iff, ?andb_true_iff, ?negb_true_iff,
                    ?negb_false_iff, ?Z.ltb_lt, ?Z.ltb_ge, ?Z.eqb_eq, ?Z.eqb_neq,
                    ?DIError_eqb_eq in H
              | H : _ = false |- _ =>
                  progress rewrite ?orb_false_iff, ?andb_false_iff, ?negb_true_iff,
                    ?negb_false_iff, ?Z.ltb_lt, ?Z.ltb_ge, ?Z.eqb_eq, ?Z.eqb_neq in H
              end.
  all: split; [intros Hrefused | intros Hnot Hor].
  all: try contradiction.
  all: try (exfalso; apply Hnot; exact I).
  all: try (exfalso; apply Hrefused; lia).
  all: try (exfalso; apply Hnot; lia).
  all: try (exfalso; destruct Hor as [Hor|[Hor|Hor]]; [discriminate Hor ..| lia]).
  all: try (eexists; split; [reflexivity | discriminate]).
  all: eexists _, _, _, _; (split; [reflexivity|]).
  all: split; [intros Hne;
               first [ congruence
                     | split; [reflexivity | split; [discriminate | reflexivity]] ]
              | intros c Hin; cbn in Hin;
                repeat (destruct Hin as [<-|Hin]; [exact I|]); contradiction].
Qed.

(** X22.  What [New] formats.  The path name of the archive is set exactly
    when [New] returns no message, and after a message no parameter of a
    [DiskFS] was set.  A blank image (format unknown) is created and nothing
    else: it is not formatted, no [DiskFS] is made for it and no entry is
    loaded.  Any other image is formatted once at most, in the format asked
    for and under the volume name of the request: in capitals for ProDOS
    unless the preference allows lower case, "DOS" for a DOS image with DOS
    tracks and the empty name without; the DOS volume number is set for DOS
    images only; and when there is no message, it was formatted, a [DiskFS]
    was made, scanned and loaded, and the two ProDOS preferences were handed
    to it. *)
Theorem New_formats_what_it_creates :
  forall (fileName : string) (pOptions : NewOptions) (s : ArchiveState W)
         (retmsg : string) (s' : ArchiveState W) (calls : list ArchiveCall),
    New' fileName pOptions s = Some (retmsg, s', calls) ->
    let volName :=
      match base_format pOptions with
      | kFormatProDOS =>
          if kPrProDOSAllowLower then prodos_volName pOptions
          else MakeUpper (prodos_volName pOptions)
      | kFormatPascal => pascalfs_volName pOptions
      | kFormatMacHFS => hfs_volName pOptions
      | kFormatDOS32 | kFormatDOS33 =>
          if dos_allocDOSTracks pOptions then "DOS" else EmptyString
      | _ => EmptyString
      end in
    (retmsg = EmptyString -> fPathName s' = Some fileName)
    /\ (retmsg <> EmptyString ->
        fPathName s' = fPathName s
        /\ forall parm val, ~ In (DidSetParameter parm val) calls)
    /\ (base_format pOptions = kFormatUnknown ->
        fpPrimaryDiskFS s' = fpPrimaryDiskFS s
        /\ ar_entries s' = ar_entries s
        /\ forall c, In c calls ->
                     match c with
                     | DidCreateImageBlocks _ _ _ _ _ | DidSetParameter _ _ => True
                     | _ => False
                     end)
    /\ (forall format v dierr,
           In (DidFormatImage format v dierr) calls ->
           format = base_format pOptions /\ v = volName)
    /\ (forall n,
           In (DidSetDOSVolumeNum n) calls ->
           n = dos_volumeNum pOptions
           /\ (base_format pOptions = kFormatDOS33 \/ base_format pOptions = kFormatDOS32))
    /\ (retmsg = EmptyString -> base_format pOptions <> kFormatUnknown ->
        In (DidFormatImage (base_format pOptions) volName kDIErrNone) calls
        /\ In (DidOpenAppropriateDiskFS (Some false) true) calls
        /\ In (DidInitialize kDIErrNone) calls
        /\ In DidLoadContents calls
        /\ fpPrimaryDiskFS s' = true
        /\ In (DidSetParameter kParmProDOS_AllowLowerCase kPrProDOSAllowLower) calls
        /\ In (DidSetParameter kParmProDOS_AllocSparse kPrProDOSUseSparse) calls).
Proof.
  intros fileName pOptions s retmsg s' calls Hrun volName. subst volName.
  new_cases Hrun.
  all: try discriminate Hrun.
  all: injection Hrun as <- <- <-.
  all: repeat match goal with
              | H : negb _ = true |- _ => apply negb_true_iff in H
              | H : negb _ = false |- _ => apply negb_false_iff in H
              end.
  all: repeat match goal with
              | H : DIError_eqb ?d _ = true |- _ => apply DIError_eqb_eq in H; subst d
              end.
  all: cbn [fPathName fpPrimaryDiskFS ar_entries].
  all: repeat match goal with
              | |- _ /\ _ => split
              | |- _ -> _ => intro
              | |- forall _, _ => intro
              end.
  all: try reflexivity; try discriminate; try congruence.
  all: try find_new_call.
  all: match goal with
       | |- ~ _ => intro Hin; which_new_call Hin
       | Hin : In ?c _ |- match ?c with DidOpenImage _ _ _ => _ | _ => _ end =>
           cbn in Hin; repeat (destruct Hin as [<-|Hin]; [exact I|]); contradiction
       | Hin : In _ _ |- _ =>
           which_new_call Hin; injection Hin; intros; subst;
           first [reflexivity | left; reflexivity | right; reflexivity]
       | H : kPrProDOSAllowLower = _ |- In _ _ => rewrite H; find_new_call
       end.
Qed.

End NewFacts.

(** "DISK.PO" is denied to an open for writing: it is opened a second
    time, read-only. *)
Lemma Open_retries_read_only_witness :
  match exampleOpenArchive true true [] "DISK.PO" false freshArchive with
  | Some (_, _, calls) =>
      exists (e2 : DIError) (rest2 : list ArchiveCall),
        calls = DidOpenImage "DISK.PO" false exampleAccessDenied
                :: DidOpenImage "DISK.PO" true e2 :: rest2
        /\ forall f r e, ~ In (DidOpenImage f r e) rest2
  | None => False
  end.
Proof.
  destruct (@Open_retries_read_only unit unit (exampleOpenImage true) exampleSucceeds
              (fun w => (mkImageFormat true (kSectorOrderOther 1) kFormatProDOS, tt))
              (fun _ => kSectorOrderOther 1) (fun _ => kFormatProDOS) (fun _ => tt)
              (fun _ _ _ => exampleSucceeds) (fun _ w => (true, w)) (fun w => w)
              exampleSucceeds (fun _ => exampleVolume) (fun _ => true) (fun _ => [])
              (fun _ => false) (fun _ => false) (fun w => w) (fun _ _ w => w)
              exampleDIStrError exampleAccessDenied (kDIErrOther (-14)) (kDIErrOther (-15))
              false true true 1 false (fun name => name) exampleUsesDOS exampleNewDiskEntry
              "DISK.PO" false freshArchive _ _ _ _
              ltac:(repeat split; discriminate) eq_refl)
    as [e1 [rest [Hcalls [Hretry _]]]].
  injection Hcalls as <- <-.
  destruct Hretry as [e2 [rest2 [Hrest Hno]]].
  { split; [reflexivity | split; [reflexivity|]].
    intros [c [_ Hc]]. discriminate Hc. }
  cbn. exists e2, rest2. split; [f_equal; exact Hrest | exact Hno].
Defined.

(** The filesystem of "DISK.PO" does not support writing, that of its
    second sub-volume does: the archive is writable, though it was opened
    read-only. *)
Lemma Open_writable_witness :
  match exampleOpenArchive false false [false; true] "DISK.PO" true freshArchive with
  | Some (_, s', _) => fIsReadOnly s' = false
  | None => False
  end.
Proof.
  apply (@Open_writable unit unit (exampleOpenImage false) exampleSucceeds
           (fun w => (mkImageFormat true (kSectorOrderOther 1) kFormatProDOS, tt))
           (fun _ => kSectorOrderOther 1) (fun _ => kFormatProDOS) (fun _ => tt)
           (fun _ _ _ => exampleSucceeds) (fun _ w => (true, w)) (fun w => w)
           exampleSucceeds (fun _ => exampleVolume) (fun _ => false)
           (fun _ => [false; true])
           (fun _ => false) (fun _ => false) (fun w => w) (fun _ _ w => w)
           exampleDIStrError exampleAccessDenied (kDIErrOther (-14)) (kDIErrOther (-15))
           false true true 1 false (fun name => name) exampleUsesDOS exampleNewDiskEntry
           "DISK.PO" true freshArchive _ _ _
           ltac:(discriminate) eq_refl).
  split; [cbn; tauto | split; [cbn; tauto|]].
  right. split; [cbn; tauto|].
  exists [false; true]. split; [cbn; tauto | right; left; reflexivity].
Defined.

(** A DOS 3.3 image of 13 sectors is refused before anything is created. *)
Lemma New_validates_before_creating_witness :
  exists retmsg : string,
    exampleNewArchive "NEW.DO" (exampleDOS33 35 13) freshArchive
    = Some (retmsg, freshArchive, [])
    /\ retmsg <> EmptyString.
Proof.
  apply (proj1 (@New_validates_before_creating unit (fun _ w => (true, w)) exampleSucceeds
                  (fun _ => exampleVolume) (fun _ _ w => w)
                  (fun _ _ _ _ => exampleSucceeds) (fun _ _ _ _ _ => exampleSucceeds)
                  (fun _ w => w) (fun _ _ => exampleSucceeds) exampleDIStrError true true
                  17 50 (fun name => name) false 1 false (fun name => name) exampleUsesDOS
                  exampleNewDiskEntry "NEW.DO" (exampleDOS33 35 13) freshArchive)).
  cbn. intros [_ [H|H]]; discriminate H.
Defined.

(** A ProDOS image named "Work" is formatted as "Work" when lower case is
    allowed, and the archive has its path name. *)
Lemma New_formats_what_it_creates_witness :
  match exampleNewArchive "NEW.PO" (examplePRODOS "Work" 280) freshArchive with
  | Some (_, s', calls) =>
      fPathName s' = Some "NEW.PO"
      /\ In (DidFormatImage kFormatProDOS "Work" kDIErrNone) calls
  | None => False
  end.
Proof.
  pose proof (@New_formats_what_it_creates unit (fun _ w => (true, w)) exampleSucceeds
                (fun _ => exampleVolume) (fun _ _ w => w)
                (fun _ _ _ _ => exampleSucceeds) (fun _ _ _ _ _ => exampleSucceeds)
                (fun _ w => w) (fun _ _ => exampleSucceeds) exampleDIStrError true true
                17 50 (fun name => name) false 1 false (fun name => name) exampleUsesDOS
                exampleNewDiskEntry "NEW.PO" (examplePRODOS "Work" 280) freshArchive
                _ _ _ eq_refl) as [Hname [_ [_ [_ [_ Hformat]]]]].
  split.
  - exact (Hname eq_refl).
  - exact (proj1 (Hformat eq_refl ltac:(discriminate))).
Defined.

(** ** Renaming *)

Section RenameFacts.

Variable FS : Type.
Variable RenameFile : A2File -> string -> FS -> DIError * FS.
Variable GetReadWriteSupported : A2File -> FS -> bool.
Variable GetFSDamaged : A2File -> FS -> bool.
Variable InternalReload : FS -> Z * FS.
Variable DIStrError : DIError -> string.

Local Abbreviation renameLoop' :=
  (renameLoop RenameFile GetReadWriteSupported GetFSDamaged DIStrError).
Local Abbreviation RenameSelection' :=
  (RenameSelection RenameFile GetReadWriteSupported GetFSDamaged InternalReload DIStrError).

Local Arguments renameLoop : simpl never.
Local Arguments String.append : simpl never.

Lemma renameLoop_cons (pEntry : DiskEntry) (rest : list DiskEntry) :
  renameLoop' (pEntry :: rest)
  = andThen (SetRenameFields GetReadWriteSupported GetFSDamaged pEntry)
      (fun renameDlg =>
         match renameDlg with
         | None => done true
         | Some renameDlg =>
             match GetA2File pEntry with
             | None => stuck
             | Some pFile =>
                 andThen
                   (if IsVolumeDirectory pFile
                    then done (mkRenameAnswer ModalIgnore EmptyString)
                    else DoModal renameDlg)
                   (fun answer =>
                      match rn_result answer with
                      | ModalOK =>
                          andThen (doRenameFile RenameFile pFile (fNewName answer))
                            (fun dierr =>
                               if negb (isNone dierr) then
                                 andThen
                                   (ShowFailureMsg
                                      ("Unable to rename '" ++ GetEntryPathName pEntry
                                       ++ "' to '" ++ fNewName answer ++ "': "
                                       ++ DIStrError dierr ++ "."))
                                   (fun _ => done false)
                               else renameLoop' rest)
                      | ModalCancel => done true
                      | ModalIgnore => renameLoop' rest
                      end)
             end
         end).
Proof. reflexivity. Qed.

(** Case analysis on the next step of the run [H] of the loop. *)
Ltac rename_case H :=
  match type of H with
  | context [renameLoop ?a ?b ?c ?d ?l ?s] =>
      destruct (renameLoop a b c d l s) as [[[? ?] ?]|] eqn:?
  | context [RenameFile ?f ?n ?s] => destruct (RenameFile f n s) as [? ?] eqn:?
  | context [GetA2File ?e] => destruct (GetA2File e) eqn:?
  | context [rn_answers ?s] => destruct (rn_answers s) eqn:?
  | context [match rn_result ?a with _ => _ end] => destruct (rn_result a) eqn:?
  | context [if ?b then _ else _] => destruct b eqn:?
  end.

Ltac rename_cases H :=
  rewrite renameLoop_cons in H;
  unfold SetRenameFields, DoModal, doRenameFile, ShowFailureMsg, askDriver, andThen, done,
    stuck, isNone in H;
  repeat (cbn in H; rename_case H); cbn in H;
  try discriminate H.

(** Which call of a list the call of [H] is. *)
Ltac split_in H :=
  cbn in H;
  repeat match type of H with
         | _ \/ _ => destruct H as [H|H]
         | False => contradiction
         end.

(** What the loop of [RenameSelection] does, call by call. *)
Lemma renameLoop_calls (pSelSet : list DiskEntry) :
  forall (s : RenameState FS) (reload : bool) (s' : RenameState FS)
         (calls : list RenameCall),
    renameLoop' pSelSet s = Some (reload, s', calls) ->
    (forall dlg answer,
        In (DidRenameDialog dlg answer) calls ->
        fCanRenameFullPath dlg = false
        /\ fOldName dlg = GetEntryPathName (fpEntry dlg)
        /\ In (fpEntry dlg) pSelSet
        /\ exists pFile,
             GetA2File (fpEntry dlg) = Some pFile /\ IsVolumeDirectory pFile = false)
    /\ (forall pFile newName dierr,
           In (DidRenameFile pFile newName dierr) calls ->
           exists dlg answer,
             In (DidRenameDialog dlg answer) calls
             /\ GetA2File (fpEntry dlg) = Some pFile
             /\ rn_result answer = ModalOK
             /\ fNewName answer = newName)
    /\ (reload = false <->
        exists pFile newName dierr,
          dierr <> kDIErrNone /\ In (DidRenameFile pFile newName dierr) calls)
    /\ (reload = false ->
        exists before pFile newName dierr msg,
          calls = before ++ [DidRenameFile pFile newName dierr; DidShowFailureMsg msg])
    /\ (forall r, ~ In (DidInternalReload r) calls).
Proof.
  induction pSelSet as [|pEntry rest IH]; intros s reload s' calls Hrun.
  - injection Hrun as <- <- <-.
    repeat split; try (intros; contradiction); try discriminate.
    + intros [f [n [e [_ H]]]]. contradiction.
    + intros r H. contradiction.
  - rename_cases Hrun.
    all: injection Hrun as <- <- <-.
    all: try (match goal with
              | Hrec : renameLoop _ _ _ _ _ _ = Some _ |- _ =>
                  apply IH in Hrec;
                  destruct Hrec as [IHdlg [IHfile [IHreload [IHlast IHno]]]]
              end).
    all: split; [| split; [| split; [| split]]].
    all: match goal with
         | |- forall dlg answer, In (DidRenameDialog dlg answer) _ -> _ =>
             intros dlg answer Hin; split_in Hin;
             first [ discriminate Hin
                   | injection Hin as <- <-; cbn;
                     repeat split; try reflexivity;
                     [ left; reflexivity
                     | eexists; split; [eassumption | assumption] ]
                   | apply IHdlg in Hin; destruct Hin as [? [? [? ?]]];
                     repeat split; try assumption; right; assumption ]
         | |- forall pFile newName dierr, In (DidRenameFile pFile newName dierr) _ -> _ =>
             intros pFile newName dierr Hin; split_in Hin;
             first [ discriminate Hin
                   | injection Hin as <- <- <-;
                     eexists _, _; split; [left; reflexivity|]; cbn;
                     repeat split; assumption
                   | apply IHfile in Hin; destruct Hin as [dlg [answer [? ?]]];
                     exists dlg, answer; split; [|assumption];
                     cbn; repeat (try (left; assumption); right); assumption ]
         | |- forall r, ~ In (DidInternalReload r) _ =>
             intros ? Hin; split_in Hin;
             first [discriminate Hin | eapply IHno; eassumption]
         | _ => idtac
         end.
    all: try (match goal with
              | H : negb (DIError_eqb ?d kDIErrNone) = true |- _ =>
                  apply negb_true_iff in H;
                  assert (Hfailed : d <> kDIErrNone)
                    by (intros ->; rewrite DIError_eqb_refl in H; discriminate H)
              | H : negb (DIError_eqb ?d kDIErrNone) = false |- _ =>
                  apply negb_false_iff, DIError_eqb_eq in H
              end).
    all: match goal with
         | |- true = false <-> _ =>
             split; [discriminate|];
             intros [xf [xn [xe [Hne Hin]]]]; split_in Hin; discriminate Hin
         | |- true = false -> _ => discriminate
         | |- false = false <-> _ =>
             split; [intros _ | reflexivity];
             eexists _, _, _; split; [eassumption | cbn; right; left; reflexivity]
         | |- false = false -> _ =>
             intros _; eexists [_], _, _, _, _; reflexivity
         | |- ?b = false <-> _ =>
             split;
             [ intros Hb; apply IHreload in Hb; destruct Hb as [xf [xn [xe [Hne Hin]]]];
               exists xf, xn, xe; split; [assumption|];
               cbn; repeat (try (left; assumption); right); assumption
             | intros [xf [xn [xe [Hne Hin]]]]; split_in Hin;
               first [ discriminate Hin
                     | injection Hin as ? ? ?; congruence
                     | apply IHreload; exists xf, xn, xe; split; assumption ] ]
         | |- ?b = false -> _ =>
             intros Hb; destruct (IHlast Hb) as [before [xf [xn [xe [msg ->]]]]];
             first [ exists before, xf, xn, xe, msg; reflexivity
                   | match goal with
                     | |- context [?c1 :: ?c2 :: before ++ _] =>
                         exists (c1 :: c2 :: before), xf, xn, xe, msg; reflexivity
                     | |- context [?c1 :: before ++ _] =>
                         exists (c1 :: before), xf, xn, xe, msg; reflexivity
                     end ]
         end.
Qed.

(** The run of [RenameSelection] as the run of its loop and the reload. *)
Lemma RenameSelection_run (pSelSet : list DiskEntry) (s : RenameState FS) (retVal : bool)
    (s' : RenameState FS) (calls : list RenameCall) :
  RenameSelection' pSelSet s = Some (retVal, s', calls) ->
  (renameLoop' pSelSet s = Some (false, s', calls) /\ retVal = false)
  \/ (exists s1 calls1 r,
         renameLoop' pSelSet s = Some (true, s1, calls1)
         /\ calls = calls1 ++ [DidInternalReload r]
         /\ retVal = (r =? 0)).
Proof.
  unfold RenameSelection, andThen, doInternalReload, done. intros Hrun.
  destruct (renameLoop' pSelSet s) as [[[reload s1] calls1]|]; [|discriminate Hrun].
  destruct reload.
  - destruct (InternalReload (rn_pDiskFS s1)) as [r fs']. cbn in Hrun.
    injection Hrun as <- <- <-. right. exists s1, calls1, r.
    repeat split; reflexivity.
  - cbn in Hrun. injection Hrun as <- <- <-. left. rewrite app_nil_r.
    split; reflexivity.
Qed.

(** X23.  What [RenameSelection] renames.  Every dialog it shows is for an
    entry of the selection that is not the volume directory, shows the path
    of the entry as the old name, and does not allow the full path to be
    edited ([GetCapability] says no).  Every [RenameFile] it asks for is for
    the file of such an entry, never the volume directory, with the name the
    user left in the dialog of that entry on [IDOK]. *)
Theorem RenameSelection_renames_as_the_user_said :
  forall (pSelSet : list DiskEntry) (s : RenameState FS) (retVal : bool)
         (s' : RenameState FS) (calls : list RenameCall),
    RenameSelection' pSelSet s = Some (retVal, s', calls) ->
    (forall dlg answer,
        In (DidRenameDialog dlg answer) calls ->
        fCanRenameFullPath dlg = false
        /\ fOldName dlg = GetEntryPathName (fpEntry dlg)
        /\ In (fpEntry dlg) pSelSet
        /\ exists pFile,
             GetA2File (fpEntry dlg) = Some pFile /\ IsVolumeDirectory pFile = false)
    /\ (forall pFile newName dierr,
           In (DidRenameFile pFile newName dierr) calls ->
           IsVolumeDirectory pFile = false
           /\ exists dlg answer,
                In (DidRenameDialog dlg answer) calls
                /\ In (fpEntry dlg) pSelSet
                /\ GetA2File (fpEntry dlg) = Some pFile
                /\ rn_result answer = ModalOK
                /\ fNewName answer = newName).
Proof.
  intros pSelSet s retVal s' calls Hrun.
  assert (Hloop : exists reload s1 calls1 tail,
             renameLoop' pSelSet s = Some (reload, s1, calls1)
             /\ calls = calls1 ++ tail
             /\ forall c, In c tail -> exists r, c = DidInternalReload r).
  { destruct (RenameSelection_run _ _ Hrun)
      as [[Hloop _]|[s1 [calls1 [r [Hloop [-> _]]]]]].
    - exists false, s', calls, []. rewrite app_nil_r.
      repeat split; [exact Hloop | intros c Hc; contradiction].
    - exists true, s1, calls1, [DidInternalReload r].
      repeat split; [exact Hloop|].
      intros c [<-|Hc]; [exists r; reflexivity | contradiction]. }
  destruct Hloop as [reload [s1 [calls1 [tail [Hloop [-> Htail]]]]]].
  destruct (renameLoop_calls _ _ Hloop) as [Hdlg [Hfile _]].
  assert (Hdlg' : forall dlg answer,
             In (DidRenameDialog dlg answer) (calls1 ++ tail) ->
             In (DidRenameDialog dlg answer) calls1).
  { intros dlg answer Hin. apply in_app_or in Hin. destruct Hin as [Hin|Hin]; [exact Hin|].
    destruct (Htail _ Hin) as [r Hr]. discriminate Hr. }
  split.
  - intros dlg answer Hin. eapply Hdlg. apply Hdlg'. exact Hin.
  - intros pFile newName dierr Hin.
    assert (Hin1 : In (DidRenameFile pFile newName dierr) calls1).
    { apply in_app_or in Hin. destruct Hin as [Hin|Hin]; [exact Hin|].
      destruct (Htail _ Hin) as [r Hr]. discriminate Hr. }
    destruct (Hfile _ _ _ Hin1) as [dlg [answer [Hd [Hf [Hok Hname]]]]].
    destruct (Hdlg _ _ Hd) as [_ [_ [Hsel [pFile' [Hf' Hvol]]]]].
    assert (pFile' = pFile) by congruence. subst pFile'.
    split; [exact Hvol|].
    exists dlg, answer. repeat split; try assumption.
    apply in_or_app. left. exact Hd.
Qed.

(** X24.  What [RenameSelection] returns.  It returns [false] exactly when
    a [RenameFile] failed or the reload did.  After a [RenameFile] that
    failed nothing is reloaded: the failure and its message are the last
    calls.  In every other case, a rename that is refused because the
    filesystem does not support writing or is damaged and a cancel included,
    the reload is the last call, and the only reload. *)
Theorem RenameSelection_result :
  forall (pSelSet : list DiskEntry) (s : RenameState FS) (retVal : bool)
         (s' : RenameState FS) (calls : list RenameCall),
    RenameSelection' pSelSet s = Some (retVal, s', calls) ->
    let renameFailed :=
      exists pFile newName dierr,
        dierr <> kDIErrNone /\ In (DidRenameFile pFile newName dierr) calls in
    (retVal = false <->
     renameFailed \/ exists r, r <> 0 /\ In (DidInternalReload r) calls)
    /\ (renameFailed ->
        (forall r, ~ In (DidInternalReload r) calls)
        /\ exists before pFile newName dierr msg,
             calls = before ++ [DidRenameFile pFile newName dierr; DidShowFailureMsg msg])
    /\ (~ renameFailed ->
        exists before r,
          calls = before ++ [DidInternalReload r]
          /\ forall r', ~ In (DidInternalReload r') before).
Proof.
  intros pSelSet s retVal s' calls Hrun renameFailed. subst renameFailed.
  destruct (RenameSelection_run _ _ Hrun)
    as [[Hloop ->]|[s1 [calls1 [r [Hloop [-> ->]]]]]];
    destruct (renameLoop_calls _ _ Hloop) as [_ [_ [Hreload [Hlast Hno]]]].
  - assert (Hfailed : exists pFile newName dierr,
               dierr <> kDIErrNone /\ In (DidRenameFile pFile newName dierr) calls)
      by (apply Hreload; reflexivity).
    split; [|split].
    + split; [intros _; left; exact Hfailed | reflexivity].
    + intros _. split; [exact Hno | apply Hlast; reflexivity].
    + intros Hnot. contradiction.
  - assert (Hnone : ~ exists pFile newName dierr,
               dierr <> kDIErrNone
               /\ In (DidRenameFile pFile newName dierr) (calls1 ++ [DidInternalReload r])).
    { intros [xf [xn [xe [Hne Hin]]]]. apply in_app_or in Hin.
      destruct Hin as [Hin|[Hin|[]]]; [|discriminate Hin].
      assert (Hf : true = false) by (apply Hreload; exists xf, xn, xe; split; assumption).
      discriminate Hf. }
    split; [|split].
    + split.
      * intros Hr. right. exists r. split.
        -- apply Z.eqb_neq. exact Hr.
        -- apply in_or_app. right. left. reflexivity.
      * intros [Hfailed|[r' [Hne Hin]]]; [contradiction|].
        apply in_app_or in Hin. destruct Hin as [Hin|[Hin|[]]].
        -- exfalso. eapply Hno. exact Hin.
        -- injection Hin as ->. apply Z.eqb_neq. exact Hne.
    + intros Hfailed. contradiction.
    + intros _. exists calls1, r. split; [reflexivity | exact Hno].
Qed.

End RenameFacts.

(** The volume directory and "NOTES" are selected, and the user renames
    "NOTES" to "DRAFT": one dialog, for "NOTES", and one [RenameFile]. *)
Lemma RenameSelection_renames_as_the_user_said_witness :
  match exampleRenameSelection
          [mkDiskEntry (Some (exampleFile "WORK" true false 512 (-1))) "WORK" None 58 0 0
             0xc3 0 0 kFormatProDOS true false kRecordKindVolumeDir 512 0 512 "ProDOS"
             false false;
           entryNamed "NOTES"]
          (mkRenameState ["WORK"; "NOTES"] [mkRenameAnswer ModalOK "DRAFT"]) with
  | Some (_, _, calls) =>
      exists pFile : A2File,
        In (DidRenameFile pFile "DRAFT" kDIErrNone) calls
        /\ IsVolumeDirectory pFile = false
  | None => False
  end.
Proof.
  exists (exampleFile "NOTES" false false 0 (-1)).
  assert (Hin : In (DidRenameFile (exampleFile "NOTES" false false 0 (-1)) "DRAFT"
                      kDIErrNone)
                  [DidRenameDialog
                     (mkRenameEntryDialog false "NOTES" 58 (entryNamed "NOTES"))
                     (mkRenameAnswer ModalOK "DRAFT");
                   DidRenameFile (exampleFile "NOTES" false false 0 (-1)) "DRAFT"
                     kDIErrNone;
                   DidInternalReload 0])
    by (right; left; reflexivity).
  split; [exact Hin|].
  exact (proj1 (proj2 (@RenameSelection_renames_as_the_user_said (list string)
                         exampleRenameFile (fun _ _ => true) (fun _ _ => false)
                         (fun fs => (0, fs)) exampleDIStrError
                         [mkDiskEntry (Some (exampleFile "WORK" true false 512 (-1)))
                            "WORK" None 58 0 0 0xc3 0 0 kFormatProDOS true false
                            kRecordKindVolumeDir 512 0 512 "ProDOS" false false;
                          entryNamed "NOTES"]
                         (mkRenameState ["WORK"; "NOTES"] [mkRenameAnswer ModalOK "DRAFT"])
                         _ _ _ eq_refl) _ _ _ Hin)).
Defined.

(** "NOTES" is renamed to "BAD", which the driver refuses:
    [RenameSelection] returns [false] and nothing is reloaded. *)
Lemma RenameSelection_result_witness :
  match exampleRenameSelection [entryNamed "NOTES"]
          (mkRenameState ["NOTES"] [mkRenameAnswer ModalOK "BAD"]) with
  | Some (retVal, _, calls) =>
      retVal = false /\ forall r, ~ In (DidInternalReload r) calls
  | None => False
  end.
Proof.
  pose proof (@RenameSelection_result (list string) exampleRenameFile (fun _ _ => true)
                (fun _ _ => false) (fun fs => (0, fs)) exampleDIStrError
                [entryNamed "NOTES"]
                (mkRenameState ["NOTES"] [mkRenameAnswer ModalOK "BAD"])
                _ _ _ eq_refl) as [Hret [Hfailed _]].
  assert (Hf : exists pFile newName dierr,
             dierr <> kDIErrNone
             /\ In (DidRenameFile pFile newName dierr)
                  [DidRenameDialog
                     (mkRenameEntryDialog false "NOTES" 58 (entryNamed "NOTES"))
                     (mkRenameAnswer ModalOK "BAD");
                   DidRenameFile (exampleFile "NOTES" false false 0 (-1)) "BAD"
                     (kDIErrOther (-20));
                   DidShowFailureMsg
                     "Unable to rename 'NOTES' to 'BAD': (unknown error)."]).
  { eexists _, _, _. split; [|right; left; reflexivity]. discriminate. }
  split.
  - apply Hret. left. exact Hf.
  - exact (proj1 (Hfailed Hf)).
Defined.

(** ** Transferring a selection *)

Lemma Replace_gone (chOld chNew : ascii) (s : string) :
  chOld <> chNew -> ~ In chOld (list_ascii_of_string (Replace chOld chNew s)).
Proof.
  intros Hne. induction s as [|c rest IH]; simpl.
  - intros H. exact H.
  - intros [H|H]; [|exact (IH H)].
    destruct (Ascii.eqb c chOld) eqn:E.
    + apply Hne. symmetry. exact H.
    + apply Ascii.eqb_neq in E. apply E. exact H.
Qed.

Lemma RecordKind_eqb_eq (a b : RecordKind) : RecordKind_eqb a b = true <-> a = b.
Proof. destruct a, b; simpl; split; intros H; try reflexivity; discriminate H. Qed.

Section TransferOutFacts.

Variable World : Type.
Variable A2FileDescr : Type.
Variable Open : A2File -> bool -> bool -> World -> DIError * option A2FileDescr * World.
Variable Read : A2FileDescr -> Z -> World -> DIError * list Z * World.
Variable Close : A2FileDescr -> World -> DIError * World.
Variable alloc : Z -> bool.
Variable DIStrError : DIError -> string.
Variable kDIErrCancelled : DIError.
Variable Target : Type.
Variable XferPrepare : Target -> Target.
Variable XferFile :
  FileDetails -> option (list Z) -> Z -> option (list Z) -> Z -> Target ->
  string * option (list Z) * option (list Z) * Target.
Variable XferAbort : Target -> Target.
Variable XferFinish : Target -> Target.
Variable CountMatchingPrefix : list DiskEntry -> string -> Z.
Variable GetEntryFSFormat : DiskEntry -> FSFormat.
Variable GetDisplayName : DiskEntry -> string.
Variable kDefaultStoredFssep : ascii.
Variable kAccessInvisible : Z.
Variable UNIXTimeToDateTime : Z -> Z.
Variable newFileDetails : FileDetails.
Variable uninitialised : Z.

Local Abbreviation extractFork' :=
  (extractFork Open Read Close alloc DIStrError kDIErrCancelled (Target := Target)
     GetEntryFSFormat kDefaultStoredFssep).
Local Abbreviation have_stuff2' :=
  (have_stuff2 (World := World) A2FileDescr XferFile GetDisplayName kDefaultStoredFssep
     UNIXTimeToDateTime).
Local Abbreviation xferEntry' :=
  (xferEntry Open Read Close alloc DIStrError kDIErrCancelled XferFile CountMatchingPrefix
     GetEntryFSFormat GetDisplayName kDefaultStoredFssep kAccessInvisible UNIXTimeToDateTime
     uninitialised).
Local Abbreviation xferLoop' :=
  (xferLoop Open Read Close alloc DIStrError kDIErrCancelled XferFile CountMatchingPrefix
     GetEntryFSFormat GetDisplayName kDefaultStoredFssep kAccessInvisible UNIXTimeToDateTime
     uninitialised).
Local Abbreviation XferSelection' :=
  (XferSelection Open Read Close alloc DIStrError kDIErrCancelled XferPrepare XferFile
     XferAbort XferFinish CountMatchingPrefix GetEntryFSFormat GetDisplayName
     kDefaultStoredFssep kAccessInvisible UNIXTimeToDateTime newFileDetails uninitialised).
Local Abbreviation fixedPathName' := (fixedPathName GetEntryFSFormat kDefaultStoredFssep).

(** What the calls of a step show: a progress dialog cancelled, a [Read]
    cancelled, a failure shown, a hand-over refused, a call that opens or
    closes the transfer. *)
Local Abbreviation pc calls := (existsb (@isProgressCancelled A2FileDescr) calls).
Local Abbreviation rc calls := (existsb (isReadCancelled kDIErrCancelled) calls).
Local Abbreviation fs calls := (existsb (@isFailureShown A2FileDescr) calls).
Local Abbreviation rf calls := (existsb (@isRefused A2FileDescr) calls).
Local Abbreviation br calls := (existsb (@isBracket A2FileDescr) calls).
Local Abbreviation ho calls := (existsb (@isHandOver A2FileDescr) calls).

(** A step after which the loop goes on; one that ends it with [retval]. *)
Local Abbreviation quiet calls :=
  (pc calls = false /\ rc calls = false /\ fs calls = false /\ rf calls = false).
Local Abbreviation ends retval calls :=
  (match retval with
   | kXferOK => False
   | kXferCancelled =>
       pc calls = true /\ rc calls = false /\ fs calls = false /\ rf calls = false
   | kXferFailed =>
       pc calls = false
       /\ ((rc calls = true /\ fs calls = false /\ rf calls = false)
           \/ (rc calls = false /\ fs calls = true))
   end).

Local Arguments decimal : simpl never.
Local Arguments toLong : simpl never.
Local Arguments stored : simpl never.
Local Arguments String.append : simpl never.
Local Arguments fixedPathName : simpl never.
Local Arguments xferLoop : simpl never.

Ltac extract_case H :=
  match type of H with
  | context [Open ?f ?a ?b ?s] => destruct (Open f a b s) as [[? ?] ?] eqn:?
  | context [Read ?d ?l ?s] => destruct (Read d l s) as [[? ?] ?] eqn:?
  | context [Close ?d ?s] => destruct (Close d s) as [? ?] eqn:?
  | context [DIError_eqb ?d ?k] => destruct (DIError_eqb d k) eqn:?
  | context [GetA2File ?e] => destruct (GetA2File e) eqn:?
  | context [match ?o with Some _ => _ | None => _ end] => is_var o; destruct o
  | context [match ?w with kDataThread => _ | kRsrcThread => _ | kOtherThread _ => _ end] =>
      is_var w; destruct w
  | context [if ?b then _ else _] => destruct b eqn:?
  end.

Lemma progressCancelled_In (calls : list (XferCall A2FileDescr)) :
  pc calls = true <-> exists perc, In (DidSetProgress perc true) calls.
Proof.
  rewrite existsb_exists. split.
  - intros [c [Hin Hc]]. destruct c; try discriminate Hc. cbn in Hc. subst.
    eexists. exact Hin.
  - intros [perc Hin]. eexists. split; [exact Hin | reflexivity].
Qed.

Lemma readCancelled_In (calls : list (XferCall A2FileDescr)) :
  rc calls = true
  <-> exists d len data, In (FromSource (DidRead d len kDIErrCancelled data)) calls.
Proof.
  rewrite existsb_exists. split.
  - intros [c [Hin Hc]]. destruct c as [[| | | d len e data | |]| | | | | |];
      try discriminate Hc.
    cbn in Hc. apply DIError_eqb_eq in Hc. subst. eexists _, _, _. exact Hin.
  - intros [d [len [data Hin]]]. eexists. split; [exact Hin|].
    cbn. apply DIError_eqb_refl.
Qed.

Lemma failureShown_In (calls : list (XferCall A2FileDescr)) :
  fs calls = true <-> exists msg, In (DidShowXferFailure msg) calls.
Proof.
  rewrite existsb_exists. split.
  - intros [c [Hin Hc]]. destruct c; try discriminate Hc. eexists. exact Hin.
  - intros [msg Hin]. eexists. split; [exact Hin | reflexivity].
Qed.

Lemma refused_In (calls : list (XferCall A2FileDescr)) :
  rf calls = true
  <-> exists pDetails dataBuf dataLen rsrcBuf rsrcLen errMsg,
        In (DidXferFile pDetails dataBuf dataLen rsrcBuf rsrcLen errMsg) calls
        /\ errMsg <> EmptyString.
Proof.
  rewrite existsb_exists. split.
  - intros [c [Hin Hc]]. destruct c; try discriminate Hc. cbn in Hc.
    eexists _, _, _, _, _, _. split; [exact Hin|].
    intros ->. discriminate Hc.
  - intros [pDetails [dataBuf [dataLen [rsrcBuf [rsrcLen [errMsg [Hin Hne]]]]]]].
    eexists. split; [exact Hin|]. cbn. destruct errMsg; [contradiction | reflexivity].
Qed.

Lemma bracket_In (calls : list (XferCall A2FileDescr)) :
  br calls = false ->
  forall c, In c calls -> c <> DidXferPrepare /\ c <> DidXferAbort /\ c <> DidXferFinish.
Proof.
  intros Hbr c Hin.
  assert (Hc : isBracket c = false).
  { destruct (isBracket c) eqn:E; [|reflexivity].
    assert (Ht : br calls = true) by (apply existsb_exists; exists c; split; assumption).
    congruence. }
  repeat split; intros ->; discriminate Hc.
Qed.

Lemma xferLoop_cons (fPreserveEmptyFolders : bool) (pSelSet : list DiskEntry)
    (pEntry : DiskEntry) (rest : list DiskEntry) (fileDetails : FileDetails)
    (rsrcBuf : option (list Z)) :
  xferLoop' fPreserveEmptyFolders pSelSet (pEntry :: rest) fileDetails rsrcBuf
  = andThen (xferEntry' fPreserveEmptyFolders pSelSet pEntry fileDetails rsrcBuf)
      (fun r =>
         match r with
         | inl retval => done retval
         | inr (fileDetails, rsrcBuf) =>
             xferLoop' fPreserveEmptyFolders pSelSet rest fileDetails rsrcBuf
         end).
Proof. reflexivity. Qed.

(** What is handed over for an entry. *)
Local Abbreviation handsOver fPreserveEmptyFolders pSelSet pEntry pDetails dataBuf dataLen
    rsrcLen :=
  (GetDamaged pEntry = false
   /\ GetRecordKind pEntry <> kRecordKindVolumeDir
   /\ fileSysFmt pDetails = GetSourceFS pEntry
   /\ fileSysInfo pDetails = Z.of_N (N_of_ascii kDefaultStoredFssep)
   /\ extraType pDetails = GetEntryAuxType pEntry
   /\ fd_storageType pDetails = kNuStorageUnknown
   /\ fd_createWhen pDetails = UNIXTimeToDateTime (GetEntryCreateWhen pEntry)
   /\ fd_modWhen pDetails = UNIXTimeToDateTime (GetEntryModWhen pEntry)
   /\ ((GetRecordKind pEntry = kRecordKindDirectory
        /\ fPreserveEmptyFolders = true
        /\ CountMatchingPrefix pSelSet
             (String.append (fixedPathName' pEntry)
                (String kDefaultStoredFssep EmptyString)) = 0
        /\ storageName pDetails
           = String.append
               (String.append (fixedPathName' pEntry)
                  (String kDefaultStoredFssep EmptyString))
               kEmptyFolderMarker
        /\ entryKind pDetails = kFileKindDataFork
        /\ fd_fileType pDetails = 0
        /\ fd_access pDetails = Z.lor (GetEntryAccess pEntry) kAccessInvisible
        /\ dataBuf = Some [uninitialised]
        /\ dataLen = 0
        /\ rsrcLen = -1)
       \/ (GetRecordKind pEntry <> kRecordKindDirectory
           /\ storageName pDetails = fixedPathName' pEntry
           /\ fd_fileType pDetails = GetEntryFileType pEntry
           /\ fd_access pDetails = GetEntryAccess pEntry
           /\ entryKind pDetails
              = (if GetHasDataFork pEntry && GetHasRsrcFork pEntry then kFileKindBothForks
                 else if GetHasDataFork pEntry then kFileKindDataFork
                 else if GetHasRsrcFork pEntry then kFileKindRsrcFork
                 else kFileKindUnknown)
           /\ (GetHasRsrcFork pEntry = false -> rsrcLen = -1)))).

(** [extractFork] hands nothing over. *)
Lemma extractFork_no_handover (pEntry : DiskEntry) (which : ThreadKind)
    (s : XferState World Target) (r : XferStatus + option (list Z) * Z)
    (s' : XferState World Target) (calls : list (XferCall A2FileDescr)) :
  extractFork' pEntry which s = Some (r, s', calls) -> ho calls = false.
Proof.
  unfold extractFork, fromSource, andThen, ShowXferFailure, done.
  unfold ExtractThreadToBuffer, closeAndReturn, rbind, rret, rstop, doOpen, doRead, doClose.
  intros Hrun.
  repeat (cbn in Hrun; extract_case Hrun); cbn in Hrun; try discriminate Hrun.
  all: injection Hrun as <- <- <-; reflexivity.
Qed.

Lemma no_handover_In (calls : list (XferCall A2FileDescr)) :
  ho calls = false ->
  forall pDetails dataBuf dataLen rsrcBuf rsrcLen errMsg,
    ~ In (DidXferFile pDetails dataBuf dataLen rsrcBuf rsrcLen errMsg) calls.
Proof.
  intros Hho pDetails dataBuf dataLen rsrcBuf rsrcLen errMsg Hin.
  assert (Ht : ho calls = true).
  { apply existsb_exists. eexists. split; [exact Hin | reflexivity]. }
  congruence.
Qed.

Ltac handover_case H :=
  match type of H with
  | context [XferFile ?a ?b ?c ?d ?e ?t] =>
      destruct (XferFile a b c d e t) as [[[? ?] ?] ?] eqn:?
  | context [xs_progress ?s] => destruct (xs_progress s) eqn:?
  | context [match ?l with [] => _ | _ :: _ => _ end] => is_var l; destruct l
  | context [if ?b then _ else _] => destruct b eqn:?
  end.

Ltac which_xfer_call H :=
  cbn in H;
  repeat match type of H with
         | _ \/ _ => destruct H as [H|H]
         | False => contradiction
         end;
  try discriminate H.

(** From [have_stuff2] on: what is handed over. *)
Lemma have_stuff2_handover (pEntry : DiskEntry) (fileDetails : FileDetails)
    (dataBuf : option (list Z)) (dataLen : Z) (rsrcBuf : option (list Z)) (rsrcLen : Z)
    (s : XferState World Target) (r : XferStatus + FileDetails * option (list Z))
    (s' : XferState World Target) (calls : list (XferCall A2FileDescr)) :
  have_stuff2' pEntry fileDetails dataBuf dataLen rsrcBuf rsrcLen s = Some (r, s', calls) ->
  forall pDetails dataBuf' dataLen' rsrcBuf' rsrcLen' errMsg,
    In (DidXferFile pDetails dataBuf' dataLen' rsrcBuf' rsrcLen' errMsg) calls ->
    pDetails
    = mkFileDetails (entryKind fileDetails) (origName fileDetails) (storageName fileDetails)
        (GetSourceFS pEntry) (Z.of_N (N_of_ascii kDefaultStoredFssep))
        (fd_access fileDetails) (fd_fileType fileDetails) (GetEntryAuxType pEntry)
        kNuStorageUnknown (UNIXTimeToDateTime (GetEntryCreateWhen pEntry))
        (UNIXTimeToDateTime (GetEntryModWhen pEntry))
    /\ dataBuf' = dataBuf /\ dataLen' = dataLen /\ rsrcBuf' = rsrcBuf /\ rsrcLen' = rsrcLen.
Proof.
  unfold have_stuff2, SetProgress, doXferFile, ShowXferFailure, andThen, done.
  intros Hrun pDetails dataBuf' dataLen' rsrcBuf' rsrcLen' errMsg Hin.
  repeat (cbn in Hrun; handover_case Hrun); cbn in Hrun; try discriminate Hrun.
  all: injection Hrun as <- <- <-.
  all: which_xfer_call Hin.
  all: injection Hin as <- <- <- <- <- <-; repeat split; reflexivity.
Qed.

Ltac transfer_case H :=
  match type of H with
  | context [extractFork' ?p ?w ?s] =>
      let Hx := fresh "Hfork" in
      destruct (extractFork' p w s) as [[[[?|[? ?]] ?] ?]|] eqn:Hx;
      [apply extractFork_no_handover in Hx | apply extractFork_no_handover in Hx |]
  | context [have_stuff2' ?p ?f ?a ?b ?c ?d ?s] =>
      let Hx := fresh "Hstuff" in
      destruct (have_stuff2' p f a b c d s) as [[[[?|[? ?]] ?] ?]|] eqn:Hx;
      [ pose proof (have_stuff2_handover _ _ _ _ _ _ _ Hx) as Hx'; clear Hx
      | pose proof (have_stuff2_handover _ _ _ _ _ _ _ Hx) as Hx'; clear Hx |]
  | context [if ?b then _ else _] => destruct b eqn:?
  end.

(** One entry of the selection: what is handed over for it. *)
Lemma xferEntry_handover (fPreserveEmptyFolders : bool) (pSelSet : list DiskEntry)
    (pEntry : DiskEntry) (fileDetails : FileDetails) (rsrcBuf : option (list Z))
    (s : XferState World Target) (r : XferStatus + FileDetails * option (list Z))
    (s' : XferState World Target) (calls : list (XferCall A2FileDescr)) :
  xferEntry' fPreserveEmptyFolders pSelSet pEntry fileDetails rsrcBuf s
  = Some (r, s', calls) ->
  forall pDetails dataBuf dataLen rsrcBuf' rsrcLen errMsg,
    In (DidXferFile pDetails dataBuf dataLen rsrcBuf' rsrcLen errMsg) calls ->
    handsOver fPreserveEmptyFolders pSelSet pEntry pDetails dataBuf dataLen rsrcLen.
Proof.
  unfold xferEntry, andThen, done.
  intros Hrun pDetails dataBuf dataLen rsrcBuf' rsrcLen errMsg Hin.
  repeat (cbn in Hrun; transfer_case Hrun); cbn in Hrun; try discriminate Hrun.
  all: injection Hrun as <- <- <-.
  all: rewrite ?app_nil_r in Hin.
  all: repeat match type of Hin with
              | In _ (_ ++ _) => apply in_app_or in Hin; destruct Hin as [Hin|Hin]
              end.
  all: try contradiction.
  all: try (exfalso;
            match goal with
            | H : ho _ = false |- _ => exact (@no_handover_In _ H _ _ _ _ _ _ Hin)
            end).
  all: match goal with
       | Hx' : forall _ _ _ _ _ _, In _ _ -> _ |- _ =>
           apply Hx' in Hin; destruct Hin as [-> [-> [-> [-> ->]]]]
       end.
  all: cbn [fileSysFmt fileSysInfo extraType fd_storageType fd_createWhen fd_modWhen
            storageName fd_fileType fd_access entryKind setEntryKind setStorageName
            setDetailsFileType setDetailsAccess origName].
  all: repeat match goal with
              | H : _ && _ = true |- _ => apply andb_true_iff in H; destruct H
              | H : (_ =? _) = true |- _ => apply Z.eqb_eq in H
              | H : RecordKind_eqb _ _ = true |- _ => apply RecordKind_eqb_eq in H
              end.
  all: repeat match goal with
              | |- _ <> _ =>
                  let Hk := fresh in
                  intro Hk;
                  match goal with
                  | H : RecordKind_eqb _ _ = false |- _ =>
                      rewrite Hk in H; discriminate H
                  end
              | |- _ /\ _ => split
              | |- _ = _ => reflexivity || assumption
              end.
  all: first [ left; repeat split; solve [reflexivity | assumption]
             | right; repeat split;
               solve [ reflexivity | assumption | intros Hf; discriminate Hf
                     | let Hk := fresh in
                       intro Hk;
                       match goal with
                       | H : RecordKind_eqb _ _ = false |- _ =>
                           rewrite Hk in H; discriminate H
                       end ] ].
Qed.


(** The loop: what is handed over. *)
Lemma xferLoop_handover (fPreserveEmptyFolders : bool) (pSelSet : list DiskEntry)
    (remaining : list DiskEntry) :
  forall (fileDetails : FileDetails) (rsrcBuf : option (list Z))
         (s : XferState World Target) (retval : XferStatus) (s' : XferState World Target)
         (calls : list (XferCall A2FileDescr)),
    xferLoop' fPreserveEmptyFolders pSelSet remaining fileDetails rsrcBuf s
    = Some (retval, s', calls) ->
    forall pDetails dataBuf dataLen rsrcBuf' rsrcLen errMsg,
      In (DidXferFile pDetails dataBuf dataLen rsrcBuf' rsrcLen errMsg) calls ->
      exists pEntry,
        In pEntry remaining
        /\ handsOver fPreserveEmptyFolders pSelSet pEntry pDetails dataBuf dataLen rsrcLen.
Proof.
  induction remaining as [|pEntry rest IH];
    intros fileDetails rsrcBuf s retval s' calls Hrun
           pDetails dataBuf dataLen rsrcBuf' rsrcLen errMsg Hin.
  - injection Hrun as <- <- <-. contradiction.
  - rewrite xferLoop_cons in Hrun. unfold andThen, done in Hrun.
    destruct (xferEntry' fPreserveEmptyFolders pSelSet pEntry fileDetails rsrcBuf s)
      as [[[[x|[fd rb]] s1] calls1]|] eqn:Hentry; [| |discriminate Hrun].
    + injection Hrun as <- <- <-. rewrite app_nil_r in Hin.
      exists pEntry. split; [left; reflexivity|].
      exact (xferEntry_handover _ _ _ _ _ _ Hentry _ _ _ _ _ _ Hin).
    + destruct (xferLoop' fPreserveEmptyFolders pSelSet rest fd rb s1)
        as [[[x s2] calls2]|] eqn:Hloop; [|discriminate Hrun].
      injection Hrun as <- <- <-. apply in_app_or in Hin. destruct Hin as [Hin|Hin].
      * exists pEntry. split; [left; reflexivity|].
        exact (xferEntry_handover _ _ _ _ _ _ Hentry _ _ _ _ _ _ Hin).
      * destruct (IH _ _ _ _ _ _ Hloop _ _ _ _ _ _ Hin) as [e [He Hhands]].
        exists e. split; [right; exact He | exact Hhands].
Qed.

(** The path of an entry from a volume that is not ProDOS holds the stored
    separator only after the name of its sub-volume. *)
Lemma fixedPathName_separator (pEntry : DiskEntry) :
  GetEntryFSFormat pEntry <> kFormatProDOS ->
  kDefaultStoredFssep <> "."%char ->
  exists path : string,
    fixedPathName' pEntry
    = match GetSubVolName pEntry with
      | Some subVolName => String.append subVolName (String kDefaultStoredFssep path)
      | None => path
      end
    /\ ~ In kDefaultStoredFssep (list_ascii_of_string path).
Proof.
  intros Hformat Hsep. unfold fixedPathName.
  destruct (FSFormat_eqb (GetEntryFSFormat pEntry) kFormatProDOS) eqn:E.
  - apply FSFormat_eqb_eq in E. contradiction.
  - cbn [negb]. eexists. split; [reflexivity|]. apply Replace_gone. exact Hsep.
Qed.

(** X25.  What [XferSelection] hands over.  Every record handed to the
    target stands for an entry of the selection that is neither damaged nor
    the volume directory; it carries the source filesystem, the auxiliary
    type and the dates of the entry, the stored separator and the storage
    type "unknown".  For a directory it is the marker of an empty folder:
    only when empty folders are to be preserved and no entry of the
    selection lies under the directory; a data fork of length 0 named by the
    path, the separator and the marker, of type 0 and invisible.  For any
    other entry it carries the path, type and access of the entry and says
    which forks there are, with no resource fork (length -1) if the entry
    has none.  The path of an entry from a volume that is not ProDOS holds
    the separator only after the name of the sub-volume. *)
Theorem XferSelection_hands_over :
  forall (pSelSet : list DiskEntry) (fPreserveEmptyFolders : bool)
         (s : XferState World Target) (retval : XferStatus) (s' : XferState World Target)
         (calls : list (XferCall A2FileDescr))
         (pDetails : FileDetails) (dataBuf : option (list Z)) (dataLen : Z)
         (rsrcBuf : option (list Z)) (rsrcLen : Z) (errMsg : string),
    XferSelection' pSelSet fPreserveEmptyFolders s = Some (retval, s', calls) ->
    In (DidXferFile pDetails dataBuf dataLen rsrcBuf rsrcLen errMsg) calls ->
    exists pEntry : DiskEntry,
      In pEntry pSelSet
      /\ handsOver fPreserveEmptyFolders pSelSet pEntry pDetails dataBuf dataLen rsrcLen
      /\ (GetEntryFSFormat pEntry <> kFormatProDOS ->
          kDefaultStoredFssep <> "."%char ->
          exists path : string,
            fixedPathName' pEntry
            = match GetSubVolName pEntry with
              | Some subVolName =>
                  String.append subVolName (String kDefaultStoredFssep path)
              | None => path
              end
            /\ ~ In kDefaultStoredFssep (list_ascii_of_string path)).
Proof.
  intros pSelSet fPreserveEmptyFolders s retval s' calls
         pDetails dataBuf dataLen rsrcBuf rsrcLen errMsg Hrun Hin.
  unfold XferSelection, andThen, onTarget, done in Hrun. cbn in Hrun.
  match type of Hrun with
  | context [xferLoop' ?a ?b ?c ?d ?e ?st] =>
      destruct (xferLoop' a b c d e st) as [[[x s1] middle]|] eqn:Hloop;
      [|discriminate Hrun]
  end.
  assert (Hmiddle : In (DidXferFile pDetails dataBuf dataLen rsrcBuf rsrcLen errMsg) middle).
  { destruct x; cbn in Hrun; injection Hrun as <- <- <-;
      cbn in Hin; destruct Hin as [Hin|Hin]; try discriminate Hin;
      apply in_app_or in Hin; destruct Hin as [Hin|Hin]; try exact Hin;
      cbn in Hin; destruct Hin as [Hin|Hin]; try discriminate Hin; contradiction. }
  destruct (xferLoop_handover _ _ _ _ _ _ Hloop _ _ _ _ _ _ Hmiddle) as [pEntry [He Hhands]].
  exists pEntry. split; [exact He|]. split; [exact Hhands|].
  apply fixedPathName_separator.
Qed.

Section Cancelling.

Hypothesis cancelled_is_an_error : kDIErrCancelled <> kDIErrNone.

(** One fork for the hand-over: how [extractFork] ends. *)
Lemma extractFork_outcome (pEntry : DiskEntry) (which : ThreadKind)
    (s : XferState World Target) (r : XferStatus + option (list Z) * Z)
    (s' : XferState World Target) (calls : list (XferCall A2FileDescr)) :
  extractFork' pEntry which s = Some (r, s', calls) ->
  br calls = false
  /\ match r with
     | inr _ => quiet calls
     | inl retval => ends retval calls
     end.
Proof.
  unfold extractFork, fromSource, andThen, ShowXferFailure, done.
  unfold ExtractThreadToBuffer, closeAndReturn, rbind, rret, rstop, doOpen, doRead, doClose.
  intros Hrun.
  repeat (cbn in Hrun; extract_case Hrun); cbn in Hrun; try discriminate Hrun.
  all: injection Hrun as <- <- <-; cbn.
  all: repeat match goal with
              | H : negb _ = true |- _ => apply negb_true_iff in H
              | H : negb _ = false |- _ => apply negb_false_iff in H
              end.
  all: repeat match goal with
              | H : DIError_eqb ?d _ = true |- _ => apply DIError_eqb_eq in H; subst d
              end.
  all: repeat match goal with
              | H : DIError_eqb _ _ = _ |- _ => rewrite H
              end.
  all: try (assert (Hc : DIError_eqb kDIErrNone kDIErrCancelled = false)
              by (destruct (DIError_eqb kDIErrNone kDIErrCancelled) eqn:E;
                  [apply DIError_eqb_eq in E; congruence | reflexivity]);
            rewrite ?Hc).
  all: rewrite ?DIError_eqb_refl; cbn.
  all: repeat split; try reflexivity.
  all: first [ left; repeat split; reflexivity | right; repeat split; reflexivity ].
Qed.

Ltac stuff_case H :=
  match type of H with
  | context [XferFile ?a ?b ?c ?d ?e ?t] =>
      destruct (XferFile a b c d e t) as [[[? ?] ?] ?] eqn:?
  | context [xs_progress ?s] => destruct (xs_progress s) eqn:?
  | context [match ?l with [] => _ | _ :: _ => _ end] => is_var l; destruct l
  | context [if ?b then _ else _] => destruct b eqn:?
  end.

(** From [have_stuff2] on: how the hand-over ends. *)
Lemma have_stuff2_outcome (pEntry : DiskEntry) (fileDetails : FileDetails)
    (dataBuf : option (list Z)) (dataLen : Z) (rsrcBuf : option (list Z)) (rsrcLen : Z)
    (s : XferState World Target) (r : XferStatus + FileDetails * option (list Z))
    (s' : XferState World Target) (calls : list (XferCall A2FileDescr)) :
  have_stuff2' pEntry fileDetails dataBuf dataLen rsrcBuf rsrcLen s = Some (r, s', calls) ->
  br calls = false
  /\ match r with
     | inr _ => quiet calls
     | inl retval => ends retval calls
     end.
Proof.
  unfold have_stuff2, SetProgress, doXferFile, ShowXferFailure, andThen, done.
  intros Hrun.
  repeat (cbn in Hrun; stuff_case Hrun); cbn in Hrun; try discriminate Hrun.
  all: injection Hrun as <- <- <-; cbn.
  all: repeat match goal with
              | H : negb _ = _ |- _ => rewrite H
              end.
  all: cbn; intuition reflexivity.
Qed.

Ltac entry_case H :=
  match type of H with
  | context [extractFork' ?p ?w ?s] =>
      let Hx := fresh "Hfork" in
      destruct (extractFork' p w s) as [[[[?|[? ?]] ?] ?]|] eqn:Hx;
      [apply extractFork_outcome in Hx | apply extractFork_outcome in Hx |]
  | context [have_stuff2' ?p ?f ?a ?b ?c ?d ?s] =>
      let Hx := fresh "Hstuff" in
      destruct (have_stuff2' p f a b c d s) as [[[[?|[? ?]] ?] ?]|] eqn:Hx;
      [apply have_stuff2_outcome in Hx | apply have_stuff2_outcome in Hx |]
  | context [if ?b then _ else _] => destruct b eqn:?
  end.

(** The outcomes of the steps, put together. *)
Ltac use_outcomes :=
  repeat match goal with
         | H : _ /\ _ |- _ => destruct H
         | H : _ \/ _ |- _ => destruct H
         | H : False |- _ => contradiction
         | x : XferStatus |- _ => destruct x
         end;
  rewrite ?existsb_app;
  repeat match goal with
         | H : existsb _ _ = _ |- _ => rewrite H; clear H
         end;
  cbn; intuition reflexivity.

(** One entry of the selection: how its turn of the loop ends. *)
Lemma xferEntry_outcome (fPreserveEmptyFolders : bool) (pSelSet : list DiskEntry)
    (pEntry : DiskEntry) (fileDetails : FileDetails) (rsrcBuf : option (list Z))
    (s : XferState World Target) (r : XferStatus + FileDetails * option (list Z))
    (s' : XferState World Target) (calls : list (XferCall A2FileDescr)) :
  xferEntry' fPreserveEmptyFolders pSelSet pEntry fileDetails rsrcBuf s
  = Some (r, s', calls) ->
  br calls = false
  /\ match r with
     | inr _ => quiet calls
     | inl retval => ends retval calls
     end.
Proof.
  unfold xferEntry, andThen, done. intros Hrun.
  repeat (cbn in Hrun; entry_case Hrun); cbn in Hrun; try discriminate Hrun.
  all: injection Hrun as <- <- <-.
  all: use_outcomes.
Qed.

(** The loop: how it ends. *)
Lemma xferLoop_outcome (fPreserveEmptyFolders : bool) (pSelSet : list DiskEntry)
    (remaining : list DiskEntry) :
  forall (fileDetails : FileDetails) (rsrcBuf : option (list Z))
         (s : XferState World Target) (retval : XferStatus) (s' : XferState World Target)
         (calls : list (XferCall A2FileDescr)),
    xferLoop' fPreserveEmptyFolders pSelSet remaining fileDetails rsrcBuf s
    = Some (retval, s', calls) ->
    br calls = false
    /\ match retval with
       | kXferOK => quiet calls
       | _ => ends retval calls
       end.
Proof.
  induction remaining as [|pEntry rest IH]; intros fileDetails rsrcBuf s retval s' calls Hrun.
  - injection Hrun as <- <- <-. cbn. intuition reflexivity.
  - rewrite xferLoop_cons in Hrun. unfold andThen, done in Hrun.
    destruct (xferEntry' fPreserveEmptyFolders pSelSet pEntry fileDetails rsrcBuf s)
      as [[[[x|[fd rb]] s1] calls1]|] eqn:Hentry; [| |discriminate Hrun];
      apply xferEntry_outcome in Hentry.
    + injection Hrun as <- <- <-. rewrite app_nil_r. destruct x; intuition.
    + destruct (xferLoop' fPreserveEmptyFolders pSelSet rest fd rb s1)
        as [[[x s2] calls2]|] eqn:Hloop; [|discriminate Hrun].
      apply IH in Hloop. injection Hrun as <- <- <-.
      use_outcomes.
Qed.

(** X26.  How [XferSelection] ends.  The target is prepared first, and as
    the last call aborted or finished: finished exactly when the result is
    [kXferOK].  The result is [kXferCancelled] exactly when a [SetProgress]
    answered [IDCANCEL], and [kXferFailed] exactly when a [Read] was
    cancelled or a failure was shown to the user; a cancelled [Read] is
    therefore a failure, and one that is not shown.  A hand-over that the
    target answers with a message is a failure that is shown. *)
Theorem XferSelection_outcome :
  forall (pSelSet : list DiskEntry) (fPreserveEmptyFolders : bool)
         (s : XferState World Target) (retval : XferStatus) (s' : XferState World Target)
         (calls : list (XferCall A2FileDescr)),
    XferSelection' pSelSet fPreserveEmptyFolders s = Some (retval, s', calls) ->
    exists middle : list (XferCall A2FileDescr),
      calls = DidXferPrepare :: middle
              ++ [match retval with kXferOK => DidXferFinish | _ => DidXferAbort end]
      /\ (forall c, In c middle ->
                    c <> DidXferPrepare /\ c <> DidXferAbort /\ c <> DidXferFinish)
      /\ (retval = kXferCancelled <-> exists perc, In (DidSetProgress perc true) middle)
      /\ (retval = kXferFailed <->
          (exists d len data, In (FromSource (DidRead d len kDIErrCancelled data)) middle)
          \/ exists msg, In (DidShowXferFailure msg) middle)
      /\ ((exists d len data, In (FromSource (DidRead d len kDIErrCancelled data)) middle) ->
          forall msg, ~ In (DidShowXferFailure msg) middle)
      /\ (forall pDetails dataBuf dataLen rsrcBuf rsrcLen errMsg,
             In (DidXferFile pDetails dataBuf dataLen rsrcBuf rsrcLen errMsg) middle ->
             errMsg <> EmptyString ->
             retval = kXferFailed /\ exists msg, In (DidShowXferFailure msg) middle).
Proof.
  intros pSelSet fPreserveEmptyFolders s retval s' calls Hrun.
  unfold XferSelection, andThen, onTarget, done in Hrun. cbn in Hrun.
  match type of Hrun with
  | context [xferLoop' ?a ?b ?c ?d ?e ?st] =>
      destruct (xferLoop' a b c d e st) as [[[x s1] middle]|] eqn:Hloop;
      [|discriminate Hrun]
  end.
  apply xferLoop_outcome in Hloop. destruct Hloop as [Hbr Hends].
  assert (Hcalls : retval = x
                   /\ calls = DidXferPrepare :: middle
                              ++ [match x with
                                  | kXferOK => DidXferFinish
                                  | _ => DidXferAbort
                                  end]).
  { destruct x; cbn in Hrun; injection Hrun as <- <- <-;
      (split; [reflexivity|]); cbn; rewrite ?app_nil_r; reflexivity. }
  destruct Hcalls as [-> ->]. clear Hrun.
  exists middle. split; [reflexivity|]. split; [exact (@bracket_In middle Hbr)|].
  rewrite <- progressCancelled_In, <- readCancelled_In, <- failureShown_In.
  assert (Hrefused : forall pDetails dataBuf dataLen rsrcBuf rsrcLen errMsg,
             In (DidXferFile pDetails dataBuf dataLen rsrcBuf rsrcLen errMsg) middle ->
             errMsg <> EmptyString -> rf middle = true).
  { intros pDetails dataBuf dataLen rsrcBuf rsrcLen errMsg Hin Hne.
    apply refused_In. eexists _, _, _, _, _, _. split; eassumption. }
  assert (Hshown : fs middle = false -> forall msg, ~ In (DidShowXferFailure msg) middle).
  { intros Hfs msg Hin.
    assert (Ht : fs middle = true) by (apply failureShown_In; eexists; exact Hin).
    congruence. }
  destruct x; cbn in Hends;
    [ destruct Hends as [Hpc [Hrc [Hfs Hrf]]]
    | destruct Hends as [Hpc [[Hrc [Hfs Hrf]]|[Hrc Hfs]]]
    | destruct Hends as [Hpc [Hrc [Hfs Hrf]]] ];
    rewrite Hpc, Hrc, Hfs.
  all: repeat split; intros.
  all: first [ reflexivity | discriminate | congruence
             | eapply Hshown; eassumption
             | exfalso;
               match goal with
               | H : In (DidXferFile _ _ _ _ _ _) _, H0 : _ <> EmptyString |- _ =>
                   pose proof (Hrefused _ _ _ _ _ _ H H0); congruence
               end
             | left; reflexivity
             | right; reflexivity
             | apply failureShown_In; assumption
             | match goal with H : _ \/ _ |- _ => destruct H; discriminate end ].
Qed.

End Cancelling.

End TransferOutFacts.

(** The one [Read] of the transfer of "NOTES" is cancelled: the result is
    [kXferFailed], and the target is aborted at the end. *)
Lemma XferSelection_outcome_witness :
  match exampleXferSelection (kDIErrOther (-8)) [entryOfLength 3] false
          (mkXferState [] [] [false; false]) with
  | Some (retval, _, calls) =>
      exists middle : list (XferCall nat),
        calls = DidXferPrepare :: middle ++ [DidXferAbort]
  | None => False
  end.
Proof.
  destruct (@XferSelection_outcome (list Z) nat exampleReaderOpen
              (exampleRead (kDIErrOther (-8)) [72; 73; 13]) exampleSeek (fun _ => true)
              exampleDIStrError (kDIErrOther (-8)) (list string) (fun t => t)
              exampleTargetXferFile (fun t => t) (fun t => t) (fun _ _ => 0)
              (fun _ => kFormatProDOS) GetEntryPathName ":"%char 0x04 (fun t => t)
              (detailsNamed EmptyString) 0 ltac:(discriminate)
              [entryOfLength 3] false (mkXferState [] [] [false; false]) _ _ _ eq_refl)
    as [middle [Hcalls _]].
  exists middle. exact Hcalls.
Defined.

(** "NOTES" is handed over under its own path, for an entry of the
    selection that is not damaged. *)
Lemma XferSelection_hands_over_witness :
  exists pEntry : DiskEntry,
    In pEntry [entryOfLength 3]
    /\ GetDamaged pEntry = false
    /\ GetRecordKind pEntry <> kRecordKindVolumeDir.
Proof.
  destruct (@XferSelection_hands_over (list Z) nat exampleReaderOpen
              (exampleRead kDIErrNone [72; 73; 13]) exampleSeek (fun _ => true)
              exampleDIStrError (kDIErrOther (-8)) (list string) (fun t => t)
              exampleTargetXferFile (fun t => t) (fun t => t) (fun _ _ => 0)
              (fun _ => kFormatProDOS) GetEntryPathName ":"%char 0x04 (fun t => t)
              (detailsNamed EmptyString) 0
              [entryOfLength 3] false (mkXferState [] [] [false; false]) _ _ _
              (mkFileDetails kFileKindDataFork EmptyString "NOTES" kFormatProDOS 58 195 4 0
                 kNuStorageUnknown 0 0)
              (Some [72; 73; 13]) 3 None (-1) EmptyString eq_refl
              ltac:(do 5 right; left; reflexivity))
    as [pEntry [Hin [[Hdamaged [Hkind _]] _]]].
  exists pEntry. split; [exact Hin | split; [exact Hdamaged | exact Hkind]].
Defined.
